(** * Rankedterview backend: the matchmaking queue and the connection hub

    A shallow embedding of the Go sources

    - [internal/repositories/room_repository.go] (package [services]:
      [MatchmakingService]; package [repositories]: [RoomRepository.Create]),
    - [internal/websocket/hub.go] ([Hub]),
    - [internal/websocket/client.go] and the second [client.go] of the
      repository ([Client.handleAcceptMatch], [Client.relayWebRTC]),

    over a model of the Redis commands the code issues, followed by the
    properties of the specification that concern them.

    Conventions.  Go strings are [string] (a sequence of bytes), [int] and
    [int64] are [Z] (a wrap-around is written out where the code can reach
    it), a [time.Time] is the number of nanoseconds since the Unix epoch and
    a [time.Duration] a number of nanoseconds.  A Go [map] is a [gmap]; the
    order in which [range] visits a map, and the order of the reply of
    SMEMBERS, are left open by Go and Redis and are parameters of the model.
    A pointer is an address into an explicit heap of objects.  A function
    that returns [error] returns a [result]; a statement that discards the
    error discards it here too.  Every call reads the clock once. *)

From Stdlib Require Import ZArith Lia String Ascii DecimalString.
From Stdlib.Strings Require Import Byte.
From stdpp Require Import gmap strings list fin_maps sorting.

Local Open Scope Z_scope.

(** ** Go values *)

Inductive result (E A : Type) : Type :=
| Ok (a : A)
| Err (e : E).
Arguments Ok {E A} a.
Arguments Err {E A} e.

Definition is_ok {E A} (r : result E A) : bool :=
  match r with Ok _ => true | Err _ => false end.

(** [strconv]-style decimal rendering of an integer, as Redis stores it. *)
Definition itoa (z : Z) : string := NilZero.string_of_int (Z.to_int z).

(** Two's complement wrap-around of [int64] arithmetic. *)
Definition int64 (z : Z) : Z := (z + 2 ^ 63) mod 2 ^ 64 - 2 ^ 63.
Definition maxInt64 : Z := 2 ^ 63 - 1.

Module time.
(** [time.Duration] constants (nanoseconds). *)
Definition Millisecond : Z := 1000000.
Definition Second : Z := 1000000000.
Definition Minute : Z := 60 * Second.
Definition Hour : Z := 60 * Minute.

(** [t.Unix()]: whole seconds since the epoch. *)
Definition Unix (t : Z) : Z := t / Second.

(** [d1 * d2] on [time.Duration]. *)
Definition mul (d1 d2 : Z) : Z := int64 (d1 * d2).
End time.

(** ** The Redis commands used by the code

    One keyspace of typed values, each with an optional deadline.  A key
    whose deadline has passed reads as absent.  The only command error kept
    is the type clash (WRONGTYPE) and, for ZSCORE and ZRANK, the nil reply,
    which go-redis reports as the error [redis.Nil]. *)

Module Redis.

Inductive error := Nil | WrongType.

Inductive value :=
| VString (s : string)
| VHash (h : gmap string string)
| VSet (s : gset string)
| VZSet (z : list (string * Z)).

Record entry := Entry { val : value; expireAt : option Z }.

Definition expired (now : Z) (e : entry) : bool :=
  match expireAt e with
  | Some t => bool_decide (t ≤ now)
  | None => false
  end.

(** The live entry under a key. *)
Definition find (now : Z) (key : string) (st : gmap string entry) : option entry :=
  match st !! key with
  | Some e => if expired now e then None else Some e
  | None => None
  end.

(** *** Sorted sets: ascending by score, then by member (byte order) *)

Definition zlt (a b : string * Z) : bool :=
  (a.2 <? b.2) || ((a.2 =? b.2) && String.ltb a.1 b.1).

Fixpoint zinsert (x : string * Z) (z : list (string * Z)) : list (string * Z) :=
  match z with
  | [] => [x]
  | y :: rest => if zlt x y then x :: y :: rest else y :: zinsert x rest
  end.

Definition zremove (member : string) (z : list (string * Z)) : list (string * Z) :=
  filter (λ y, y.1 ≠ member) z.

Fixpoint zscore (member : string) (z : list (string * Z)) : option Z :=
  match z with
  | [] => None
  | y :: rest => if decide (y.1 = member) then Some y.2 else zscore member rest
  end.

Fixpoint zrank (member : string) (z : list (string * Z)) : option Z :=
  match z with
  | [] => None
  | y :: rest =>
      if decide (y.1 = member) then Some 0
      else match zrank member rest with Some r => Some (r + 1) | None => None end
  end.

(** The index arithmetic of ZRANGE: negative indexes count from the end. *)
Definition zslice {A} (start stop : Z) (l : list A) : list A :=
  let n := Z.of_nat (length l) in
  let s := if start <? 0 then Z.max 0 (n + start) else start in
  let e := if stop <? 0 then n + stop else Z.min stop (n - 1) in
  if (e <? s) || (n <=? s) then []
  else take (Z.to_nat (e - s + 1)) (drop (Z.to_nat s) l).

Definition ZAdd (now : Z) (key : string) (score : Z) (member : string)
    (st : gmap string entry) : result error (gmap string entry) :=
  match find now key st with
  | None => Ok (<[key := Entry (VZSet [(member, score)]) None]> st)
  | Some (Entry (VZSet z) ttl) =>
      Ok (<[key := Entry (VZSet (zinsert (member, score) (zremove member z))) ttl]> st)
  | Some _ => Err WrongType
  end.

(** An emptied sorted set is removed with its key. *)
Definition ZRem (now : Z) (key member : string)
    (st : gmap string entry) : result error (gmap string entry) :=
  match find now key st with
  | None => Ok st
  | Some (Entry (VZSet z) ttl) =>
      match zremove member z with
      | [] => Ok (delete key st)
      | z' => Ok (<[key := Entry (VZSet z') ttl]> st)
      end
  | Some _ => Err WrongType
  end.

Definition ZScore (now : Z) (key member : string)
    (st : gmap string entry) : result error Z :=
  match find now key st with
  | None => Err Nil
  | Some (Entry (VZSet z) _) =>
      match zscore member z with Some s => Ok s | None => Err Nil end
  | Some _ => Err WrongType
  end.

Definition ZRank (now : Z) (key member : string)
    (st : gmap string entry) : result error Z :=
  match find now key st with
  | None => Err Nil
  | Some (Entry (VZSet z) _) =>
      match zrank member z with Some r => Ok r | None => Err Nil end
  | Some _ => Err WrongType
  end.

Definition ZRange (now : Z) (key : string) (start stop : Z)
    (st : gmap string entry) : result error (list string) :=
  match find now key st with
  | None => Ok []
  | Some (Entry (VZSet z) _) => Ok (zslice start stop z.*1)
  | Some _ => Err WrongType
  end.

Definition ZCard (now : Z) (key : string)
    (st : gmap string entry) : result error Z :=
  match find now key st with
  | None => Ok 0
  | Some (Entry (VZSet z) _) => Ok (Z.of_nat (length z))
  | Some _ => Err WrongType
  end.

(** *** Hashes *)

Definition hset (fields : list (string * string)) (h : gmap string string) : gmap string string :=
  foldl (λ acc fv, <[fv.1 := fv.2]> acc) h fields.

Definition HSet (now : Z) (key : string) (fields : list (string * string))
    (st : gmap string entry) : result error (gmap string entry) :=
  match find now key st with
  | None => Ok (<[key := Entry (VHash (hset fields ∅)) None]> st)
  | Some (Entry (VHash h) ttl) => Ok (<[key := Entry (VHash (hset fields h)) ttl]> st)
  | Some _ => Err WrongType
  end.

Definition HGetAll (now : Z) (key : string)
    (st : gmap string entry) : result error (gmap string string) :=
  match find now key st with
  | None => Ok ∅
  | Some (Entry (VHash h) _) => Ok h
  | Some _ => Err WrongType
  end.

(** *** Sets *)

Definition SAdd (now : Z) (key member : string)
    (st : gmap string entry) : result error (gmap string entry) :=
  match find now key st with
  | None => Ok (<[key := Entry (VSet {[member]}) None]> st)
  | Some (Entry (VSet s) ttl) => Ok (<[key := Entry (VSet ({[member]} ∪ s)) ttl]> st)
  | Some _ => Err WrongType
  end.

Definition SMembers (now : Z) (key : string)
    (st : gmap string entry) : result error (gset string) :=
  match find now key st with
  | None => Ok ∅
  | Some (Entry (VSet s) _) => Ok s
  | Some _ => Err WrongType
  end.

(** *** Keys *)

Definition Set_ (now : Z) (key value : string) (expiration : Z)
    (st : gmap string entry) : gmap string entry :=
  <[key := Entry (VString value)
             (if 0 <? expiration then Some (now + expiration) else None)]> st.

Definition Del (key : string) (st : gmap string entry) : gmap string entry :=
  delete key st.

Definition Expire (now : Z) (key : string) (expiration : Z)
    (st : gmap string entry) : gmap string entry :=
  match find now key st with
  | Some e => <[key := Entry (val e) (Some (now + expiration))]> st
  | None => st
  end.

(** Run a command for its effect, keeping the store when it fails. *)
Definition exec (r : result error (gmap string entry))
    (st : gmap string entry) : gmap string entry :=
  match r with Ok st' => st' | Err _ => st end.

End Redis.

(** ** [encoding/hex] and [primitive.ObjectID] *)

Module hex.

Inductive error := ErrLength | InvalidByteError (c : ascii).

Definition hextable : string := "0123456789abcdef".

Definition hexchar (n : N) : ascii :=
  match String.get (N.to_nat n) hextable with
  | Some c => c
  | None => "0"%char
  end.

Definition EncodeToString (src : list byte) : string :=
  foldr (λ v acc,
           String (hexchar (N.shiftr (Byte.to_N v) 4))
                  (String (hexchar (N.land (Byte.to_N v) 15)) acc))
        EmptyString src.

(** Both cases of the letters are accepted. *)
Definition fromHexChar (c : ascii) : option N :=
  let n := N_of_ascii c in
  if ((48 <=? n) && (n <=? 57))%N then Some (n - 48)%N
  else if ((97 <=? n) && (n <=? 102))%N then Some (n - 97 + 10)%N
  else if ((65 <=? n) && (n <=? 70))%N then Some (n - 65 + 10)%N
  else None.

Definition mkbyte (a b : N) : byte :=
  match Byte.of_N (N.lor (N.shiftl a 4) b) with
  | Some v => v
  | None => x00
  end.

Fixpoint DecodeString (s : string) : result error (list byte) :=
  match s with
  | EmptyString => Ok []
  | String p EmptyString =>
      match fromHexChar p with
      | Some _ => Err ErrLength
      | None => Err (InvalidByteError p)
      end
  | String p (String q rest) =>
      match fromHexChar p with
      | None => Err (InvalidByteError p)
      | Some a =>
          match fromHexChar q with
          | None => Err (InvalidByteError q)
          | Some b =>
              match DecodeString rest with
              | Ok bs => Ok (mkbyte a b :: bs)
              | Err e => Err e
              end
          end
      end
  end.

End hex.

Module primitive.

(** An [ObjectID] is an array of 12 bytes. *)
Definition ObjectID := list byte.

Inductive error := ErrInvalidHex | ErrHex (e : hex.error).

Definition ObjectIDFromHex (s : string) : result error ObjectID :=
  if decide (String.length s = 24%nat) then
    match hex.DecodeString s with
    | Ok oid => Ok oid
    | Err e => Err (ErrHex e)
    end
  else Err ErrInvalidHex.

Definition Hex (id : ObjectID) : string := hex.EncodeToString id.

Definition NilObjectID : ObjectID := replicate 12 x00.

(** [id.IsZero()]: every byte is zero. *)
Definition IsZero (id : ObjectID) : bool := forallb (Byte.eqb x00) id.

Global Instance byte_eq_dec : EqDecision byte := Byte.byte_eq_dec.

End primitive.

(** ** [models.Room] *)

Module models.

Record RoomMetadata := {
  Topic : string;
  Difficulty : string;
  Type_ : string;
}.

(** The zero [time.Time] of an unset timestamp is [None]. *)
Record Room := {
  ID : primitive.ObjectID;
  RoomID : string;
  Status : string;
  Participants : list primitive.ObjectID;
  CreatedAt : option Z;
  StartedAt : option Z;
  EndedAt : option Z;
  InterviewID : primitive.ObjectID;
  Metadata : RoomMetadata;
}.

Module RoomResponse.
Record t := {
  ID : string;
  RoomID : string;
  Status : string;
  Participants : list string;
  CreatedAt : option Z;
  StartedAt : option Z;
  EndedAt : option Z;
  InterviewID : string;
  Metadata : RoomMetadata;
}.
End RoomResponse.

Definition ToResponse (r : Room) : RoomResponse.t :=
  let participantIDs := primitive.Hex <$> Participants r in
  let interviewID :=
    if negb (primitive.IsZero (InterviewID r)) then primitive.Hex (InterviewID r) else "" in
  {| RoomResponse.ID := primitive.Hex (ID r);
     RoomResponse.RoomID := RoomID r;
     RoomResponse.Status := Status r;
     RoomResponse.Participants := participantIDs;
     RoomResponse.CreatedAt := CreatedAt r;
     RoomResponse.StartedAt := StartedAt r;
     RoomResponse.EndedAt := EndedAt r;
     RoomResponse.InterviewID := interviewID;
     RoomResponse.Metadata := Metadata r |}.

End models.

(** ** What a call takes from its environment *)

Record Env := {
  (** [time.Now()] *)
  now : Z;
  (** the 16 bytes [crypto/rand.Read] delivers, [None] when it fails *)
  randRead : option (list byte);
  (** [primitive.NewObjectID()] *)
  newObjectID : primitive.ObjectID;
  (** whether [InsertOne] on the rooms collection succeeds *)
  insertOne : bool;
}.

Inductive error :=
| ErrAlreadyInQueue
| ErrNotInQueue
| ErrNoMatchFound
| ErrRedis (e : Redis.error)
| ErrObjectID (e : primitive.error)
| ErrRandRead
| ErrInsertOne.

(** ** [repositories.RoomRepository] *)

Module repositories.

(** The rooms collection, in insertion order. *)
Definition Create (env : Env) (room : models.Room)
    (collection : list models.Room) : list models.Room * option error :=
  let room :=
    {| models.ID := newObjectID env;
       models.RoomID := models.RoomID room;
       models.Status := "waiting";
       models.Participants := models.Participants room;
       models.CreatedAt := Some (now env);
       models.StartedAt := models.StartedAt room;
       models.EndedAt := models.EndedAt room;
       models.InterviewID := models.InterviewID room;
       models.Metadata := models.Metadata room |} in
  if insertOne env then (collection ++ [room], None)
  else (collection, Some ErrInsertOne).

(** The other methods read and update the collection.  Of the errors of the
    driver they keep [mongo.ErrNoDocuments], which [FindOne] reports when no
    document matches; an update or a delete that matches nothing is no
    error. *)

Inductive error :=
| ErrNoDocuments
| ErrObjectID (e : primitive.error).

Definition with_Status (status : string) (r : models.Room) : models.Room :=
  {| models.ID := models.ID r; models.RoomID := models.RoomID r;
     models.Status := status; models.Participants := models.Participants r;
     models.CreatedAt := models.CreatedAt r; models.StartedAt := models.StartedAt r;
     models.EndedAt := models.EndedAt r; models.InterviewID := models.InterviewID r;
     models.Metadata := models.Metadata r |}.
Definition with_StartedAt (t : option Z) (r : models.Room) : models.Room :=
  {| models.ID := models.ID r; models.RoomID := models.RoomID r;
     models.Status := models.Status r; models.Participants := models.Participants r;
     models.CreatedAt := models.CreatedAt r; models.StartedAt := t;
     models.EndedAt := models.EndedAt r; models.InterviewID := models.InterviewID r;
     models.Metadata := models.Metadata r |}.
Definition with_EndedAt (t : option Z) (r : models.Room) : models.Room :=
  {| models.ID := models.ID r; models.RoomID := models.RoomID r;
     models.Status := models.Status r; models.Participants := models.Participants r;
     models.CreatedAt := models.CreatedAt r; models.StartedAt := models.StartedAt r;
     models.EndedAt := t; models.InterviewID := models.InterviewID r;
     models.Metadata := models.Metadata r |}.
Definition with_Participants (ps : list primitive.ObjectID) (r : models.Room) : models.Room :=
  {| models.ID := models.ID r; models.RoomID := models.RoomID r;
     models.Status := models.Status r; models.Participants := ps;
     models.CreatedAt := models.CreatedAt r; models.StartedAt := models.StartedAt r;
     models.EndedAt := models.EndedAt r; models.InterviewID := models.InterviewID r;
     models.Metadata := models.Metadata r |}.
Definition with_InterviewID (id : primitive.ObjectID) (r : models.Room) : models.Room :=
  {| models.ID := models.ID r; models.RoomID := models.RoomID r;
     models.Status := models.Status r; models.Participants := models.Participants r;
     models.CreatedAt := models.CreatedAt r; models.StartedAt := models.StartedAt r;
     models.EndedAt := models.EndedAt r; models.InterviewID := id;
     models.Metadata := models.Metadata r |}.

(** A BSON datetime keeps whole milliseconds: a timestamp read back from the
    collection, or sent in a filter, is cut to them. *)
Definition bsonDate (t : Z) : Z := t / time.Millisecond * time.Millisecond.

Definition decode (r : models.Room) : models.Room :=
  with_EndedAt (bsonDate <$> models.EndedAt r)
    (with_StartedAt (bsonDate <$> models.StartedAt r)
       {| models.ID := models.ID r; models.RoomID := models.RoomID r;
          models.Status := models.Status r; models.Participants := models.Participants r;
          models.CreatedAt := bsonDate <$> models.CreatedAt r;
          models.StartedAt := models.StartedAt r;
          models.EndedAt := models.EndedAt r; models.InterviewID := models.InterviewID r;
          models.Metadata := models.Metadata r |}).

(** [FindOne(filter).Decode]: the first document that matches. *)
Fixpoint findOne (filter : models.Room → bool) (collection : list models.Room) :
    result error models.Room :=
  match collection with
  | [] => Err ErrNoDocuments
  | r :: rest => if filter r then Ok (decode r) else findOne filter rest
  end.

(** [UpdateOne(filter, update)]: the first document that matches is updated. *)
Fixpoint updateOne (filter : models.Room → bool) (update : models.Room → models.Room)
    (collection : list models.Room) : list models.Room :=
  match collection with
  | [] => []
  | r :: rest =>
      if filter r then update r :: rest else r :: updateOne filter update rest
  end.

(** [DeleteOne(filter)]: the first document that matches is deleted. *)
Fixpoint deleteOne (filter : models.Room → bool) (collection : list models.Room) :
    list models.Room :=
  match collection with
  | [] => []
  | r :: rest => if filter r then rest else r :: deleteOne filter rest
  end.

Definition byID (objectID : primitive.ObjectID) (r : models.Room) : bool :=
  bool_decide (models.ID r = objectID).
Definition byRoomID (roomID : string) (r : models.Room) : bool :=
  bool_decide (models.RoomID r = roomID).

Definition FindByID (id : string) (collection : list models.Room) :
    result error models.Room :=
  match primitive.ObjectIDFromHex id with
  | Err e => Err (ErrObjectID e)
  | Ok objectID => findOne (byID objectID) collection
  end.

Definition FindByRoomID (roomID : string) (collection : list models.Room) :
    result error models.Room :=
  findOne (byRoomID roomID) collection.

(** [$set] with the room: a field tagged [omitempty] is left as it is when
    the room has the zero value for it. *)
Definition Update (room : models.Room) (collection : list models.Room) : list models.Room :=
  updateOne (byID (models.ID room))
    (λ stored,
       if primitive.IsZero (models.InterviewID room)
       then with_InterviewID (models.InterviewID stored) room
       else room)
    collection.

Definition UpdateStatus (env : Env) (roomID status : string)
    (collection : list models.Room) : list models.Room :=
  let update :=
    if decide (status = "active") then
      λ r, with_StartedAt (Some (now env)) (with_Status status r)
    else if decide (status = "ended") then
      λ r, with_EndedAt (Some (now env)) (with_Status status r)
    else with_Status status in
  updateOne (byRoomID roomID) update collection.

(** [$addToSet] *)
Definition AddParticipant (roomID : string) (userID : primitive.ObjectID)
    (collection : list models.Room) : list models.Room :=
  updateOne (byRoomID roomID)
    (λ r, if decide (userID ∈ models.Participants r) then r
          else with_Participants (models.Participants r ++ [userID]) r)
    collection.

(** [$pull] *)
Definition RemoveParticipant (roomID : string) (userID : primitive.ObjectID)
    (collection : list models.Room) : list models.Room :=
  updateOne (byRoomID roomID)
    (λ r, with_Participants (filter (λ p, p ≠ userID) (models.Participants r)) r)
    collection.

Definition SetInterviewID (roomID : string) (interviewID : primitive.ObjectID)
    (collection : list models.Room) : list models.Room :=
  updateOne (byRoomID roomID) (with_InterviewID interviewID) collection.

Definition Delete (id : string) (collection : list models.Room) :
    list models.Room * option error :=
  match primitive.ObjectIDFromHex id with
  | Err e => (collection, Some (ErrObjectID e))
  | Ok objectID => (deleteOne (byID objectID) collection, None)
  end.

Definition FindActiveRooms (collection : list models.Room) : list models.Room :=
  decode <$> filter (λ r, models.Status r = "active") collection.

(** The zero time of an unset [endedAt] precedes every cutoff. *)
Definition endedBefore (cutoff : Z) (r : models.Room) : bool :=
  bool_decide (models.Status r = "ended") &&
  match models.EndedAt r with
  | Some t => bsonDate t <? bsonDate cutoff
  | None => true
  end.

Definition CleanupOldRooms (env : Env) (olderThan : Z)
    (collection : list models.Room) : list models.Room :=
  let cutoff := now env - olderThan in
  filter (λ r, endedBefore cutoff r = false) collection.

End repositories.

(** ** [services.MatchmakingService] *)

Module services.

Record MatchmakingService := {
  redis : gmap string Redis.entry;
  roomRepo : list models.Room;
}.

Definition queueKey : string := "matchmaking:queue".
Definition metaKey (userID : string) : string := "matchmaking:user:" +:+ userID.
Definition roomStateKey (roomID : string) : string := "room:" +:+ roomID.

Definition with_redis (s : MatchmakingService) (r : gmap string Redis.entry) :=
  {| redis := r; roomRepo := roomRepo s |}.

(** [IsInQueue]: any ZSCORE error reads as "not queued". *)
Definition IsInQueue (env : Env) (userID : string)
    (s : MatchmakingService) : result error bool :=
  match Redis.ZScore (now env) queueKey userID (redis s) with
  | Err _ => Ok false
  | Ok score => Ok (0 <? score)
  end.

Definition JoinQueue (env : Env) (userID : string) (skillLevel : Z)
    (s : MatchmakingService) : MatchmakingService * option error :=
  match IsInQueue env userID s with
  | Err e => (s, Some e)
  | Ok true => (s, Some ErrAlreadyInQueue)
  | Ok false =>
      let score := time.Unix (now env) in
      match Redis.ZAdd (now env) queueKey score userID (redis s) with
      | Err e => (s, Some (ErrRedis e))
      | Ok r1 =>
          match Redis.HSet (now env) (metaKey userID)
                  [("skillLevel", itoa skillLevel);
                   ("joinedAt", itoa (time.Unix (now env)))] r1 with
          | Err e => (with_redis s r1, Some (ErrRedis e))
          | Ok r2 =>
              (with_redis s
                 (Redis.Expire (now env) (metaKey userID) (30 * time.Minute) r2),
               None)
          end
      end
  end.

Definition LeaveQueue (env : Env) (userID : string)
    (s : MatchmakingService) : MatchmakingService * option error :=
  match Redis.ZRem (now env) queueKey userID (redis s) with
  | Err e => (s, Some (ErrRedis e))
  | Ok r1 => (with_redis s (Redis.Del (metaKey userID) r1), None)
  end.

(** [GetQueueStatus]: position and estimated wait. *)
Definition GetQueueStatus (env : Env) (userID : string)
    (s : MatchmakingService) : result error (Z * Z) :=
  match Redis.ZRank (now env) queueKey userID (redis s) with
  | Err _ => Err ErrNotInQueue
  | Ok rank =>
      let position := rank + 1 in
      let estimatedWait :=
        time.mul (time.mul (position / 2) 30) time.Second in
      Ok (position, estimatedWait)
  end.

Definition generateRoomID (env : Env) : result error string :=
  match randRead env with
  | Some bytes => Ok (hex.EncodeToString bytes)
  | None => Err ErrRandRead
  end.

Definition CreateRoomForMatch (env : Env) (user1ID user2ID : string)
    (s : MatchmakingService) : MatchmakingService * result error string :=
  match generateRoomID env with
  | Err e => (s, Err e)
  | Ok roomID =>
      match primitive.ObjectIDFromHex user1ID with
      | Err e => (s, Err (ErrObjectID e))
      | Ok userObjID1 =>
          match primitive.ObjectIDFromHex user2ID with
          | Err e => (s, Err (ErrObjectID e))
          | Ok userObjID2 =>
              let room :=
                {| models.ID := [];
                   models.RoomID := roomID;
                   models.Status := "waiting";
                   models.Participants := [userObjID1; userObjID2];
                   models.CreatedAt := None;
                   models.StartedAt := None;
                   models.EndedAt := None;
                   models.InterviewID := [];
                   models.Metadata :=
                     {| models.Topic := "Technical Interview";
                        models.Difficulty := "medium";
                        models.Type_ := "technical" |} |} in
              match repositories.Create env room (roomRepo s) with
              | (_, Some e) => (s, Err e)
              | (rooms, None) =>
                  let r1 :=
                    Redis.exec
                      (Redis.HSet (now env) (roomStateKey roomID)
                         [("status", "waiting");
                          ("user1", user1ID);
                          ("user2", user2ID);
                          ("createdAt", itoa (time.Unix (now env)))]
                         (redis s))
                      (redis s) in
                  let r2 :=
                    Redis.Expire (now env) (roomStateKey roomID) (2 * time.Hour) r1 in
                  ({| redis := r2; roomRepo := rooms |}, Ok roomID)
              end
          end
      end
  end.

(** The scan of [FindMatch] over the members, from the given [user1];
    the result is the pair [(user1, user2)] the loop ends with. *)
Fixpoint scan (userID : string) (members : list string) (user1 : string) : string * string :=
  match members with
  | [] => (user1, "")
  | member :: rest =>
      if decide (member = userID) then scan userID rest member
      else if decide (user1 ≠ "") then (user1, member)
      else scan userID rest member
  end.

(** The rest of [FindMatch] once the two users are chosen. *)
Definition matched (env : Env) (user1 user2 : string)
    (s : MatchmakingService) : MatchmakingService * result error (string * string) :=
  match CreateRoomForMatch env user1 user2 s with
  | (s1, Err e) => (s1, Err e)
  | (s1, Ok roomID) =>
      let s2 := (LeaveQueue env user1 s1).1 in
      let s3 := (LeaveQueue env user2 s2).1 in
      (s3, Ok (roomID, user2))
  end.

Definition FindMatch (env : Env) (userID : string)
    (s : MatchmakingService) : MatchmakingService * result error (string * string) :=
  match Redis.ZRange (now env) queueKey 0 (-1) (redis s) with
  | Err e => (s, Err (ErrRedis e))
  | Ok members =>
      if decide (length members < 2)%nat then (s, Err ErrNoMatchFound)
      else
        let '(user1, user2) := scan userID members "" in
        if decide (user1 = "" ∨ user2 = "") then (s, Err ErrNoMatchFound)
        else matched env user1 user2 s
  end.

(** The pair the scan of [FindMatch] ends with, [None] when the check
    after the loop rejects it. *)
Definition chosen (userID : string) (members : list string) : option (string * string) :=
  let '(user1, user2) := scan userID members "" in
  if decide (user1 = "" ∨ user2 = "") then None else Some (user1, user2).

Definition GetQueueSize (env : Env) (s : MatchmakingService) : result error Z :=
  match Redis.ZCard (now env) queueKey (redis s) with
  | Ok n => Ok n
  | Err e => Err (ErrRedis e)
  end.

(** *** [RoomService]

    It is built on the same Redis client and the same rooms collection as the
    [MatchmakingService], and its state is written the same way. *)

Definition RoomService : Type := MatchmakingService.

Inductive room_error :=
| ErrRoomNotFound
| ErrRoomFull
| ErrNotParticipant
| ErrRoomNotActive
| ErrUserID (e : primitive.error)
| ErrRepository (e : repositories.error).

Definition GetRoom (roomID : string) (s : RoomService) :
    result repositories.error models.Room :=
  repositories.FindByRoomID roomID (roomRepo s).

Definition JoinRoom (env : Env) (roomID userID : string)
    (s : RoomService) : RoomService * option room_error :=
  match repositories.FindByRoomID roomID (roomRepo s) with
  | Err _ => (s, Some ErrRoomNotFound)
  | Ok room =>
      if decide (2 ≤ length (models.Participants room))%nat then (s, Some ErrRoomFull)
      else
        match primitive.ObjectIDFromHex userID with
        | Err e => (s, Some (ErrUserID e))
        | Ok userObjID =>
            let rooms1 := repositories.AddParticipant roomID userObjID (roomRepo s) in
            let slot := "user_" +:+ itoa (Z.of_nat (length (models.Participants room) + 1)) in
            let r1 :=
              Redis.exec (Redis.HSet (now env) (roomStateKey roomID) [(slot, userID)] (redis s))
                (redis s) in
            if decide (2 ≤ length (models.Participants room) + 1)%nat then
              let rooms2 := repositories.UpdateStatus env roomID "active" rooms1 in
              let r2 :=
                Redis.exec
                  (Redis.HSet (now env) (roomStateKey roomID) [("status", "active")] r1) r1 in
              ({| redis := r2; roomRepo := rooms2 |}, None)
            else ({| redis := r1; roomRepo := rooms1 |}, None)
        end
  end.

Definition StartRoom (env : Env) (roomID : string)
    (s : RoomService) : RoomService * option room_error :=
  let rooms1 := repositories.UpdateStatus env roomID "active" (roomRepo s) in
  let r1 :=
    Redis.exec
      (Redis.HSet (now env) (roomStateKey roomID)
         [("status", "active"); ("startedAt", itoa (time.Unix (now env)))] (redis s))
      (redis s) in
  ({| redis := r1; roomRepo := rooms1 |}, None).

Definition EndRoom (env : Env) (roomID : string)
    (s : RoomService) : RoomService * option room_error :=
  let rooms1 := repositories.UpdateStatus env roomID "ended" (roomRepo s) in
  let r1 :=
    Redis.exec
      (Redis.HSet (now env) (roomStateKey roomID)
         [("status", "ended"); ("endedAt", itoa (time.Unix (now env)))] (redis s))
      (redis s) in
  let r2 := Redis.Expire (now env) (roomStateKey roomID) (24 * time.Hour) r1 in
  ({| redis := r2; roomRepo := rooms1 |}, None).

Definition LeaveRoom (env : Env) (roomID userID : string)
    (s : RoomService) : RoomService * option room_error :=
  match repositories.FindByRoomID roomID (roomRepo s) with
  | Err _ => (s, Some ErrRoomNotFound)
  | Ok room =>
      match primitive.ObjectIDFromHex userID with
      | Err e => (s, Some (ErrUserID e))
      | Ok userObjID =>
          let s1 :=
            {| redis := redis s;
               roomRepo := repositories.RemoveParticipant roomID userObjID (roomRepo s) |} in
          if decide (length (models.Participants room) ≤ 1)%nat
          then ((EndRoom env roomID s1).1, None)
          else (s1, None)
      end
  end.

Definition GetRoomState (env : Env) (roomID : string) (s : RoomService) :
    result Redis.error (gmap string string) :=
  Redis.HGetAll (now env) (roomStateKey roomID) (redis s).

Definition LinkInterview (roomID : string) (interviewID : primitive.ObjectID)
    (s : RoomService) : RoomService :=
  {| redis := redis s;
     roomRepo := repositories.SetInterviewID roomID interviewID (roomRepo s) |}.

Definition GetActiveRooms (s : RoomService) : list models.Room :=
  repositories.FindActiveRooms (roomRepo s).

Definition CleanupOldRooms (env : Env) (olderThan : Z) (s : RoomService) : RoomService :=
  {| redis := redis s;
     roomRepo := repositories.CleanupOldRooms env olderThan (roomRepo s) |}.

Definition IsParticipant (roomID userID : string) (s : RoomService) :
    result room_error bool :=
  match repositories.FindByRoomID roomID (roomRepo s) with
  | Err e => Err (ErrRepository e)
  | Ok room =>
      match primitive.ObjectIDFromHex userID with
      | Err e => Err (ErrUserID e)
      | Ok userObjID =>
          Ok (existsb (λ participantID, bool_decide (participantID = userObjID))
                (models.Participants room))
      end
  end.

End services.

(** ** Observations and scenarios on the matchmaking queue *)

(** The Queue Entries in FIFO order, as [FindMatch] reads them. *)
Definition members (now : Z) (s : services.MatchmakingService) : list string :=
  match Redis.ZRange now services.queueKey 0 (-1) (services.redis s) with
  | Ok l => l
  | Err _ => []
  end.

(** A user id as the token issuer writes it, [user.ID.Hex()]: the string is
    the rendering of the [ObjectID] it decodes to. *)
Definition is_user_id (userID : string) : Prop :=
  match primitive.ObjectIDFromHex userID with
  | Ok oid => primitive.Hex oid = userID
  | Err _ => False
  end.

(** A string of the digits [0-9a-f], the ones [hex.EncodeToString] writes. *)
Definition lowerHex (s : string) : bool :=
  forallb (λ c, bool_decide (c ∈ list_ascii_of_string hex.hextable)) (list_ascii_of_string s).

(** The requests of the queue, each with the environment of its call. *)
Inductive request :=
| ReqJoin (userID : string) (skillLevel : Z)
| ReqLeave (userID : string)
| ReqFind (userID : string).

Definition serve (s : services.MatchmakingService) (call : Env * request) : services.MatchmakingService :=
  match call.2 with
  | ReqJoin userID skillLevel => (services.JoinQueue call.1 userID skillLevel s).1
  | ReqLeave userID => (services.LeaveQueue call.1 userID s).1
  | ReqFind userID => (services.FindMatch call.1 userID s).1
  end.

Definition serve_all (calls : list (Env * request)) (s : services.MatchmakingService) :
    services.MatchmakingService :=
  foldl serve s calls.

(** The number of Queue Entries of a user. *)
Definition entries (now : Z) (s : services.MatchmakingService) (userID : string) : nat :=
  length (filter (λ u, u = userID) (members now s)).

(** What the queue key holds in a state the requests can reach: nothing, or
    a sorted set without deadline whose members are distinct and whose
    scores are positive Unix times. *)
Definition entry_inv (held : option Redis.entry) : Prop :=
  match held with
  | None => True
  | Some e =>
      ∃ z, e = Redis.Entry (Redis.VZSet z) None ∧ NoDup z.*1 ∧ Forall (λ y, 0 < y.2) z
  end.

Definition queue_inv (s : services.MatchmakingService) : Prop :=
  entry_inv (services.redis s !! services.queueKey).

Definition no_store : services.MatchmakingService :=
  {| services.redis := ∅; services.roomRepo := [] |}.

(** The score of a Queue Entry: the Unix second at which the user joined. *)
Definition joinedAt (now : Z) (s : services.MatchmakingService) (userID : string) : option Z :=
  match Redis.ZScore now services.queueKey userID (services.redis s) with
  | Ok score => Some score
  | Err _ => None
  end.

(** The metadata hash stored for a queued user, empty when there is none. *)
Definition metadata (now : Z) (s : services.MatchmakingService) (userID : string) :
    gmap string string :=
  match Redis.HGetAll now (services.metaKey userID) (services.redis s) with
  | Ok fields => fields
  | Err _ => ∅
  end.

(** The room state hash stored under a room id, empty when there is none. *)
Definition roomState (now : Z) (s : services.MatchmakingService) (roomID : string) :
    gmap string string :=
  match Redis.HGetAll now (services.roomStateKey roomID) (services.redis s) with
  | Ok fields => fields
  | Err _ => ∅
  end.

(** The pairing rule of [findMatch] as the specification words it. *)
Module spec.

(** the next queued user encountered after [u] *)
Fixpoint next_after (u : string) (queue : list string) : option string :=
  match queue with
  | [] => None
  | m :: rest => if decide (m = u) then head rest else next_after u rest
  end.

(** the first two users found *)
Definition first_two (queue : list string) : option (string * string) :=
  match queue with
  | a :: b :: _ => Some (a, b)
  | _ => None
  end.

(** [None] stands for the failure [NoMatchFound]. *)
Definition findMatch_pair (requestingUserId : string) (queue : list string) :
    option (string * string) :=
  if decide (length queue < 2)%nat then None
  else if decide (requestingUserId ∈ take 2 queue) then
    (λ partner, (requestingUserId, partner)) <$> next_after requestingUserId queue
  else first_two queue.

End spec.

(** Three users and the queue they form by joining one second apart. *)
Module sample.
Definition alice : string := "64b7f1a2c3d4e5f601234567".
Definition bob : string := "64b7f1a2c3d4e5f601234568".
Definition carol : string := "64b7f1a2c3d4e5f601234569".

Definition at_second (t : Z) : Env :=
  {| now := t * time.Second;
     randRead := Some (replicate 16 x5a);
     newObjectID := replicate 12 x01;
     insertOne := true |}.

Definition epoch : Z := 1767225600.

Definition queue1 : services.MatchmakingService :=
  serve_all [(at_second epoch, ReqJoin alice 1000)] no_store.

Definition queue2 : services.MatchmakingService :=
  serve_all [(at_second (epoch + 1), ReqJoin bob 1200)] queue1.

Definition queue3 : services.MatchmakingService :=
  serve_all [(at_second (epoch + 2), ReqJoin carol 900)] queue2.

Definition calls : list (Env * request) :=
  [(at_second epoch, ReqJoin alice 1000);
   (at_second (epoch + 1), ReqJoin bob 1200);
   (at_second (epoch + 2), ReqJoin carol 900);
   (at_second (epoch + 3), ReqFind carol)].

(** The room id the sample environments generate, and the stores once Alice
    and Bob have been given a room. *)
Definition roomID : string := "5a5a5a5a5a5a5a5a5a5a5a5a5a5a5a5a".

Definition roomed : services.MatchmakingService :=
  (services.CreateRoomForMatch (at_second (epoch + 2)) alice bob queue2).1.

(** Alice has left the room. *)
Definition bob_alone : services.RoomService :=
  (services.LeaveRoom (at_second (epoch + 60)) roomID alice roomed).1.
End sample.

(** ** Package [websocket]: the hub and its clients

    [json.Marshal] of the message maps built by the code cannot fail and is
    one-to-one, so a marshalled payload is written as the map itself, its
    fields in the order of the source text.  A send on a closed channel
    panics: the functions that send return [None] for it.  The unused field
    [userRooms] and the logging are left out; the [register] and
    [unregister] channels are read by [Run] one request at a time, which
    calls [registerClient] and [unregisterClient]. *)

Module websocket.

Definition broadcastBufferSize : nat := 1024.
Definition clientBufferSize : nat := 256.
Definition roomCacheTTL : Z := 30 * time.Second.

(** Event types. *)
Definition EventJoinQueue : string := "join_queue".
Definition EventLeaveQueue : string := "leave_queue".
Definition EventMatchFound : string := "match_found".
Definition EventAcceptMatch : string := "accept_match".
Definition EventPartnerAccepted : string := "partner_accepted".
Definition EventBothReady : string := "both_ready".
Definition EventWebRTCOffer : string := "webrtc_offer".
Definition EventWebRTCAnswer : string := "webrtc_answer".
Definition EventICECandidate : string := "ice_candidate".
Definition EventCallEnd : string := "call_ended".
Definition EventMediaStateChange : string := "media_state_changed".
Definition EventPartnerDisconnected : string := "partner_disconnected".
Definition EventMessage : string := "message".
Definition EventConnected : string := "connected".

(** A value of type [interface{}] in a message. *)
Inductive jvalue :=
| JNull
| JString (s : string)
| JBool (b : bool)
| JRaw (json : string).

Global Instance jvalue_eq_dec : EqDecision jvalue.
Proof. solve_decision. Defined.

Definition payload : Type := list (string * jvalue).

Module Event.
Record t := {
  Type_ : string;
  From : string;
  To : string;
  RoomID : string;
  Data : gmap string jvalue;
  SDP : jvalue;
  Candidate : jvalue;
}.
End Event.

Module Message.
Record t := {
  Type_ : string;
  UserID : string;
  RoomID : string;
  Data : payload;
  Broadcast : bool;
  Exclude : string;
}.
End Message.

(** A buffered channel of payloads. *)
Record chan := { buf : list payload; closed : bool }.

Module Client.
(** [conn] records whether the underlying connection is still open. *)
Record t := {
  conn : bool;
  send : chan;
  UserID : string;
  RoomID : string;
}.

Definition set_send (ch : chan) (c : t) : t :=
  {| conn := conn c; send := ch; UserID := UserID c; RoomID := RoomID c |}.
Definition set_RoomID (roomID : string) (c : t) : t :=
  {| conn := conn c; send := send c; UserID := UserID c; RoomID := roomID |}.
Definition set_conn (open : bool) (c : t) : t :=
  {| conn := open; send := send c; UserID := UserID c; RoomID := RoomID c |}.
End Client.

Record roomCache := { participants : gmap string string; cachedAt : Z }.

(** The goroutines the hub starts with [go]. *)
Inductive goroutine :=
| CloseConn (oldClient : nat)
| SetOnline (userID : string)
| DelOnline (userID : string).

(** A [*Client] is an address of [heap]. *)
Record Hub := {
  clients : gmap string nat;
  rooms : gmap string roomCache;
  broadcast : list Message.t;
  redis : gmap string Redis.entry;
  heap : gmap nat Client.t;
  spawned : list goroutine;
}.

Definition set_clients (v : gmap string nat) (h : Hub) : Hub :=
  {| clients := v; rooms := rooms h; broadcast := broadcast h;
     redis := redis h; heap := heap h; spawned := spawned h |}.
Definition set_rooms (v : gmap string roomCache) (h : Hub) : Hub :=
  {| clients := clients h; rooms := v; broadcast := broadcast h;
     redis := redis h; heap := heap h; spawned := spawned h |}.
Definition set_broadcast (v : list Message.t) (h : Hub) : Hub :=
  {| clients := clients h; rooms := rooms h; broadcast := v;
     redis := redis h; heap := heap h; spawned := spawned h |}.
Definition set_redis (v : gmap string Redis.entry) (h : Hub) : Hub :=
  {| clients := clients h; rooms := rooms h; broadcast := broadcast h;
     redis := v; heap := heap h; spawned := spawned h |}.
Definition set_heap (v : gmap nat Client.t) (h : Hub) : Hub :=
  {| clients := clients h; rooms := rooms h; broadcast := broadcast h;
     redis := redis h; heap := v; spawned := spawned h |}.
Definition go (g : goroutine) (h : Hub) : Hub :=
  {| clients := clients h; rooms := rooms h; broadcast := broadcast h;
     redis := redis h; heap := heap h; spawned := spawned h ++ [g] |}.

(** What a call takes from its environment: the clock, and the orders in
    which [range] visits the two kinds of map and SMEMBERS lists a set. *)
Record Env := {
  now : Z;
  rangeClients : list (string * nat) → list (string * nat);
  rangeParticipants : list (string * string) → list (string * string);
  smembers : list string → list string;
}.

(** Every order is an order of the same elements. *)
Definition fair (env : Env) : Prop :=
  (∀ l, rangeClients env l ≡ₚ l) ∧
  (∀ l, rangeParticipants env l ≡ₚ l) ∧
  (∀ l, smembers env l ≡ₚ l).

(** *** Channels *)

(** The buffer after [select { case ch <- p: default: }] on an open channel. *)
Definition push (p : payload) (ch : chan) : chan :=
  if decide (length (buf ch) < clientBufferSize)%nat
  then {| buf := buf ch ++ [p]; closed := closed ch |}
  else ch.

Definition trySend (p : payload) (ch : chan) : option chan :=
  if closed ch then None else Some (push p ch).

(** [select { case <-ch: default: close(ch) }] *)
Definition drainOrClose (ch : chan) : chan :=
  match buf ch with
  | _ :: rest => {| buf := rest; closed := closed ch |}
  | [] => {| buf := []; closed := true |}
  end.

(** [h.broadcast <- m] under [select] with [default]. *)
Definition offer (m : Message.t) (h : Hub) : Hub :=
  if decide (length (broadcast h) < broadcastBufferSize)%nat
  then set_broadcast (broadcast h ++ [m]) h
  else h.

(** *** [hub.go] *)

Definition sendToClient (client : nat) (p : payload) (h : Hub) : option Hub :=
  c ← heap h !! client;
  ch ← trySend p (Client.send c);
  Some (set_heap (<[client := Client.set_send ch c]> (heap h)) h).

Definition sendToUser (userID : string) (p : payload) (h : Hub) : option Hub :=
  match clients h !! userID with
  | Some client => sendToClient client p h
  | None => Some h
  end.

Definition broadcastToAllClients (env : Env) (p : payload) (exclude : string)
    (h : Hub) : option Hub :=
  foldl (λ acc entry,
           h' ← acc;
           if decide (entry.1 = exclude) then Some h'
           else sendToClient entry.2 p h')
        (Some h) (rangeClients env (map_to_list (clients h))).

Definition getRoomParticipants (env : Env) (roomID : string) (h : Hub) :
    Hub * result Redis.error (gmap string string) :=
  let fetch :=
    match Redis.HGetAll (now env) ("room:" +:+ roomID) (redis h) with
    | Err e => (h, Err e)
    | Ok found =>
        (set_rooms (<[roomID := {| participants := found; cachedAt := now env |}]> (rooms h)) h,
         Ok found)
    end in
  match rooms h !! roomID with
  | Some cached =>
      if now env - cachedAt cached <? roomCacheTTL
      then (h, Ok (participants cached))
      else fetch
  | None => fetch
  end.

Definition invalidateRoomCache (roomID : string) (h : Hub) : Hub :=
  set_rooms (delete roomID (rooms h)) h.

Definition broadcastToRoomInternal (env : Env) (roomID : string) (p : payload)
    (exclude : string) (h : Hub) : option Hub :=
  match getRoomParticipants env roomID h with
  | (h1, Err _) => Some h1
  | (h1, Ok found) =>
      foldl (λ acc entry,
               h' ← acc;
               if decide ((entry.1 = "user1" ∨ entry.1 = "user2") ∧ entry.2 ≠ exclude)
               then match clients h' !! entry.2 with
                    | Some client => sendToClient client p h'
                    | None => Some h'
                    end
               else Some h')
            (Some h1) (rangeParticipants env (map_to_list found))
  end.

Definition handleBroadcast (env : Env) (message : Message.t) (h : Hub) : option Hub :=
  if Message.Broadcast message then
    broadcastToAllClients env (Message.Data message) (Message.Exclude message) h
  else if decide (Message.UserID message ≠ "") then
    sendToUser (Message.UserID message) (Message.Data message) h
  else if decide (Message.RoomID message ≠ "") then
    broadcastToRoomInternal env (Message.RoomID message) (Message.Data message)
      (Message.Exclude message) h
  else Some h.

(** One turn of a [broadcastWorker]: take the oldest message and handle it. *)
Definition broadcastWorker (env : Env) (h : Hub) : option Hub :=
  match broadcast h with
  | [] => Some h
  | message :: rest => handleBroadcast env message (set_broadcast rest h)
  end.

Definition BroadcastToRoomExcept (env : Env) (roomID excludeUserID : string)
    (data : payload) (h : Hub) : option Hub :=
  broadcastToRoomInternal env roomID data excludeUserID h.

Definition BroadcastToAll (data : payload) (h : Hub) : Hub :=
  offer {| Message.Type_ := ""; Message.UserID := ""; Message.RoomID := "";
           Message.Data := data; Message.Broadcast := true; Message.Exclude := "" |} h.

Definition BroadcastToAllExcept (excludeUserID : string) (data : payload) (h : Hub) : Hub :=
  offer {| Message.Type_ := ""; Message.UserID := ""; Message.RoomID := "";
           Message.Data := data; Message.Broadcast := true;
           Message.Exclude := excludeUserID |} h.

Definition BroadcastToUser (userID : string) (data : payload) (h : Hub) : Hub :=
  offer {| Message.Type_ := ""; Message.UserID := userID; Message.RoomID := "";
           Message.Data := data; Message.Broadcast := false; Message.Exclude := "" |} h.

Definition BroadcastToRoom (roomID : string) (data : payload) (h : Hub) : Hub :=
  offer {| Message.Type_ := ""; Message.UserID := ""; Message.RoomID := roomID;
           Message.Data := data; Message.Broadcast := false; Message.Exclude := "" |} h.

(** [Client.Send]: marshal and enqueue on the client's own channel. *)
Definition Send (client : nat) (data : payload) (h : Hub) : option Hub :=
  sendToClient client data h.

Definition registerClient (client : nat) (h : Hub) : option Hub :=
  c ← heap h !! client;
  let h1 :=
    match clients h !! Client.UserID c with
    | Some existingClient => go (CloseConn existingClient) h
    | None => h
    end in
  let h2 := set_clients (<[Client.UserID c := client]> (clients h1)) h1 in
  let h3 := go (SetOnline (Client.UserID c)) h2 in
  Send client
    [("type", JString EventConnected); ("message", JString "Connected to RANKEDterview")] h3.

Definition unregisterClient (env : Env) (client : nat) (h : Hub) : option Hub :=
  c ← heap h !! client;
  match clients h !! Client.UserID c with
  | Some currentClient =>
      if decide (currentClient = client) then
        let h1 := set_clients (delete (Client.UserID c) (clients h)) h in
        let h2 :=
          set_heap (<[client := Client.set_send (drainOrClose (Client.send c)) c]> (heap h1)) h1 in
        let roomID := Client.RoomID c in
        h3 ← (if decide (roomID ≠ "") then
                BroadcastToRoomExcept env roomID (Client.UserID c)
                  [("type", JString EventPartnerDisconnected);
                   ("from", JString (Client.UserID c));
                   ("roomId", JString roomID)] h2
              else Some h2);
        Some (go (DelOnline (Client.UserID c)) h3)
      else Some h
  | None => Some h
  end.

(** The body of a goroutine, run at the time of [env]. *)
Definition run (env : Env) (g : goroutine) (h : Hub) : Hub :=
  match g with
  | CloseConn oldClient =>
      match heap h !! oldClient with
      | Some c => set_heap (<[oldClient := Client.set_conn false c]> (heap h)) h
      | None => h
      end
  | SetOnline userID =>
      set_redis (Redis.Set_ (now env) ("user:" +:+ userID +:+ ":online") "true"
                   (30 * time.Minute) (redis h)) h
  | DelOnline userID =>
      set_redis (Redis.Del ("user:" +:+ userID +:+ ":online") (redis h)) h
  end.

Definition GetOnlineUsers (h : Hub) : nat := size (clients h).

Definition IsUserOnline (userID : string) (h : Hub) : bool :=
  bool_decide (is_Some (clients h !! userID)).

(** *** [relayWebRTC], the same in both [client.go] files *)

Definition relayWebRTC (env : Env) (client : nat) (msg : Event.t) (h : Hub) : option Hub :=
  c ← heap h !! client;
  let roomID := Event.To msg in
  let data :=
    [("type", JString (Event.Type_ msg));
     ("from", JString (Client.UserID c));
     ("roomId", JString roomID);
     ("sdp", Event.SDP msg);
     ("candidate", Event.Candidate msg)] in
  if decide (roomID = "") then
    Some (BroadcastToAllExcept (Client.UserID c) data h)
  else
    let h1 :=
      if decide (Client.RoomID c = "")
      then set_heap (<[client := Client.set_RoomID roomID c]> (heap h)) h
      else h in
    h2 ← BroadcastToRoomExcept env roomID (Client.UserID c) data h1;
    Some (BroadcastToAllExcept (Client.UserID c) data h2).

(** *** [handleAcceptMatch] *)

Definition roomKey (roomID : string) : string := "room:" +:+ roomID.

Definition waitingForPartner : payload :=
  [("type", JString EventPartnerAccepted);
   ("message", JString "Waiting for partner to accept...")].

Definition partnerAccepted (roomID : string) : payload :=
  [("type", JString EventPartnerAccepted); ("roomId", JString roomID)].

Definition bothReady (roomID role : string) : payload :=
  [("type", JString EventBothReady); ("roomId", JString roomID); ("role", JString role)].

(** The role given to the user at index [i] of [acceptedUsers]. *)
Definition roleAt (i : nat) : string :=
  if decide (i = 1%nat) then "callee" else "caller".

(** [for i, userID := range acceptedUsers { ... BroadcastToUser(userID, both_ready) }] *)
Definition assignRoles (roomID : string) (acceptedUsers : list string) (h : Hub) : Hub :=
  foldl (λ acc iu, BroadcastToUser iu.2 (bothReady roomID (roleAt iu.1)) acc)
        h (imap (λ i userID, (i, userID)) acceptedUsers).

(** [for key, userID := range participants { if (key == "user1" || key == "user2")
    && userID != c.UserID { BroadcastToUser(userID, partner_accepted) } }] *)
Definition notifyOthers (env : Env) (roomID self : string)
    (found : gmap string string) (h : Hub) : Hub :=
  foldl (λ acc entry,
           if decide ((entry.1 = "user1" ∨ entry.1 = "user2") ∧ entry.2 ≠ self)
           then BroadcastToUser entry.2 (partnerAccepted roomID) acc
           else acc)
        h (rangeParticipants env (map_to_list found)).

(** SADD and EXPIRE of the acceptance key, then SMEMBERS: the store after
    the first two and the reply to the third. *)
Definition recordAccept (env : Env) (acceptKey userID : string) (ttl : Z)
    (store : gmap string Redis.entry) :
    gmap string Redis.entry * result Redis.error (list string) :=
  let r1 := Redis.exec (Redis.SAdd (now env) acceptKey userID store) store in
  let r2 := Redis.Expire (now env) acceptKey ttl r1 in
  (r2,
   match Redis.SMembers (now env) acceptKey r2 with
   | Ok s => Ok (smembers env (elements s))
   | Err e => Err e
   end).

(** [sort.Strings] *)
Definition sortStrings (l : list string) : list string :=
  merge_sort (λ a b, Is_true (String.leb a b)) l.

(** [internal/websocket/client.go] *)
Module Client1.

Definition acceptKey (roomID : string) : string := "match:" +:+ roomID +:+ ":accepted".

Definition handleAcceptMatch (env : Env) (client : nat) (msg : Event.t)
    (h : Hub) : option Hub :=
  c ← heap h !! client;
  let roomID := Event.RoomID msg in
  if decide (roomID = "") then Some h
  else
    match recordAccept env (acceptKey roomID) (Client.UserID c) (2 * time.Minute) (redis h) with
    | (r, Err _) => Some (set_redis r h)
    | (r, Ok acceptedUsers) =>
        let h1 := set_redis r h in
        h2 ← (if decide (length acceptedUsers = 1%nat)
              then Send client waitingForPartner h1
              else Some h1);
        if decide (2 ≤ length acceptedUsers)%nat then
          let found :=
            match Redis.HGetAll (now env) (roomKey roomID) (redis h2) with
            | Ok found => found
            | Err _ => ∅
            end in
          let h3 := assignRoles roomID acceptedUsers h2 in
          let h4 := notifyOthers env roomID (Client.UserID c) found h3 in
          Some (set_redis (Redis.Del (acceptKey roomID) (redis h4)) h4)
        else Some h2
    end.

(** [msg.Data[key]]: a missing key reads as [nil]. *)
Definition field (msg : Event.t) (key : string) : jvalue :=
  default JNull (Event.Data msg !! key).

Definition relayToRoom (env : Env) (client : nat) (msg : Event.t) (h : Hub) : option Hub :=
  c ← heap h !! client;
  if decide (Event.RoomID msg = "") then Some h
  else
    BroadcastToRoomExcept env (Event.RoomID msg) (Client.UserID c)
      [("type", JString (Event.Type_ msg));
       ("from", JString (Client.UserID c));
       ("roomId", JString (Event.RoomID msg));
       ("message", field msg "message")] h.

(** An event without room id stands for the room the client has latched. *)
Definition handleCallEnded (env : Env) (client : nat) (msg : Event.t)
    (h : Hub) : option Hub :=
  c ← heap h !! client;
  let roomID := Event.RoomID msg in
  let roomID := if decide (roomID = "") then Client.RoomID c else roomID in
  if decide (roomID = "") then Some h
  else
    BroadcastToRoomExcept env roomID (Client.UserID c)
      [("type", JString EventCallEnd);
       ("from", JString (Client.UserID c));
       ("roomId", JString roomID)] h.

Definition handleMediaStateChanged (env : Env) (client : nat) (msg : Event.t)
    (h : Hub) : option Hub :=
  c ← heap h !! client;
  let roomID := Event.RoomID msg in
  let roomID := if decide (roomID = "") then Client.RoomID c else roomID in
  if decide (roomID = "") then Some h
  else
    BroadcastToRoomExcept env roomID (Client.UserID c)
      [("type", JString EventMediaStateChange);
       ("from", JString (Client.UserID c));
       ("roomId", JString roomID);
       ("isMuted", field msg "isMuted");
       ("isVideoOff", field msg "isVideoOff")] h.

(** [handleMessage] on what [json.Unmarshal] made of the frame, [None] when
    it failed. *)
Definition handleMessage (env : Env) (client : nat) (parsed : option Event.t)
    (h : Hub) : option Hub :=
  match parsed with
  | None => Some h
  | Some msg =>
      let type := Event.Type_ msg in
      if decide (type = "ping") then
        Send client [("type", JString "pong")] h
      else if decide (type = EventJoinQueue) then
        Send client
          [("type", JString "queue_ack"); ("message", JString "Queue request received")] h
      else if decide (type = EventLeaveQueue) then
        Send client
          [("type", JString "queue_left_ack"); ("message", JString "Left queue")] h
      else if decide (type = EventAcceptMatch) then
        handleAcceptMatch env client msg h
      else if decide (type = EventWebRTCOffer ∨ type = EventWebRTCAnswer
                      ∨ type = EventICECandidate) then
        relayWebRTC env client msg h
      else if decide (type = EventCallEnd) then
        handleCallEnded env client msg h
      else if decide (type = EventMediaStateChange) then
        handleMediaStateChanged env client msg h
      else if decide (type = EventMessage) then
        relayToRoom env client msg h
      else Some h
  end.

End Client1.

(** The other [client.go] of the repository, which sorts the accepted users. *)
Module Client2.

Definition acceptKey (roomID : string) : string := "room:" +:+ roomID +:+ ":accepted".

Definition handleAcceptMatch (env : Env) (client : nat) (msg : Event.t)
    (h : Hub) : option Hub :=
  c ← heap h !! client;
  let roomID := Event.RoomID msg in
  if decide (roomID = "") then Some h
  else
    let '(r, reply) :=
      recordAccept env (acceptKey roomID) (Client.UserID c) (5 * time.Minute) (redis h) in
    let acceptedUsers := match reply with Ok l => l | Err _ => [] end in
    let h1 := set_redis r h in
    if decide (length acceptedUsers = 1%nat) then
      let found :=
        match Redis.HGetAll (now env) (roomKey roomID) (redis h1) with
        | Ok found => found
        | Err _ => ∅
        end in
      Some (notifyOthers env roomID (Client.UserID c) found h1)
    else if decide (2 ≤ length acceptedUsers)%nat then
      let h2 := assignRoles roomID (sortStrings acceptedUsers) h1 in
      Some (set_redis (Redis.Del (acceptKey roomID) (redis h2)) h2)
    else Some h1.

(** Here an event without room id is dropped. *)
Definition handleCallEnded (env : Env) (client : nat) (msg : Event.t)
    (h : Hub) : option Hub :=
  c ← heap h !! client;
  let roomID := Event.RoomID msg in
  if decide (roomID = "") then Some h
  else
    BroadcastToRoomExcept env roomID (Client.UserID c)
      [("type", JString "call_ended");
       ("from", JString (Client.UserID c));
       ("roomId", JString roomID)] h.

Definition handleMediaStateChanged (env : Env) (client : nat) (msg : Event.t)
    (h : Hub) : option Hub :=
  c ← heap h !! client;
  let roomID := Event.RoomID msg in
  if decide (roomID = "") then Some h
  else
    BroadcastToRoomExcept env roomID (Client.UserID c)
      [("type", JString "media_state_changed");
       ("from", JString (Client.UserID c));
       ("roomId", JString roomID);
       ("isMuted", default JNull (Event.Data msg !! "isMuted"));
       ("isVideoOff", default JNull (Event.Data msg !! "isVideoOff"))] h.

End Client2.

End websocket.

(** ** Package [handlers]: the matchmaking endpoints

    The service and the hub are built on one Redis client, so the
    application has one store: the one the hub carries.  The user id is what
    the authentication middleware left in the request context, [None] when
    it left none.  A response is the status code and the JSON object, its
    fields in the order of the source text. *)

Module handlers.

Record App := { hub : websocket.Hub; rooms : list models.Room }.

Definition service (app : App) : services.MatchmakingService :=
  {| services.redis := websocket.redis (hub app); services.roomRepo := rooms app |}.

Definition with_service (s : services.MatchmakingService) (app : App) : App :=
  {| hub := websocket.set_redis (services.redis s) (hub app); rooms := services.roomRepo s |}.

Definition with_hub (h : websocket.Hub) (app : App) : App :=
  {| hub := h; rooms := rooms app |}.

#[warnings="-register-all"] Inductive json :=
| JText (s : string)
| JTrue
| JFalse
| JInt (n : Z)
(** the [float64] seconds of a [time.Duration] *)
| JSeconds (d : Z)
| JObject (fields : list (string * json)).

Record response := { status : Z; body : list (string * json) }.

(** [utils.SuccessResponse] and [utils.ErrorResponse] with its callers. *)
Definition SuccessResponse (data : list (string * json)) : response :=
  {| status := 200; body := [("success", JTrue); ("data", JObject data)] |}.
Definition ErrorResponse (statusCode : Z) (message : string) : response :=
  {| status := statusCode; body := [("success", JFalse); ("error", JText message)] |}.
Definition UnauthorizedResponse := ErrorResponse 401.
Definition NotFoundResponse := ErrorResponse 404.
Definition ConflictResponse := ErrorResponse 409.
Definition InternalServerErrorResponse := ErrorResponse 500.

Definition matchData (roomID : string) : websocket.payload :=
  [("type", websocket.JString "match_found"); ("roomId", websocket.JString roomID)].

(** [tryMatch], which [JoinQueue] starts as a goroutine. *)
Definition tryMatch (env : Env) (userID : string) (app : App) : App :=
  match services.FindMatch env userID (service app) with
  | (s, Err _) => with_service s app
  | (s, Ok (roomID, opponentID)) =>
      let app1 := with_service s app in
      let h1 := websocket.BroadcastToUser userID (matchData roomID) (hub app1) in
      let h2 := websocket.BroadcastToUser opponentID (matchData roomID) h1 in
      with_hub h2 app1
  end.

(** [JoinQueue]: the response and the user the handler starts [tryMatch]
    for.  [input] is the skill level [ShouldBindJSON] bound, [None] when it
    failed; [errorText] is [err.Error()]. *)
Definition JoinQueue (env : Env) (errorText : error → string)
    (user : option string) (input : option Z) (app : App) :
    App * response * option string :=
  match user with
  | None => (app, UnauthorizedResponse "User not authenticated", None)
  | Some userID =>
      let skillLevel := default 1000 input in
      match services.JoinQueue env userID skillLevel (service app) with
      | (s, Some err) =>
          let app1 := with_service s app in
          match err with
          | ErrAlreadyInQueue => (app1, ConflictResponse "Already in queue", None)
          | _ =>
              (app1,
               InternalServerErrorResponse ("Failed to join queue: " +:+ errorText err),
               None)
          end
      | (s, None) =>
          let app1 := with_service s app in
          let h1 :=
            websocket.BroadcastToUser userID
              [("type", websocket.JString "queue_joined");
               ("message", websocket.JString "Successfully joined matchmaking queue")] (hub app1) in
          (with_hub h1 app1,
           {| status := 200;
              body := [("success", JTrue); ("message", JText "Joined matchmaking queue")] |},
           Some userID)
      end
  end.

Definition LeaveQueue (env : Env) (user : option string) (app : App) : App * response :=
  match user with
  | None => (app, UnauthorizedResponse "User not authenticated")
  | Some userID =>
      match services.LeaveQueue env userID (service app) with
      | (s, Some _) =>
          (with_service s app, InternalServerErrorResponse "Failed to leave queue")
      | (s, None) =>
          let app1 := with_service s app in
          let h1 :=
            websocket.BroadcastToUser userID
              [("type", websocket.JString "queue_left");
               ("message", websocket.JString "Left matchmaking queue")]
              (hub app1) in
          (with_hub h1 app1, SuccessResponse [("message", JText "Left queue")])
      end
  end.

(** [GetQueueStatus], which also tries to find a match on each poll. *)
Definition GetQueueStatus (env : Env) (user : option string) (app : App) : App * response :=
  match user with
  | None => (app, UnauthorizedResponse "User not authenticated")
  | Some userID =>
      match services.GetQueueStatus env userID (service app) with
      | Err err =>
          match err with
          | ErrNotInQueue => (app, NotFoundResponse "Not in queue")
          | _ => (app, InternalServerErrorResponse "Failed to get queue status")
          end
      | Ok (position, estimatedWait) =>
          let queueSize :=
            match services.GetQueueSize env (service app) with
            | Ok n => n
            | Err _ => 0
            end in
          match services.FindMatch env userID (service app) with
          | (s, Ok (roomID, opponentID)) =>
              let app1 := with_service s app in
              let h1 := websocket.BroadcastToUser opponentID (matchData roomID) (hub app1) in
              (with_hub h1 app1,
               SuccessResponse [("matchFound", JTrue); ("roomId", JText roomID)])
          | (s, Err _) =>
              (with_service s app,
               SuccessResponse
                 [("position", JInt position);
                  ("estimatedWait", JSeconds estimatedWait);
                  ("totalInQueue", JInt queueSize);
                  ("matchFound", JFalse)])
          end
      end
  end.

End handlers.

(** ** Observations on the hub *)

Module hub.
Import websocket.

(** Every registered connection exists, carries the user id it is
    registered under, and has an open [send] channel: what [registerClient]
    and [unregisterClient] maintain. *)
Definition wf (h : Hub) : Prop :=
  ∀ userID client, clients h !! userID = Some client →
    ∃ c, heap h !! client = Some c ∧ Client.UserID c = userID ∧
         closed (Client.send c) = false.

(** The objects after the payload was offered to the channel of one client,
    and to those of a list of clients in turn. *)
Definition deliver (p : payload) (objects : gmap nat Client.t) (client : nat) :
    gmap nat Client.t :=
  alter (λ c, Client.set_send (push p (Client.send c)) c) client objects.

Definition deliver_all (p : payload) (targets : list nat)
    (objects : gmap nat Client.t) : gmap nat Client.t :=
  foldl (deliver p) objects targets.

(** The connections a room broadcast and a broadcast to all offer to, in
    the order of the loop. *)
Definition roomTargets (env : Env) (found : gmap string string) (exclude : string)
    (registry : gmap string nat) : list nat :=
  omap (λ entry : string * string,
          if decide ((entry.1 = "user1" ∨ entry.1 = "user2") ∧ entry.2 ≠ exclude)
          then registry !! entry.2 else None)
       (rangeParticipants env (map_to_list found)).

Definition allTargets (env : Env) (exclude : string) (registry : gmap string nat) : list nat :=
  omap (λ entry : string * nat,
          if decide (entry.1 = exclude) then None else Some entry.2)
       (rangeClients env (map_to_list registry)).

(** The participants a room broadcast resolves, none when the lookup fails. *)
Definition participantsOf (env : Env) (roomID : string) (h : Hub) : gmap string string :=
  match (getRoomParticipants env roomID h).2 with
  | Ok found => found
  | Err _ => ∅
  end.

(** The message [BroadcastToAllExcept] and [BroadcastToUser] put on the
    dispatch queue. *)
Definition toAllExcept (excludeUserID : string) (data : payload) : Message.t :=
  {| Message.Type_ := ""; Message.UserID := ""; Message.RoomID := "";
     Message.Data := data; Message.Broadcast := true; Message.Exclude := excludeUserID |}.

Definition toUser (userID : string) (data : payload) : Message.t :=
  {| Message.Type_ := ""; Message.UserID := userID; Message.RoomID := "";
     Message.Data := data; Message.Broadcast := false; Message.Exclude := "" |}.

(** The payload [relayWebRTC] builds. *)
Definition signal (c : Client.t) (msg : Event.t) : payload :=
  [("type", JString (Event.Type_ msg));
   ("from", JString (Client.UserID c));
   ("roomId", JString (Event.To msg));
   ("sdp", Event.SDP msg);
   ("candidate", Event.Candidate msg)].

(** The client object after [relayWebRTC] latched its room. *)
Definition latch (roomID : string) (c : Client.t) : Client.t :=
  if decide (Client.RoomID c = "") then Client.set_RoomID roomID c else c.

(** The message [registerClient] greets a connection with, and the notice
    [unregisterClient] sends to the room a connection has latched. *)
Definition welcome : payload :=
  [("type", JString EventConnected); ("message", JString "Connected to RANKEDterview")].

Definition partnerDisconnected (c : Client.t) : payload :=
  [("type", JString EventPartnerDisconnected);
   ("from", JString (Client.UserID c));
   ("roomId", JString (Client.RoomID c))].

(** The hub of [unregisterClient] between the removal of the entry and the
    notice to the room. *)
Definition removed (client : nat) (c : Client.t) (h : Hub) : Hub :=
  set_heap (<[client := Client.set_send (drainOrClose (Client.send c)) c]> (heap h))
    (set_clients (delete (Client.UserID c) (clients h)) h).

(** The registry is the same, and every connection is as it was but for what
    is queued on its channel and the room it has latched. *)
Definition same_connections (h h' : Hub) : Prop :=
  clients h' = clients h ∧
  ∀ a c, heap h !! a = Some c →
    ∃ c', heap h' !! a = Some c' ∧ Client.UserID c' = Client.UserID c ∧
          closed (Client.send c') = closed (Client.send c).

(** The frames [ReadPump] hands to [handleMessage], each with its
    environment, its connection and what [json.Unmarshal] made of it, handled
    one after the other. *)
Definition handleFrames (frames : list (Env * nat * option Event.t)) (h : Hub) : option Hub :=
  foldl (λ acc f, g ← acc; Client1.handleMessage f.1.1 f.1.2 f.2 g) (Some h) frames.

End hub.

(** ** Observations on the accept handshake *)

Module accept.
Import websocket hub.

(** The Acceptance Set under a key, empty when the key is absent. *)
Definition acceptanceSet (now : Z) (key : string)
    (store : gmap string Redis.entry) : gset string :=
  match Redis.SMembers now key store with
  | Ok s => s
  | Err _ => ∅
  end.

(** Between two accept events every stored Acceptance Set has at most one
    member. *)
Definition at_most_one (acceptKey : string → string)
    (store : gmap string Redis.entry) : Prop :=
  ∀ roomID e s, store !! acceptKey roomID = Some e → Redis.val e = Redis.VSet s →
                (size s ≤ 1)%nat.

(** The connection exists and its channel is open. *)
Definition open (h : Hub) (client : nat) : Prop :=
  ∃ c, heap h !! client = Some c ∧ closed (Client.send c) = false.

(** A sequence of accept events, each with its environment and connection. *)
Definition accepts (handle : Env → nat → Event.t → Hub → option Hub)
    (events : list (Env * nat * Event.t)) (h : Hub) : option Hub :=
  foldl (λ acc ev, g ← acc; handle ev.1.1 ev.1.2 ev.2 g) (Some h) events.

(** The users to whom the loop of [notifyOthers] sends, in the order of the
    loop: the values of the slots [user1] and [user2] of the room record,
    other than [self]. *)
Definition noticed (env : Env) (roomID self : string)
    (store : gmap string Redis.entry) : list string :=
  let found :=
    match Redis.HGetAll (now env) (roomKey roomID) store with
    | Ok found => found
    | Err _ => ∅
    end in
  (filter (λ entry : string * string,
             (entry.1 = "user1" ∨ entry.1 = "user2") ∧ entry.2 ≠ self)
          (rangeParticipants env (map_to_list found))).*2.

(** The messages of the event that completes an Acceptance Set, in the
    order in which they are offered to the dispatch queue: "both_ready" for
    the caller and for the callee, then "partner_accepted" for [users]. *)
Definition completion (roomID caller callee : string) (users : list string) :
    list Message.t :=
  [toUser caller (bothReady roomID "caller"); toUser callee (bothReady roomID "callee")]
  ++ ((λ userID, toUser userID (partnerAccepted roomID)) <$> users).

(** The payloads of the messages addressed to one user. *)
Definition addressed (userID : string) (messages : list Message.t) : list payload :=
  Message.Data <$> filter (λ m, Message.UserID m = userID) messages.

(** Turns of a [broadcastWorker], one after the other, each in its
    environment. *)
Definition workers (envs : list Env) (h : Hub) : option Hub :=
  foldl (λ acc env, g ← acc; broadcastWorker env g) (Some h) envs.

(** What the workers have put on the channel of the connection [a] once
    they have handled [messages], all addressed to single users: the payloads
    addressed to the user of the connection, as far as the buffer has room,
    when the connection is the one registered for that user, and nothing
    otherwise. *)
Definition received (h : Hub) (messages : list Message.t) (a : nat) (ca : Client.t) :
    list payload :=
  if decide (clients h !! Client.UserID ca = Some a ∧ Client.UserID ca ≠ "")
  then take (clientBufferSize - length (buf (Client.send ca)))
            (addressed (Client.UserID ca) messages)
  else [].

(** What one accept event does, for a handler [handle] that keeps the
    Acceptance Set under [acceptKey] for [ttl], gives the roles in the order
    [order] of the members replied, and also notifies the users [also].
    The set has at most two members once the user is added.  When they are
    two, the event offers to the dispatch queue exactly the messages of
    [completion], changes no connection and no registry entry, and deletes
    the set; and when the hub is well formed and the dispatch queue was
    empty, workers that take these messages off the queue leave every
    connection with its former buffer followed by what [received] gives: on
    the connection registered for a member, when its buffer has room, that
    is "both_ready" with the room id and the role of the member, followed by
    "partner_accepted" notices only. *)
Definition one_accept (acceptKey : string → string) (ttl : Z)
    (order : list string → list string)
    (also : Env → string → string → gmap string Redis.entry → list string)
    (handle : Env → nat → Event.t → Hub → option Hub) : Prop :=
  ∀ env client c msg h acceptedUsers,
    fair env → at_most_one acceptKey (redis h) →
    heap h !! client = Some c → closed (Client.send c) = false →
    Event.RoomID msg ≠ "" →
    (recordAccept env (acceptKey (Event.RoomID msg)) (Client.UserID c) ttl (redis h)).2
      = Ok acceptedUsers →
    (length acceptedUsers ≤ 2)%nat ∧
    ∃ h',
      handle env client msg h = Some h' ∧
      at_most_one acceptKey (redis h') ∧
      ((length acceptedUsers = 2)%nat →
       ∃ caller callee,
         order acceptedUsers = [caller; callee] ∧
         acceptedUsers ≡ₚ [caller; callee] ∧
         caller ≠ callee ∧
         Client.UserID c ∈ acceptedUsers ∧
         let sent :=
           completion (Event.RoomID msg) caller callee
             (also env (Event.RoomID msg) (Client.UserID c) (redis h)) in
         heap h' = heap h ∧
         clients h' = clients h ∧
         broadcast h' =
           broadcast h ++ take (broadcastBufferSize - length (broadcast h)) sent ∧
         redis h' !! acceptKey (Event.RoomID msg) = None ∧
         (∀ now', acceptanceSet now' (acceptKey (Event.RoomID msg)) (redis h') = ∅) ∧
         (wf h → broadcast h = [] →
          ∀ envs, length envs = length sent →
            ∃ h'',
              workers envs h' = Some h'' ∧
              broadcast h'' = [] ∧
              clients h'' = clients h ∧
              (∀ a ca, heap h !! a = Some ca →
                 ∃ ca', heap h'' !! a = Some ca' ∧
                        Client.UserID ca' = Client.UserID ca ∧
                        buf (Client.send ca')
                          = buf (Client.send ca) ++ received h sent a ca) ∧
              (∀ member role a ca,
                 (member, role) ∈ [(caller, "caller"); (callee, "callee")] →
                 member ≠ "" →
                 clients h !! member = Some a → heap h !! a = Some ca →
                 (length (buf (Client.send ca)) < clientBufferSize)%nat →
                 ∃ ca' notices,
                   heap h'' !! a = Some ca' ∧
                   buf (Client.send ca')
                     = buf (Client.send ca)
                         ++ bothReady (Event.RoomID msg) role :: notices ∧
                   Forall (λ p, p = partnerAccepted (Event.RoomID msg)) notices))).

(** The same over a sequence of accept events. *)
Definition all_accepts (acceptKey : string → string)
    (handle : Env → nat → Event.t → Hub → option Hub) : Prop :=
  ∀ events h,
    Forall (λ ev : Env * nat * Event.t, fair ev.1.1 ∧ open h ev.1.2) events →
    at_most_one acceptKey (redis h) →
    ∃ h', accepts handle events h = Some h' ∧ at_most_one acceptKey (redis h').

(** The user ids in the slots [user1] and [user2] of the room record other
    than [self]. *)
Definition others (now : Z) (roomID self : string)
    (store : gmap string Redis.entry) : list string :=
  match Redis.HGetAll now (roomKey roomID) store with
  | Ok found =>
      (map_to_list (filter (λ entry : string * string,
                              (entry.1 = "user1" ∨ entry.1 = "user2") ∧ entry.2 ≠ self)
                           found)).*2
  | Err _ => []
  end.

(** What is on its way to a user: the payloads addressed to the user on the
    dispatch queue and the payloads on the channels of the user's
    connections. *)
Definition inbox (h : Hub) (userID : string) : list payload :=
  (Message.Data <$> filter (λ m, Message.UserID m = userID) (broadcast h))
  ++ concat ((λ ac : nat * Client.t, buf (Client.send ac.2))
               <$> filter (λ ac : nat * Client.t, Client.UserID ac.2 = userID)
                     (map_to_list (heap h))).

(** Something new is on its way to the user after the step from [h] to [h']. *)
Definition notified (h h' : Hub) (userID : string) : Prop :=
  inbox h' userID ≠ inbox h userID.

(** The first accept of a room notifies the accepting user and every other
    participant of the room. *)
Definition notifies_both (handle : Env → nat → Event.t → Hub → option Hub)
    (env : Env) (client : nat) (msg : Event.t) (h : Hub) : Prop :=
  match heap h !! client, handle env client msg h with
  | Some c, Some h' =>
      notified h h' (Client.UserID c) ∧
      Forall (notified h h')
        (others (now env) (Event.RoomID msg) (Client.UserID c) (redis h))
  | _, _ => False
  end.

End accept.

(** Two users connected to one hub, matched into a room. *)
Module sample_hub.
Import websocket.

Definition at_second (t : Z) : Env :=
  {| now := t * time.Second;
     rangeClients := λ l, l;
     rangeParticipants := λ l, l;
     smembers := λ l, l |}.

Definition connection (userID : string) : Client.t :=
  {| Client.conn := true;
     Client.send := {| buf := []; closed := false |};
     Client.UserID := userID;
     Client.RoomID := "" |}.

Definition roomID : string := "5a5a5a5a5a5a5a5a5a5a5a5a5a5a5a5a".

Definition matched_store : gmap string Redis.entry :=
  Redis.exec
    (Redis.HSet (sample.epoch * time.Second) (roomKey roomID)
       [("status", "waiting"); ("user1", sample.alice); ("user2", sample.bob);
        ("createdAt", itoa sample.epoch)] ∅) ∅.

Definition started : Hub :=
  {| clients := ∅; rooms := ∅; broadcast := []; redis := matched_store;
     heap := {[ 1%nat := connection sample.alice; 2%nat := connection sample.bob ]};
     spawned := [] |}.

Definition connected : Hub :=
  default started (registerClient 1%nat started ≫= registerClient 2%nat).

(** Alice's connection once registered: the welcome message is queued. *)
Definition welcomed (userID : string) : Client.t :=
  {| Client.conn := true;
     Client.send :=
       {| buf := [[("type", JString EventConnected);
                   ("message", JString "Connected to RANKEDterview")]];
          closed := false |};
     Client.UserID := userID;
     Client.RoomID := "" |}.

(** Alice connects a second time, with connection 3. *)
Definition reconnecting : Hub :=
  {| clients := ∅; rooms := ∅; broadcast := []; redis := matched_store;
     heap := {[ 1%nat := connection sample.alice; 3%nat := connection sample.alice ]};
     spawned := [] |}.

Definition first_registered : Hub :=
  default reconnecting (registerClient 1%nat reconnecting).

Definition reconnected : Hub :=
  default reconnecting (registerClient 3%nat first_registered).

Definition accept_match : Event.t :=
  {| Event.Type_ := EventAcceptMatch; Event.From := ""; Event.To := "";
     Event.RoomID := roomID; Event.Data := ∅;
     Event.SDP := JNull; Event.Candidate := JNull |}.

(** Alice has accepted, under the handler of the second [client.go]. *)
Definition alice_accepted : Hub :=
  default connected
    (Client2.handleAcceptMatch (at_second (sample.epoch + 5)) 1%nat accept_match connected).

(** Alice has accepted, under the handler of [internal/websocket/client.go]. *)
Definition alice_waiting : Hub :=
  default connected
    (Client1.handleAcceptMatch (at_second (sample.epoch + 5)) 1%nat accept_match connected).

Definition offer_sdp : Event.t :=
  {| Event.Type_ := EventWebRTCOffer; Event.From := ""; Event.To := roomID;
     Event.RoomID := ""; Event.Data := ∅;
     Event.SDP := JRaw "{}"; Event.Candidate := JNull |}.

(** Alice has sent her offer to the room. *)
Definition signalled : Hub :=
  default connected (relayWebRTC (at_second (sample.epoch + 9)) 1%nat offer_sdp connected).

(** A heartbeat, and a hang-up that names no room. *)
Definition ping : Event.t :=
  {| Event.Type_ := "ping"; Event.From := ""; Event.To := "";
     Event.RoomID := ""; Event.Data := ∅;
     Event.SDP := JNull; Event.Candidate := JNull |}.

Definition hang_up : Event.t :=
  {| Event.Type_ := EventCallEnd; Event.From := ""; Event.To := "";
     Event.RoomID := ""; Event.Data := ∅;
     Event.SDP := JNull; Event.Candidate := JNull |}.

(** A hub on the store in which the matchmaking service has given Alice and
    Bob a room. *)
Definition on_store (store : gmap string Redis.entry) : Hub :=
  {| clients := ∅; rooms := ∅; broadcast := []; redis := store;
     heap := {[ 1%nat := connection sample.alice; 2%nat := connection sample.bob ]};
     spawned := [] |}.

(** The application while Alice waits in the queue. *)
Definition waiting : handlers.App :=
  {| handlers.hub := on_store (services.redis sample.queue1); handlers.rooms := [] |}.

End sample_hub.

(** * Properties *)

(** ** Sorted sets *)

Section zset.
Import Redis.
Implicit Types (z : list (string * Z)) (m : string).

Lemma zslice_all {A} (l : list A) : zslice 0 (-1) l = l.
Proof.
  unfold zslice. cbn [Z.ltb Z.compare].
  destruct l as [|a l]; [reflexivity|].
  set (n := Z.of_nat (length (a :: l))).
  assert (0 < n) by (unfold n; cbn [length]; lia).
  replace ((n + -1 <? 0) || (n <=? 0)) with false
    by (symmetry; apply orb_false_iff; split; [apply Z.ltb_ge|apply Z.leb_gt]; lia).
  replace (Z.to_nat (n + -1 - 0 + 1)) with (length (a :: l)) by (unfold n; lia).
  change (Z.to_nat 0) with 0%nat. rewrite drop_0. apply firstn_all.
Qed.

Lemma zinsert_perm x z : zinsert x z ≡ₚ x :: z.
Proof.
  induction z as [|y z IH]; cbn; [reflexivity|].
  destruct (zlt x y); [reflexivity|].
  rewrite IH. apply Permutation_swap.
Qed.

Lemma zremove_members m z : (zremove m z).*1 = filter (λ u, u ≠ m) z.*1.
Proof.
  unfold zremove. induction z as [|y z IH]; [reflexivity|].
  rewrite fmap_cons, !filter_cons. cbn.
  destruct (decide (y.1 ≠ m)); cbn; [f_equal|]; exact IH.
Qed.

Lemma zremove_not_elem m z : m ∉ (zremove m z).*1.
Proof.
  rewrite zremove_members. intros [H _]%list_elem_of_filter. congruence.
Qed.

Lemma zremove_idemp m z : zremove m (zremove m z) = zremove m z.
Proof.
  unfold zremove. induction z as [|y z IH]; [reflexivity|].
  rewrite filter_cons. destruct (decide (y.1 ≠ m)) as [Hy|Hy]; [|exact IH].
  rewrite filter_cons. destruct (decide (y.1 ≠ m)); [|contradiction].
  f_equal. exact IH.
Qed.

Lemma zremove_absent m z : m ∉ z.*1 → zremove m z = z.
Proof.
  unfold zremove. induction z as [|y z IH]; [reflexivity|].
  rewrite fmap_cons, not_elem_of_cons. intros [Hm Hz].
  rewrite filter_cons. destruct (decide (y.1 ≠ m)) as [|Hn]; [|destruct Hn; congruence].
  f_equal. auto.
Qed.

Lemma zremove_NoDup m z : NoDup z.*1 → NoDup (zremove m z).*1.
Proof. rewrite zremove_members. apply NoDup_filter. Qed.

Lemma zadd_NoDup m score z :
  NoDup z.*1 → NoDup (zinsert (m, score) (zremove m z)).*1.
Proof.
  intros Hz. rewrite (fmap_Permutation _ _ _ (zinsert_perm _ _)).
  rewrite fmap_cons. apply NoDup_cons. split.
  - apply zremove_not_elem.
  - by apply zremove_NoDup.
Qed.

Lemma zscore_None m z : zscore m z = None ↔ m ∉ z.*1.
Proof.
  induction z as [|y z IH]; cbn.
  - split; [intros _; apply not_elem_of_nil|reflexivity].
  - rewrite not_elem_of_cons. destruct (decide (y.1 = m)) as [Hy|Hy].
    + split; [discriminate|]. intros [Hn _]. by destruct Hn.
    + rewrite IH. split; [by split|by intros [_ H]].
Qed.

Lemma zscore_elem m z score : zscore m z = Some score → (m, score) ∈ z.
Proof.
  induction z as [|[m' s'] z IH]; cbn; [discriminate|].
  destruct (decide (m' = m)) as [->|_].
  - intros [= ->]. apply list_elem_of_here.
  - intros H. apply list_elem_of_further. auto.
Qed.

Lemma zrank_None m z : zrank m z = None ↔ m ∉ z.*1.
Proof.
  induction z as [|y z IH]; cbn.
  - split; [intros _; apply not_elem_of_nil|reflexivity].
  - rewrite not_elem_of_cons. destruct (decide (y.1 = m)) as [Hy|Hy].
    + split; [discriminate|]. intros [Hn _]. by destruct Hn.
    + destruct (zrank m z).
      * split; [discriminate|]. intros [_ H]. apply IH in H. discriminate.
      * split; [|done]. intros _. split; [done|]. by apply IH.
Qed.

(** The rank is the index of the member in the range. *)
Lemma zrank_Some m z r :
  zrank m z = Some r →
  0 ≤ r ∧ z.*1 !! Z.to_nat r = Some m ∧ m ∉ take (Z.to_nat r) z.*1.
Proof.
  revert r. induction z as [|y z IH]; intros r; cbn; [discriminate|].
  destruct (decide (y.1 = m)) as [Hy|Hy].
  - intros [= <-]. cbn. rewrite Hy. split; [lia|]. split; [reflexivity|apply not_elem_of_nil].
  - destruct (zrank m z) as [r'|]; [|discriminate]. intros [= <-].
    destruct (IH r' eq_refl) as (Hr & Hl & Ht).
    replace (Z.to_nat (r' + 1)) with (S (Z.to_nat r')) by lia. cbn.
    split; [lia|]. split; [exact Hl|].
    rewrite not_elem_of_cons. split; [congruence|exact Ht].
Qed.

End zset.

(** ** Commands on one key leave the other keys alone *)

Section frame.
Import Redis.
Implicit Types (st : gmap string entry) (key k : string).

Lemma find_lookup now k st st' : st' !! k = st !! k → find now k st' = find now k st.
Proof. unfold find. by intros ->. Qed.

Lemma find_Some now k st e : find now k st = Some e → st !! k = Some e ∧ expired now e = false.
Proof.
  unfold find. destruct (st !! k) as [e'|]; [|discriminate].
  destruct (expired now e') eqn:He; [discriminate|]. by intros [= <-].
Qed.

Lemma find_insert_eq now k e st :
  find now k (<[k := e]> st) = if expired now e then None else Some e.
Proof. unfold find. by rewrite lookup_insert_eq. Qed.

(** A deadline that has passed stays passed. *)
Lemma expired_mono now now' e : now ≤ now' → expired now e = true → expired now' e = true.
Proof.
  unfold expired. destruct (expireAt e); [|done].
  rewrite !bool_decide_eq_true. lia.
Qed.

Lemma find_None_mono now now' k st : now ≤ now' → find now k st = None → find now' k st = None.
Proof.
  unfold find. intros Hle. destruct (st !! k) as [e|]; [|done].
  destruct (expired now e) eqn:He; [|discriminate].
  by rewrite (expired_mono _ _ _ Hle He).
Qed.

Lemma ZAdd_frame now key score m st st' k :
  ZAdd now key score m st = Ok st' → k ≠ key → st' !! k = st !! k.
Proof.
  unfold ZAdd. intros H Hk.
  destruct (find now key st) as [[[] ?]|]; simplify_eq; by rewrite lookup_insert_ne.
Qed.

Lemma ZRem_frame now key m st st' k :
  ZRem now key m st = Ok st' → k ≠ key → st' !! k = st !! k.
Proof.
  unfold ZRem. intros H Hk.
  destruct (find now key st) as [[[] ?]|]; simplify_eq; [|done].
  destruct (zremove m z); simplify_eq;
    [by rewrite lookup_delete_ne|by rewrite lookup_insert_ne].
Qed.

Lemma HSet_frame now key fields st st' k :
  HSet now key fields st = Ok st' → k ≠ key → st' !! k = st !! k.
Proof.
  unfold HSet. intros H Hk.
  destruct (find now key st) as [[[] ?]|]; simplify_eq; by rewrite lookup_insert_ne.
Qed.

Lemma SAdd_frame now key m st st' k :
  SAdd now key m st = Ok st' → k ≠ key → st' !! k = st !! k.
Proof.
  unfold SAdd. intros H Hk.
  destruct (find now key st) as [[[] ?]|]; simplify_eq; by rewrite lookup_insert_ne.
Qed.

Lemma Expire_frame now key d st k : k ≠ key → Expire now key d st !! k = st !! k.
Proof.
  unfold Expire. intros Hk. destruct (find now key st); [|done]. by rewrite lookup_insert_ne.
Qed.

Lemma Del_frame key st k : k ≠ key → Del key st !! k = st !! k.
Proof. intros Hk. unfold Del. by rewrite lookup_delete_ne. Qed.

Lemma Set_frame now key v d st k : k ≠ key → Set_ now key v d st !! k = st !! k.
Proof. intros Hk. unfold Set_. by rewrite lookup_insert_ne. Qed.

Lemma exec_HSet_frame now key fields st k :
  k ≠ key → exec (HSet now key fields st) st !! k = st !! k.
Proof.
  intros Hk. destruct (HSet now key fields st) eqn:H; [|done].
  cbn. eapply HSet_frame; eauto.
Qed.

End frame.

(** ** The matchmaking queue *)

Section queue.
Import Redis services.
Implicit Types (s : MatchmakingService) (env : Env) (userID u : string).

Lemma metaKey_ne u : queueKey ≠ metaKey u.
Proof. unfold queueKey, metaKey. cbn. discriminate. Qed.

Lemma roomStateKey_ne roomID : queueKey ≠ roomStateKey roomID.
Proof. unfold queueKey, roomStateKey. cbn. discriminate. Qed.

Lemma ZRange_all now key st :
  ZRange now key 0 (-1) st =
    match find now key st with
    | None => Ok []
    | Some (Entry (VZSet z) _) => Ok z.*1
    | Some _ => Err WrongType
    end.
Proof.
  unfold ZRange. destruct (find now key st) as [[[] ?]|]; try done.
  by rewrite zslice_all.
Qed.

Lemma members_lookup now s s' :
  redis s' !! queueKey = redis s !! queueKey → members now s' = members now s.
Proof.
  intros H. unfold members. rewrite !ZRange_all.
  by rewrite (find_lookup _ _ _ _ H).
Qed.

(** ZREM removes the member, at the time of the call and afterwards. *)
Lemma ZRem_members now now' m st st' :
  ZRem now queueKey m st = Ok st' → now ≤ now' →
  ∀ r, members now' {| redis := st'; roomRepo := r |}
       = filter (λ u, u ≠ m) (members now' {| redis := st; roomRepo := r |}).
Proof.
  intros H Hle r. unfold members, redis. rewrite !ZRange_all.
  unfold ZRem in H. destruct (find now queueKey st) as [[v ttl]|] eqn:Hf.
  - apply find_Some in Hf as [Hl He].
    destruct v as [| | |z]; try discriminate.
    assert (Hst : find now' queueKey st
                  = if expired now' (Entry (VZSet z) ttl) then None
                    else Some (Entry (VZSet z) ttl))
      by (unfold find; by rewrite Hl).
    rewrite Hst.
    destruct (zremove m z) as [|y z'] eqn:Hz; simplify_eq.
    + unfold find. rewrite lookup_delete_eq.
      destruct (expired now' _); [done|].
      by rewrite <- zremove_members, Hz.
    + rewrite find_insert_eq.
      change (expired now' (Entry (VZSet (y :: z')) ttl))
        with (expired now' (Entry (VZSet z) ttl)).
      destruct (expired now' _); [done|].
      by rewrite <- zremove_members, Hz.
  - simplify_eq. by rewrite (find_None_mono _ _ _ _ Hle Hf).
Qed.

Lemma LeaveQueue_members env now' u s :
  now env ≤ now' →
  members now' (LeaveQueue env u s).1 = filter (λ v, v ≠ u) (members now' s).
Proof.
  intros Hle. unfold LeaveQueue.
  destruct (ZRem (now env) queueKey u (redis s)) as [r1|e] eqn:Hr; cbn [fst].
  - rewrite (members_lookup _ {| redis := r1; roomRepo := roomRepo s |})
      by (cbn; apply Del_frame, metaKey_ne).
    rewrite (ZRem_members _ _ _ _ _ Hr Hle). by destruct s.
  - replace (members now' s) with (@nil string); [done|].
    unfold members. rewrite ZRange_all. unfold ZRem in Hr.
    destruct (find (now env) queueKey (redis s)) as [[v ttl]|] eqn:Hf; [|discriminate].
    apply find_Some in Hf as [Hl _]. unfold find. rewrite Hl.
    destruct (expired now' _); [done|].
    destruct v; try done. by destruct (zremove u z).
Qed.

(** [LeaveQueue] only fails when the queue key holds a value of another type. *)
Lemma LeaveQueue_ok env u s :
  is_ok (ZRange (now env) queueKey 0 (-1) (redis s)) = true →
  (LeaveQueue env u s).2 = None.
Proof.
  unfold LeaveQueue, ZRange, ZRem.
  destruct (find (now env) queueKey (redis s)) as [[[] ?]|]; try done.
  by destruct (zremove u z).
Qed.

Lemma LeaveQueue_keeps_type env env' u s :
  now env ≤ now env' →
  is_ok (ZRange (now env) queueKey 0 (-1) (redis s)) = true →
  is_ok (ZRange (now env') queueKey 0 (-1) (redis (LeaveQueue env u s).1)) = true.
Proof.
  intros Hle. unfold LeaveQueue, ZRange, ZRem.
  destruct (find (now env) queueKey (redis s)) as [[v ttl]|] eqn:Hf.
  - destruct v as [| | |z]; try done. intros _.
    destruct (zremove u z) as [|y z']; cbn [fst redis with_redis].
    + rewrite (find_lookup _ _ (delete queueKey (redis s)))
        by (apply Del_frame, metaKey_ne).
      unfold find. by rewrite lookup_delete_eq.
    + rewrite (find_lookup _ _ (<[queueKey := Entry (VZSet (y :: z')) ttl]> (redis s)))
        by (apply Del_frame, metaKey_ne).
      rewrite find_insert_eq. by destruct (expired _ _).
  - intros _. cbn [fst redis with_redis].
    rewrite (find_lookup _ _ (redis s)) by (apply Del_frame, metaKey_ne).
    by rewrite (find_None_mono _ _ _ _ Hle Hf).
Qed.

End queue.

(** ** [FindMatch] *)

Section find_match.
Import Redis services.
Implicit Types (s : MatchmakingService) (env : Env) (userID u : string).

Lemma members_ZRange now s l :
  ZRange now queueKey 0 (-1) (redis s) = Ok l → members now s = l.
Proof. unfold members. by intros ->. Qed.

(** The scan ends with two different members of the queue when it ends
    with a second user at all. *)
Lemma scan_pair userID l user1 u1 u2 :
  NoDup l → (user1 ≠ "" → user1 ∉ l) →
  scan userID l user1 = (u1, u2) → u2 ≠ "" →
  u2 ∈ l ∧ u1 ≠ u2 ∧ (u1 = user1 ∨ u1 ∈ l).
Proof.
  revert user1. induction l as [|member rest IH]; intros user1 Hnd H1; cbn.
  - intros [= <- <-] Hne. by destruct Hne.
  - apply NoDup_cons in Hnd as [Hm Hnd].
    assert (Hrec : scan userID rest member = (u1, u2) → u2 ≠ "" →
                   u2 ∈ member :: rest ∧ u1 ≠ u2 ∧ (u1 = user1 ∨ u1 ∈ member :: rest)).
    { intros Hs Hne. destruct (IH member Hnd (λ _, Hm) Hs Hne) as (? & ? & Hu).
      split; [by apply list_elem_of_further|]. split; [done|].
      right. destruct Hu as [->|Hu]; [apply list_elem_of_here|by apply list_elem_of_further]. }
    destruct (decide (member = userID)); [exact Hrec|].
    destruct (decide (user1 ≠ "")) as [Hu|Hu]; [|exact Hrec].
    intros [= <- <-] _. split; [apply list_elem_of_here|].
    split; [|by left]. intros ->. apply (H1 Hu), list_elem_of_here.
Qed.

Lemma FindMatch_chosen env userID s l :
  ZRange (now env) queueKey 0 (-1) (redis s) = Ok l →
  FindMatch env userID s =
    if decide (length l < 2)%nat then (s, Err ErrNoMatchFound)
    else match chosen userID l with
         | None => (s, Err ErrNoMatchFound)
         | Some (user1, user2) => matched env user1 user2 s
         end.
Proof.
  intros Hl. unfold FindMatch, chosen. rewrite Hl.
  destruct (decide (length l < 2)%nat); [done|].
  destruct (scan userID l "") as [user1 user2].
  by destruct (decide (user1 = "" ∨ user2 = "")).
Qed.

Lemma chosen_rule userID l :
  NoDup l → "" ∉ l → (2 ≤ length l)%nat →
  chosen userID l = spec.findMatch_pair userID l.
Proof.
  intros Hnd He Hlen. unfold chosen, spec.findMatch_pair.
  destruct (decide (length l < 2)%nat); [lia|].
  destruct l as [|a [|b rest]]; cbn in Hlen; try lia.
  apply NoDup_cons in Hnd as [Ha Hnd]. apply NoDup_cons in Hnd as [Hb Hnd].
  apply not_elem_of_cons in Ha as [Hab Ha].
  apply not_elem_of_cons in He as [Hea He]. apply not_elem_of_cons in He as [Heb He].
  change (take 2 (a :: b :: rest)) with [a; b].
  cbn [scan spec.next_after spec.first_two].
  destruct (decide (a = userID)) as [->|Hau].
  - destruct (decide (b = userID)); [congruence|].
    destruct (decide (userID ≠ "")) as [?|Hn]; [|destruct Hn; congruence].
    destruct (decide (userID ∈ [userID; b])) as [_|Hn];
      [|destruct Hn; apply list_elem_of_here].
    cbn [head fmap option_fmap option_map].
    destruct (decide (userID = "" ∨ b = "")) as [[?|?]|_]; [congruence..|done].
  - destruct (decide ("" ≠ "")) as [?|_]; [done|].
    destruct (decide (b = userID)) as [->|Hbu].
    + destruct (decide (userID ∈ [a; userID])) as [_|Hn];
        [|destruct Hn; apply list_elem_of_further, list_elem_of_here].
      destruct rest as [|c rest]; cbn [scan head fmap option_fmap option_map].
      * destruct (decide (userID = "" ∨ "" = "")) as [_|Hn]; [done|].
        destruct Hn. by right.
      * apply not_elem_of_cons in Hb as [Hbc Hb].
        apply not_elem_of_cons in He as [Hec He].
        destruct (decide (c = userID)); [congruence|].
        destruct (decide (userID ≠ "")) as [?|Hn]; [|destruct Hn; congruence].
        destruct (decide (userID = "" ∨ c = "")) as [[?|?]|_]; [congruence..|done].
    + destruct (decide (a ≠ "")) as [?|Hn]; [|destruct Hn; congruence].
      destruct (decide (a = "" ∨ b = "")) as [[?|?]|_]; [congruence..|].
      destruct (decide (userID ∈ [a; b])) as [Hin|_]; [|done].
      apply elem_of_cons in Hin as [?|Hin]; [congruence|].
      apply elem_of_cons in Hin as [?|Hin]; [congruence|].
      by apply elem_of_nil in Hin.
Qed.

End find_match.

(** ** The claims on the matchmaking queue *)

Section matchmaking_claims.
Import Redis services.
Implicit Types (s : MatchmakingService) (env : Env) (userID u : string).

(** C2.  [FindMatch] fails with [ErrNoMatchFound] when fewer than two users
    are queued, and otherwise goes on with exactly the pair that the rule
    of the specification gives for the FIFO-ordered queue: the requesting
    user with the user scanned right after it, or the first two users when
    the requesting user is not among them; when the rule gives no pair
    (the requesting user is the second and last of the queue) the call
    fails with [ErrNoMatchFound] although two users are queued.  The queue
    is what ZRANGE returned: distinct user ids, none of them the empty
    string. *)
Theorem findMatch_follows_rule env userID s queue :
  ZRange (now env) queueKey 0 (-1) (redis s) = Ok queue →
  NoDup queue → "" ∉ queue →
  ((length queue < 2)%nat → FindMatch env userID s = (s, Err ErrNoMatchFound)) ∧
  chosen userID queue = spec.findMatch_pair userID queue ∧
  match spec.findMatch_pair userID queue with
  | None => FindMatch env userID s = (s, Err ErrNoMatchFound)
  | Some (user1, user2) => FindMatch env userID s = matched env user1 user2 s
  end.
Proof.
  intros Hq Hnd He. rewrite (FindMatch_chosen _ _ _ _ Hq).
  destruct (decide (length queue < 2)%nat) as [Hlt|Hge].
  - split; [done|]. unfold chosen, spec.findMatch_pair.
    rewrite decide_True by done.
    destruct queue as [|a [|b rest]]; cbn in Hlt; try lia; cbn.
    + by rewrite decide_True by (by left).
    + destruct (decide (a = userID)) as [->|?]; cbn.
      * by rewrite decide_True by (by right).
      * rewrite decide_False by (by intros H; apply H).
        cbn. by rewrite decide_True by (by right).
  - split; [intros; lia|].
    rewrite (chosen_rule userID queue Hnd He) by lia.
    split; [done|]. by destruct (spec.findMatch_pair userID queue) as [[??]|].
Qed.

Lemma ZRem_again now now' key k' m st r1 :
  ZRem now key m st = Ok r1 → now ≤ now' → key ≠ k' →
  ZRem now' key m (Del k' r1) = Ok (Del k' r1).
Proof.
  intros H Hle Hk. unfold ZRem in *.
  rewrite (find_lookup _ _ r1) by (by apply Del_frame).
  destruct (find now key st) as [[v ttl]|] eqn:Hf.
  - destruct v as [| | |z]; try discriminate.
    destruct (zremove m z) as [|y z'] eqn:Hz; simplify_eq.
    + unfold find. by rewrite lookup_delete_eq.
    + rewrite find_insert_eq. destruct (expired now' _); [done|].
      rewrite <- Hz, zremove_idemp, Hz. f_equal.
      apply insert_id. rewrite Del_frame by done. by rewrite lookup_insert_eq.
  - simplify_eq. by rewrite (find_None_mono _ _ _ _ Hle Hf).
Qed.

(** C9.  [LeaveQueue] returns no error whether or not the user is queued,
    and a second [LeaveQueue] for the same user returns no error and leaves
    the state exactly as the first call left it.  The queue key holds a
    sorted set or nothing, and the clock does not run backwards. *)
Theorem leaveQueue_idempotent env env' userID s :
  is_ok (ZRange (now env) queueKey 0 (-1) (redis s)) = true →
  now env ≤ now env' →
  (LeaveQueue env userID s).2 = None ∧
  LeaveQueue env' userID (LeaveQueue env userID s).1
    = ((LeaveQueue env userID s).1, None).
Proof.
  intros Hty Hle. split; [by apply LeaveQueue_ok|].
  pose proof (LeaveQueue_ok env userID s Hty) as Hok.
  unfold LeaveQueue in *.
  destruct (ZRem (now env) queueKey userID (redis s)) as [r1|] eqn:H1; [|discriminate].
  cbn [fst redis with_redis roomRepo].
  rewrite (ZRem_again _ _ _ _ _ _ _ H1 Hle (metaKey_ne userID)).
  unfold with_redis, Del. cbn [redis roomRepo]. by rewrite delete_delete_eq.
Qed.

Lemma int64_small z : - 2 ^ 63 ≤ z ≤ maxInt64 → int64 z = z.
Proof. unfold int64, maxInt64. intros H. rewrite Z.mod_small; lia. Qed.

Lemma estimated_wait p :
  0 ≤ p → p * 30 * time.Second ≤ maxInt64 →
  time.mul (time.mul p 30) time.Second = p * (30 * time.Second).
Proof.
  unfold time.mul, time.Second, maxInt64. intros H0 H.
  rewrite (int64_small (p * 30)) by (unfold maxInt64; lia).
  rewrite int64_small by (unfold maxInt64; lia). lia.
Qed.

Lemma GetQueueStatus_rank env u s :
  GetQueueStatus env u s =
    match find (now env) queueKey (redis s) with
    | Some (Entry (VZSet z) _) =>
        match zrank u z with
        | Some rank =>
            Ok (rank + 1, time.mul (time.mul ((rank + 1) / 2) 30) time.Second)
        | None => Err ErrNotInQueue
        end
    | _ => Err ErrNotInQueue
    end.
Proof.
  unfold GetQueueStatus, ZRank.
  destruct (find (now env) queueKey (redis s)) as [[[] ?]|]; try done.
  by destruct (zrank u z).
Qed.

Lemma members_find now s :
  members now s =
    match find now queueKey (redis s) with
    | Some (Entry (VZSet z) _) => z.*1
    | _ => []
    end.
Proof.
  unfold members. rewrite ZRange_all.
  by destruct (find now queueKey (redis s)) as [[[] ?]|].
Qed.

Lemma GetQueueStatus_absent env u s :
  GetQueueStatus env u s = Err ErrNotInQueue ↔ u ∉ members (now env) s.
Proof.
  rewrite GetQueueStatus_rank, members_find.
  destruct (find (now env) queueKey (redis s)) as [[v ttl]|];
    [|split; [intros _; apply not_elem_of_nil|done]].
  destruct v as [| | |z]; try (split; [intros _; apply not_elem_of_nil|done]).
  destruct (zrank u z) as [rank|] eqn:Hr.
  - split; [discriminate|]. intros Hn. apply zrank_None in Hn. congruence.
  - split; [intros _; by apply zrank_None|done].
Qed.

(** C10.  [GetQueueStatus] fails, and then with [ErrNotInQueue], exactly
    when the user has no Queue Entry.  When it succeeds the position is the
    0-based rank of the user in FIFO order plus 1 and the estimated wait is
    [position / 2] (integer division) intervals of 30 seconds, as long as
    that product fits [int64]; position 1 gives a zero wait. *)
Theorem queueStatus_position env userID s :
  (GetQueueStatus env userID s = Err ErrNotInQueue ↔ userID ∉ members (now env) s) ∧
  (∀ e, GetQueueStatus env userID s = Err e → e = ErrNotInQueue) ∧
  (∀ position estimatedWait,
      GetQueueStatus env userID s = Ok (position, estimatedWait) →
      (∃ rank : nat,
          position = Z.of_nat rank + 1 ∧
          members (now env) s !! rank = Some userID ∧
          userID ∉ take rank (members (now env) s)) ∧
      ((position / 2) * 30 * time.Second ≤ maxInt64 →
       estimatedWait = (position / 2) * (30 * time.Second)) ∧
      (position = 1 → estimatedWait = 0)).
Proof.
  split; [apply GetQueueStatus_absent|].
  rewrite GetQueueStatus_rank, members_find.
  destruct (find (now env) queueKey (redis s)) as [[v ttl]|];
    [|split; [by intros e [= <-]|discriminate]].
  destruct v as [| | |z]; try (split; [by intros e [= <-]|discriminate]).
  destruct (zrank userID z) as [rank|] eqn:Hr;
    [|split; [by intros e [= <-]|discriminate]].
  split; [discriminate|]. intros position wait [= <- <-].
  destruct (zrank_Some _ _ _ Hr) as (H0 & Hl & Ht).
  split; [|split].
  - exists (Z.to_nat rank). split; [lia|done].
  - intros Hfit. apply estimated_wait; [|done].
    apply Z.div_pos; lia.
  - intros H1. by replace rank with 0 by lia.
Qed.

End matchmaking_claims.

(** ** Rooms formed by [FindMatch] *)

Section rooms.
Import Redis services.
Implicit Types (s : MatchmakingService) (env : Env) (userID u : string).

Lemma CreateRoomForMatch_ok env u1 u2 s s1 roomID :
  CreateRoomForMatch env u1 u2 s = (s1, Ok roomID) →
  ∃ bytes oid1 oid2 room,
    randRead env = Some bytes ∧ roomID = hex.EncodeToString bytes ∧
    insertOne env = true ∧
    primitive.ObjectIDFromHex u1 = Ok oid1 ∧
    primitive.ObjectIDFromHex u2 = Ok oid2 ∧
    roomRepo s1 = roomRepo s ++ [room] ∧
    models.RoomID room = roomID ∧
    models.Status room = "waiting" ∧
    models.Participants room = [oid1; oid2] ∧
    redis s1 !! queueKey = redis s !! queueKey.
Proof.
  unfold CreateRoomForMatch, generateRoomID, repositories.Create.
  destruct (randRead env) as [bytes|]; [|intros [= ]].
  destruct (primitive.ObjectIDFromHex u1) as [oid1|]; [|intros [= ]].
  destruct (primitive.ObjectIDFromHex u2) as [oid2|]; [|intros [= ]].
  destruct (insertOne env); [|intros [= ]].
  intros [= <- <-].
  eexists bytes, oid1, oid2, _. cbn [roomRepo redis].
  repeat (split; [reflexivity|]).
  rewrite Expire_frame by apply roomStateKey_ne.
  apply exec_HSet_frame, roomStateKey_ne.
Qed.

Lemma CreateRoomForMatch_err env u1 u2 s s1 e :
  CreateRoomForMatch env u1 u2 s = (s1, Err e) → s1 = s.
Proof.
  unfold CreateRoomForMatch, generateRoomID, repositories.Create.
  destruct (randRead env); [|by intros [= ]].
  destruct (primitive.ObjectIDFromHex u1); [|by intros [= ]].
  destruct (primitive.ObjectIDFromHex u2); [|by intros [= ]].
  destruct (insertOne env); [discriminate|by intros [= ]].
Qed.

Lemma matched_ok env u1 u2 s s' roomID partner :
  matched env u1 u2 s = (s', Ok (roomID, partner)) →
  partner = u2 ∧
  ∃ oid1 oid2 room,
    primitive.ObjectIDFromHex u1 = Ok oid1 ∧
    primitive.ObjectIDFromHex u2 = Ok oid2 ∧
    roomRepo s' = roomRepo s ++ [room] ∧
    models.RoomID room = roomID ∧
    models.Participants room = [oid1; oid2] ∧
    ∀ now', now env ≤ now' →
      members now' s' = filter (λ v, v ≠ u2) (filter (λ v, v ≠ u1) (members now' s)).
Proof.
  unfold matched.
  destruct (CreateRoomForMatch env u1 u2 s) as [s1 [rid|e]] eqn:Hc; [|discriminate].
  intros [= <- <- <-]. split; [done|].
  destruct (CreateRoomForMatch_ok _ _ _ _ _ _ Hc)
    as (bytes & oid1 & oid2 & room & _ & _ & _ & H1 & H2 & Hr & Hid & _ & Hp & Hq).
  exists oid1, oid2, room. repeat (split; [done|]).
  split.
  { unfold LeaveQueue.
    destruct (ZRem _ _ u1 _); cbn [fst redis roomRepo with_redis];
      destruct (ZRem _ _ u2 _); cbn [fst redis roomRepo with_redis]; exact Hr. }
  split; [done|]. split; [done|].
  intros now' Hle. rewrite !LeaveQueue_members by done.
  by rewrite (members_lookup _ s s1).
Qed.

Lemma FindMatch_ok env userID s s' roomID partner :
  FindMatch env userID s = (s', Ok (roomID, partner)) →
  ∃ user1 user2,
    chosen userID (members (now env) s) = Some (user1, user2) ∧
    matched env user1 user2 s = (s', Ok (roomID, partner)).
Proof.
  intros H. destruct (ZRange (now env) queueKey 0 (-1) (redis s)) as [l|e] eqn:Hl.
  - rewrite (FindMatch_chosen _ _ _ _ Hl) in H. rewrite (members_ZRange _ _ _ Hl).
    destruct (decide (length l < 2)%nat); [discriminate|].
    destruct (chosen userID l) as [[user1 user2]|]; [|discriminate]. eauto.
  - unfold FindMatch in H. rewrite Hl in H. discriminate.
Qed.

Lemma chosen_pair userID l user1 user2 :
  NoDup l → chosen userID l = Some (user1, user2) →
  user1 ∈ l ∧ user2 ∈ l ∧ user1 ≠ user2.
Proof.
  intros Hnd. unfold chosen.
  destruct (scan userID l "") as [u1 u2] eqn:Hs.
  destruct (decide (u1 = "" ∨ u2 = "")) as [|Hn]; [discriminate|].
  intros [= <- <-].
  destruct (scan_pair userID l "" u1 u2 Hnd) as (H2 & Hne & H1); try done.
  - intros ?. by destruct Hn; right.
  - destruct H1 as [->|H1]; [|done]. by destruct Hn; left.
Qed.

End rooms.

Section room_claims.
Import Redis services.
Implicit Types (s : MatchmakingService) (env : Env) (userID u : string).

Lemma JoinQueue_new env u k s z :
  (redis s !! queueKey = None ∧ z = []
   ∨ redis s !! queueKey = Some (Entry (VZSet z) None)) →
  u ∉ z.*1 →
  redis (JoinQueue env u k s).1 !! queueKey
    = Some (Entry (VZSet (zinsert (u, time.Unix (now env)) z)) None) ∧
  roomRepo (JoinQueue env u k s).1 = roomRepo s.
Proof.
  intros Hq Hu. unfold JoinQueue, IsInQueue, ZScore, ZAdd, find.
  assert (Hz : zscore u z = None) by by apply zscore_None.
  destruct Hq as [[Hq ->]|Hq]; rewrite Hq; cbn [expired expireAt val]; [|rewrite Hz].
  - destruct (HSet _ _ _ _) as [r2|] eqn:Hh; cbn [fst redis roomRepo with_redis].
    + rewrite Expire_frame by apply metaKey_ne.
      rewrite (HSet_frame _ _ _ _ _ _ Hh) by apply metaKey_ne.
      by rewrite lookup_insert_eq.
    + by rewrite lookup_insert_eq.
  - rewrite (zremove_absent _ _ Hu).
    destruct (HSet _ _ _ _) as [r2|] eqn:Hh; cbn [fst redis roomRepo with_redis].
    + rewrite Expire_frame by apply metaKey_ne.
      rewrite (HSet_frame _ _ _ _ _ _ Hh) by apply metaKey_ne.
      by rewrite lookup_insert_eq.
    + by rewrite lookup_insert_eq.
Qed.

Lemma members_entry now s z :
  redis s !! queueKey = Some (Entry (VZSet z) None) → members now s = z.*1.
Proof. intros H. rewrite members_find. unfold find. by rewrite H. Qed.

(** C1.  A successful [FindMatch] appends one Room Record whose
    participants are the ObjectIDs of two different users of the queue
    (different ObjectIDs for ids in the form the token issuer writes), and
    neither of the two is in the queue when the call has returned.  In the
    scenario where A joins an empty queue and B joins at a later second,
    [FindMatch] for A succeeds with partner B and a room of exactly A and B,
    after which [GetQueueStatus] fails with [ErrNotInQueue] for both. *)
Theorem findMatch_room :
  (∀ env userID s s' roomID partner,
      NoDup (members (now env) s) →
      FindMatch env userID s = (s', Ok (roomID, partner)) →
      ∃ user1 user2 oid1 oid2 room,
        partner = user2 ∧ user1 ≠ user2 ∧
        user1 ∈ members (now env) s ∧ user2 ∈ members (now env) s ∧
        primitive.ObjectIDFromHex user1 = Ok oid1 ∧
        primitive.ObjectIDFromHex user2 = Ok oid2 ∧
        roomRepo s' = roomRepo s ++ [room] ∧
        models.RoomID room = roomID ∧
        models.Participants room = [oid1; oid2] ∧
        (is_user_id user1 → is_user_id user2 → oid1 ≠ oid2) ∧
        (∀ now', now env ≤ now' →
                 (user1 ∉ members now' s') ∧ (user2 ∉ members now' s'))) ∧
  (∀ A B oidA oidB envA envB env skillA skillB rooms bytes,
      A ≠ B →
      primitive.ObjectIDFromHex A = Ok oidA →
      primitive.ObjectIDFromHex B = Ok oidB →
      time.Unix (now envA) < time.Unix (now envB) →
      randRead env = Some bytes → insertOne env = true →
      let s0 := {| redis := ∅; roomRepo := rooms |} in
      let s := (JoinQueue envB B skillB (JoinQueue envA A skillA s0).1).1 in
      members (now env) s = [A; B] ∧
      ∃ s' room,
        FindMatch env A s = (s', Ok (hex.EncodeToString bytes, B)) ∧
        roomRepo s' = rooms ++ [room] ∧
        models.RoomID room = hex.EncodeToString bytes ∧
        models.Participants room = [oidA; oidB] ∧
        ∀ env', now env ≤ now env' →
                GetQueueStatus env' A s' = Err ErrNotInQueue ∧
                GetQueueStatus env' B s' = Err ErrNotInQueue).
Proof.
  split.
  - intros env userID s s' roomID partner Hnd Hf.
    destruct (FindMatch_ok _ _ _ _ _ _ Hf) as (user1 & user2 & Hc & Hm).
    destruct (chosen_pair _ _ _ _ Hnd Hc) as (Hi1 & Hi2 & Hne).
    destruct (matched_ok _ _ _ _ _ _ _ Hm) as (-> & oid1 & oid2 & room & H1 & H2 & Hr & Hid & Hp & Hq).
    exists user1, user2, oid1, oid2, room. repeat (split; [done|]).
    split.
    + unfold is_user_id. rewrite H1, H2. congruence.
    + intros now' Hle. rewrite (Hq now' Hle). split.
      * intros [_ [H _]%list_elem_of_filter]%list_elem_of_filter. congruence.
      * intros [H _]%list_elem_of_filter. congruence.
  - intros A B oidA oidB envA envB env skillA skillB rooms bytes
      Hne HA HB Hlt Hrand Hins s0 s.
    destruct (JoinQueue_new envA A skillA s0 []) as [Hq1 Hr1];
      [left; split; [apply lookup_empty|done]|apply not_elem_of_nil|].
    destruct (JoinQueue_new envB B skillB _ _ (or_intror Hq1)) as [Hq2 Hr2].
    { cbn. rewrite elem_of_cons. intros [?|?%elem_of_nil]; congruence. }
    fold s in Hq2, Hr2.
    assert (Hz : zinsert (B, time.Unix (now envB)) (zinsert (A, time.Unix (now envA)) [])
                 = [(A, time.Unix (now envA)); (B, time.Unix (now envB))]).
    { cbn. unfold zlt. cbn [fst snd].
      replace (_ <? _) with false by (symmetry; apply Z.ltb_ge; lia).
      replace (_ =? _) with false by (symmetry; apply Z.eqb_neq; lia). done. }
    rewrite Hz in Hq2.
    assert (Hm : ∀ t, members t s = [A; B]) by (intros t; by rewrite (members_entry _ _ _ Hq2)).
    split; [apply Hm|].
    assert (Hl : ZRange (now env) queueKey 0 (-1) (redis s) = Ok [A; B]).
    { rewrite ZRange_all. unfold find. by rewrite Hq2. }
    pose proof (FindMatch_chosen _ A _ _ Hl) as Hf.
    rewrite decide_False in Hf by (cbn; lia).
    assert (Hc : chosen A [A; B] = Some (A, B)).
    { unfold chosen. cbn. rewrite decide_True by done. rewrite decide_False by done.
      assert (A ≠ "") by (intros ->; discriminate).
      assert (B ≠ "") by (intros ->; discriminate).
      rewrite decide_True by done.
      rewrite decide_False by (intros [?|?]; congruence). done. }
    rewrite Hc in Hf.
    destruct (matched env A B s) as [s' [[rid partner]|e]] eqn:Hmt.
    + destruct (matched_ok _ _ _ _ _ _ _ Hmt)
        as (-> & o1 & o2 & room & H1 & H2 & Hr & Hid & Hp & Hq).
      assert (rid = hex.EncodeToString bytes) as ->.
      { unfold matched in Hmt.
        destruct (CreateRoomForMatch env A B s) as [s1 [rid'|]] eqn:Hcr; [|discriminate].
        destruct (CreateRoomForMatch_ok _ _ _ _ _ _ Hcr) as (b & _ & _ & _ & Hb & -> & _).
        injection Hmt as _ <- . congruence. }
      exists s', room. split; [done|].
      split; [by rewrite Hr, Hr2, Hr1|]. split; [done|].
      split; [congruence|].
      intros env' Hle. rewrite !GetQueueStatus_absent, (Hq _ Hle), Hm.
      rewrite !filter_cons, !filter_nil.
      rewrite decide_False by (intros H; by apply H).
      rewrite decide_True by done. rewrite filter_cons, filter_nil.
      rewrite decide_False by (intros H; by apply H).
      split; apply not_elem_of_nil.
    + exfalso. unfold matched, CreateRoomForMatch, generateRoomID, repositories.Create in Hmt.
      rewrite Hrand, HA, HB, Hins in Hmt. discriminate.
Qed.

End room_claims.

(** ** At most one Queue Entry per user *)

Section queue_entries.
Import Redis services.
Implicit Types (s : MatchmakingService) (env : Env) (userID u : string).

Lemma zremove_Forall (P : string * Z → Prop) m z : Forall P z → Forall P (zremove m z).
Proof.
  unfold zremove. induction 1 as [|y z Hy Hz IH]; [constructor|].
  rewrite filter_cons. destruct (decide (y.1 ≠ m)); [by constructor|done].
Qed.

Lemma zinsert_Forall (P : string * Z → Prop) x z : P x → Forall P z → Forall P (zinsert x z).
Proof. intros Hx Hz. rewrite (zinsert_perm x z). by constructor. Qed.

Lemma JoinQueue_lookup env u k s :
  redis (JoinQueue env u k s).1 !! queueKey =
    match IsInQueue env u s with
    | Ok false =>
        match ZAdd (now env) queueKey (time.Unix (now env)) u (redis s) with
        | Ok r1 => r1 !! queueKey
        | Err _ => redis s !! queueKey
        end
    | _ => redis s !! queueKey
    end.
Proof.
  unfold JoinQueue. destruct (IsInQueue env u s) as [[]|]; try done.
  destruct (ZAdd _ _ _ _ _) as [r1|]; [|done].
  destruct (HSet _ _ _ _) as [r2|] eqn:Hh; cbn [fst redis with_redis]; [|done].
  rewrite Expire_frame by apply metaKey_ne.
  by rewrite (HSet_frame _ _ _ _ _ _ Hh) by apply metaKey_ne.
Qed.

Lemma find_inv now st :
  entry_inv (st !! queueKey) →
  find now queueKey st = st !! queueKey.
Proof.
  unfold find. destruct (st !! queueKey) as [e|]; [|done].
  by intros (z & -> & _).
Qed.

Lemma queue_inv_join env u k s :
  0 < time.Unix (now env) → queue_inv s → queue_inv (JoinQueue env u k s).1.
Proof.
  intros Hpos Hinv. unfold queue_inv in *. rewrite JoinQueue_lookup.
  destruct (IsInQueue env u s) as [[]|]; try done.
  unfold ZAdd. rewrite find_inv by done.
  destruct (redis s !! queueKey) as [e|] eqn:He.
  - destruct Hinv as (z & -> & Hnd & Hsc). rewrite lookup_insert_eq.
    eexists. split; [done|]. split; [by apply zadd_NoDup|].
    apply zinsert_Forall; [done|by apply zremove_Forall].
  - rewrite lookup_insert_eq. eexists. split; [done|].
    split; [apply NoDup_singleton|]. by repeat constructor.
Qed.

Lemma queue_inv_leave env u s : queue_inv s → queue_inv (LeaveQueue env u s).1.
Proof.
  intros Hinv. unfold queue_inv in *. unfold LeaveQueue, ZRem.
  rewrite find_inv by done.
  destruct (redis s !! queueKey) as [e|] eqn:He.
  - destruct Hinv as (z & -> & Hnd & Hsc).
    destruct (zremove u z) as [|y z'] eqn:Hz; cbn [fst redis with_redis].
    + rewrite Del_frame by apply metaKey_ne. by rewrite lookup_delete_eq.
    + rewrite Del_frame by apply metaKey_ne. rewrite lookup_insert_eq.
      eexists. split; [done|]. rewrite <- Hz.
      split; [by apply zremove_NoDup|by apply zremove_Forall].
  - cbn [fst redis with_redis]. rewrite Del_frame by apply metaKey_ne. by rewrite He.
Qed.

Lemma queue_inv_matched env u1 u2 s : queue_inv s → queue_inv (matched env u1 u2 s).1.
Proof.
  intros Hinv. unfold matched.
  destruct (CreateRoomForMatch env u1 u2 s) as [s1 [rid|e]] eqn:Hc; cbn [fst].
  - apply queue_inv_leave, queue_inv_leave. unfold queue_inv.
    destruct (CreateRoomForMatch_ok _ _ _ _ _ _ Hc) as (?&?&?&?&?&?&?&?&?&?&?&?&?&Hq).
    by rewrite Hq.
  - by rewrite (CreateRoomForMatch_err _ _ _ _ _ _ Hc).
Qed.

Lemma queue_inv_find env u s : queue_inv s → queue_inv (FindMatch env u s).1.
Proof.
  intros Hinv. unfold FindMatch.
  destruct (ZRange _ _ _ _ _) as [l|]; [|done].
  destruct (decide (length l < 2)%nat); [done|].
  destruct (scan u l "") as [user1 user2].
  destruct (decide (user1 = "" ∨ user2 = "")); [done|].
  by apply queue_inv_matched.
Qed.

Lemma queue_inv_serve_all calls s :
  Forall (λ call : Env * request, 0 < time.Unix (now call.1)) calls →
  queue_inv s → queue_inv (serve_all calls s).
Proof.
  unfold serve_all. intros Hc. revert s.
  induction Hc as [|[env req] calls Hpos _ IH]; intros s Hinv; [done|].
  cbn [foldl]. apply IH. unfold serve. cbn [fst snd] in *.
  destruct req; [by apply queue_inv_join|by apply queue_inv_leave|by apply queue_inv_find].
Qed.

Lemma NoDup_entries (l : list string) u : NoDup l → (length (filter (λ v, v = u) l) ≤ 1)%nat.
Proof.
  induction 1 as [|v l Hv Hnd IH]; [cbn; lia|].
  rewrite filter_cons. destruct (decide (v = u)) as [->|]; [|done].
  destruct (filter (λ v, v = u) l) as [|w t] eqn:Hf; [cbn; lia|].
  assert (Hw : w ∈ filter (λ v, v = u) l) by (rewrite Hf; apply list_elem_of_here).
  by apply list_elem_of_filter in Hw as [-> Hw].
Qed.

End queue_entries.

Section entry_claims.
Import Redis services.
Implicit Types (s : MatchmakingService) (env : Env) (userID u : string).

Lemma queue_inv_members now s : queue_inv s → NoDup (members now s).
Proof.
  unfold queue_inv. rewrite members_find. intros Hinv. rewrite find_inv by done.
  destruct (redis s !! queueKey) as [e|]; [|apply NoDup_nil_2].
  by destruct Hinv as (z & -> & Hnd & _).
Qed.

Lemma queue_inv_already env u k s :
  queue_inv s → u ∈ members (now env) s →
  JoinQueue env u k s = (s, Some ErrAlreadyInQueue).
Proof.
  unfold queue_inv. rewrite members_find. intros Hinv.
  unfold JoinQueue, IsInQueue, ZScore. rewrite find_inv by done.
  destruct (redis s !! queueKey) as [e|]; [|by intros ?%elem_of_nil].
  destruct Hinv as (z & -> & _ & Hsc). intros Hu.
  destruct (zscore u z) as [score|] eqn:Hz.
  - apply zscore_elem in Hz. rewrite Forall_forall in Hsc.
    apply Hsc in Hz. cbn in Hz.
    by replace (0 <? score) with true by (symmetry; apply Z.ltb_lt; lia).
  - apply zscore_None in Hz. done.
Qed.

(** C8.  After any sequence of [JoinQueue], [LeaveQueue] and [FindMatch]
    calls on the empty store, made at clock readings after the first second
    of the Unix epoch, every user has at most one Queue Entry, and
    [JoinQueue] for a user who has one fails with [ErrAlreadyInQueue] and
    leaves the whole state, the queue with it, as it was. *)
Theorem one_queue_entry calls :
  Forall (λ call : Env * request, 0 < time.Unix (now call.1)) calls →
  (∀ now' userID, (entries now' (serve_all calls no_store) userID ≤ 1)%nat) ∧
  (∀ env userID skillLevel,
      userID ∈ members (now env) (serve_all calls no_store) →
      JoinQueue env userID skillLevel (serve_all calls no_store)
        = (serve_all calls no_store, Some ErrAlreadyInQueue)).
Proof.
  intros Hc.
  assert (Hinv : queue_inv (serve_all calls no_store)).
  { apply queue_inv_serve_all; [done|]. unfold queue_inv, no_store. cbn.
    by rewrite lookup_empty. }
  split.
  - intros now' u. apply NoDup_entries. by apply queue_inv_members.
  - intros env u k Hu. by apply queue_inv_already.
Qed.

(** C7.  With two other users queued ahead of the requesting user,
    [FindMatch] succeeds with a room of those two: the requesting user is
    not a participant, is not the partner returned, and is the one Queue
    Entry left. *)
Theorem findMatch_leaves_requester :
  ∃ s env userID roomID partner room requester,
    members (now env) s = [sample.alice; sample.bob; userID] ∧
    (FindMatch env userID s).2 = Ok (roomID, partner) ∧
    last (roomRepo (FindMatch env userID s).1) = Some room ∧
    models.RoomID room = roomID ∧
    length (models.Participants room) = 2%nat ∧
    primitive.ObjectIDFromHex userID = Ok requester ∧
    (requester ∉ models.Participants room) ∧
    partner ≠ userID ∧
    members (now env) (FindMatch env userID s).1 = [userID].
Proof.
  exists sample.queue3, (sample.at_second (sample.epoch + 3)), sample.carol.
  eexists _, _, _, _.
  split; [by vm_compute|].
  split; [by vm_compute|].
  split; [by vm_compute|].
  split; [by vm_compute|].
  split; [by vm_compute|].
  split; [by vm_compute|].
  split; [|split; [by vm_compute|by vm_compute]].
  vm_compute. intros H. apply list_elem_of_In in H. cbn in H.
  by destruct H as [H|[H|[]]].
Qed.

End entry_claims.

(** ** The statements at sample inputs *)

Ltac by_decide := apply (bool_decide_unpack _); vm_compute; exact I.

Section witnesses.
Import Redis services sample.

Lemma findMatch_follows_rule_witness :
  ZRange (now (at_second (epoch + 2))) queueKey 0 (-1) (redis queue2) = Ok [alice; bob] ∧
  NoDup [alice; bob] ∧ ("" ∉ [alice; bob]) ∧
  FindMatch (at_second (epoch + 2)) bob queue2 = (queue2, Err ErrNoMatchFound) ∧
  FindMatch (at_second (epoch + 2)) alice queue2
    = matched (at_second (epoch + 2)) alice bob queue2.
Proof.
  assert (H1 : ZRange (now (at_second (epoch + 2))) queueKey 0 (-1) (redis queue2)
               = Ok [alice; bob]) by (vm_compute; reflexivity).
  assert (H2 : NoDup [alice; bob]) by by_decide.
  assert (H3 : "" ∉ [alice; bob]) by by_decide.
  repeat (split; [assumption|]).
  split.
  - destruct (findMatch_follows_rule _ bob _ _ H1 H2 H3) as (_ & _ & H).
    assert (Hr : spec.findMatch_pair bob [alice; bob] = None) by (vm_compute; reflexivity).
    rewrite Hr in H. exact H.
  - destruct (findMatch_follows_rule _ alice _ _ H1 H2 H3) as (_ & _ & H).
    assert (Hr : spec.findMatch_pair alice [alice; bob] = Some (alice, bob))
      by (vm_compute; reflexivity).
    rewrite Hr in H. exact H.
Defined.

Lemma leaveQueue_idempotent_witness :
  is_ok (ZRange (now (at_second (epoch + 2))) queueKey 0 (-1) (redis queue2)) = true ∧
  now (at_second (epoch + 2)) ≤ now (at_second (epoch + 3)) ∧
  (LeaveQueue (at_second (epoch + 2)) alice queue2).2 = None ∧
  LeaveQueue (at_second (epoch + 3)) alice (LeaveQueue (at_second (epoch + 2)) alice queue2).1
    = ((LeaveQueue (at_second (epoch + 2)) alice queue2).1, None).
Proof.
  assert (H1 : is_ok (ZRange (now (at_second (epoch + 2))) queueKey 0 (-1) (redis queue2))
               = true) by (vm_compute; reflexivity).
  assert (H2 : now (at_second (epoch + 2)) ≤ now (at_second (epoch + 3)))
    by (vm_compute; discriminate).
  split; [exact H1|]. split; [exact H2|].
  exact (leaveQueue_idempotent _ _ alice _ H1 H2).
Defined.

Lemma queueStatus_position_witness :
  (3 / 2) * 30 * time.Second ≤ maxInt64 ∧
  GetQueueStatus (at_second (epoch + 3)) carol queue3 = Ok (3, 30 * time.Second) ∧
  GetQueueStatus (at_second (epoch + 3)) carol queue2 = Err ErrNotInQueue.
Proof.
  assert (H1 : (3 / 2) * 30 * time.Second ≤ maxInt64) by (vm_compute; discriminate).
  split; [exact H1|].
  destruct (queueStatus_position (at_second (epoch + 3)) carol queue3) as (_ & _ & H).
  destruct (GetQueueStatus (at_second (epoch + 3)) carol queue3) as [[p w]|e] eqn:Hg;
    [|vm_compute in Hg; discriminate].
  assert (Hp : p = 3) by (vm_compute in Hg; congruence).
  destruct (H p w eq_refl) as (_ & Hw & _). subst p.
  rewrite (Hw H1). split; [reflexivity|].
  apply (queueStatus_position (at_second (epoch + 3)) carol queue2). by_decide.
Defined.

Lemma one_queue_entry_witness :
  Forall (λ call : Env * request, 0 < time.Unix (now call.1)) calls ∧
  (entries (now (at_second (epoch + 4))) (serve_all calls no_store) carol ≤ 1)%nat ∧
  JoinQueue (at_second (epoch + 4)) carol 900 (serve_all calls no_store)
    = (serve_all calls no_store, Some ErrAlreadyInQueue).
Proof.
  assert (H : Forall (λ call : Env * request, 0 < time.Unix (now call.1)) calls)
    by (repeat constructor).
  split; [exact H|].
  destruct (one_queue_entry _ H) as [H1 H2].
  split; [apply H1|]. apply H2. by_decide.
Defined.

Lemma findMatch_room_witness :
  NoDup (members (now (at_second (epoch + 2))) queue2) ∧
  FindMatch (at_second (epoch + 2)) alice queue2
    = ((FindMatch (at_second (epoch + 2)) alice queue2).1,
       Ok (hex.EncodeToString (replicate 16 x5a), bob)) ∧
  alice ≠ bob ∧ time.Unix 0 < time.Unix time.Second ∧
  (∃ room,
      roomRepo (FindMatch (at_second (epoch + 2)) alice queue2).1 = [room] ∧
      length (models.Participants room) = 2%nat) ∧
  (alice ∉ members (now (at_second (epoch + 9)))
             (FindMatch (at_second (epoch + 2)) alice queue2).1).
Proof.
  assert (H1 : NoDup (members (now (at_second (epoch + 2))) queue2))
    by (apply (bool_decide_unpack _); vm_compute; exact I).
  assert (H2 : FindMatch (at_second (epoch + 2)) alice queue2
    = ((FindMatch (at_second (epoch + 2)) alice queue2).1,
       Ok (hex.EncodeToString (replicate 16 x5a), bob))).
  { rewrite (surjective_pairing (FindMatch (at_second (epoch + 2)) alice queue2)) at 1.
    f_equal; vm_compute; reflexivity. }
  assert (H3 : alice ≠ bob) by discriminate.
  assert (H4 : time.Unix 0 < time.Unix time.Second) by reflexivity.
  repeat (split; [assumption|]).
  destruct findMatch_room as [Hgen Hscen].
  destruct (Hgen _ _ _ _ _ _ H1 H2)
    as (u1 & u2 & o1 & o2 & room & _ & _ & _ & _ & _ & _ & Hr & _ & Hp & _ & Hq).
  split.
  - exists room. split; [exact Hr|]. by rewrite Hp.
  - destruct (Hq (now (at_second (epoch + 9)))) as [Ha Hb]; [vm_compute; discriminate|].
    destruct (Hscen alice bob _ _
                {| now := 0; randRead := None; newObjectID := []; insertOne := false |}
                {| now := time.Second; randRead := None; newObjectID := []; insertOne := false |}
                (at_second 2) 1000 1200 [] (replicate 16 x5a) H3 eq_refl eq_refl H4 eq_refl eq_refl)
      as (_ & s' & room' & Hf & _).
    apply (bool_decide_unpack _). vm_compute. exact I.
Defined.

End witnesses.

(** ** The hub *)

Section hub_lemmas.
Import websocket hub.
Implicit Types (h g : Hub) (env : Env) (p : payload) (c : Client.t).

Lemma set_send_same c : Client.set_send (Client.send c) c = c.
Proof. by destruct c. Qed.

Lemma push_closed p ch : closed (push p ch) = closed ch.
Proof. unfold push. by destruct (decide _). Qed.

Lemma push_buf p ch :
  buf (push p ch) =
    if decide (length (buf ch) < clientBufferSize)%nat then buf ch ++ [p] else buf ch.
Proof. unfold push. by destruct (decide _). Qed.

Lemma sendToClient_open client p h c :
  heap h !! client = Some c → closed (Client.send c) = false →
  sendToClient client p h = Some (set_heap (deliver p (heap h) client) h).
Proof.
  intros Hc Ho. unfold sendToClient, deliver, trySend. rewrite Hc. cbn.
  rewrite Ho. cbn. by rewrite (alter_alt_Some _ _ _ _ Hc).
Qed.

Lemma deliver_lookup p objects a b :
  deliver p objects a !! b =
    if decide (a = b)
    then (λ c, Client.set_send (push p (Client.send c)) c) <$> objects !! a
    else objects !! b.
Proof. unfold deliver. apply lookup_alter. Qed.

Lemma wf_deliver p a h : wf h → wf (set_heap (deliver p (heap h) a) h).
Proof.
  intros Hwf u b Hu. cbn in *. destruct (Hwf u b Hu) as (c & Hc & Hid & Ho).
  rewrite deliver_lookup. destruct (decide (a = b)) as [->|]; [|eauto].
  rewrite Hc. cbn. eexists. split; [done|]. cbn. by rewrite push_closed.
Qed.

Lemma deliver_all_cons p a targets objects :
  deliver_all p (a :: targets) objects = deliver_all p targets (deliver p objects a).
Proof. done. Qed.

(** What a run of deliveries does to one connection: its channel was offered
    the payload once for every occurrence among the targets. *)
Lemma deliver_all_lookup p targets objects a :
  deliver_all p targets objects !! a =
    (λ c, Client.set_send
            (Nat.iter (length (filter (λ t, t = a) targets)) (push p) (Client.send c)) c)
      <$> objects !! a.
Proof.
  revert objects. induction targets as [|t targets IH]; intros objects.
  - cbn. destruct (objects !! a) as [c|]; [|done]. cbn. by rewrite set_send_same.
  - rewrite deliver_all_cons, IH, deliver_lookup, filter_cons.
    destruct (decide (t = a)) as [->|].
    + destruct (objects !! a) as [c|]; [|done]. cbn [fmap option_fmap option_map length].
      f_equal. cbn [Client.send Client.set_send]. by rewrite Nat.iter_succ_r.
    + done.
Qed.

Lemma deliver_all_other p targets objects a :
  a ∉ targets → deliver_all p targets objects !! a = objects !! a.
Proof.
  intros Ha. rewrite deliver_all_lookup.
  replace (filter (λ t, t = a) targets) with (@nil nat).
  - destruct (objects !! a) as [c|]; [|done]. cbn. by rewrite set_send_same.
  - symmetry. destruct (filter (λ t, t = a) targets) as [|t ts] eqn:Hf; [done|].
    assert (Ht : t ∈ filter (λ t, t = a) targets) by (rewrite Hf; apply list_elem_of_here).
    apply list_elem_of_filter in Ht as [-> Ht]. done.
Qed.

Lemma iter_push_buf p n ch :
  ∃ k, buf (Nat.iter n (push p) ch) = buf ch ++ replicate k p ∧
       (0 < n → length (buf ch) < clientBufferSize → 0 < k)%nat.
Proof.
  induction n as [|n IH].
  - exists 0%nat. cbn. rewrite app_nil_r. split; [done|lia].
  - destruct IH as (k & Hk & Hpos).
    change (Nat.iter (S n) (push p) ch) with (push p (Nat.iter n (push p) ch)).
    rewrite push_buf.
    destruct (decide _) as [Hlt|].
    + exists (S k). rewrite Hk, <- app_assoc. split; [|lia].
      f_equal. change [p] with (replicate 1 p). rewrite <- replicate_add.
      f_equal. lia.
    + exists k. split; [done|]. intros _ Hroom. destruct n as [|n]; [|apply Hpos; lia].
      cbn in *. lia.
Qed.

(** A target with room in its buffer has the payload enqueued. *)
Lemma deliver_all_enqueued p targets objects a c :
  a ∈ targets → objects !! a = Some c →
  (length (buf (Client.send c)) < clientBufferSize)%nat →
  ∃ c', deliver_all p targets objects !! a = Some c' ∧
        Client.UserID c' = Client.UserID c ∧
        ∃ k, (0 < k)%nat ∧ buf (Client.send c') = buf (Client.send c) ++ replicate k p.
Proof.
  intros Ha Hc Hroom. rewrite deliver_all_lookup, Hc. cbn.
  eexists. split; [done|]. split; [done|]. cbn.
  destruct (iter_push_buf p (length (filter (λ t, t = a) targets)) (Client.send c))
    as (k & Hk & Hpos).
  exists k. split; [|done]. apply Hpos; [|done].
  destruct (filter (λ t, t = a) targets) as [|t ts] eqn:Hf; [|cbn; lia].
  exfalso. eapply (filter_nil_not_elem_of _ _ a Hf); done.
Qed.

Lemma wf_deliver_all p targets h : wf h → wf (set_heap (deliver_all p targets (heap h)) h).
Proof.
  revert h. induction targets as [|a targets IH]; intros h Hwf.
  - by destruct h.
  - rewrite deliver_all_cons. apply (IH (set_heap (deliver p (heap h) a) h)).
    by apply wf_deliver.
Qed.

Lemma set_heap_same h : set_heap (heap h) h = h.
Proof. by destruct h. Qed.

Lemma all_fold p exclude (l : list (string * nat)) h :
  wf h → (∀ entry, entry ∈ l → clients h !! entry.1 = Some entry.2) →
  foldl (λ acc entry,
           h' ← acc;
           if decide (entry.1 = exclude) then Some h'
           else sendToClient entry.2 p h')
        (Some h) l
  = Some (set_heap
            (deliver_all p
               (omap (λ entry : string * nat,
                        if decide (entry.1 = exclude) then None else Some entry.2) l)
               (heap h)) h).
Proof.
  revert h. induction l as [|[u a] l IH]; intros h Hwf Hl.
  - cbn. by rewrite set_heap_same.
  - cbn [foldl omap list_omap fst snd mbind option_bind].
    assert (Hl' : ∀ entry, entry ∈ l → clients h !! entry.1 = Some entry.2)
      by (intros e He; apply Hl; by apply list_elem_of_further).
    destruct (decide (u = exclude)) as [|Hne]; [by apply IH|].
    pose proof (Hl (u, a) (list_elem_of_here _ _)) as Hu. cbn in Hu.
    destruct (Hwf _ _ Hu) as (c & Hc & _ & Ho).
    rewrite (sendToClient_open _ _ _ _ Hc Ho).
    by rewrite (IH (set_heap (deliver p (heap h) a) h)); [|apply wf_deliver|].
Qed.

Lemma broadcastToAllClients_deliver env p exclude h :
  fair env → wf h →
  broadcastToAllClients env p exclude h
    = Some (set_heap (deliver_all p (allTargets env exclude (clients h)) (heap h)) h).
Proof.
  intros (Hfair & _ & _) Hwf. unfold broadcastToAllClients, allTargets.
  apply all_fold; [done|].
  intros [u a]. rewrite Hfair. apply elem_of_map_to_list.
Qed.

Lemma getRoomParticipants_frame env roomID h :
  clients (getRoomParticipants env roomID h).1 = clients h ∧
  heap (getRoomParticipants env roomID h).1 = heap h ∧
  broadcast (getRoomParticipants env roomID h).1 = broadcast h ∧
  redis (getRoomParticipants env roomID h).1 = redis h ∧
  spawned (getRoomParticipants env roomID h).1 = spawned h.
Proof.
  unfold getRoomParticipants.
  destruct (rooms h !! roomID) as [cached|];
    [destruct (_ <? _); [done|]|];
    by destruct (Redis.HGetAll _ _ _).
Qed.

Lemma room_fold p exclude (l : list (string * string)) h :
  wf h →
  foldl (λ acc entry,
           h' ← acc;
           if decide ((entry.1 = "user1" ∨ entry.1 = "user2") ∧ entry.2 ≠ exclude)
           then match clients h' !! entry.2 with
                | Some client => sendToClient client p h'
                | None => Some h'
                end
           else Some h')
        (Some h) l
  = Some (set_heap
            (deliver_all p
               (omap (λ entry : string * string,
                        if decide ((entry.1 = "user1" ∨ entry.1 = "user2") ∧ entry.2 ≠ exclude)
                        then clients h !! entry.2 else None) l)
               (heap h)) h).
Proof.
  revert h. induction l as [|[k u] l IH]; intros h Hwf.
  - cbn. by rewrite set_heap_same.
  - cbn [foldl omap list_omap fst snd mbind option_bind].
    destruct (decide ((k = "user1" ∨ k = "user2") ∧ u ≠ exclude)) as [Hslot|Hne];
      [|by apply IH].
    destruct (clients h !! u) as [a|] eqn:Hu; [|by apply IH].
    destruct (Hwf _ _ Hu) as (c & Hc & _ & Ho).
    rewrite (sendToClient_open _ _ _ _ Hc Ho).
    by rewrite (IH (set_heap (deliver p (heap h) a) h)); [|apply wf_deliver].
Qed.

Lemma broadcastToRoomInternal_deliver env roomID p exclude h :
  fair env → wf h →
  broadcastToRoomInternal env roomID p exclude h
    = Some (set_heap
              (deliver_all p
                 (roomTargets env (participantsOf env roomID h) exclude (clients h))
                 (heap h))
              (getRoomParticipants env roomID h).1).
Proof.
  intros (_ & Hfair & _) Hwf. unfold broadcastToRoomInternal, roomTargets, participantsOf.
  destruct (getRoomParticipants_frame env roomID h) as (Hcl & Hhp & _).
  destruct (getRoomParticipants env roomID h) as [h1 [found|e]]; cbn [fst snd] in *.
  - rewrite <- Hcl, <- Hhp. apply room_fold.
    intros u' a' Hu. rewrite Hcl in Hu. rewrite Hhp. by apply Hwf.
  - rewrite map_to_list_empty, (proj1 (Permutation_nil_r _) (Hfair [])). cbn.
    by rewrite <- Hhp, set_heap_same.
Qed.

End hub_lemmas.

Section hub_claims.
Import websocket hub.
Implicit Types (h g : Hub) (env : Env) (p : payload) (c : Client.t).

Lemma foldl_None {A} (f : A → Hub → option Hub) l :
  foldl (λ acc e, g ← acc; f e g) None l = None.
Proof. by induction l. Qed.

(** A property that every step keeps holds after the loop. *)
Lemma foldl_keeps {A} (P : Hub → Prop) (f : A → Hub → option Hub) l h h' :
  (∀ e g g', f e g = Some g' → P g → P g') → P h →
  foldl (λ acc e, g ← acc; f e g) (Some h) l = Some h' → P h'.
Proof.
  intros Hf. revert h. induction l as [|e l IH]; intros h HP; cbn.
  - by intros [= <-].
  - destruct (f e h) as [g|] eqn:He; [|by rewrite foldl_None].
    cbn. apply IH. eauto.
Qed.

Lemma sendToClient_frame client p h h' :
  sendToClient client p h = Some h' →
  clients h' = clients h ∧ broadcast h' = broadcast h ∧ redis h' = redis h ∧
  rooms h' = rooms h ∧ spawned h' = spawned h.
Proof.
  unfold sendToClient. destruct (heap h !! client) as [c|]; [|discriminate]. cbn.
  destruct (trySend p (Client.send c)); [|discriminate]. cbn. by intros [= <-].
Qed.

Lemma broadcastToRoomInternal_clients env roomID p exclude h h' :
  broadcastToRoomInternal env roomID p exclude h = Some h' → clients h' = clients h.
Proof.
  unfold broadcastToRoomInternal.
  destruct (getRoomParticipants_frame env roomID h) as (Hcl & _).
  destruct (getRoomParticipants env roomID h) as [h1 [found|e]]; cbn [fst] in Hcl.
  - rewrite <- Hcl. intros Hf.
    apply (foldl_keeps (λ g, clients g = clients h1)
             (λ entry g,
                if decide ((entry.1 = "user1" ∨ entry.1 = "user2") ∧ entry.2 ≠ exclude)
                then match clients g !! entry.2 with
                     | Some client => sendToClient client p g
                     | None => Some g
                     end
                else Some g) _ _ _) in Hf; [done| |done].
    intros e g g' He Hg. destruct (decide _); [|by simplify_eq].
    destruct (clients g !! e.2); [|by simplify_eq].
    apply sendToClient_frame in He as [-> _]. done.
  - by intros [= <-].
Qed.

Lemma registerClient_Some client h h1 :
  registerClient client h = Some h1 →
  ∃ c, heap h !! client = Some c ∧ closed (Client.send c) = false ∧
       clients h1 = <[Client.UserID c := client]> (clients h) ∧
       heap h1 = deliver
                   [("type", JString EventConnected);
                    ("message", JString "Connected to RANKEDterview")]
                   (heap h) client.
Proof.
  unfold registerClient, Send.
  destruct (heap h !! client) as [c|] eqn:Hc; [|discriminate]. cbn [mbind option_bind].
  intros H. exists c. split; [done|].
  remember (go _ _) as h3 eqn:Hh3 in H.
  assert (Hh : heap h3 = heap h ∧ clients h3 = <[Client.UserID c := client]> (clients h)).
  { subst h3. by destruct (clients h !! Client.UserID c). }
  clear Hh3. destruct Hh as [Hheap Hcl].
  destruct (closed (Client.send c)) eqn:Ho.
  - unfold sendToClient, trySend in H. rewrite Hheap, Hc in H. cbn in H.
    rewrite Ho in H. discriminate.
  - rewrite (sendToClient_open _ _ _ c) in H by (by rewrite ?Hheap).
    injection H as <-. cbn [clients heap set_heap]. by rewrite Hheap.
Qed.

(** C5.  [unregisterClient] removes the Registry Entry of the user of a
    connection only when that entry refers to this very connection.  When it
    refers to another connection, or the user has no entry, the hub is left
    as it is; when it refers to this connection, the entry of that user is
    the one entry removed (and the call returns, in a well-formed hub).  In
    particular, once a newer connection of the same user has been
    registered, unregistering the older one leaves the entry of the newer
    one in place and changes nothing. *)
Theorem unregister_only_current env client c h :
  heap h !! client = Some c →
  (clients h !! Client.UserID c ≠ Some client →
   unregisterClient env client h = Some h) ∧
  (clients h !! Client.UserID c = Some client →
   (∀ h', unregisterClient env client h = Some h' →
          clients h' = delete (Client.UserID c) (clients h)) ∧
   (fair env → wf h → is_Some (unregisterClient env client h))) ∧
  (∀ newer c' h1 h2,
      newer ≠ client → heap h !! newer = Some c' →
      Client.UserID c' = Client.UserID c →
      registerClient client h = Some h1 → registerClient newer h1 = Some h2 →
      clients h2 !! Client.UserID c = Some newer ∧
      unregisterClient env client h2 = Some h2).
Proof.
  intros Hc. split; [|split].
  - intros Hne. unfold unregisterClient. rewrite Hc. cbn [mbind option_bind].
    destruct (clients h !! Client.UserID c) as [current|]; [|done].
    destruct (decide (current = client)) as [->|]; [by destruct Hne|done].
  - intros Hcur. unfold unregisterClient. rewrite Hc. cbn [mbind option_bind].
    rewrite Hcur, decide_True by done. split.
    + intros h'. destruct (decide (Client.RoomID c ≠ "")).
      * destruct (BroadcastToRoomExcept _ _ _ _ _) as [h3|] eqn:Hb; [|discriminate].
        cbn. intros [= <-]. cbn.
        unfold BroadcastToRoomExcept in Hb.
        by rewrite (broadcastToRoomInternal_clients _ _ _ _ _ _ Hb).
      * cbn. by intros [= <-].
    + intros Hfair Hwf. destruct (decide (Client.RoomID c ≠ "")); [|done].
      unfold BroadcastToRoomExcept.
      rewrite broadcastToRoomInternal_deliver; [done|done|].
      intros u a Hu. cbn in *.
      apply lookup_delete_Some in Hu as [Hne Hu].
      destruct (Hwf _ _ Hu) as (ca & Hca & Hid & Ho).
      assert (a ≠ client).
      { intros ->. rewrite Hc in Hca. injection Hca as <-. congruence. }
      rewrite lookup_insert_ne by done. eauto.
  - intros newer c' h1 h2 Hne Hc' Hid H1 H2.
    destruct (registerClient_Some _ _ _ H1) as (c1 & Hc1 & _ & Hcl1 & Hh1).
    rewrite Hc in Hc1. injection Hc1 as <-.
    destruct (registerClient_Some _ _ _ H2) as (c2 & Hc2 & _ & Hcl2 & Hh2).
    rewrite Hh1, deliver_lookup, decide_False in Hc2 by done.
    rewrite Hc' in Hc2. injection Hc2 as <-.
    assert (Hnew : clients h2 !! Client.UserID c = Some newer).
    { rewrite Hcl2, Hid. apply lookup_insert_eq. }
    split; [done|].
    unfold unregisterClient.
    rewrite Hh2, deliver_lookup, decide_False by done.
    rewrite Hh1, deliver_lookup, decide_True, Hc by done.
    cbn. rewrite Hnew. by rewrite decide_False by done.
Qed.

End hub_claims.

Section relay_claims.
Import websocket hub.
Implicit Types (h g : Hub) (env : Env) (p : payload) (c : Client.t).

Lemma getRoomParticipants_set_heap env roomID v h :
  getRoomParticipants env roomID (set_heap v h)
  = (set_heap v (getRoomParticipants env roomID h).1, (getRoomParticipants env roomID h).2).
Proof.
  unfold getRoomParticipants. cbn [rooms redis set_heap].
  destruct (rooms h !! roomID) as [cached|];
    [destruct (_ <? _); [done|]|];
    by destruct (Redis.HGetAll _ _ _).
Qed.

Lemma roomTargets_elem env found exclude registry a :
  fair env →
  a ∈ roomTargets env found exclude registry ↔
  ∃ slot userID, (slot = "user1" ∨ slot = "user2") ∧ found !! slot = Some userID ∧
                 userID ≠ exclude ∧ registry !! userID = Some a.
Proof.
  intros (_ & Hfair & _). unfold roomTargets. rewrite list_elem_of_omap. split.
  - intros ([slot userID] & Hin & Hf). cbn in Hf.
    destruct (decide _) as [[Hs Hne]|]; [|discriminate].
    rewrite Hfair in Hin. apply elem_of_map_to_list in Hin. eauto 10.
  - intros (slot & userID & Hs & Hl & Hne & Hr). exists (slot, userID). split.
    + rewrite Hfair. by apply elem_of_map_to_list.
    + cbn. by rewrite decide_True.
Qed.

Lemma allTargets_elem env exclude registry a :
  fair env →
  a ∈ allTargets env exclude registry ↔
  ∃ userID, userID ≠ exclude ∧ registry !! userID = Some a.
Proof.
  intros (Hfair & _ & _). unfold allTargets. rewrite list_elem_of_omap. split.
  - intros ([userID a'] & Hin & Hf). cbn in Hf.
    destruct (decide _); [discriminate|]. injection Hf as ->.
    rewrite Hfair in Hin. apply elem_of_map_to_list in Hin. eauto.
  - intros (userID & Hne & Hr). exists (userID, a). split.
    + rewrite Hfair. by apply elem_of_map_to_list.
    + cbn. by rewrite decide_False.
Qed.

Lemma enqueued_elem p targets objects a c :
  a ∈ targets → objects !! a = Some c →
  (length (buf (Client.send c)) < clientBufferSize)%nat →
  ∃ c', deliver_all p targets objects !! a = Some c' ∧ p ∈ buf (Client.send c').
Proof.
  intros Ha Hc Hroom.
  destruct (deliver_all_enqueued p _ _ _ _ Ha Hc Hroom) as (c' & Hc' & _ & k & Hk & Hb).
  exists c'. split; [done|]. rewrite Hb. apply elem_of_app. right.
  destruct k; [lia|]. apply list_elem_of_here.
Qed.

Lemma offer_frame m h :
  heap (offer m h) = heap h ∧ clients (offer m h) = clients h ∧
  redis (offer m h) = redis h ∧ rooms (offer m h) = rooms h ∧
  spawned (offer m h) = spawned h.
Proof. unfold offer. by case_decide. Qed.

Lemma offer_broadcast m h :
  broadcast (offer m h) =
    if decide (length (broadcast h) < broadcastBufferSize)%nat
    then broadcast h ++ [m] else broadcast h.
Proof. unfold offer. by case_decide. Qed.

Lemma wf_latch roomID client c h :
  wf h → heap h !! client = Some c →
  wf (set_heap (<[client := latch roomID c]> (heap h)) h).
Proof.
  intros Hwf Hc u a Hu. cbn in *. destruct (Hwf u a Hu) as (ca & Hca & Hid & Ho).
  destruct (decide (client = a)) as [->|].
  - rewrite lookup_insert_eq. rewrite Hc in Hca. injection Hca as <-.
    eexists. split; [done|]. unfold latch. by destruct (decide _).
  - rewrite lookup_insert_ne by done. eauto.
Qed.

(** C6.  [relayWebRTC] of an event whose [to] field names a room makes both
    deliveries.  It offers the payload to the channel of the connection of
    every participant of the room (slots [user1] and [user2]) other than the
    sender, enqueueing it where the buffer has room, and it puts on the
    dispatch queue (when that has room) one message for all but the sender;
    a worker that handles this message offers the payload to the channel of
    every registered connection of another user.  No connection of the
    sender's user is among the targets of either, and the sender's channel
    is as it was. *)
Theorem relay_delivers env client c msg h :
  fair env → wf h → heap h !! client = Some c → Event.To msg ≠ "" →
  let sender := Client.UserID c in
  let found := participantsOf env (Event.To msg) h in
  let room := roomTargets env found sender (clients h) in
  ∃ h',
    relayWebRTC env client msg h = Some h' ∧
    heap h' = deliver_all (signal c msg) room
                (<[client := latch (Event.To msg) c]> (heap h)) ∧
    (∀ a, a ∈ room ↔
          ∃ slot userID, (slot = "user1" ∨ slot = "user2") ∧
                         found !! slot = Some userID ∧ userID ≠ sender ∧
                         clients h !! userID = Some a) ∧
    (∀ a ca, a ∈ room → heap h !! a = Some ca →
             (length (buf (Client.send ca)) < clientBufferSize)%nat →
             ∃ ca', heap h' !! a = Some ca' ∧ signal c msg ∈ buf (Client.send ca')) ∧
    clients h' = clients h ∧
    broadcast h' =
      (if decide (length (broadcast h) < broadcastBufferSize)%nat
       then broadcast h ++ [toAllExcept sender (signal c msg)]
       else broadcast h) ∧
    (∀ env' g,
        fair env' → wf g →
        let all := allTargets env' sender (clients g) in
        handleBroadcast env' (toAllExcept sender (signal c msg)) g
          = Some (set_heap (deliver_all (signal c msg) all (heap g)) g) ∧
        (∀ a, a ∈ all ↔ ∃ userID, userID ≠ sender ∧ clients g !! userID = Some a) ∧
        (∀ a ca, a ∈ all → heap g !! a = Some ca →
                 (length (buf (Client.send ca)) < clientBufferSize)%nat →
                 ∃ ca', deliver_all (signal c msg) all (heap g) !! a = Some ca' ∧
                        signal c msg ∈ buf (Client.send ca')) ∧
        (∀ a ca, heap g !! a = Some ca → Client.UserID ca = sender →
                 (a ∉ all) ∧ deliver_all (signal c msg) all (heap g) !! a = Some ca)) ∧
    (∀ a ca, heap h !! a = Some ca → Client.UserID ca = sender → a ∉ room) ∧
    (∃ cl, heap h' !! client = Some cl ∧ Client.send cl = Client.send c).
Proof.
  intros Hfair Hwf Hc Hto sender found room.
  assert (Hroom : ∀ a ca, heap h !! a = Some ca → Client.UserID ca = sender → a ∉ room).
  { intros a ca Hca Hid Hin.
    apply (roomTargets_elem _ _ _ _ _ Hfair) in Hin as (slot & u & _ & _ & Hne & Hu).
    destruct (Hwf _ _ Hu) as (c0 & Hc0 & Hid0 & _). congruence. }
  set (h1 := set_heap (<[client := latch (Event.To msg) c]> (heap h)) h).
  assert (Hh1 : (if decide (Client.RoomID c = "")
                 then set_heap (<[client := Client.set_RoomID (Event.To msg) c]> (heap h)) h
                 else h) = h1).
  { unfold h1, latch. destruct (decide _); [done|].
    by rewrite insert_id, set_heap_same. }
  assert (Hwf1 : wf h1) by by apply wf_latch.
  assert (Hp1 : participantsOf env (Event.To msg) h1 = found).
  { unfold found, participantsOf, h1. by rewrite getRoomParticipants_set_heap. }
  pose proof (broadcastToRoomInternal_deliver env (Event.To msg) (signal c msg) sender h1
                Hfair Hwf1) as Hb.
  rewrite Hp1 in Hb. change (clients h1) with (clients h) in Hb. fold room in Hb.
  eexists. split.
  { unfold relayWebRTC. rewrite Hc. cbn [mbind option_bind].
    rewrite decide_False by done. rewrite Hh1.
    unfold BroadcastToRoomExcept. fold sender.
    change [("type", JString (Event.Type_ msg)); ("from", JString sender);
            ("roomId", JString (Event.To msg)); ("sdp", Event.SDP msg);
            ("candidate", Event.Candidate msg)] with (signal c msg).
    rewrite Hb. cbn [mbind option_bind]. reflexivity. }
  destruct (getRoomParticipants_frame env (Event.To msg) h1) as (Hcl & Hhp & Hbr & _).
  assert (Hheap : heap (BroadcastToAllExcept sender (signal c msg)
                    (set_heap (deliver_all (signal c msg) room (heap h1))
                       (getRoomParticipants env (Event.To msg) h1).1))
                  = deliver_all (signal c msg) room (heap h1)).
  { unfold BroadcastToAllExcept. by rewrite (proj1 (offer_frame _ _)). }
  split; [exact Hheap|].
  split; [intros a; by apply roomTargets_elem|].
  split.
  { intros a ca Ha Hca Hlen. rewrite Hheap.
    assert (a ≠ client).
    { intros ->. rewrite Hc in Hca. injection Hca as <-. by eapply Hroom. }
    apply enqueued_elem with ca; [done| |done].
    cbn. by rewrite lookup_insert_ne. }
  split.
  { unfold BroadcastToAllExcept.
    rewrite (proj1 (proj2 (offer_frame _ _))). cbn. by rewrite Hcl. }
  split.
  { unfold BroadcastToAllExcept. rewrite offer_broadcast. cbn [broadcast set_heap].
    by rewrite Hbr. }
  split.
  { intros env' g Hfair' Hwfg all.
    split; [by apply broadcastToAllClients_deliver|].
    split; [intros a; by apply allTargets_elem|].
    split; [intros a ca Ha Hca Hlen; by apply enqueued_elem with ca|].
    intros a ca Hca Hid.
    assert (Hn : a ∉ all).
    { intros Hin. apply (allTargets_elem _ _ _ _ Hfair') in Hin as (u & Hne & Hu).
      destruct (Hwfg _ _ Hu) as (c0 & Hc0 & Hid0 & _). congruence. }
    split; [done|]. by rewrite deliver_all_other. }
  split; [exact Hroom|].
  exists (latch (Event.To msg) c). split.
  - rewrite Hheap, deliver_all_other by by eapply Hroom.
    cbn. apply lookup_insert_eq.
  - unfold latch. by destruct (decide _).
Qed.

End relay_claims.

(** ** The accept handshake *)

Section accept_lemmas.
Import websocket hub accept.
Implicit Types (h g : Hub) (env : Env) (p : payload) (c : Client.t).
Implicit Types (store r : gmap string Redis.entry).

Lemma not_expired_after now ttl v : 0 < ttl → Redis.expired now (Redis.Entry v (Some (now + ttl))) = false.
Proof. intros H. unfold Redis.expired. cbn. apply bool_decide_eq_false. lia. Qed.

(** The store and the reply after SADD, EXPIRE and SMEMBERS of a key. *)
Lemma recordAccept_spec env key userID ttl store :
  0 < ttl →
  let '(r, reply) := recordAccept env key userID ttl store in
  (∀ k, k ≠ key → r !! k = store !! k) ∧
  match Redis.find (now env) key store with
  | None =>
      r !! key = Some (Redis.Entry (Redis.VSet {[userID]}) (Some (now env + ttl))) ∧
      reply = Ok (smembers env (elements ({[userID]} : gset string)))
  | Some (Redis.Entry (Redis.VSet s) _) =>
      r !! key = Some (Redis.Entry (Redis.VSet ({[userID]} ∪ s)) (Some (now env + ttl))) ∧
      reply = Ok (smembers env (elements ({[userID]} ∪ s)))
  | Some (Redis.Entry v _) =>
      r !! key = Some (Redis.Entry v (Some (now env + ttl))) ∧
      reply = Err Redis.WrongType
  end.
Proof.
  intros Httl. unfold recordAccept, Redis.SAdd.
  destruct (Redis.find (now env) key store) as [[v t]|] eqn:Hf.
  - assert (Hnot : ∀ v', Redis.find (now env) key (<[key := Redis.Entry v' t]> store)
                         = Some (Redis.Entry v' t)).
    { intros v'. rewrite find_insert_eq.
      apply find_Some in Hf as [_ He]. unfold Redis.expired in *. cbn in *.
      by rewrite He. }
    destruct v as [x|x|s|x]; cbn [Redis.exec].
    1,2,4: unfold Redis.Expire; rewrite Hf; cbn [Redis.val];
      (split; [intros k Hk; by rewrite lookup_insert_ne|]);
      rewrite lookup_insert_eq; (split; [done|]);
      unfold Redis.SMembers; by rewrite find_insert_eq, not_expired_after.
    unfold Redis.Expire. rewrite Hnot. cbn [Redis.val].
    split; [intros k Hk; by rewrite !lookup_insert_ne|].
    rewrite insert_insert_eq, lookup_insert_eq. split; [done|].
    unfold Redis.SMembers. by rewrite find_insert_eq, not_expired_after.
  - cbn [Redis.exec]. unfold Redis.Expire. rewrite find_insert_eq. cbn [Redis.expired Redis.expireAt Redis.val].
    split; [intros k Hk; by rewrite !lookup_insert_ne|].
    rewrite insert_insert_eq, lookup_insert_eq. split; [done|].
    unfold Redis.SMembers. by rewrite find_insert_eq, not_expired_after.
Qed.

(** The reply lists the members of the set now stored, the accepting user
    among them, and they are at most two. *)
Lemma recordAccept_reply env acceptKey roomID userID ttl store r reply l :
  0 < ttl → fair env → at_most_one acceptKey store →
  recordAccept env (acceptKey roomID) userID ttl store = (r, reply) →
  reply = Ok l →
  ∃ S : gset string,
    r !! acceptKey roomID
      = Some (Redis.Entry (Redis.VSet S) (Some (now env + ttl))) ∧
    l ≡ₚ elements S ∧ userID ∈ S ∧ (size S ≤ 2)%nat.
Proof.
  intros Httl (_ & _ & Hfair) Hinv Hrec ->.
  pose proof (recordAccept_spec env (acceptKey roomID) userID ttl store Httl) as Hs.
  rewrite Hrec in Hs. destruct Hs as [_ Hs].
  destruct (Redis.find (now env) (acceptKey roomID) store) as [[v t]|] eqn:Hf.
  - destruct v as [x|x|s|x];
      [by destruct Hs as [_ ?]|by destruct Hs as [_ ?]| |by destruct Hs as [_ ?]].
    destruct Hs as [Hr [= ->]]. exists ({[userID]} ∪ s).
    split; [done|]. split; [apply Hfair|]. split; [set_solver|].
    apply find_Some in Hf as [Hl _].
    pose proof (Hinv roomID _ s Hl eq_refl) as Hsz.
    pose proof (size_union_alt ({[userID]} : gset string) s) as Hu.
    rewrite size_singleton in Hu.
    assert (size (s ∖ {[userID]}) ≤ size s)%nat.
    { apply subseteq_size. intros x Hx. by apply elem_of_difference in Hx as [? _]. }
    lia.
  - destruct Hs as [Hr [= ->]]. exists {[userID]}.
    split; [done|]. split; [apply Hfair|]. split; [set_solver|].
    rewrite size_singleton. lia.
Qed.

Lemma recordAccept_frame env key userID ttl store k :
  0 < ttl → k ≠ key →
  (recordAccept env key userID ttl store).1 !! k = store !! k.
Proof.
  intros Httl Hk.
  pose proof (recordAccept_spec env key userID ttl store Httl) as Hs.
  destruct (recordAccept env key userID ttl store) as [r reply].
  by apply Hs.
Qed.

(** When the reply is an error the key holds a value that is not a set. *)
Lemma recordAccept_error env key userID ttl store r e :
  0 < ttl → recordAccept env key userID ttl store = (r, Err e) →
  ∃ v t, r !! key = Some (Redis.Entry v t) ∧ ∀ s, v ≠ Redis.VSet s.
Proof.
  intros Httl Hrec.
  pose proof (recordAccept_spec env key userID ttl store Httl) as Hs.
  rewrite Hrec in Hs. destruct Hs as [_ Hs].
  destruct (Redis.find (now env) key store) as [[v t]|].
  - destruct v as [x|x|s|x]; destruct Hs as [Hr ?]; try discriminate;
      eexists _, _; (split; [exact Hr|]); by intros s.
  - by destruct Hs as [_ ?].
Qed.

Lemma at_most_one_update acceptKey key store r :
  at_most_one acceptKey store →
  (∀ k, k ≠ key → r !! k = store !! k) →
  (∀ e s, r !! key = Some e → Redis.val e = Redis.VSet s → (size s ≤ 1)%nat) →
  at_most_one acceptKey r.
Proof.
  intros Hinv Hframe Hkey roomID e s He Hv.
  destruct (decide (acceptKey roomID = key)) as [Heq|Hne].
  - rewrite Heq in He. eauto.
  - rewrite (Hframe _ Hne) in He. eauto.
Qed.

(** The two messages of [assignRoles] for two accepted users. *)
Lemma assignRoles_two roomID caller callee h :
  assignRoles roomID [caller; callee] h
  = offer (toUser callee (bothReady roomID "callee"))
      (offer (toUser caller (bothReady roomID "caller")) h).
Proof. done. Qed.

Lemma offer_two m1 m2 h :
  (length (broadcast h) + 2 ≤ broadcastBufferSize)%nat →
  broadcast (offer m2 (offer m1 h)) = broadcast h ++ [m1; m2].
Proof.
  intros Hlen. rewrite !offer_broadcast.
  rewrite (decide_True (P := (length (broadcast h) < _)%nat)) by lia.
  rewrite decide_True by (rewrite length_app; cbn; lia).
  by rewrite <- app_assoc.
Qed.

Lemma BroadcastToUser_offer userID data h :
  BroadcastToUser userID data h = offer (toUser userID data) h.
Proof. done. Qed.

Lemma assignRoles_frame roomID l h :
  heap (assignRoles roomID l h) = heap h ∧ clients (assignRoles roomID l h) = clients h ∧
  redis (assignRoles roomID l h) = redis h.
Proof.
  unfold assignRoles. generalize (imap (λ (i : nat) (userID : string), (i, userID)) l).
  intros il. revert h. induction il as [|iu il IH]; intros h; [done|].
  cbn [foldl]. destruct (IH (BroadcastToUser iu.2 (bothReady roomID (roleAt iu.1)) h))
    as (-> & -> & ->).
  rewrite BroadcastToUser_offer.
  by destruct (offer_frame (toUser iu.2 (bothReady roomID (roleAt iu.1))) h)
    as (-> & -> & -> & _).
Qed.

(** [notifyOthers] only appends to the dispatch queue, messages for users
    other than [self]. *)
Lemma notifyOthers_frame env roomID self found h :
  heap (notifyOthers env roomID self found h) = heap h ∧
  clients (notifyOthers env roomID self found h) = clients h ∧
  redis (notifyOthers env roomID self found h) = redis h ∧
  ∃ rest,
    broadcast (notifyOthers env roomID self found h) = broadcast h ++ rest ∧
    ∀ m, m ∈ rest → Message.UserID m ≠ self ∧ Message.Data m = partnerAccepted roomID.
Proof.
  unfold notifyOthers. generalize (rangeParticipants env (map_to_list found)).
  intros l. revert h. induction l as [|entry l IH]; intros h.
  - cbn. repeat (split; [done|]). exists []. rewrite app_nil_r. split; [done|].
    by intros m ?%elem_of_nil.
  - cbn [foldl]. destruct (decide _) as [[_ Hne]|]; [|apply IH].
    destruct (IH (BroadcastToUser entry.2 (partnerAccepted roomID) h))
      as (-> & -> & -> & rest & -> & Hrest).
    rewrite BroadcastToUser_offer.
    destruct (offer_frame (toUser entry.2 (partnerAccepted roomID)) h) as (-> & -> & -> & _).
    repeat (split; [done|]). rewrite offer_broadcast.
    destruct (decide _).
    + exists (toUser entry.2 (partnerAccepted roomID) :: rest).
      rewrite <- app_assoc. split; [done|].
      intros m [->|Hm]%elem_of_cons; [done|eauto].
    + eauto.
Qed.

End accept_lemmas.

Section accept_claims.
Import websocket hub accept.
Implicit Types (h g : Hub) (env : Env) (p : payload) (c : Client.t).
Implicit Types (store r : gmap string Redis.entry).

Lemma two_minutes : 0 < 2 * time.Minute.
Proof. done. Qed.

Lemma five_minutes : 0 < 5 * time.Minute.
Proof. done. Qed.

Lemma length_two (l : list string) : length l = 2%nat → ∃ a b, l = [a; b].
Proof. destruct l as [|a [|b [|]]]; try discriminate. eauto. Qed.

Lemma open_deliver p a h b : open h b → open (set_heap (deliver p (heap h) a) h) b.
Proof.
  intros (c & Hc & Ho). unfold open. cbn. rewrite deliver_lookup.
  destruct (decide (a = b)) as [->|]; [|eauto].
  rewrite Hc. cbn. eexists. split; [done|]. cbn. by rewrite push_closed.
Qed.

Lemma acceptanceSet_absent now key store : store !! key = None → acceptanceSet now key store = ∅.
Proof. intros H. unfold acceptanceSet, Redis.SMembers, Redis.find. by rewrite H. Qed.

(** The members replied are as many as the set stored has. *)
Lemma reply_size (l : list string) (S : gset string) : l ≡ₚ elements S → length l = size S.
Proof. intros ->. done. Qed.

Lemma reply_distinct (a b : string) (S : gset string) : [a; b] ≡ₚ elements S → a ≠ b.
Proof.
  intros Hp ->. pose proof (NoDup_elements S) as Hnd. rewrite <- Hp in Hnd.
  apply NoDup_cons in Hnd as [Hn _]. apply Hn, list_elem_of_here.
Qed.

(** What [handleAcceptMatch] of [client.go] returns, by the reply of SMEMBERS. *)
Lemma Client1_cases env client c msg h r reply :
  heap h !! client = Some c → closed (Client.send c) = false →
  Event.RoomID msg ≠ "" →
  recordAccept env (Client1.acceptKey (Event.RoomID msg)) (Client.UserID c)
    (2 * time.Minute) (redis h) = (r, reply) →
  Client1.handleAcceptMatch env client msg h =
    match reply with
    | Err _ => Some (set_redis r h)
    | Ok acceptedUsers =>
        let h2 :=
          if decide (length acceptedUsers = 1%nat)
          then set_heap (deliver waitingForPartner (heap h) client) (set_redis r h)
          else set_redis r h in
        if decide (2 ≤ length acceptedUsers)%nat then
          let found :=
            match Redis.HGetAll (now env) (roomKey (Event.RoomID msg)) r with
            | Ok found => found
            | Err _ => ∅
            end in
          let h4 :=
            notifyOthers env (Event.RoomID msg) (Client.UserID c) found
              (assignRoles (Event.RoomID msg) acceptedUsers h2) in
          Some (set_redis (Redis.Del (Client1.acceptKey (Event.RoomID msg)) (redis h4)) h4)
        else Some h2
    end.
Proof.
  intros Hc Ho Hroom Hrec. unfold Client1.handleAcceptMatch.
  rewrite Hc. cbn [mbind option_bind]. rewrite decide_False by done. rewrite Hrec.
  destruct reply as [l|e]; [|done].
  destruct (decide (length l = 1%nat)) as [Hl|Hl].
  - unfold Send. rewrite (sendToClient_open _ _ _ c) by done. cbn [mbind option_bind].
    destruct (decide (2 ≤ length l)%nat); [lia|reflexivity].
  - cbn [mbind option_bind]. destruct (decide (2 ≤ length l)%nat); reflexivity.
Qed.

(** An accept event handled by [client.go] returns, and leaves every
    Acceptance Set with at most one member: the set of its room has at most
    two members when the user is added, and is deleted when they are two. *)
Lemma Client1_accept_inv env client c msg h l :
  fair env → at_most_one Client1.acceptKey (redis h) →
  heap h !! client = Some c → closed (Client.send c) = false →
  Event.RoomID msg ≠ "" →
  (recordAccept env (Client1.acceptKey (Event.RoomID msg)) (Client.UserID c)
     (2 * time.Minute) (redis h)).2 = Ok l →
  (length l ≤ 2)%nat ∧
  ∃ h',
    Client1.handleAcceptMatch env client msg h = Some h' ∧
    at_most_one Client1.acceptKey (redis h') ∧
    ((length l = 2)%nat → redis h' !! Client1.acceptKey (Event.RoomID msg) = None).
Proof.
  intros Hfair Hinv Hc Ho Hroom Hreply.
  destruct (recordAccept env (Client1.acceptKey (Event.RoomID msg)) (Client.UserID c)
              (2 * time.Minute) (redis h)) as [r reply] eqn:Hrec.
  cbn [snd] in Hreply. subst reply.
  destruct (recordAccept_reply _ _ _ _ _ _ _ _ _ two_minutes Hfair Hinv Hrec eq_refl)
    as (S & Hr & Hperm & Hu & Hsize).
  pose proof (reply_size _ _ Hperm) as Hlen.
  assert (Hframe : ∀ k, k ≠ Client1.acceptKey (Event.RoomID msg) → r !! k = redis h !! k).
  { intros k Hk. pose proof (recordAccept_frame env _ (Client.UserID c) _ (redis h) k two_minutes Hk) as Hf.
    by rewrite Hrec in Hf. }
  split; [lia|].
  rewrite (Client1_cases _ _ _ _ _ _ _ Hc Ho Hroom Hrec).
  destruct (decide (2 ≤ length l)%nat) as [H2|H2].
  - rewrite decide_False by lia. cbn zeta.
    set (found := match Redis.HGetAll _ _ _ with Ok f => f | Err _ => ∅ end).
    set (h3 := assignRoles (Event.RoomID msg) l (set_redis r h)).
    destruct (notifyOthers_frame env (Event.RoomID msg) (Client.UserID c) found h3)
      as (Hheap & Hcl & Hred & rest & Hbr & Hrest).
    destruct (assignRoles_frame (Event.RoomID msg) l (set_redis r h)) as (_ & _ & Hred3).
    fold h3 in Hred3. cbn [redis set_redis] in Hred3.
    eexists. split; [done|]. cbn [redis set_redis]. rewrite Hred, Hred3.
    assert (Hdel : Redis.Del (Client1.acceptKey (Event.RoomID msg)) r
                     !! Client1.acceptKey (Event.RoomID msg) = None)
      by apply lookup_delete_eq.
    split.
    { apply (at_most_one_update _ (Client1.acceptKey (Event.RoomID msg)) (redis h)); [done| |].
      - intros k Hk. rewrite Del_frame by done. by apply Hframe.
      - intros e s He. by rewrite Hdel in He. }
    by intros _.
  - eexists. split; [done|]. split; [|intros; lia].
    assert (Hred : redis (if decide (length l = 1%nat)
                          then set_heap (deliver waitingForPartner (heap h) client) (set_redis r h)
                          else set_redis r h) = r) by (by destruct (decide _)).
    rewrite Hred.
    apply (at_most_one_update _ (Client1.acceptKey (Event.RoomID msg)) (redis h)); [done..|].
    intros e s He Hv. rewrite Hr in He. injection He as <-. cbn in Hv.
    injection Hv as <-. lia.
Qed.

Lemma Client1_open env client c msg h h' :
  heap h !! client = Some c → closed (Client.send c) = false →
  Client1.handleAcceptMatch env client msg h = Some h' →
  ∀ a, open h a → open h' a.
Proof.
  intros Hc Ho Hh a Ha.
  destruct (decide (Event.RoomID msg = "")) as [Hroom|Hroom].
  { unfold Client1.handleAcceptMatch in Hh. rewrite Hc in Hh. cbn in Hh.
    rewrite decide_True in Hh by done. by injection Hh as <-. }
  destruct (recordAccept env (Client1.acceptKey (Event.RoomID msg)) (Client.UserID c)
              (2 * time.Minute) (redis h)) as [r reply] eqn:Hrec.
  rewrite (Client1_cases _ _ _ _ _ _ _ Hc Ho Hroom Hrec) in Hh.
  destruct reply as [l|e]; [|by injection Hh as <-].
  assert (H2 : open (if decide (length l = 1%nat)
                     then set_heap (deliver waitingForPartner (heap h) client) (set_redis r h)
                     else set_redis r h) a).
  { destruct (decide _); [|done]. by apply (open_deliver _ _ (set_redis r h)). }
  destruct (decide (2 ≤ length l)%nat); [|by injection Hh as <-].
  injection Hh as <-. unfold open in *. cbn [heap set_redis].
  destruct (notifyOthers_frame env (Event.RoomID msg) (Client.UserID c)
              match Redis.HGetAll (now env) (roomKey (Event.RoomID msg)) r with
              | Ok found => found
              | Err _ => ∅
              end
              (assignRoles (Event.RoomID msg) l
                 (if decide (length l = 1%nat)
                  then set_heap (deliver waitingForPartner (heap h) client) (set_redis r h)
                  else set_redis r h))) as (-> & _).
  by destruct (assignRoles_frame (Event.RoomID msg) l
                 (if decide (length l = 1%nat)
                  then set_heap (deliver waitingForPartner (heap h) client) (set_redis r h)
                  else set_redis r h)) as (-> & _).
Qed.

(** What [handleAcceptMatch] of the other [client.go] returns. *)
Lemma Client2_cases env client c msg h r reply :
  heap h !! client = Some c → Event.RoomID msg ≠ "" →
  recordAccept env (Client2.acceptKey (Event.RoomID msg)) (Client.UserID c)
    (5 * time.Minute) (redis h) = (r, reply) →
  Client2.handleAcceptMatch env client msg h =
    let acceptedUsers := match reply with Ok l => l | Err _ => [] end in
    if decide (length acceptedUsers = 1%nat) then
      Some (notifyOthers env (Event.RoomID msg) (Client.UserID c)
              match Redis.HGetAll (now env) (roomKey (Event.RoomID msg)) r with
              | Ok found => found
              | Err _ => ∅
              end (set_redis r h))
    else if decide (2 ≤ length acceptedUsers)%nat then
      let h2 := assignRoles (Event.RoomID msg) (sortStrings acceptedUsers) (set_redis r h) in
      Some (set_redis (Redis.Del (Client2.acceptKey (Event.RoomID msg)) (redis h2)) h2)
    else Some (set_redis r h).
Proof.
  intros Hc Hroom Hrec. unfold Client2.handleAcceptMatch.
  rewrite Hc. cbn [mbind option_bind]. rewrite decide_False by done. by rewrite Hrec.
Qed.

Lemma Client2_open env client c msg h h' :
  heap h !! client = Some c →
  Client2.handleAcceptMatch env client msg h = Some h' →
  ∀ a, open h a → open h' a.
Proof.
  intros Hc Hh a Ha.
  destruct (decide (Event.RoomID msg = "")) as [Hroom|Hroom].
  { unfold Client2.handleAcceptMatch in Hh. rewrite Hc in Hh. cbn in Hh.
    rewrite decide_True in Hh by done. by injection Hh as <-. }
  destruct (recordAccept env (Client2.acceptKey (Event.RoomID msg)) (Client.UserID c)
              (5 * time.Minute) (redis h)) as [r reply] eqn:Hrec.
  rewrite (Client2_cases _ _ _ _ _ _ _ Hc Hroom Hrec) in Hh. cbn zeta in Hh.
  unfold open in *.
  destruct (decide (length _ = 1%nat)).
  { injection Hh as <-. by destruct (notifyOthers_frame env (Event.RoomID msg) (Client.UserID c)
              match Redis.HGetAll (now env) (roomKey (Event.RoomID msg)) r with
              | Ok found => found
              | Err _ => ∅
              end (set_redis r h)) as (-> & _). }
  destruct (decide (2 ≤ length _)%nat); injection Hh as <-; [|done].
  cbn [heap set_redis].
  by destruct (assignRoles_frame (Event.RoomID msg)
                 (sortStrings match reply with Ok l => l | Err _ => [] end)
                 (set_redis r h)) as (-> & _).
Qed.

(** The same for the other [client.go]. *)
Lemma Client2_accept_inv env client c msg h l :
  fair env → at_most_one Client2.acceptKey (redis h) →
  heap h !! client = Some c → closed (Client.send c) = false →
  Event.RoomID msg ≠ "" →
  (recordAccept env (Client2.acceptKey (Event.RoomID msg)) (Client.UserID c)
     (5 * time.Minute) (redis h)).2 = Ok l →
  (length l ≤ 2)%nat ∧
  ∃ h',
    Client2.handleAcceptMatch env client msg h = Some h' ∧
    at_most_one Client2.acceptKey (redis h') ∧
    ((length l = 2)%nat → redis h' !! Client2.acceptKey (Event.RoomID msg) = None).
Proof.
  intros Hfair Hinv Hc Ho Hroom Hreply.
  destruct (recordAccept env (Client2.acceptKey (Event.RoomID msg)) (Client.UserID c)
              (5 * time.Minute) (redis h)) as [r reply] eqn:Hrec.
  cbn [snd] in Hreply. subst reply.
  destruct (recordAccept_reply _ _ _ _ _ _ _ _ _ five_minutes Hfair Hinv Hrec eq_refl)
    as (S & Hr & Hperm & Hu & Hsize).
  pose proof (reply_size _ _ Hperm) as Hlen.
  assert (Hframe : ∀ k, k ≠ Client2.acceptKey (Event.RoomID msg) → r !! k = redis h !! k).
  { intros k Hk. pose proof (recordAccept_frame env _ (Client.UserID c) _ (redis h) k five_minutes Hk) as Hf.
    by rewrite Hrec in Hf. }
  split; [lia|].
  rewrite (Client2_cases _ _ _ _ _ _ _ Hc Hroom Hrec). cbn zeta.
  destruct (decide (length l = 1%nat)) as [H1|H1].
  - eexists. split; [done|]. split; [|intros; lia].
    destruct (notifyOthers_frame env (Event.RoomID msg) (Client.UserID c)
              match Redis.HGetAll (now env) (roomKey (Event.RoomID msg)) r with
              | Ok found => found
              | Err _ => ∅
              end (set_redis r h)) as (_ & _ & -> & _).
    cbn [redis set_redis].
    apply (at_most_one_update _ (Client2.acceptKey (Event.RoomID msg)) (redis h)); [done..|].
    intros e s He Hv. rewrite Hr in He. injection He as <-. cbn in Hv.
    injection Hv as <-. lia.
  - destruct (decide (2 ≤ length l)%nat) as [H2|H2].
    + destruct (assignRoles_frame (Event.RoomID msg) (sortStrings l) (set_redis r h))
        as (_ & _ & Hred).
      eexists. split; [done|]. cbn [redis set_redis]. rewrite Hred. cbn [redis set_redis].
      assert (Hdel : Redis.Del (Client2.acceptKey (Event.RoomID msg)) r
                       !! Client2.acceptKey (Event.RoomID msg) = None)
        by apply lookup_delete_eq.
      split.
      { apply (at_most_one_update _ (Client2.acceptKey (Event.RoomID msg)) (redis h)); [done| |].
        - intros k Hk. rewrite Del_frame by done. by apply Hframe.
        - intros e s He. by rewrite Hdel in He. }
      by intros _.
    + eexists. split; [done|]. split; [|intros; lia].
      cbn [redis set_redis].
      apply (at_most_one_update _ (Client2.acceptKey (Event.RoomID msg)) (redis h)); [done..|].
      intros e s He Hv. rewrite Hr in He. injection He as <-. cbn in Hv.
      injection Hv as <-. lia.
Qed.

Lemma at_most_one_error acceptKey env roomID userID ttl store r e :
  0 < ttl → at_most_one acceptKey store →
  recordAccept env (acceptKey roomID) userID ttl store = (r, Err e) →
  at_most_one acceptKey r.
Proof.
  intros Httl Hinv Hrec.
  destruct (recordAccept_error _ _ _ _ _ _ _ Httl Hrec) as (v & t & Hr & Hv).
  apply (at_most_one_update _ (acceptKey roomID) store); [done| |].
  - intros k Hk. pose proof (recordAccept_frame env _ userID _ store k Httl Hk) as Hf.
    by rewrite Hrec in Hf.
  - intros e' s He Hs. rewrite Hr in He. injection He as <-. cbn in Hs. by destruct (Hv s).
Qed.

Lemma Client1_step env client msg h :
  fair env → open h client → at_most_one Client1.acceptKey (redis h) →
  ∃ h', Client1.handleAcceptMatch env client msg h = Some h' ∧
        at_most_one Client1.acceptKey (redis h') ∧ ∀ a, open h a → open h' a.
Proof.
  intros Hfair (c & Hc & Ho) Hinv.
  destruct (decide (Event.RoomID msg = "")) as [Hroom|Hroom].
  { exists h. unfold Client1.handleAcceptMatch. rewrite Hc. cbn.
    by rewrite decide_True by done. }
  destruct (recordAccept env (Client1.acceptKey (Event.RoomID msg)) (Client.UserID c)
              (2 * time.Minute) (redis h)) as [r reply] eqn:Hrec.
  destruct reply as [l|e].
  - destruct (Client1_accept_inv env client c msg h l Hfair Hinv Hc Ho Hroom)
      as (_ & h' & Hh & Hinv' & _); [by rewrite Hrec|].
    exists h'. split; [done|]. split; [done|]. by eapply Client1_open.
  - exists (set_redis r h). rewrite (Client1_cases _ _ _ _ _ _ _ Hc Ho Hroom Hrec).
    split; [done|]. split; [|done]. cbn [redis set_redis].
    exact (at_most_one_error _ _ _ _ _ _ _ _ two_minutes Hinv Hrec).
Qed.

Lemma Client2_step env client msg h :
  fair env → open h client → at_most_one Client2.acceptKey (redis h) →
  ∃ h', Client2.handleAcceptMatch env client msg h = Some h' ∧
        at_most_one Client2.acceptKey (redis h') ∧ ∀ a, open h a → open h' a.
Proof.
  intros Hfair (c & Hc & Ho) Hinv.
  destruct (decide (Event.RoomID msg = "")) as [Hroom|Hroom].
  { exists h. unfold Client2.handleAcceptMatch. rewrite Hc. cbn.
    by rewrite decide_True by done. }
  destruct (recordAccept env (Client2.acceptKey (Event.RoomID msg)) (Client.UserID c)
              (5 * time.Minute) (redis h)) as [r reply] eqn:Hrec.
  destruct reply as [l|e].
  - destruct (Client2_accept_inv env client c msg h l Hfair Hinv Hc Ho Hroom)
      as (_ & h' & Hh & Hinv' & _); [by rewrite Hrec|].
    exists h'. split; [done|]. split; [done|]. by eapply Client2_open.
  - exists (set_redis r h). rewrite (Client2_cases _ _ _ _ _ _ _ Hc Hroom Hrec).
    split; [done|]. split; [|done]. cbn [redis set_redis].
    exact (at_most_one_error _ _ _ _ _ _ _ _ five_minutes Hinv Hrec).
Qed.

Lemma all_accepts_of_step acceptKey handle :
  (∀ env client msg h,
      fair env → open h client → at_most_one acceptKey (redis h) →
      ∃ h', handle env client msg h = Some h' ∧
            at_most_one acceptKey (redis h') ∧ ∀ a, open h a → open h' a) →
  all_accepts acceptKey handle.
Proof.
  intros Hstep events. unfold accepts.
  induction events as [|[[env client] msg] events IH]; intros h Hev Hinv.
  - exists h. by split.
  - apply Forall_cons in Hev as [[Hfair Hopen] Hev]. cbn [fst snd] in *.
    destruct (Hstep env client msg h Hfair Hopen Hinv) as (h1 & Hh1 & Hinv1 & Ho1).
    cbn [foldl mbind option_bind fst snd]. rewrite Hh1.
    apply IH; [|done].
    eapply Forall_impl; [exact Hev|]. intros ev [? ?]. split; [done|by apply Ho1].
Qed.

End accept_claims.

Section first_accept.
Import websocket hub accept.
Implicit Types (h g : Hub) (env : Env) (p : payload) (c : Client.t).

Lemma length_append (a b : string) :
  String.length (a +:+ b) = (String.length a + String.length b)%nat.
Proof. induction a as [|x a IH]; [done|]. simpl. by f_equal. Qed.

Lemma roomKey_ne1 roomID : roomKey roomID ≠ Client1.acceptKey roomID.
Proof. unfold roomKey, Client1.acceptKey. cbn. discriminate. Qed.

Lemma roomKey_ne2 roomID : roomKey roomID ≠ Client2.acceptKey roomID.
Proof.
  unfold roomKey, Client2.acceptKey. cbn. intros [= H].
  apply (f_equal String.length) in H. rewrite !length_append in H.
  cbn [String.length] in H. lia.
Qed.

Lemma others_elem now roomID self store other :
  other ∈ others now roomID self store ↔
  ∃ found slot, Redis.HGetAll now (roomKey roomID) store = Ok found ∧
                (slot = "user1" ∨ slot = "user2") ∧ found !! slot = Some other ∧
                other ≠ self.
Proof.
  unfold others. destruct (Redis.HGetAll now (roomKey roomID) store) as [found|e].
  - rewrite list_elem_of_fmap. split.
    + intros ([slot o] & -> & Hin). apply elem_of_map_to_list in Hin.
      apply map_lookup_filter_Some in Hin as [Hl [Hs Hne]]. cbn in *. eauto 10.
    + intros (found' & slot & [= <-] & Hs & Hl & Hne). exists (slot, other).
      split; [done|]. apply elem_of_map_to_list. by apply map_lookup_filter_Some.
  - split; [by intros ?%elem_of_nil|]. by intros (? & ? & [=] & _).
Qed.

(** The messages of the loop of [notifyOthers]: one for every entry that
    names another participant, all of them when the queue does not fill. *)
Lemma notify_fold roomID self (l : list (string * string)) h :
  ∃ rest,
    broadcast
      (foldl (λ acc entry,
                if decide ((entry.1 = "user1" ∨ entry.1 = "user2") ∧ entry.2 ≠ self)
                then BroadcastToUser entry.2 (partnerAccepted roomID) acc
                else acc) h l)
    = broadcast h ++ rest ∧
    (∀ m, m ∈ rest →
          ∃ entry, entry ∈ l ∧ (entry.1 = "user1" ∨ entry.1 = "user2") ∧
                   entry.2 ≠ self ∧ m = toUser entry.2 (partnerAccepted roomID)) ∧
    ((length (broadcast h ++ rest) < broadcastBufferSize)%nat →
     ∀ entry, entry ∈ l → (entry.1 = "user1" ∨ entry.1 = "user2") → entry.2 ≠ self →
              toUser entry.2 (partnerAccepted roomID) ∈ rest).
Proof.
  revert h. induction l as [|entry l IH]; intros h.
  - exists []. rewrite app_nil_r. split; [done|].
    split; [by intros m ?%elem_of_nil|]. by intros _ e ?%elem_of_nil.
  - cbn [foldl]. destruct (decide _) as [[Hs Hne]|Hn].
    + rewrite BroadcastToUser_offer.
      destruct (IH (offer (toUser entry.2 (partnerAccepted roomID)) h))
        as (rest & -> & Hrest & Hall).
      rewrite offer_broadcast in *. destruct (decide _) as [Hroom|Hfull].
      * exists (toUser entry.2 (partnerAccepted roomID) :: rest).
        rewrite <- app_assoc. split; [done|]. split.
        -- intros m [->|Hm]%elem_of_cons.
           ++ exists entry. split; [apply list_elem_of_here|done].
           ++ destruct (Hrest m Hm) as (e & He & ?). exists e.
              split; [by apply list_elem_of_further|done].
        -- cbn [app] in Hall. rewrite <- app_assoc in Hall. cbn [app] in Hall.
           intros Hlen e [->|He]%elem_of_cons Hse Hnee.
           ++ apply list_elem_of_here.
           ++ apply list_elem_of_further. by apply Hall.
      * exists rest. split; [done|]. split.
        -- intros m Hm. destruct (Hrest m Hm) as (e & He & ?). exists e.
           split; [by apply list_elem_of_further|done].
        -- intros Hlen. rewrite length_app in Hlen. lia.
    + destruct (IH h) as (rest & -> & Hrest & Hall). exists rest. split; [done|]. split.
      * intros m Hm. destruct (Hrest m Hm) as (e & He & ?). exists e.
        split; [by apply list_elem_of_further|done].
      * intros Hlen e [->|He]%elem_of_cons Hse Hnee; [by destruct Hn|by apply Hall].
Qed.

Lemma HGetAll_lookup now key store store' :
  store' !! key = store !! key →
  Redis.HGetAll now key store' = Redis.HGetAll now key store.
Proof. intros H. unfold Redis.HGetAll. by rewrite (find_lookup _ _ _ _ H). Qed.

(** C4, as the code has it.  When an accept event brings the Acceptance Set
    of its room to exactly one member: [handleAcceptMatch] of [client.go]
    offers the "waiting for partner" notice to the channel of the accepting
    connection and puts nothing on the dispatch queue, so that no other
    participant is notified; [handleAcceptMatch] of the other [client.go]
    puts on the dispatch queue a "partner accepted" message with the room id
    for the other participants of the room record, for each of them when the
    queue does not fill, and offers nothing to any channel, so that the
    accepting user is not notified. *)
Theorem first_accept_one_side env client c msg h member :
  fair env → heap h !! client = Some c → closed (Client.send c) = false →
  Event.RoomID msg ≠ "" →
  ((recordAccept env (Client1.acceptKey (Event.RoomID msg)) (Client.UserID c)
      (2 * time.Minute) (redis h)).2 = Ok [member] →
   ∃ h',
     Client1.handleAcceptMatch env client msg h = Some h' ∧
     heap h' = <[client := Client.set_send (push waitingForPartner (Client.send c)) c]> (heap h) ∧
     ((length (buf (Client.send c)) < clientBufferSize)%nat →
      buf (push waitingForPartner (Client.send c)) = buf (Client.send c) ++ [waitingForPartner]) ∧
     broadcast h' = broadcast h) ∧
  ((recordAccept env (Client2.acceptKey (Event.RoomID msg)) (Client.UserID c)
      (5 * time.Minute) (redis h)).2 = Ok [member] →
   ∃ h' rest,
     Client2.handleAcceptMatch env client msg h = Some h' ∧
     heap h' = heap h ∧
     broadcast h' = broadcast h ++ rest ∧
     (∀ m, m ∈ rest →
           Message.Data m = partnerAccepted (Event.RoomID msg) ∧
           Message.UserID m ≠ Client.UserID c ∧
           Message.UserID m ∈ others (now env) (Event.RoomID msg) (Client.UserID c) (redis h)) ∧
     ((length (broadcast h') < broadcastBufferSize)%nat →
      ∀ other, other ∈ others (now env) (Event.RoomID msg) (Client.UserID c) (redis h) →
               toUser other (partnerAccepted (Event.RoomID msg)) ∈ rest)).
Proof.
  intros Hfair Hc Ho Hroom. split.
  - destruct (recordAccept env (Client1.acceptKey (Event.RoomID msg)) (Client.UserID c)
                (2 * time.Minute) (redis h)) as [r reply] eqn:Hrec.
    cbn [snd]. intros ->.
    rewrite (Client1_cases _ _ _ _ _ _ _ Hc Ho Hroom Hrec). cbn [length]. cbn zeta.
    rewrite (decide_False (P := (2 ≤ 1)%nat)) by lia.
    rewrite (decide_True (P := (1 = 1)%nat)) by done.
    eexists. split; [done|]. cbn [heap broadcast set_heap set_redis].
    split; [unfold deliver; by rewrite (alter_alt_Some _ _ _ _ Hc)|].
    split; [|done]. intros Hlen. rewrite push_buf. by rewrite decide_True.
  - destruct (recordAccept env (Client2.acceptKey (Event.RoomID msg)) (Client.UserID c)
                (5 * time.Minute) (redis h)) as [r reply] eqn:Hrec.
    cbn [snd]. intros ->.
    rewrite (Client2_cases _ _ _ _ _ _ _ Hc Hroom Hrec). cbn [length]. cbn zeta.
    rewrite (decide_True (P := (1 = 1)%nat)) by done.
    assert (Hget : Redis.HGetAll (now env) (roomKey (Event.RoomID msg)) r
                   = Redis.HGetAll (now env) (roomKey (Event.RoomID msg)) (redis h)).
    { apply HGetAll_lookup.
      pose proof (recordAccept_frame env (Client2.acceptKey (Event.RoomID msg))
                    (Client.UserID c) (5 * time.Minute) (redis h)
                    (roomKey (Event.RoomID msg)) five_minutes (roomKey_ne2 _)) as Hf.
      by rewrite Hrec in Hf. }
    rewrite Hget.
    set (found := match Redis.HGetAll _ _ _ with Ok f => f | Err _ => ∅ end).
    destruct (notifyOthers_frame env (Event.RoomID msg) (Client.UserID c) found (set_redis r h))
      as (Hheap & _).
    unfold notifyOthers in *.
    destruct (notify_fold (Event.RoomID msg) (Client.UserID c)
                (rangeParticipants env (map_to_list found)) (set_redis r h))
      as (rest & Hbr & Hrest & Hall).
    eexists _, rest. split; [done|]. split; [done|]. split; [done|].
    assert (Hent : ∀ entry : string * string,
               entry ∈ rangeParticipants env (map_to_list found) →
               (entry.1 = "user1" ∨ entry.1 = "user2") → entry.2 ≠ Client.UserID c →
               entry.2 ∈ others (now env) (Event.RoomID msg) (Client.UserID c) (redis h)).
    { intros [slot other] Hin Hs Hne. cbn in *.
      destruct Hfair as (_ & Hfair & _). rewrite Hfair in Hin.
      apply elem_of_map_to_list in Hin. apply others_elem.
      unfold found in Hin.
      destruct (Redis.HGetAll (now env) (roomKey (Event.RoomID msg)) (redis h))
        as [f|e]; [eauto 10|by rewrite lookup_empty in Hin]. }
    split.
    + intros m Hm. destruct (Hrest m Hm) as (entry & Hin & Hs & Hne & ->).
      cbn. split; [done|]. split; [done|]. by apply Hent.
    + rewrite Hbr. intros Hlen other Hother.
      apply others_elem in Hother as (f & slot & Hf & Hs & Hl & Hne).
      apply (Hall Hlen (slot, other)); [|done..].
      destruct Hfair as (_ & Hfair & _). rewrite Hfair.
      apply elem_of_map_to_list. unfold found. by rewrite Hf.
Qed.

(** Neither handler notifies both sides: after the first accept of the
    sample room by Alice the Acceptance Set has exactly one member, Bob is
    the other participant, and the handler of [client.go] has nothing on its
    way to Bob while the handler of the other [client.go] has nothing on its
    way to Alice. *)
Lemma first_accept_not_both :
  let env := sample_hub.at_second (sample.epoch + 5) in
  (recordAccept env (Client1.acceptKey sample_hub.roomID) sample.alice
     (2 * time.Minute) (redis sample_hub.connected)).2 = Ok [sample.alice] ∧
  (recordAccept env (Client2.acceptKey sample_hub.roomID) sample.alice
     (5 * time.Minute) (redis sample_hub.connected)).2 = Ok [sample.alice] ∧
  others (now env) sample_hub.roomID sample.alice (redis sample_hub.connected)
    = [sample.bob] ∧
  ¬ notifies_both Client1.handleAcceptMatch env 1%nat sample_hub.accept_match
      sample_hub.connected ∧
  ¬ notifies_both Client2.handleAcceptMatch env 1%nat sample_hub.accept_match
      sample_hub.connected.
Proof.
  intros env.
  split; [by vm_compute|]. split; [by vm_compute|]. split; [by vm_compute|].
  split.
  - intros H. vm_compute in H. destruct H as [_ H].
    apply Forall_cons in H as [H _]. by apply H.
  - intros H. vm_compute in H. destruct H as [H _]. by apply H.
Qed.

End first_accept.

(** ** The registry stays well formed *)

Section registry.
Import websocket hub.
Implicit Types (h g : Hub) (env : Env) (p : payload) (c : Client.t).

Lemma wf_eq h g : clients g = clients h → heap g = heap h → wf h → wf g.
Proof. intros Hc Hh Hwf u a Hu. rewrite Hc in Hu. rewrite Hh. by apply Hwf. Qed.

Lemma wf_empty h : clients h = ∅ → wf h.
Proof. intros He u a Hu. by rewrite He, lookup_empty in Hu. Qed.

Lemma wf_register client h h1 : wf h → registerClient client h = Some h1 → wf h1.
Proof.
  intros Hwf Hr. destruct (registerClient_Some _ _ _ Hr) as (c & Hc & Ho & Hcl & Hh).
  intros u a Hu. rewrite Hcl in Hu. rewrite Hh, deliver_lookup.
  apply lookup_insert_Some in Hu as [[<- <-]|[Hne Hu]].
  - rewrite decide_True by done. rewrite Hc. cbn. eexists. split; [done|].
    cbn. by rewrite push_closed.
  - destruct (Hwf _ _ Hu) as (ca & Hca & Hid & Hoa).
    rewrite decide_False; [eauto|].
    intros <-. rewrite Hc in Hca. injection Hca as <-. done.
Qed.

Lemma wf_unregister env client h h' :
  fair env → wf h → unregisterClient env client h = Some h' → wf h'.
Proof.
  intros Hfair Hwf. unfold unregisterClient.
  destruct (heap h !! client) as [c|] eqn:Hc; [|discriminate]. cbn [mbind option_bind].
  destruct (clients h !! Client.UserID c) as [current|] eqn:Hcur; [|by intros [= <-]].
  destruct (decide (current = client)) as [->|]; [|by intros [= <-]].
  set (h2 := set_heap _ _).
  assert (Hwf2 : wf h2).
  { intros u a Hu. cbn in *. apply lookup_delete_Some in Hu as [Hne Hu].
    destruct (Hwf _ _ Hu) as (ca & Hca & Hid & Ho).
    assert (a ≠ client).
    { intros ->. rewrite Hc in Hca. injection Hca as <-. congruence. }
    rewrite lookup_insert_ne by done. eauto. }
  destruct (decide (Client.RoomID c ≠ "")).
  - unfold BroadcastToRoomExcept. rewrite broadcastToRoomInternal_deliver by done.
    cbn [mbind option_bind]. intros [= <-].
    destruct (getRoomParticipants_frame env (Client.RoomID c) h2) as (Hcl & Hhp & _).
    eapply (wf_eq (set_heap (deliver_all _ _ (heap h2)) h2)); [..|by apply wf_deliver_all].
    + cbn. by rewrite Hcl.
    + done.
  - cbn [mbind option_bind]. intros [= <-]. exact Hwf2.
Qed.

End registry.

(** ** The event that completes an Acceptance Set *)

Section both_ready.
Import websocket hub accept.
Implicit Types (h g : Hub) (env : Env) (p : payload) (c : Client.t).
Implicit Types (store r : gmap string Redis.entry).

(** Offers made one after the other: the dispatch queue takes them while it
    has room, and nothing else changes. *)
Lemma offer_all (msgs : list Message.t) h :
  broadcast (foldl (λ acc m, offer m acc) h msgs)
    = broadcast h ++ take (broadcastBufferSize - length (broadcast h)) msgs ∧
  heap (foldl (λ acc m, offer m acc) h msgs) = heap h ∧
  clients (foldl (λ acc m, offer m acc) h msgs) = clients h ∧
  redis (foldl (λ acc m, offer m acc) h msgs) = redis h.
Proof.
  revert h. induction msgs as [|m msgs IH]; intros h; cbn [foldl].
  - by rewrite take_nil, app_nil_r.
  - destruct (IH (offer m h)) as (Hb & Hh & Hc & Hr).
    destruct (offer_frame m h) as (Hh0 & Hc0 & Hr0 & _).
    rewrite Hb, Hh, Hc, Hr, Hh0, Hc0, Hr0. split; [|done].
    rewrite offer_broadcast.
    destruct (decide (length (broadcast h) < broadcastBufferSize)%nat) as [Hroom|Hfull].
    + rewrite length_app. cbn [length].
      replace (broadcastBufferSize - length (broadcast h))%nat
        with (S (broadcastBufferSize - (length (broadcast h) + 1)))%nat by lia.
      cbn [take]. by rewrite <- app_assoc.
    + replace (broadcastBufferSize - length (broadcast h))%nat with 0%nat by lia.
      by rewrite !take_0.
Qed.

(** The loop of [notifyOthers] offers one message to each user of
    [noticed], in that order. *)
Lemma notifyOthers_offers env roomID self (found : gmap string string) h :
  notifyOthers env roomID self found h =
    foldl (λ acc m, offer m acc) h
      ((λ userID, toUser userID (partnerAccepted roomID)) <$>
         (filter (λ entry : string * string,
                    (entry.1 = "user1" ∨ entry.1 = "user2") ∧ entry.2 ≠ self)
                 (rangeParticipants env (map_to_list found))).*2).
Proof.
  unfold notifyOthers. generalize (rangeParticipants env (map_to_list found)).
  intros l. revert h. induction l as [|entry l IH]; intros h; [done|].
  cbn [foldl]. rewrite filter_cons. destruct (decide _).
  - cbn [fmap list_fmap foldl]. by rewrite IH.
  - apply IH.
Qed.

(** The room record names at most two users in its slots [user1] and
    [user2]. *)
Lemma noticed_length env roomID self store :
  fair env → (length (noticed env roomID self store) ≤ 2)%nat.
Proof.
  intros (_ & Hfair & _). unfold noticed.
  set (found := match Redis.HGetAll _ _ _ with Ok f => f | Err _ => ∅ end).
  rewrite length_fmap, (Hfair (map_to_list found)), <- (length_fmap fst).
  change 2%nat with (length ["user1"; "user2"]).
  apply submseteq_length, NoDup_submseteq.
  - apply (sublist_NoDup _ (map_to_list found).*1).
    + apply NoDup_fst_map_to_list.
    + apply fmap_sublist, sublist_filter.
  - intros slot ([slot' userID] & -> & Hin)%list_elem_of_fmap.
    apply list_elem_of_filter in Hin as [[[-> | ->] _] _]; cbn.
    + apply list_elem_of_here.
    + apply list_elem_of_further, list_elem_of_here.
Qed.

(** The store that [recordAccept] leaves reads the room record as before. *)
Lemma noticed_recorded env roomID self ttl acceptKey userID store :
  0 < ttl → roomKey roomID ≠ acceptKey →
  noticed env roomID self (recordAccept env acceptKey userID ttl store).1
    = noticed env roomID self store.
Proof.
  intros Httl Hne. unfold noticed.
  by rewrite (HGetAll_lookup _ _ store _ (recordAccept_frame _ _ _ _ _ _ Httl Hne)).
Qed.

(** What [handleAcceptMatch] of [client.go] returns when SMEMBERS replies
    two members. *)
Lemma Client1_completes env client c msg h r caller callee :
  heap h !! client = Some c → closed (Client.send c) = false →
  Event.RoomID msg ≠ "" →
  recordAccept env (Client1.acceptKey (Event.RoomID msg)) (Client.UserID c)
    (2 * time.Minute) (redis h) = (r, Ok [caller; callee]) →
  Client1.handleAcceptMatch env client msg h =
    Some (set_redis (Redis.Del (Client1.acceptKey (Event.RoomID msg)) r)
            (foldl (λ acc m, offer m acc) (set_redis r h)
               (completion (Event.RoomID msg) caller callee
                  (noticed env (Event.RoomID msg) (Client.UserID c) (redis h))))).
Proof.
  intros Hc Ho Hroom Hrec.
  rewrite (Client1_cases _ _ _ _ _ _ _ Hc Ho Hroom Hrec). cbn [length]. cbn zeta.
  rewrite (decide_False (P := (2 = 1)%nat)) by lia.
  rewrite (decide_True (P := (2 ≤ 2)%nat)) by lia.
  rewrite notifyOthers_offers.
  change (assignRoles (Event.RoomID msg) [caller; callee] (set_redis r h))
    with (foldl (λ acc m, offer m acc) (set_redis r h)
            [toUser caller (bothReady (Event.RoomID msg) "caller");
             toUser callee (bothReady (Event.RoomID msg) "callee")]).
  rewrite <- foldl_app.
  pose proof (noticed_recorded env (Event.RoomID msg) (Client.UserID c) (2 * time.Minute)
                (Client1.acceptKey (Event.RoomID msg)) (Client.UserID c) (redis h)
                two_minutes (roomKey_ne1 _)) as Hn.
  rewrite Hrec in Hn. cbn [fst] in Hn. unfold noticed in Hn at 1. rewrite Hn.
  fold (completion (Event.RoomID msg) caller callee
          (noticed env (Event.RoomID msg) (Client.UserID c) (redis h))).
  destruct (offer_all (completion (Event.RoomID msg) caller callee
                         (noticed env (Event.RoomID msg) (Client.UserID c) (redis h)))
              (set_redis r h)) as (_ & _ & _ & ->).
  done.
Qed.

(** The same for the other [client.go], which sorts the members and
    notifies nobody else. *)
Lemma Client2_completes env client c msg h r l caller callee :
  heap h !! client = Some c → Event.RoomID msg ≠ "" →
  recordAccept env (Client2.acceptKey (Event.RoomID msg)) (Client.UserID c)
    (5 * time.Minute) (redis h) = (r, Ok l) →
  length l = 2%nat → sortStrings l = [caller; callee] →
  Client2.handleAcceptMatch env client msg h =
    Some (set_redis (Redis.Del (Client2.acceptKey (Event.RoomID msg)) r)
            (foldl (λ acc m, offer m acc) (set_redis r h)
               (completion (Event.RoomID msg) caller callee []))).
Proof.
  intros Hc Hroom Hrec Hlen Hsort.
  rewrite (Client2_cases _ _ _ _ _ _ _ Hc Hroom Hrec). cbn zeta.
  rewrite decide_False by lia. rewrite decide_True by lia. rewrite Hsort.
  change (assignRoles (Event.RoomID msg) [caller; callee] (set_redis r h))
    with (foldl (λ acc m, offer m acc) (set_redis r h)
            (completion (Event.RoomID msg) caller callee [])).
  destruct (offer_all (completion (Event.RoomID msg) caller callee []) (set_redis r h))
    as (_ & _ & _ & ->).
  done.
Qed.

(** One turn of a worker on a message for one user: the payload goes to the
    channel of the connection registered for the user, when there is one
    and its buffer has room. *)
Lemma worker_toUser env u p msgs h :
  wf h → broadcast h = toUser u p :: msgs →
  ∃ h1,
    broadcastWorker env h = Some h1 ∧ wf h1 ∧ broadcast h1 = msgs ∧
    clients h1 = clients h ∧
    ∀ a ca, heap h !! a = Some ca →
      ∃ ca1, heap h1 !! a = Some ca1 ∧ Client.UserID ca1 = Client.UserID ca ∧
             buf (Client.send ca1) =
               buf (Client.send ca)
                 ++ (if decide (clients h !! Client.UserID ca = Some a ∧
                                Client.UserID ca ≠ "" ∧ u = Client.UserID ca ∧
                                (length (buf (Client.send ca)) < clientBufferSize)%nat)
                     then [p] else []).
Proof.
  intros Hwf Hb. unfold broadcastWorker. rewrite Hb.
  assert (Hwf0 : wf (set_broadcast msgs h)) by (by apply (wf_eq h)).
  unfold handleBroadcast.
  cbn [toUser Message.Broadcast Message.UserID Message.RoomID Message.Data].
  destruct (decide (u ≠ "")) as [Hu|Hu].
  - unfold sendToUser. cbn [clients set_broadcast].
    destruct (clients h !! u) as [a0|] eqn:Hreg.
    + destruct (Hwf u a0 Hreg) as (c0 & Hc0 & Hid0 & Ho0).
      rewrite (sendToClient_open a0 p (set_broadcast msgs h) c0) by done.
      eexists. split; [done|]. split; [by apply wf_deliver|].
      split; [done|]. split; [done|].
      intros a ca Hca. cbn [heap set_heap set_broadcast]. rewrite deliver_lookup.
      destruct (decide (a0 = a)) as [->|Hne].
      * rewrite Hc0 in Hca. injection Hca as ->. rewrite Hc0. cbn [fmap option_fmap option_map].
        eexists. split; [done|]. split; [done|]. cbn [Client.send Client.set_send].
        rewrite push_buf. destruct (decide (length _ < _)%nat).
        -- by rewrite decide_True by (by rewrite Hid0).
        -- rewrite decide_False; [by rewrite app_nil_r|]. by intros (_ & _ & _ & ?).
      * exists ca. split; [done|]. split; [done|].
        rewrite decide_False; [by rewrite app_nil_r|].
        intros (Hr & _ & -> & _). rewrite Hr in Hreg. by injection Hreg as ->.
    + eexists. split; [done|]. split; [done|]. split; [done|]. split; [done|].
      intros a ca Hca. exists ca. split; [done|]. split; [done|].
      rewrite decide_False; [by rewrite app_nil_r|].
      intros (Hr & _ & -> & _). by rewrite Hr in Hreg.
  - rewrite decide_False by (by intros H).
    eexists. split; [done|]. split; [done|]. split; [done|]. split; [done|].
    intros a ca Hca. exists ca. split; [done|]. split; [done|].
    rewrite decide_False; [by rewrite app_nil_r|].
    intros (_ & Hne & -> & _). by apply Hu.
Qed.

(** Workers that take a queue of messages for single users off the queue
    leave every connection with what [received] gives after its former
    buffer. *)
Lemma workers_toUser (msgs : list Message.t) :
  ∀ (envs : list Env) h,
    wf h → broadcast h = msgs →
    Forall (λ m, m = toUser (Message.UserID m) (Message.Data m)) msgs →
    length envs = length msgs →
    ∃ h'',
      workers envs h = Some h'' ∧ broadcast h'' = [] ∧ clients h'' = clients h ∧
      ∀ a ca, heap h !! a = Some ca →
        ∃ ca', heap h'' !! a = Some ca' ∧ Client.UserID ca' = Client.UserID ca ∧
               buf (Client.send ca') = buf (Client.send ca) ++ received h msgs a ca.
Proof.
  induction msgs as [|m msgs IH]; intros envs h Hwf Hb Hto Hlen.
  - destruct envs; [|discriminate]. exists h. split; [done|]. split; [done|]. split; [done|].
    intros a ca Hca. exists ca. split; [done|]. split; [done|].
    unfold received, addressed. destruct (decide _); cbn; by rewrite ?take_nil, app_nil_r.
  - destruct envs as [|env envs]; [discriminate|]. injection Hlen as Hlen.
    apply Forall_cons in Hto as [Hm Hto]. rewrite Hm in Hb.
    destruct (worker_toUser env _ _ _ _ Hwf Hb) as (h1 & Hw & Hwf1 & Hb1 & Hcl1 & Hheap1).
    destruct (IH envs h1 Hwf1 Hb1 Hto Hlen) as (h'' & Hws & Hb'' & Hcl'' & Hheap'').
    exists h''. split.
    { unfold workers in *. cbn [foldl mbind option_bind]. by rewrite Hw. }
    split; [done|]. split; [by rewrite Hcl''|].
    intros a ca Hca.
    destruct (Hheap1 a ca Hca) as (ca1 & Hca1 & Hid1 & Hbuf1).
    destruct (Hheap'' a ca1 Hca1) as (ca' & Hca' & Hid' & Hbuf').
    exists ca'. split; [done|]. split; [by rewrite Hid'|].
    rewrite Hbuf'. unfold received. rewrite Hcl1, Hid1.
    unfold addressed. rewrite filter_cons.
    destruct (decide (clients h !! Client.UserID ca = Some a ∧ Client.UserID ca ≠ ""))
      as [[Hreg Hne]|Hn].
    + destruct (decide (Message.UserID m = Client.UserID ca)) as [Hu|Hu].
      * cbn [fmap list_fmap].
        destruct (decide (length (buf (Client.send ca)) < clientBufferSize)%nat) as [Hroom|Hfull].
        -- rewrite decide_True in Hbuf1 by done. rewrite Hbuf1.
           rewrite length_app. cbn [length].
           replace (clientBufferSize - length (buf (Client.send ca)))%nat
             with (S (clientBufferSize - (length (buf (Client.send ca)) + 1)))%nat by lia.
           cbn [take]. by rewrite <- app_assoc.
        -- rewrite decide_False in Hbuf1 by (by intros (_ & _ & _ & ?)).
           rewrite Hbuf1, app_nil_r.
           replace (clientBufferSize - length (buf (Client.send ca)))%nat with 0%nat by lia.
           by rewrite !take_0.
      * rewrite decide_False in Hbuf1 by (by intros (_ & _ & ? & _)).
        by rewrite Hbuf1, app_nil_r.
    + rewrite decide_False in Hbuf1 by (intros (? & ? & _); by apply Hn).
      by rewrite Hbuf1, !app_nil_r.
Qed.

(** The hub after the completing event, and after the workers have taken
    its messages off the queue. *)
Lemma completed h r d (sent : list Message.t) :
  Forall (λ m, m = toUser (Message.UserID m) (Message.Data m)) sent →
  (length sent ≤ broadcastBufferSize)%nat →
  let h' := set_redis d (foldl (λ acc m, offer m acc) (set_redis r h) sent) in
  heap h' = heap h ∧
  clients h' = clients h ∧
  broadcast h' = broadcast h ++ take (broadcastBufferSize - length (broadcast h)) sent ∧
  (wf h → broadcast h = [] →
   ∀ envs : list Env, length envs = length sent →
     ∃ h'',
       workers envs h' = Some h'' ∧ broadcast h'' = [] ∧ clients h'' = clients h ∧
       ∀ a ca, heap h !! a = Some ca →
         ∃ ca', heap h'' !! a = Some ca' ∧ Client.UserID ca' = Client.UserID ca ∧
                buf (Client.send ca') = buf (Client.send ca) ++ received h sent a ca).
Proof.
  intros Hto Hlen h'.
  destruct (offer_all sent (set_redis r h)) as (Hb & Hh & Hc & _).
  cbn [broadcast heap clients set_redis] in Hb, Hh, Hc.
  assert (Hh' : heap h' = heap h) by done.
  assert (Hc' : clients h' = clients h) by done.
  split; [done|]. split; [done|]. split; [done|].
  intros Hwf Hempty envs Henvs.
  assert (Hb' : broadcast h' = sent).
  { unfold h'. cbn [broadcast set_redis]. rewrite Hb, Hempty. cbn [app length].
    apply take_ge. lia. }
  destruct (workers_toUser sent envs h') as (h'' & Hw & Hq & Hcl & Hheap);
    [by apply (wf_eq h)|done..|].
  exists h''. split; [done|]. split; [done|]. split; [by rewrite Hcl|].
  intros a ca Hca. rewrite <- Hh' in Hca.
  destruct (Hheap a ca Hca) as (ca' & Hca' & Hid & Hbuf).
  exists ca'. split; [done|]. split; [done|].
  rewrite Hbuf. unfold received. by rewrite Hc'.
Qed.

Lemma completion_toUser roomID caller callee users :
  Forall (λ m, m = toUser (Message.UserID m) (Message.Data m))
    (completion roomID caller callee users).
Proof.
  unfold completion. apply Forall_app. split.
  - by repeat constructor.
  - apply Forall_fmap, Forall_true. done.
Qed.

Lemma completion_length roomID caller callee users :
  length (completion roomID caller callee users) = (2 + length users)%nat.
Proof. unfold completion. by rewrite length_app, length_fmap. Qed.

(** Among the messages of the completing event, a user is addressed
    "both_ready" once with its role when it is the caller or the callee, and
    otherwise only "partner_accepted". *)
Lemma addressed_completion roomID caller callee users u :
  caller ≠ callee →
  ∃ notices,
    Forall (λ p, p = partnerAccepted roomID) notices ∧
    addressed u (completion roomID caller callee users) =
      (if decide (u = caller) then [bothReady roomID "caller"]
       else if decide (u = callee) then [bothReady roomID "callee"] else [])
      ++ notices.
Proof.
  intros Hne. unfold addressed, completion.
  exists (Message.Data <$>
            filter (λ m, Message.UserID m = u)
              ((λ userID, toUser userID (partnerAccepted roomID)) <$> users)).
  split.
  - apply Forall_fmap, Forall_forall. intros m Hm.
    apply list_elem_of_filter in Hm as [_ Hm].
    by apply list_elem_of_fmap in Hm as (userID & -> & _).
  - rewrite filter_app, fmap_app. f_equal.
    rewrite !filter_cons, filter_nil. cbn [toUser Message.UserID].
    destruct (decide (u = caller)) as [->|Hc].
    + rewrite decide_True by done. by rewrite decide_False by done.
    + rewrite (decide_False (P := caller = u)) by done.
      destruct (decide (u = callee)) as [->|He].
      * by rewrite decide_True by done.
      * by rewrite decide_False by done.
Qed.

(** What the connection registered for a member receives, when its buffer
    has room. *)
Lemma received_ready h roomID caller callee users member role a ca :
  caller ≠ callee → wf h →
  (member, role) ∈ [(caller, "caller"); (callee, "callee")] → member ≠ "" →
  clients h !! member = Some a → heap h !! a = Some ca →
  (length (buf (Client.send ca)) < clientBufferSize)%nat →
  ∃ notices,
    received h (completion roomID caller callee users) a ca
      = bothReady roomID role :: notices ∧
    Forall (λ p, p = partnerAccepted roomID) notices.
Proof.
  intros Hne Hwf Hin Hm Hreg Hca Hroom.
  destruct (Hwf member a Hreg) as (c0 & Hc0 & Hid & _).
  rewrite Hca in Hc0. injection Hc0 as <-.
  unfold received. rewrite Hid. rewrite decide_True by done.
  destruct (addressed_completion roomID caller callee users member Hne)
    as (notices & Hnotices & ->).
  replace (clientBufferSize - length (buf (Client.send ca)))%nat
    with (S (clientBufferSize - (length (buf (Client.send ca)) + 1)))%nat by lia.
  exists (take (clientBufferSize - (length (buf (Client.send ca)) + 1)) notices).
  split; [|by apply Forall_take].
  apply elem_of_cons in Hin as [[= -> ->]|Hin].
  - by rewrite decide_True by done.
  - apply list_elem_of_singleton in Hin as [= -> ->].
    rewrite decide_False by (by intros H; apply Hne). by rewrite decide_True by done.
Qed.

Lemma Client1_one_accept :
  one_accept Client1.acceptKey (2 * time.Minute) id noticed Client1.handleAcceptMatch.
Proof.
  intros env client c msg h l Hfair Hinv Hc Ho Hroom Hreply.
  destruct (Client1_accept_inv env client c msg h l Hfair Hinv Hc Ho Hroom Hreply)
    as (Hlen & h' & Hh & Hinv' & Hdel).
  split; [done|]. exists h'. split; [done|]. split; [done|].
  intros H2. destruct (length_two l H2) as (caller & callee & ->).
  destruct (recordAccept env (Client1.acceptKey (Event.RoomID msg)) (Client.UserID c)
              (2 * time.Minute) (redis h)) as [r reply] eqn:Hrec.
  cbn [snd] in Hreply. subst reply.
  destruct (recordAccept_reply _ _ _ _ _ _ _ _ _ two_minutes Hfair Hinv Hrec eq_refl)
    as (S & _ & Hperm & Hu & _).
  exists caller, callee. split; [done|]. split; [done|].
  assert (Hdistinct : caller ≠ callee) by (by eapply reply_distinct).
  split; [done|].
  split; [rewrite Hperm; by apply elem_of_elements|].
  cbn zeta.
  rewrite (Client1_completes _ _ _ _ _ _ _ _ Hc Ho Hroom Hrec) in Hh. injection Hh as <-.
  destruct (completed h r (Redis.Del (Client1.acceptKey (Event.RoomID msg)) r)
              (completion (Event.RoomID msg) caller callee
                 (noticed env (Event.RoomID msg) (Client.UserID c) (redis h))))
    as (Hheap & Hcl & Hb & Hdeliver).
  { apply completion_toUser. }
  { rewrite completion_length.
    pose proof (noticed_length env (Event.RoomID msg) (Client.UserID c) (redis h) Hfair).
    unfold broadcastBufferSize. lia. }
  split; [done|]. split; [done|]. split; [done|].
  split; [by apply Hdel|].
  split; [intros now'; apply acceptanceSet_absent; by apply Hdel|].
  intros Hwf Hempty envs Henvs.
  destruct (Hdeliver Hwf Hempty envs Henvs) as (h'' & Hw & Hq & Hcl'' & Hbufs).
  exists h''. split; [done|]. split; [done|]. split; [done|]. split; [done|].
  intros member role a ca Hin Hm Hreg Hca Hroom'.
  destruct (Hbufs a ca Hca) as (ca' & Hca' & _ & Hbuf).
  destruct (received_ready h (Event.RoomID msg) caller callee
              (noticed env (Event.RoomID msg) (Client.UserID c) (redis h)) member role a ca
              Hdistinct Hwf Hin Hm Hreg Hca Hroom') as (notices & Hrec' & Hnotices).
  exists ca', notices. split; [done|]. split; [|done]. by rewrite Hbuf, Hrec'.
Qed.

Lemma Client2_one_accept :
  one_accept Client2.acceptKey (5 * time.Minute) sortStrings (λ _ _ _ _, [])
    Client2.handleAcceptMatch.
Proof.
  intros env client c msg h l Hfair Hinv Hc Ho Hroom Hreply.
  destruct (Client2_accept_inv env client c msg h l Hfair Hinv Hc Ho Hroom Hreply)
    as (Hlen & h' & Hh & Hinv' & Hdel).
  split; [done|]. exists h'. split; [done|]. split; [done|].
  intros H2.
  assert (Hsort : sortStrings l ≡ₚ l) by apply merge_sort_Permutation.
  destruct (length_two (sortStrings l)) as (caller & callee & Hs); [by rewrite Hsort|].
  destruct (recordAccept env (Client2.acceptKey (Event.RoomID msg)) (Client.UserID c)
              (5 * time.Minute) (redis h)) as [r reply] eqn:Hrec.
  cbn [snd] in Hreply. subst reply.
  destruct (recordAccept_reply _ _ _ _ _ _ _ _ _ five_minutes Hfair Hinv Hrec eq_refl)
    as (S & _ & Hperm & Hu & _).
  exists caller, callee. split; [done|]. rewrite Hs in Hsort.
  split; [done|].
  assert (Hdistinct : caller ≠ callee) by (apply (reply_distinct _ _ S); by rewrite Hsort).
  split; [done|].
  split; [rewrite Hperm; by apply elem_of_elements|].
  cbn zeta.
  rewrite (Client2_completes _ _ _ _ _ _ _ _ _ Hc Hroom Hrec H2 Hs) in Hh. injection Hh as <-.
  destruct (completed h r (Redis.Del (Client2.acceptKey (Event.RoomID msg)) r)
              (completion (Event.RoomID msg) caller callee []))
    as (Hheap & Hcl & Hb & Hdeliver).
  { apply completion_toUser. }
  { rewrite completion_length. unfold broadcastBufferSize. cbn [length]. lia. }
  split; [done|]. split; [done|]. split; [done|].
  split; [by apply Hdel|].
  split; [intros now'; apply acceptanceSet_absent; by apply Hdel|].
  intros Hwf Hempty envs Henvs.
  destruct (Hdeliver Hwf Hempty envs Henvs) as (h'' & Hw & Hq & Hcl'' & Hbufs).
  exists h''. split; [done|]. split; [done|]. split; [done|]. split; [done|].
  intros member role a ca Hin Hm Hreg Hca Hroom'.
  destruct (Hbufs a ca Hca) as (ca' & Hca' & _ & Hbuf).
  destruct (received_ready h (Event.RoomID msg) caller callee [] member role a ca
              Hdistinct Hwf Hin Hm Hreg Hca Hroom') as (notices & Hrec' & Hnotices).
  exists ca', notices. split; [done|]. split; [|done]. by rewrite Hbuf, Hrec'.
Qed.

(** C3.  Under either [handleAcceptMatch], and over every sequence of accept
    events handled one after the other: every Acceptance Set has at most one
    member between two events and at most two when an event has added its
    user.  The event that makes them two offers to the dispatch queue exactly
    a "both_ready" message with the room id and role "caller" for one member
    and one with role "callee" for the other, followed, in [client.go] only,
    by "partner_accepted" messages for the other participants of the room
    record; it changes no connection and deletes the Acceptance Set before
    it returns.  When the hub is well formed and the dispatch queue was
    empty, the workers that take these messages off the queue put on the
    channel of the connection registered for each member, when its buffer
    has room, "both_ready" with the role of that member, followed by
    "partner_accepted" notices only; no user is addressed "both_ready" but
    the caller, with role "caller", and the callee, with role "callee". *)
Theorem both_ready_once :
  (one_accept Client1.acceptKey (2 * time.Minute) id noticed Client1.handleAcceptMatch ∧
   all_accepts Client1.acceptKey Client1.handleAcceptMatch) ∧
  (one_accept Client2.acceptKey (5 * time.Minute) sortStrings (λ _ _ _ _, [])
     Client2.handleAcceptMatch ∧
   all_accepts Client2.acceptKey Client2.handleAcceptMatch) ∧
  (∀ roomID caller callee users userID,
      caller ≠ callee →
      ∃ notices,
        Forall (λ p, p = partnerAccepted roomID) notices ∧
        addressed userID (completion roomID caller callee users) =
          (if decide (userID = caller) then [bothReady roomID "caller"]
           else if decide (userID = callee) then [bothReady roomID "callee"] else [])
          ++ notices) ∧
  (∀ roomID role, bothReady roomID role ≠ partnerAccepted roomID).
Proof.
  split; [split|split; [split|split]].
  - apply Client1_one_accept.
  - apply all_accepts_of_step, Client1_step.
  - apply Client2_one_accept.
  - apply all_accepts_of_step, Client2_step.
  - intros roomID caller callee users userID Hne. by apply addressed_completion.
  - intros roomID role. unfold bothReady, partnerAccepted. discriminate.
Qed.

End both_ready.

(** ** The statements on the hub at sample inputs *)

Section hub_witnesses.
Import websocket hub accept sample sample_hub.

Lemma fair_at_second t : fair (at_second t).
Proof. by repeat split. Defined.

Lemma wf_connected : wf connected.
Proof.
  assert (H1 : ∃ h1, registerClient 1%nat started = Some h1 ∧
                     registerClient 2%nat h1 = Some connected).
  { eexists. split; [vm_compute; reflexivity|vm_compute; reflexivity]. }
  destruct H1 as (h1 & H1 & H2).
  eapply wf_register; [|exact H2]. eapply wf_register; [|exact H1].
  by apply wf_empty.
Defined.

Lemma unregister_only_current_witness :
  heap reconnecting !! 1%nat = Some (connection alice) ∧
  3%nat ≠ 1%nat ∧
  heap reconnecting !! 3%nat = Some (connection alice) ∧
  registerClient 1%nat reconnecting = Some first_registered ∧
  registerClient 3%nat first_registered = Some reconnected ∧
  clients reconnected !! alice = Some 3%nat ∧
  unregisterClient (at_second (epoch + 9)) 1%nat reconnected = Some reconnected.
Proof.
  assert (H1 : heap reconnecting !! 1%nat = Some (connection alice)) by (vm_compute; reflexivity).
  assert (H2 : 3%nat ≠ 1%nat) by discriminate.
  assert (H3 : heap reconnecting !! 3%nat = Some (connection alice)) by (vm_compute; reflexivity).
  assert (H4 : registerClient 1%nat reconnecting = Some first_registered)
    by (vm_compute; reflexivity).
  assert (H5 : registerClient 3%nat first_registered = Some reconnected)
    by (vm_compute; reflexivity).
  repeat (split; [assumption|]).
  destruct (unregister_only_current (at_second (epoch + 9)) 1%nat (connection alice)
              reconnecting H1) as (_ & _ & H).
  exact (H 3%nat (connection alice) first_registered reconnected H2 H3 eq_refl H4 H5).
Defined.

Lemma relay_delivers_witness :
  fair (at_second (epoch + 9)) ∧ wf connected ∧
  heap connected !! 1%nat = Some (welcomed alice) ∧
  Event.To offer_sdp ≠ "" ∧
  ∃ h',
    relayWebRTC (at_second (epoch + 9)) 1%nat offer_sdp connected = Some h' ∧
    broadcast h' = [toAllExcept alice (signal (welcomed alice) offer_sdp)] ∧
    (∃ bob', heap h' !! 2%nat = Some bob' ∧
             signal (welcomed alice) offer_sdp ∈ buf (Client.send bob')) ∧
    (∃ alice', heap h' !! 1%nat = Some alice' ∧
               Client.send alice' = Client.send (welcomed alice)).
Proof.
  assert (H1 : heap connected !! 1%nat = Some (welcomed alice)) by (vm_compute; reflexivity).
  assert (H2 : Event.To offer_sdp ≠ "") by discriminate.
  split; [apply fair_at_second|]. split; [apply wf_connected|].
  split; [exact H1|]. split; [exact H2|].
  destruct (relay_delivers (at_second (epoch + 9)) 1%nat (welcomed alice) offer_sdp connected
              (fair_at_second _) wf_connected H1 H2)
    as (h' & Hr & Hheap & Hroom & Henq & Hcl & Hbr & _ & _ & Hself).
  exists h'. split; [exact Hr|]. split; [exact Hbr|]. split; [|exact Hself].
  apply (Henq 2%nat (welcomed bob)).
  - apply Hroom. exists "user2", bob.
    split; [by right|]. split; [vm_compute; reflexivity|].
    split; [discriminate|vm_compute; reflexivity].
  - vm_compute; reflexivity.
  - vm_compute. lia.
Defined.

Lemma at_most_one_matched acceptKey : at_most_one acceptKey matched_store.
Proof.
  intros room e s He Hv.
  change matched_store with
    (<[roomKey roomID :=
         Redis.Entry
           (Redis.VHash
              (Redis.hset [("status", "waiting"); ("user1", alice); ("user2", bob);
                           ("createdAt", itoa epoch)] ∅)) None]>
       (∅ : gmap string Redis.entry)) in He.
  apply lookup_insert_Some in He as [[_ <-]|[_ He]]; [discriminate|].
  by rewrite lookup_empty in He.
Defined.

Lemma open_connected_1 : open connected 1%nat.
Proof. exists (welcomed alice). split; vm_compute; reflexivity. Defined.

Lemma wf_alice_waiting : wf alice_waiting.
Proof.
  assert (E : alice_waiting =
              set_heap
                (deliver waitingForPartner (heap (set_redis (redis alice_waiting) connected))
                   1%nat)
                (set_redis (redis alice_waiting) connected)) by (vm_compute; reflexivity).
  rewrite E. apply wf_deliver. by apply (wf_eq connected), wf_connected.
Defined.

Lemma both_ready_once_witness :
  fair (at_second (epoch + 6)) ∧
  at_most_one Client1.acceptKey (redis alice_waiting) ∧
  heap alice_waiting !! 2%nat = Some (welcomed bob) ∧
  closed (Client.send (welcomed bob)) = false ∧
  Event.RoomID accept_match ≠ "" ∧
  (recordAccept (at_second (epoch + 6)) (Client1.acceptKey (Event.RoomID accept_match))
     (Client.UserID (welcomed bob)) (2 * time.Minute) (redis alice_waiting)).2
    = Ok [alice; bob] ∧
  wf alice_waiting ∧ broadcast alice_waiting = [] ∧
  clients alice_waiting !! alice = Some 1%nat ∧
  clients alice_waiting !! bob = Some 2%nat ∧
  ∃ h' h'' ca cb waiting,
    Client1.handleAcceptMatch (at_second (epoch + 6)) 2%nat accept_match alice_waiting
      = Some h' ∧
    broadcast h' =
      [toUser alice (bothReady roomID "caller"); toUser bob (bothReady roomID "callee");
       toUser alice (partnerAccepted roomID)] ∧
    redis h' !! Client1.acceptKey (Event.RoomID accept_match) = None ∧
    workers (replicate 3 (at_second (epoch + 7))) h' = Some h'' ∧
    heap alice_waiting !! 1%nat = Some waiting ∧
    heap h'' !! 1%nat = Some ca ∧ heap h'' !! 2%nat = Some cb ∧
    buf (Client.send ca)
      = buf (Client.send waiting) ++ [bothReady roomID "caller"; partnerAccepted roomID] ∧
    buf (Client.send cb)
      = buf (Client.send (welcomed bob)) ++ [bothReady roomID "callee"].
Proof.
  destruct both_ready_once as ((Hone & Hall) & _).
  assert (Hinv : at_most_one Client1.acceptKey (redis alice_waiting)).
  { destruct (Hall [(at_second (epoch + 5), 1%nat, accept_match)] connected)
      as (h' & Hh & Hinv).
    - constructor; [|constructor]. split; [apply fair_at_second|apply open_connected_1].
    - apply at_most_one_matched.
    - assert (He : accepts Client1.handleAcceptMatch
                     [(at_second (epoch + 5), 1%nat, accept_match)] connected
                   = Some alice_waiting) by (vm_compute; reflexivity).
      rewrite He in Hh. apply (inj Some) in Hh. by rewrite Hh. }
  assert (H1 : heap alice_waiting !! 2%nat = Some (welcomed bob)) by (vm_compute; reflexivity).
  assert (H2 : closed (Client.send (welcomed bob)) = false) by reflexivity.
  assert (H3 : Event.RoomID accept_match ≠ "") by discriminate.
  assert (H4 : (recordAccept (at_second (epoch + 6))
                  (Client1.acceptKey (Event.RoomID accept_match))
                  (Client.UserID (welcomed bob)) (2 * time.Minute) (redis alice_waiting)).2
               = Ok [alice; bob]) by (vm_compute; reflexivity).
  assert (H5 : broadcast alice_waiting = []) by (vm_compute; reflexivity).
  assert (H6 : clients alice_waiting !! alice = Some 1%nat) by (vm_compute; reflexivity).
  assert (H7 : clients alice_waiting !! bob = Some 2%nat) by (vm_compute; reflexivity).
  split; [apply fair_at_second|]. repeat (split; [assumption|]).
  split; [exact wf_alice_waiting|]. repeat (split; [assumption|]).
  destruct (Hone (at_second (epoch + 6)) 2%nat (welcomed bob) accept_match alice_waiting
              [alice; bob] (fair_at_second _) Hinv H1 H2 H3 H4)
    as (_ & h' & Hh & _ & Htwo).
  destruct (Htwo eq_refl)
    as (caller & callee & Horder & _ & _ & _ & _ & _ & Hb & Hdel & _ & Hdeliver).
  assert (Hcaller : caller = alice) by (unfold id in Horder; congruence).
  assert (Hcallee : callee = bob) by (unfold id in Horder; congruence).
  subst caller callee.
  destruct (Hdeliver wf_alice_waiting H5 (replicate 3 (at_second (epoch + 7))))
    as (h'' & Hw & _ & _ & Hbufs & _); [vm_compute; reflexivity|].
  destruct (heap alice_waiting !! 1%nat) as [waiting|] eqn:Hwaiting;
    [|vm_compute in Hwaiting; discriminate].
  destruct (Hbufs 1%nat waiting Hwaiting) as (ca & Hca & _ & Hbufa).
  destruct (Hbufs 2%nat (welcomed bob) H1) as (cb & Hcb & _ & Hbufb).
  exists h', h'', ca, cb, waiting.
  split; [exact Hh|].
  split; [rewrite Hb, H5; vm_compute; reflexivity|].
  split; [exact Hdel|]. split; [exact Hw|]. split; [reflexivity|].
  split; [exact Hca|]. split; [exact Hcb|].
  split.
  - rewrite Hbufa. f_equal. vm_compute in Hwaiting. injection Hwaiting as <-.
    vm_compute. reflexivity.
  - rewrite Hbufb. vm_compute. reflexivity.
Defined.

Lemma first_accept_one_side_witness :
  fair (at_second (epoch + 5)) ∧
  heap connected !! 1%nat = Some (welcomed alice) ∧
  closed (Client.send (welcomed alice)) = false ∧
  Event.RoomID accept_match ≠ "" ∧
  (recordAccept (at_second (epoch + 5)) (Client1.acceptKey (Event.RoomID accept_match))
     (Client.UserID (welcomed alice)) (2 * time.Minute) (redis connected)).2 = Ok [alice] ∧
  (recordAccept (at_second (epoch + 5)) (Client2.acceptKey (Event.RoomID accept_match))
     (Client.UserID (welcomed alice)) (5 * time.Minute) (redis connected)).2 = Ok [alice] ∧
  (∃ h', Client1.handleAcceptMatch (at_second (epoch + 5)) 1%nat accept_match connected
           = Some h' ∧ broadcast h' = broadcast connected) ∧
  (∃ h' rest, Client2.handleAcceptMatch (at_second (epoch + 5)) 1%nat accept_match connected
                = Some h' ∧ heap h' = heap connected ∧
              broadcast h' = broadcast connected ++ rest).
Proof.
  assert (H1 : heap connected !! 1%nat = Some (welcomed alice)) by (vm_compute; reflexivity).
  assert (H2 : closed (Client.send (welcomed alice)) = false) by reflexivity.
  assert (H3 : Event.RoomID accept_match ≠ "") by discriminate.
  assert (H4 : (recordAccept (at_second (epoch + 5))
                  (Client1.acceptKey (Event.RoomID accept_match))
                  (Client.UserID (welcomed alice)) (2 * time.Minute) (redis connected)).2
               = Ok [alice]) by (vm_compute; reflexivity).
  assert (H5 : (recordAccept (at_second (epoch + 5))
                  (Client2.acceptKey (Event.RoomID accept_match))
                  (Client.UserID (welcomed alice)) (5 * time.Minute) (redis connected)).2
               = Ok [alice]) by (vm_compute; reflexivity).
  split; [apply fair_at_second|]. repeat (split; [assumption|]).
  destruct (first_accept_one_side (at_second (epoch + 5)) 1%nat (welcomed alice) accept_match
              connected alice (fair_at_second _) H1 H2 H3) as [Ha Hb].
  split.
  - destruct (Ha H4) as (h' & Hh & _ & _ & Hbr). exists h'. split; [exact Hh|exact Hbr].
  - destruct (Hb H5) as (h' & rest & Hh & Hheap & Hbr & _). exists h', rest.
    split; [exact Hh|]. split; [exact Hheap|exact Hbr].
Defined.

End hub_witnesses.

(** * Further properties of the queue, the hub, the message handlers, the
    rooms and the HTTP endpoints *)

Section queue_order.
Import Redis services.
Implicit Types (s : MatchmakingService) (env : Env) (userID u : string).

Lemma zinsert_last x z : Forall (λ y, y.2 < x.2) z → zinsert x z = z ++ [x].
Proof.
  induction 1 as [|y z Hy _ IH]; [done|].
  cbn [zinsert]. unfold zlt.
  replace (x.2 <? y.2) with false by (symmetry; apply Z.ltb_ge; lia).
  replace (x.2 =? y.2) with false by (symmetry; apply Z.eqb_neq; lia).
  cbn. by rewrite IH.
Qed.

Lemma zscore_NoDup m score z : NoDup z.*1 → (m, score) ∈ z → zscore m z = Some score.
Proof.
  induction z as [|[m' sc'] z IH]; cbn; intros Hnd Hin.
  - by apply elem_of_nil in Hin.
  - apply NoDup_cons in Hnd as [Hm' Hnd].
    apply elem_of_cons in Hin as [[= -> ->]|Hin].
    + by rewrite decide_True.
    + rewrite decide_False; [by apply IH|].
      intros ->. apply Hm'. apply list_elem_of_fmap. by exists (m, score).
Qed.

Lemma joinedAt_entry now s z u :
  redis s !! queueKey = Some (Entry (VZSet z) None) → joinedAt now s u = zscore u z.
Proof.
  intros H. unfold joinedAt, ZScore, find. rewrite H. cbn.
  by destruct (zscore u z).
Qed.

Lemma zrank_last m z : m ∉ z.*1 → ∀ x, zrank m (z ++ [(m, x)]) = Some (Z.of_nat (length z)).
Proof.
  intros Hm x. induction z as [|y z IH]; cbn.
  - by rewrite decide_True.
  - cbn in Hm. apply not_elem_of_cons in Hm as [Hy Hm].
    rewrite decide_False by done. rewrite (IH Hm). f_equal. lia.
Qed.

End queue_order.
Section queue_extras.
Import Redis services.
Implicit Types (s : MatchmakingService) (env : Env) (userID u : string).

Lemma HSet_ok now key fields st :
  is_ok (HGetAll now key st) = true → is_ok (HSet now key fields st) = true.
Proof.
  unfold HGetAll, HSet. destruct (find now key st) as [[[] ?]|]; done.
Qed.

Lemma JoinQueue_error env u k s z :
  (redis s !! queueKey = None ∧ z = []
   ∨ redis s !! queueKey = Some (Entry (VZSet z) None)) →
  u ∉ z.*1 →
  is_ok (HGetAll (now env) (metaKey u) (redis s)) = true →
  (JoinQueue env u k s).2 = None.
Proof.
  intros Hq Hu Hm. unfold JoinQueue, IsInQueue, ZScore, ZAdd, find.
  assert (Hz : zscore u z = None) by by apply zscore_None.
  assert (Hset : ∀ fields e,
             is_ok (HSet (now env) (metaKey u) fields (<[queueKey := e]> (redis s))) = true).
  { intros fields e. apply HSet_ok.
    rewrite (HGetAll_lookup _ _ (redis s)); [done|].
    rewrite lookup_insert_ne; [done|apply metaKey_ne]. }
  destruct Hq as [[Hq ->]|Hq]; rewrite Hq; cbn [expired expireAt val]; [|rewrite Hz].
  - specialize (Hset [("skillLevel", itoa k); ("joinedAt", itoa (time.Unix (now env)))]
                  (Entry (VZSet [(u, time.Unix (now env))]) None)).
    by destruct (HSet _ _ _ _).
  - specialize (Hset [("skillLevel", itoa k); ("joinedAt", itoa (time.Unix (now env)))]
                  (Entry (VZSet (zinsert (u, time.Unix (now env)) (zremove u z))) None)).
    by destruct (HSet _ _ _ _).
Qed.

(** X1.  [JoinQueue] of a user who is not queued, at a Unix second later than
    the second at which every queued user joined, returns no error and puts
    the user at the tail of the FIFO order: at any time afterwards the
    members are the former members followed by the user, and
    [GetQueueStatus] gives the user the position one past the former length.
    The queue key holds a sorted set of distinct members with positive
    scores or nothing, and the metadata key of the user holds a hash or
    nothing. *)
Theorem joinQueue_appends env userID skillLevel s :
  queue_inv s →
  userID ∉ members (now env) s →
  Forall (λ u, ∃ t, joinedAt (now env) s u = Some t ∧ t < time.Unix (now env))
         (members (now env) s) →
  is_ok (HGetAll (now env) (metaKey userID) (redis s)) = true →
  (JoinQueue env userID skillLevel s).2 = None ∧
  (∀ now', members now' (JoinQueue env userID skillLevel s).1
           = members (now env) s ++ [userID]) ∧
  (∀ env', ∃ wait,
      GetQueueStatus env' userID (JoinQueue env userID skillLevel s).1
        = Ok (Z.of_nat (length (members (now env) s)) + 1, wait)).
Proof.
  intros Hinv Hu Hearlier Hmeta.
  assert (∃ z, (redis s !! queueKey = None ∧ z = []
                ∨ redis s !! queueKey = Some (Entry (VZSet z) None)) ∧
               members (now env) s = z.*1 ∧ NoDup z.*1 ∧
               (∀ v, joinedAt (now env) s v = zscore v z)) as (z & Hq & Hmem & Hnd & Hsc).
  { unfold queue_inv, entry_inv in Hinv.
    destruct (redis s !! queueKey) as [e|] eqn:He.
    - destruct Hinv as (z & -> & Hnd & _). exists z. split_and!; [by right| |done|].
      + by apply members_entry.
      + intros v. by apply joinedAt_entry.
    - exists []. split_and!; [by left| |constructor|].
      + rewrite members_find. unfold find. by rewrite He.
      + intros v. unfold joinedAt, ZScore, find. by rewrite He. }
  rewrite Hmem in Hu, Hearlier |- *.
  assert (Hlast : zinsert (userID, time.Unix (now env)) z = z ++ [(userID, time.Unix (now env))]).
  { apply zinsert_last. apply Forall_forall. intros [v sc] Hv. cbn.
    rewrite Forall_forall in Hearlier.
    destruct (Hearlier v) as (t & Ht & Hlt).
    { apply list_elem_of_fmap. by exists (v, sc). }
    rewrite Hsc, (zscore_NoDup v sc z Hnd Hv) in Ht. by injection Ht as <-. }
  destruct (JoinQueue_new env userID skillLevel s z Hq Hu) as [Hkey _].
  rewrite Hlast in Hkey.
  split_and!.
  - by apply (JoinQueue_error env userID skillLevel s z).
  - intros now'. rewrite (members_entry _ _ _ Hkey). by rewrite fmap_app.
  - intros env'. rewrite GetQueueStatus_rank. unfold find. rewrite Hkey. cbn.
    rewrite (zrank_last _ _ Hu). rewrite length_fmap. eauto.
Qed.

End queue_extras.
Section queue_ties.
Import Redis services.
Implicit Types (s : MatchmakingService) (env : Env) (userID u : string).

Lemma ltb_irrefl (a : string) : String.ltb a a = false.
Proof.
  unfold String.ltb. pose proof (String.compare_antisym a a) as H.
  by destruct (a ?= a)%string.
Qed.

(** X2.  Two joins within the same Unix second are not ordered by arrival:
    when B joins an absent queue and A joins afterwards within the same
    second, and A is before B in byte order, then A is ahead of B in the
    queue, because both entries carry the same score and the sorted set
    breaks the tie by member. *)
Theorem joinQueue_same_second envA envB A B skillA skillB s :
  redis s !! queueKey = None →
  time.Unix (now envA) = time.Unix (now envB) →
  String.ltb A B = true →
  ∀ now',
    members now' (JoinQueue envA A skillA (JoinQueue envB B skillB s).1).1 = [A; B].
Proof.
  intros Hq Ht Hlt now'.
  assert (Hne : A ≠ B) by (intros ->; by rewrite ltb_irrefl in Hlt).
  destruct (JoinQueue_new envB B skillB s [] (or_introl (conj Hq eq_refl))) as [HB _];
    [apply not_elem_of_nil|].
  cbn [zinsert] in HB.
  destruct (JoinQueue_new envA A skillA (JoinQueue envB B skillB s).1 _ (or_intror HB))
    as [HA _].
  { cbn. by apply not_elem_of_cons; split; [|apply not_elem_of_nil]. }
  rewrite (members_entry _ _ _ HA).
  cbn [zinsert]. unfold zlt. cbn [fst snd]. rewrite Ht, Z.ltb_irrefl, Z.eqb_refl, Hlt.
  done.
Qed.

End queue_ties.
Section queue_views.
Import Redis services.
Implicit Types (s : MatchmakingService) (env : Env) (userID u : string).

Lemma IsInQueue_inv env u s :
  queue_inv s → IsInQueue env u s = Ok (bool_decide (u ∈ members (now env) s)).
Proof.
  intros Hinv. unfold IsInQueue, ZScore. rewrite members_find.
  rewrite (find_inv _ _ Hinv). unfold queue_inv, entry_inv in Hinv.
  destruct (redis s !! queueKey) as [e|].
  - destruct Hinv as (z & -> & Hnd & Hpos).
    destruct (zscore u z) as [score|] eqn:Hz.
    + apply zscore_elem in Hz as Hin.
      rewrite Forall_forall in Hpos. specialize (Hpos _ Hin). cbn in Hpos.
      replace (0 <? score) with true by (symmetry; by apply Z.ltb_lt).
      rewrite bool_decide_eq_true_2; [done|].
      apply list_elem_of_fmap. by exists (u, score).
    + apply zscore_None in Hz. by rewrite bool_decide_eq_false_2.
  - rewrite bool_decide_eq_false_2; [done|apply not_elem_of_nil].
Qed.

Lemma queue_inv_reached calls :
  Forall (λ call : Env * request, 0 < time.Unix (now call.1)) calls →
  queue_inv (serve_all calls no_store).
Proof.
  intros Hc. apply queue_inv_serve_all; [done|]. unfold queue_inv, no_store. cbn.
  by rewrite lookup_empty.
Qed.

(** X3.  On every state reached from the empty store by calls made at
    positive Unix times, [IsInQueue] answers whether the user is a member of
    the queue, and it answers true exactly when [GetQueueStatus] succeeds.
    On any state whatsoever [IsInQueue] returns no error, and when the queue
    key cannot be read as a sorted set it answers false. *)
Theorem isInQueue_agrees calls env userID :
  Forall (λ call : Env * request, 0 < time.Unix (now call.1)) calls →
  let s := serve_all calls no_store in
  IsInQueue env userID s = Ok (bool_decide (userID ∈ members (now env) s)) ∧
  (IsInQueue env userID s = Ok true ↔ is_ok (GetQueueStatus env userID s) = true) ∧
  (∀ s', is_ok (IsInQueue env userID s') = true) ∧
  (∀ s', is_ok (ZRange (now env) queueKey 0 (-1) (redis s')) = false →
         IsInQueue env userID s' = Ok false).
Proof.
  intros Hcalls s.
  assert (Hinv : queue_inv s) by by apply queue_inv_reached.
  split_and!.
  - by apply IsInQueue_inv.
  - rewrite (IsInQueue_inv _ _ _ Hinv).
    pose proof (GetQueueStatus_absent env userID s) as Habs.
    split.
    + intros [= Hin]. apply bool_decide_eq_true_1 in Hin.
      destruct (GetQueueStatus env userID s) as [|e] eqn:Hg; [done|].
      exfalso. unfold GetQueueStatus in Hg.
      destruct (ZRank _ _ _ _); [done|]. injection Hg as <-.
      by apply (proj1 Habs).
    + intros Hok. f_equal. apply bool_decide_eq_true_2.
      destruct (decide (userID ∈ members (now env) s)) as [|Hn]; [done|].
      apply Habs in Hn. by rewrite Hn in Hok.
  - intros s'. unfold IsInQueue. by destruct (ZScore _ _ _ _).
  - intros s' Herr. unfold IsInQueue, ZScore. rewrite ZRange_all in Herr.
    by destruct (find _ _ _) as [[[] ?]|].
Qed.

(** X4.  [GetQueueSize], when it succeeds, is the number of queued users; it
    succeeds exactly when the queue key can be read as a sorted set; and
    every position that [GetQueueStatus] returns lies between 1 and that
    size. *)
Theorem queueSize_counts env s :
  (∀ n, GetQueueSize env s = Ok n → n = Z.of_nat (length (members (now env) s))) ∧
  is_ok (GetQueueSize env s) = is_ok (ZRange (now env) queueKey 0 (-1) (redis s)) ∧
  (∀ userID position wait,
      GetQueueStatus env userID s = Ok (position, wait) →
      ∃ n, GetQueueSize env s = Ok n ∧ 1 ≤ position ≤ n).
Proof.
  split_and!.
  - intros n. unfold GetQueueSize, ZCard. rewrite members_find.
    destruct (find _ _ _) as [[[] ?]|]; intros [= <-]; [|done].
    by rewrite length_fmap.
  - unfold GetQueueSize, ZCard. rewrite ZRange_all.
    by destruct (find _ _ _) as [[[] ?]|].
  - intros userID position wait. rewrite GetQueueStatus_rank.
    unfold GetQueueSize, ZCard.
    destruct (find _ _ _) as [[[| | |z] ?]|]; try done.
    destruct (zrank userID z) as [rank|] eqn:Hr; [|done].
    intros [= <- _]. eexists; split; [done|].
    apply zrank_Some in Hr as (H0 & Hl & _).
    apply lookup_lt_Some in Hl. rewrite length_fmap in Hl. lia.
Qed.

End queue_views.
Section queue_round_trip.
Import Redis services.
Implicit Types (s : MatchmakingService) (env : Env) (userID u : string).

Lemma zremove_zinsert m score z : m ∉ z.*1 → zremove m (zinsert (m, score) z) = z.
Proof.
  intros Hm. unfold zremove.
  induction z as [|y z IH]; cbn [zinsert].
  - rewrite filter_cons_False; [done|]. cbn. by intros H.
  - cbn in Hm. apply not_elem_of_cons in Hm as [Hy Hm].
    destruct (zlt (m, score) y).
    + rewrite filter_cons_False by (cbn; by intros H).
      rewrite filter_cons_True by (cbn; congruence).
      f_equal. fold (zremove m z). by apply zremove_absent.
    + rewrite filter_cons_True by (cbn; congruence).
      f_equal. by apply IH.
Qed.

Lemma JoinQueue_frame env u k s key :
  key ≠ queueKey → key ≠ metaKey u →
  redis (JoinQueue env u k s).1 !! key = redis s !! key.
Proof.
  intros Hk Hm. unfold JoinQueue.
  destruct (IsInQueue env u s) as [[]|]; [done| |done].
  destruct (ZAdd _ _ _ _ _) as [r1|] eqn:Hz; [|done].
  destruct (HSet _ _ _ _) as [r2|] eqn:Hh; cbn [fst redis with_redis].
  - rewrite Expire_frame by done.
    rewrite (HSet_frame _ _ _ _ _ _ Hh) by done.
    by rewrite (ZAdd_frame _ _ _ _ _ _ _ Hz).
  - by rewrite (ZAdd_frame _ _ _ _ _ _ _ Hz).
Qed.

Lemma LeaveQueue_frame env u s key :
  key ≠ queueKey → key ≠ metaKey u →
  redis (LeaveQueue env u s).1 !! key = redis s !! key.
Proof.
  intros Hk Hm. unfold LeaveQueue.
  destruct (ZRem _ _ _ _) as [r1|] eqn:Hz; [|done].
  cbn [fst redis with_redis]. rewrite Del_frame by done.
  by rewrite (ZRem_frame _ _ _ _ _ _ Hz).
Qed.

(** X5.  A join followed by a leave restores the queue.  For a user who is
    not queued, [JoinQueue] and then [LeaveQueue] both return no error, the
    members read as before at any time, the metadata key of the user is
    deleted, and every other key and the rooms collection are untouched.
    The queue key holds a sorted set of distinct members or nothing, and the
    metadata key of the user holds a hash or nothing. *)
Theorem join_then_leave env env' userID skillLevel s :
  queue_inv s →
  userID ∉ members (now env) s →
  is_ok (HGetAll (now env) (metaKey userID) (redis s)) = true →
  let joined := JoinQueue env userID skillLevel s in
  let left := LeaveQueue env' userID joined.1 in
  joined.2 = None ∧ left.2 = None ∧
  (∀ now', members now' left.1 = members now' s) ∧
  redis left.1 !! metaKey userID = None ∧
  (∀ key, key ≠ queueKey → key ≠ metaKey userID → redis left.1 !! key = redis s !! key) ∧
  roomRepo left.1 = roomRepo s.
Proof.
  intros Hinv Hu Hmeta joined left.
  assert (∃ z, (redis s !! queueKey = None ∧ z = []
                ∨ redis s !! queueKey = Some (Entry (VZSet z) None)) ∧
               (∀ now', members now' s = z.*1)) as (z & Hq & Hmem).
  { unfold queue_inv, entry_inv in Hinv.
    destruct (redis s !! queueKey) as [e|] eqn:He.
    - destruct Hinv as (z & -> & _). exists z. split; [by right|].
      intros now'. by apply members_entry.
    - exists []. split; [by left|].
      intros now'. rewrite members_find. unfold find. by rewrite He. }
  rewrite Hmem in Hu.
  destruct (JoinQueue_new env userID skillLevel s z Hq Hu) as [Hkey Hrooms].
  fold joined in Hkey, Hrooms.
  assert (Hrem : zremove userID (zinsert (userID, time.Unix (now env)) z) = z)
    by by apply zremove_zinsert.
  assert (Hleft : left = (with_redis joined.1
                            (Del (metaKey userID)
                               (match z with
                                | [] => delete queueKey (redis joined.1)
                                | _ => <[queueKey := Entry (VZSet z) None]> (redis joined.1)
                                end)), None)).
  { unfold left, LeaveQueue, ZRem, find. rewrite Hkey. cbn [expired expireAt].
    rewrite Hrem. by destruct z. }
  split_and!.
  - by apply (JoinQueue_error env userID skillLevel s z).
  - by rewrite Hleft.
  - intros now'. rewrite Hmem, Hleft. cbn [fst]. rewrite members_find.
    unfold find, with_redis, Del. cbn [redis].
    rewrite lookup_delete_ne by (intros H; by apply (metaKey_ne userID)).
    destruct z; [by rewrite lookup_delete_eq|by rewrite lookup_insert_eq].
  - rewrite Hleft. cbn [fst redis with_redis]. unfold Del. by rewrite lookup_delete_eq.
  - intros key Hk Hm. unfold left. rewrite LeaveQueue_frame by done.
    by apply JoinQueue_frame.
  - rewrite Hleft. by cbn.
Qed.

(** X10.  [LeaveQueue] can fail only with the wrong-type error of the store,
    and then it changes nothing.  When it returns no error the metadata key
    of the user is gone.  In every case no key other than the queue key and
    the metadata key of the user changes, the rooms collection stays, and at
    any time from the call on the members are the former members without
    the user, in their former order. *)
Theorem leaveQueue_only_that_user env userID s :
  let left := LeaveQueue env userID s in
  (∀ e, left.2 = Some e → e = ErrRedis WrongType ∧ left.1 = s) ∧
  (left.2 = None → redis left.1 !! metaKey userID = None) ∧
  (∀ key, key ≠ queueKey → key ≠ metaKey userID → redis left.1 !! key = redis s !! key) ∧
  roomRepo left.1 = roomRepo s ∧
  (∀ now', now env ≤ now' →
           members now' left.1 = filter (λ v, v ≠ userID) (members now' s)).
Proof.
  intros left. split_and!.
  - intros e. unfold left, LeaveQueue, ZRem.
    destruct (find _ _ _) as [[[] ?]|]; cbn; try done; try (by intros [= <-]).
    by destruct (zremove _ _).
  - unfold left, LeaveQueue. destruct (ZRem _ _ _ _); [|done].
    intros _. cbn. unfold Del. by rewrite lookup_delete_eq.
  - intros key Hk Hm. by apply LeaveQueue_frame.
  - unfold left, LeaveQueue. by destruct (ZRem _ _ _ _).
  - intros now' Hn. by apply LeaveQueue_members.
Qed.

End queue_round_trip.
Section stored_hashes.
Import Redis services.
Implicit Types (s : MatchmakingService) (env : Env) (userID u : string).

Lemma HSet_Expire now key fields ttl st :
  is_ok (HGetAll now key st) = true →
  ∃ r, HSet now key fields st = Ok r ∧
       (∀ k, k ≠ key → r !! k = st !! k) ∧
       Expire now key ttl r !! key
         = Some (Entry (VHash (hset fields
                                 match HGetAll now key st with Ok h => h | Err _ => ∅ end))
                       (Some (now + ttl))).
Proof.
  unfold HGetAll, HSet. destruct (find now key st) as [[[| h | |] t]|] eqn:Hf; try done; intros _.
  - eexists; split_and!; [done|by intros k Hk; rewrite lookup_insert_ne| ].
    apply find_Some in Hf as [_ Hexp].
    unfold Expire. rewrite find_insert_eq.
    assert (Hexp' : expired now (Entry (VHash (hset fields h)) t) = false) by done.
    rewrite Hexp'. by rewrite lookup_insert_eq.
  - eexists; split_and!; [done|by intros k Hk; rewrite lookup_insert_ne| ].
    unfold Expire. rewrite find_insert_eq. cbn. by rewrite lookup_insert_eq.
Qed.

Lemma HGetAll_deadline now' key st fields deadline :
  st !! key = Some (Entry (VHash fields) (Some deadline)) →
  HGetAll now' key st = Ok (if bool_decide (deadline ≤ now') then ∅ else fields).
Proof.
  intros H. unfold HGetAll, find. rewrite H. unfold expired. cbn.
  by destruct (bool_decide _).
Qed.

(** X9.  The metadata of a queued user outlives 30 minutes less than the
    Queue Entry does: after a join of a user who is not queued the metadata
    hash holds skillLevel and joinedAt, on top of the fields it held, for 30
    minutes from the call; from 30 minutes on it reads as empty while the
    user is still a member of the queue.  The queue key holds a sorted set of
    distinct members or nothing, and the metadata key holds a hash or
    nothing. *)
Theorem joinQueue_metadata env userID skillLevel s :
  queue_inv s →
  userID ∉ members (now env) s →
  is_ok (HGetAll (now env) (metaKey userID) (redis s)) = true →
  let joined := (JoinQueue env userID skillLevel s).1 in
  (∀ now', now env ≤ now' < now env + 30 * time.Minute →
     metadata now' joined userID
       = <["joinedAt" := itoa (time.Unix (now env))]>
           (<["skillLevel" := itoa skillLevel]> (metadata (now env) s userID))) ∧
  (∀ now', now env + 30 * time.Minute ≤ now' →
     metadata now' joined userID = ∅ ∧ userID ∈ members now' joined).
Proof.
  intros Hinv Hu Hmeta joined.
  assert (∃ z, (redis s !! queueKey = None ∧ z = []
                ∨ redis s !! queueKey = Some (Entry (VZSet z) None)) ∧
               userID ∉ z.*1) as (z & Hq & Hz).
  { unfold queue_inv, entry_inv in Hinv. rewrite members_find in Hu. unfold find in Hu.
    destruct (redis s !! queueKey) as [e|] eqn:He.
    - destruct Hinv as (z & -> & _). exists z. split; [by right|done].
    - exists []. split; [by left|apply not_elem_of_nil]. }
  destruct (JoinQueue_new env userID skillLevel s z Hq Hz) as [Hkey _].
  fold joined in Hkey.
  assert (Hstored :
            redis joined !! metaKey userID
            = Some (Entry (VHash (<["joinedAt" := itoa (time.Unix (now env))]>
                                    (<["skillLevel" := itoa skillLevel]>
                                       (metadata (now env) s userID))))
                          (Some (now env + 30 * time.Minute)))).
  { unfold joined, JoinQueue, IsInQueue, ZScore, ZAdd, find.
    assert (Hsc : zscore userID z = None) by by apply zscore_None.
    assert (Hm : ∀ e, is_ok (HGetAll (now env) (metaKey userID)
                               (<[queueKey := e]> (redis s))) = true
                      ∧ HGetAll (now env) (metaKey userID) (<[queueKey := e]> (redis s))
                        = HGetAll (now env) (metaKey userID) (redis s)).
    { intros e.
      assert (HGetAll (now env) (metaKey userID) (<[queueKey := e]> (redis s))
              = HGetAll (now env) (metaKey userID) (redis s)) as ->; [|done].
      apply HGetAll_lookup. rewrite lookup_insert_ne; [done|apply metaKey_ne]. }
    destruct Hq as [[Hq ->]|Hq]; rewrite Hq; cbn [expired expireAt val]; [|rewrite Hsc].
    - destruct (Hm (Entry (VZSet [(userID, time.Unix (now env))]) None)) as [Hok Heq].
      destruct (HSet_Expire (now env) (metaKey userID)
                  [("skillLevel", itoa skillLevel); ("joinedAt", itoa (time.Unix (now env)))]
                  (30 * time.Minute) _ Hok) as (r & -> & _ & Hr).
      cbn [fst redis with_redis]. rewrite Hr, Heq. done.
    - destruct (Hm (Entry (VZSet (zinsert (userID, time.Unix (now env)) (zremove userID z)))
                      None)) as [Hok Heq].
      destruct (HSet_Expire (now env) (metaKey userID)
                  [("skillLevel", itoa skillLevel); ("joinedAt", itoa (time.Unix (now env)))]
                  (30 * time.Minute) _ Hok) as (r & -> & _ & Hr).
      cbn [fst redis with_redis]. rewrite Hr, Heq. done. }
  split.
  - intros now' [H1 H2]. unfold metadata at 1.
    rewrite (HGetAll_deadline _ _ _ _ _ Hstored).
    rewrite bool_decide_eq_false_2 by lia. done.
  - intros now' H1. split.
    + unfold metadata. rewrite (HGetAll_deadline _ _ _ _ _ Hstored).
      by rewrite bool_decide_eq_true_2.
    + rewrite (members_entry _ _ _ Hkey).
      apply list_elem_of_fmap. exists (userID, time.Unix (now env)). split; [done|].
      rewrite (zinsert_perm _ z). apply elem_of_cons. by left.
Qed.

Lemma CreateRoomForMatch_stored env user1ID user2ID s s1 roomID :
  CreateRoomForMatch env user1ID user2ID s = (s1, Ok roomID) →
  is_ok (HGetAll (now env) (roomStateKey roomID) (redis s)) = true →
  redis s1 !! roomStateKey roomID
    = Some (Entry (VHash (<["createdAt" := itoa (time.Unix (now env))]>
                            (<["user2" := user2ID]>
                               (<["user1" := user1ID]>
                                  (<["status" := "waiting"]> (roomState (now env) s roomID))))))
                  (Some (now env + 2 * time.Hour))) ∧
  (∀ key, key ≠ roomStateKey roomID → redis s1 !! key = redis s !! key).
Proof.
  intros Hc Hok.
  assert (redis s1 = Expire (now env) (roomStateKey roomID) (2 * time.Hour)
                       (exec (HSet (now env) (roomStateKey roomID)
                                [("status", "waiting"); ("user1", user1ID);
                                 ("user2", user2ID);
                                 ("createdAt", itoa (time.Unix (now env)))]
                                (redis s)) (redis s))) as Hs1.
  { unfold CreateRoomForMatch in Hc.
    destruct (generateRoomID env) as [rid|]; [|done].
    destruct (primitive.ObjectIDFromHex user1ID); [|done].
    destruct (primitive.ObjectIDFromHex user2ID); [|done].
    unfold repositories.Create in Hc. destruct (insertOne env); [|done].
    by injection Hc as <- <-. }
  destruct (HSet_Expire (now env) (roomStateKey roomID)
              [("status", "waiting"); ("user1", user1ID); ("user2", user2ID);
               ("createdAt", itoa (time.Unix (now env)))]
              (2 * time.Hour) _ Hok) as (r & Hr & Hframe & Hstored).
  rewrite Hr in Hs1. cbn [exec] in Hs1. rewrite <- Hs1 in Hstored.
  split; [done|].
  intros key Hk. rewrite Hs1, Expire_frame by done. by apply Hframe.
Qed.

(** X7.  After a successful [CreateRoomForMatch] the room state hash under
    the key of the room holds status waiting, user1, user2 and createdAt
    (the Unix second of the call), on top of the fields it held, for two
    hours from the call; from two hours on it reads as empty.  No other key
    changes.  The key of the room holds a hash or nothing before the
    call. *)
Theorem createRoom_state env user1ID user2ID s s1 roomID :
  CreateRoomForMatch env user1ID user2ID s = (s1, Ok roomID) →
  is_ok (HGetAll (now env) (roomStateKey roomID) (redis s)) = true →
  (∀ now', now env ≤ now' < now env + 2 * time.Hour →
     roomState now' s1 roomID
       = <["createdAt" := itoa (time.Unix (now env))]>
           (<["user2" := user2ID]>
              (<["user1" := user1ID]>
                 (<["status" := "waiting"]> (roomState (now env) s roomID))))) ∧
  (∀ now', now env + 2 * time.Hour ≤ now' → roomState now' s1 roomID = ∅) ∧
  (∀ key, key ≠ roomStateKey roomID → redis s1 !! key = redis s !! key).
Proof.
  intros Hc Hok.
  destruct (CreateRoomForMatch_stored _ _ _ _ _ _ Hc Hok) as [Hstored Hframe].
  split_and!; [| |done].
  - intros now' [H1 H2]. unfold roomState at 1.
    rewrite (HGetAll_deadline _ _ _ _ _ Hstored).
    rewrite bool_decide_eq_false_2 by lia. done.
  - intros now' H1. unfold roomState. rewrite (HGetAll_deadline _ _ _ _ _ Hstored).
    by rewrite bool_decide_eq_true_2.
Qed.

End stored_hashes.
Section hex_codec.
Import services.

Lemma hex_byte (v : byte) :
  hex.fromHexChar (hex.hexchar (N.shiftr (Byte.to_N v) 4)) = Some (N.shiftr (Byte.to_N v) 4) ∧
  hex.fromHexChar (hex.hexchar (N.land (Byte.to_N v) 15)) = Some (N.land (Byte.to_N v) 15) ∧
  hex.mkbyte (N.shiftr (Byte.to_N v) 4) (N.land (Byte.to_N v) 15) = v.
Proof. destruct v; vm_compute; done. Qed.

Lemma DecodeString_EncodeToString (src : list byte) :
  hex.DecodeString (hex.EncodeToString src) = Ok src.
Proof.
  induction src as [|v src IH]; [done|].
  cbn [hex.EncodeToString foldr]. fold (hex.EncodeToString src).
  cbn [hex.DecodeString]. destruct (hex_byte v) as (-> & -> & ->).
  by rewrite IH.
Qed.

Lemma length_EncodeToString (src : list byte) :
  String.length (hex.EncodeToString src) = (2 * length src)%nat.
Proof.
  induction src as [|v src IH]; [done|].
  cbn [hex.EncodeToString foldr]. fold (hex.EncodeToString src).
  cbn [String.length length]. rewrite IH. lia.
Qed.

(** X8.  [generateRoomID] returns the lowercase hex of the bytes read: twice
    as many characters as bytes, decoding back to the bytes, so that equal
    room ids come from equal bytes.  A room id of 16 bytes is never a valid
    ObjectID hex string: [RoomRepository.FindByID] rejects it with the
    invalid hex error whatever the collection holds. *)
Theorem generateRoomID_hex env bytes :
  randRead env = Some bytes →
  ∃ roomID,
    generateRoomID env = Ok roomID ∧
    String.length roomID = (2 * length bytes)%nat ∧
    hex.DecodeString roomID = Ok bytes ∧
    (∀ env', generateRoomID env' = Ok roomID → randRead env' = Some bytes) ∧
    (length bytes = 16%nat →
     primitive.ObjectIDFromHex roomID = Err primitive.ErrInvalidHex ∧
     ∀ rooms, repositories.FindByID roomID rooms
              = Err (repositories.ErrObjectID primitive.ErrInvalidHex)).
Proof.
  intros Hr. exists (hex.EncodeToString bytes). unfold generateRoomID. rewrite Hr.
  split_and!; [done|apply length_EncodeToString|apply DecodeString_EncodeToString| |].
  - intros env'. destruct (randRead env') as [bytes'|]; [|done].
    intros [= Heq]. f_equal.
    assert (H : hex.DecodeString (hex.EncodeToString bytes') = Ok bytes)
      by (rewrite Heq; apply DecodeString_EncodeToString).
    rewrite DecodeString_EncodeToString in H. by injection H.
  - intros Hlen.
    assert (Hbad : primitive.ObjectIDFromHex (hex.EncodeToString bytes)
                   = Err primitive.ErrInvalidHex).
    { unfold primitive.ObjectIDFromHex. rewrite length_EncodeToString, Hlen.
      by rewrite decide_False by lia. }
    split; [done|]. intros rooms. unfold repositories.FindByID. by rewrite Hbad.
Qed.

End hex_codec.
Section find_match_outcome.
Import Redis services.
Implicit Types (s : MatchmakingService) (env : Env) (userID u : string).

Lemma FindMatch_err env userID s s' e :
  FindMatch env userID s = (s', Err e) → s' = s.
Proof.
  unfold FindMatch. destruct (ZRange _ _ _ _ _) as [l|]; [|by intros [= <-]].
  case_decide; [by intros [= <-]|].
  destruct (scan userID l "") as [user1 user2].
  case_decide; [by intros [= <-]|].
  unfold matched.
  destruct (CreateRoomForMatch env user1 user2 s) as [s1 [roomID|e1]] eqn:Hc; [done|].
  intros [= <- _]. by eapply CreateRoomForMatch_err.
Qed.

Lemma CreateRoomForMatch_succeeds env user1ID user2ID s bytes oid1 oid2 :
  randRead env = Some bytes → insertOne env = true →
  primitive.ObjectIDFromHex user1ID = Ok oid1 →
  primitive.ObjectIDFromHex user2ID = Ok oid2 →
  (CreateRoomForMatch env user1ID user2ID s).2 = Ok (hex.EncodeToString bytes).
Proof.
  intros Hr Hi H1 H2. unfold CreateRoomForMatch, generateRoomID.
  rewrite Hr, H1, H2. unfold repositories.Create. by rewrite Hi.
Qed.

Lemma chosen_short userID l : (length l < 2)%nat → chosen userID l = None.
Proof.
  intros Hl. destruct l as [|a [|b l]]; [done| |cbn in Hl; lia].
  unfold chosen. cbn [scan].
  destruct (decide (a = userID)); [by rewrite decide_True by (by right)|].
  rewrite (decide_False (P := "" ≠ "")) by (by intros H).
  by rewrite decide_True by (by right).
Qed.

(** X6.  A failing [FindMatch] leaves the store and the rooms collection as
    they were.  [FindMatch] succeeds exactly when the scan picks a pair from
    the queue, the random bytes of the room id can be read, the insert into
    the rooms collection succeeds and both user ids of the pair are valid
    ObjectID hex strings. *)
Theorem findMatch_outcome env userID s :
  (∀ s' e, FindMatch env userID s = (s', Err e) → s' = s) ∧
  (is_ok (FindMatch env userID s).2 = true ↔
   ∃ user1 user2,
     chosen userID (members (now env) s) = Some (user1, user2) ∧
     is_Some (randRead env) ∧ insertOne env = true ∧
     is_ok (primitive.ObjectIDFromHex user1) = true ∧
     is_ok (primitive.ObjectIDFromHex user2) = true).
Proof.
  split; [intros s' e; apply FindMatch_err|]. split.
  - destruct (FindMatch env userID s) as [s' [[roomID partner]|]] eqn:Hf; [|done]. intros _.
    destruct (FindMatch_ok _ _ _ _ _ _ Hf) as (user1 & user2 & Hch & Hm).
    exists user1, user2. split; [done|].
    unfold matched in Hm.
    destruct (CreateRoomForMatch env user1 user2 s) as [s1 [rid|]] eqn:Hc; [|done].
    destruct (CreateRoomForMatch_ok _ _ _ _ _ _ Hc)
      as (bytes & oid1 & oid2 & room & Hr & _ & Hi & H1 & H2 & _).
    rewrite Hr, H1, H2. eauto.
  - intros (user1 & user2 & Hch & [bytes Hr] & Hi & H1 & H2).
    destruct (primitive.ObjectIDFromHex user1) as [oid1|] eqn:Ho1; [|done].
    destruct (primitive.ObjectIDFromHex user2) as [oid2|] eqn:Ho2; [|done].
    unfold members in Hch.
    destruct (ZRange (now env) queueKey 0 (-1) (redis s)) as [l|] eqn:Hl; [|done].
    rewrite (FindMatch_chosen env userID s l Hl).
    destruct (decide (length l < 2)%nat) as [Hshort|_].
    { by rewrite chosen_short in Hch. }
    rewrite Hch. unfold matched.
    pose proof (CreateRoomForMatch_succeeds env user1 user2 s bytes oid1 oid2 Hr Hi Ho1 Ho2)
      as Hc.
    destruct (CreateRoomForMatch env user1 user2 s) as [s1 [rid|]]; [done|done].
Qed.

End find_match_outcome.

Section hub_registry.
Import websocket hub.
Implicit Types (h g : Hub) (env : Env) (p : payload) (c : Client.t).

Lemma registerClient_spawned client c h h1 :
  heap h !! client = Some c → registerClient client h = Some h1 →
  spawned h1 =
    spawned h
      ++ match clients h !! Client.UserID c with
         | Some existingClient => [CloseConn existingClient]
         | None => []
         end
      ++ [SetOnline (Client.UserID c)] ∧
  broadcast h1 = broadcast h ∧ redis h1 = redis h ∧ rooms h1 = rooms h.
Proof.
  intros Hc. unfold registerClient, Send. rewrite Hc. cbn [mbind option_bind].
  intros H. apply sendToClient_frame in H as (_ & -> & -> & -> & ->).
  destruct (clients h !! Client.UserID c); cbn; [|done].
  by rewrite <- app_assoc.
Qed.

(** X11.  [registerClient] of an open connection in a well-formed hub
    succeeds and keeps the hub well-formed.  The registry maps the user to
    the new connection, replacing an earlier one; the welcome message is
    queued on the new connection; every other connection object, the
    replaced one included, is unchanged, so its send channel stays open; the
    goroutines started are the closing of the replaced socket, if there was
    one, and the online mark; and [GetOnlineUsers] grows by one exactly when
    the user was not online. *)
Theorem register_replaces client c h :
  wf h → heap h !! client = Some c → closed (Client.send c) = false →
  ∃ h',
    registerClient client h = Some h' ∧
    wf h' ∧
    clients h' = <[Client.UserID c := client]> (clients h) ∧
    heap h' !! client = Some (Client.set_send (push welcome (Client.send c)) c) ∧
    (∀ a, a ≠ client → heap h' !! a = heap h !! a) ∧
    spawned h' =
      spawned h
        ++ match clients h !! Client.UserID c with
           | Some existingClient => [CloseConn existingClient]
           | None => []
           end
        ++ [SetOnline (Client.UserID c)] ∧
    GetOnlineUsers h' =
      (if IsUserOnline (Client.UserID c) h then GetOnlineUsers h
       else S (GetOnlineUsers h)).
Proof.
  intros Hwf Hc Ho.
  assert (Hsome : is_Some (registerClient client h)).
  { unfold registerClient, Send. rewrite Hc. cbn [mbind option_bind].
    unfold sendToClient, trySend.
    assert (∀ g, heap g = heap h →
                 is_Some (c0 ← heap g !! client;
                          ch ← (if closed (Client.send c0) then None
                                else Some (push welcome (Client.send c0)));
                          Some (set_heap (<[client := Client.set_send ch c0]> (heap g)) g)))
      as Hg.
    { intros g ->. rewrite Hc. cbn. by rewrite Ho. }
    apply Hg. by destruct (clients h !! Client.UserID c). }
  destruct Hsome as [h' Hreg]. exists h'.
  destruct (registerClient_Some _ _ _ Hreg) as (c' & Hc' & _ & Hcl & Hheap).
  rewrite Hc in Hc'. injection Hc' as <-.
  split_and!; [done|by eapply wf_register|done| | | |].
  - rewrite Hheap, deliver_lookup, decide_True, Hc by done. done.
  - intros a Ha. rewrite Hheap, deliver_lookup. by rewrite decide_False.
  - by apply (registerClient_spawned _ _ _ _ Hc Hreg).
  - unfold GetOnlineUsers, IsUserOnline. rewrite Hcl.
    destruct (clients h !! Client.UserID c) as [old|] eqn:Hold.
    + rewrite bool_decide_eq_true_2 by eauto.
      rewrite <- (insert_delete_id (clients h) (Client.UserID c) old Hold) at 2.
      rewrite <- (insert_delete_eq (clients h)).
      rewrite !map_size_insert_None by apply lookup_delete_eq. done.
    + rewrite bool_decide_eq_false_2 by (by intros [? ?]).
      by rewrite map_size_insert_None.
Qed.

End hub_registry.

Section hub_unregister.
Import websocket hub.
Implicit Types (h g : Hub) (env : Env) (p : payload) (c : Client.t).

Lemma wf_removed client c h :
  wf h → heap h !! client = Some c → wf (removed client c h).
Proof.
  intros Hwf Hc u a Hu. cbn in *.
  apply lookup_delete_Some in Hu as [Hne Hu].
  destruct (Hwf _ _ Hu) as (ca & Hca & Hid & Ho).
  assert (a ≠ client).
  { intros ->. rewrite Hc in Hca. injection Hca as <-. congruence. }
  rewrite lookup_insert_ne by done. eauto.
Qed.

Lemma getRoomParticipants_removed env roomID client c h :
  (getRoomParticipants env roomID (removed client c h)).2 = (getRoomParticipants env roomID h).2.
Proof.
  unfold getRoomParticipants, removed. cbn [rooms set_heap set_clients redis].
  destruct (rooms h !! roomID) as [cached|].
  - destruct (_ <? _); [done|]. by destruct (Redis.HGetAll _ _ _).
  - by destruct (Redis.HGetAll _ _ _).
Qed.

Lemma participantsOf_removed env roomID client c h :
  participantsOf env roomID (removed client c h) = participantsOf env roomID h.
Proof. unfold participantsOf. by rewrite getRoomParticipants_removed. Qed.

Lemma unregisterClient_current env client c h :
  fair env → wf h → heap h !! client = Some c → clients h !! Client.UserID c = Some client →
  let room :=
    if decide (Client.RoomID c ≠ "")
    then roomTargets env (participantsOf env (Client.RoomID c) h) (Client.UserID c)
           (delete (Client.UserID c) (clients h))
    else [] in
  ∃ h',
    unregisterClient env client h = Some h' ∧
    heap h' = deliver_all (partnerDisconnected c) room (heap (removed client c h)) ∧
    clients h' = delete (Client.UserID c) (clients h) ∧
    spawned h' = spawned h ++ [DelOnline (Client.UserID c)] ∧
    broadcast h' = broadcast h ∧ redis h' = redis h ∧
    client ∉ room.
Proof.
  intros Hfair Hwf Hc Hcur room.
  pose proof (wf_removed _ _ _ Hwf Hc) as Hwf2.
  unfold unregisterClient. rewrite Hc. cbn [mbind option_bind].
  rewrite Hcur, decide_True by done.
  change (set_heap _ (set_clients _ h)) with (removed client c h).
  assert (Hnot : ∀ found, client ∉ roomTargets env found (Client.UserID c)
                                    (delete (Client.UserID c) (clients h))).
  { intros found Hin. apply roomTargets_elem in Hin as (slot & u & _ & _ & Hne & Hu); [|done].
    apply lookup_delete_Some in Hu as [_ Hu].
    destruct (Hwf _ _ Hu) as (ca & Hca & Hid & _).
    rewrite Hc in Hca. injection Hca as <-. done. }
  subst room. destruct (decide (Client.RoomID c ≠ "")) as [Hr|Hr].
  - unfold BroadcastToRoomExcept.
    rewrite broadcastToRoomInternal_deliver by done.
    cbn [mbind option_bind]. eexists. split; [done|].
    destruct (getRoomParticipants_frame env (Client.RoomID c) (removed client c h))
      as (Hcl & Hheap & Hb & Hred & Hsp).
    rewrite participantsOf_removed.
    cbn [heap clients spawned broadcast redis go set_heap].
    rewrite Hcl, Hb, Hred, Hsp. cbn.
    split_and!; try done.
  - cbn [mbind option_bind]. eexists. split; [done|].
    cbn. split_and!; try done. apply not_elem_of_nil.
Qed.

(** X12.  [unregisterClient] of the connection registered for its user
    removes the user from the registry and starts the removal of the online
    mark.  The send channel is closed only when its buffer is empty: when
    messages are pending, the select takes the oldest one off the channel
    and leaves the channel open. *)
Theorem unregister_closes_when_drained env client c h :
  fair env → wf h → heap h !! client = Some c → clients h !! Client.UserID c = Some client →
  ∃ h' c',
    unregisterClient env client h = Some h' ∧
    heap h' !! client = Some c' ∧
    Client.UserID c' = Client.UserID c ∧
    (buf (Client.send c) = [] →
     closed (Client.send c') = true ∧ buf (Client.send c') = []) ∧
    (∀ oldest rest, buf (Client.send c) = oldest :: rest →
                    closed (Client.send c') = false ∧ buf (Client.send c') = rest) ∧
    IsUserOnline (Client.UserID c) h' = false ∧
    spawned h' = spawned h ++ [DelOnline (Client.UserID c)].
Proof.
  intros Hfair Hwf Hc Hcur.
  destruct (unregisterClient_current env client c h Hfair Hwf Hc Hcur)
    as (h' & Hun & Hheap & Hcl & Hsp & _ & _ & Hnot).
  exists h', (Client.set_send (drainOrClose (Client.send c)) c).
  destruct (Hwf _ _ Hcur) as (c0 & Hc0 & _ & Hopen).
  rewrite Hc in Hc0. injection Hc0 as <-.
  split_and!; [done| |done| | | |done].
  - rewrite Hheap, deliver_all_other by done. cbn. by rewrite lookup_insert_eq.
  - intros Hb. cbn. unfold drainOrClose. by rewrite Hb.
  - intros oldest rest Hb. cbn. unfold drainOrClose. by rewrite Hb.
  - unfold IsUserOnline. rewrite Hcl, lookup_delete_eq.
    apply bool_decide_eq_false_2. by intros [? ?].
Qed.

(** X13.  When the connection registered for its user is unregistered and has
    no latched room, no other connection changes.  When it has a latched
    room, every registered user in slot user1 or user2 of the room, other
    than the leaving user, gets partner_disconnected queued as long as its
    buffer has room.  The dispatch queue is unchanged in both cases. *)
Theorem unregister_notifies_room env client c h :
  fair env → wf h → heap h !! client = Some c → clients h !! Client.UserID c = Some client →
  ∃ h',
    unregisterClient env client h = Some h' ∧
    (Client.RoomID c = "" → ∀ a, a ≠ client → heap h' !! a = heap h !! a) ∧
    (Client.RoomID c ≠ "" →
     ∀ slot userID a ca,
       (slot = "user1" ∨ slot = "user2") →
       participantsOf env (Client.RoomID c) h !! slot = Some userID →
       userID ≠ Client.UserID c →
       clients h !! userID = Some a → heap h !! a = Some ca →
       ∃ ca', heap h' !! a = Some ca' ∧
              ((length (buf (Client.send ca)) < clientBufferSize)%nat →
               partnerDisconnected c ∈ buf (Client.send ca'))) ∧
    broadcast h' = broadcast h.
Proof.
  intros Hfair Hwf Hc Hcur.
  destruct (unregisterClient_current env client c h Hfair Hwf Hc Hcur)
    as (h' & Hun & Hheap & Hcl & Hsp & Hb & _ & Hnot).
  exists h'. split_and!; [done| | |done].
  - intros Hr a Ha. rewrite Hheap. rewrite decide_False by (by intros H).
    cbn. by rewrite lookup_insert_ne.
  - intros Hr slot userID a ca Hslot Hfound Hne Hu Hca.
    rewrite decide_True in Hheap by done.
    assert (Hin : a ∈ roomTargets env (participantsOf env (Client.RoomID c) h)
                      (Client.UserID c) (delete (Client.UserID c) (clients h))).
    { apply roomTargets_elem; [done|]. exists slot, userID. split_and!; try done.
      by rewrite lookup_delete_ne. }
    assert (Ha : a ≠ client).
    { intros ->. destruct (Hwf _ _ Hu) as (c0 & Hc0 & Hid & _).
      rewrite Hc in Hc0. injection Hc0 as <-. done. }
    assert (Hca2 : heap (removed client c h) !! a = Some ca).
    { cbn. by rewrite lookup_insert_ne. }
    rewrite Hheap, deliver_all_lookup, Hca2. cbn. eexists. split; [done|].
    intros Hroom. cbn.
    destruct (iter_push_buf (partnerDisconnected c)
                (length (filter (λ t, t = a)
                           (roomTargets env (participantsOf env (Client.RoomID c) h)
                              (Client.UserID c) (delete (Client.UserID c) (clients h)))))
                (Client.send ca)) as (k & -> & Hk).
    assert (0 < k)%nat as Hpos.
    { apply Hk; [|done].
      destruct (filter _ _) as [|x l] eqn:Hf; [|cbn; lia].
      exfalso. assert (a ∈ filter (λ t, t = a)
                         (roomTargets env (participantsOf env (Client.RoomID c) h)
                            (Client.UserID c) (delete (Client.UserID c) (clients h))))
        as Hx by (by apply list_elem_of_filter).
      rewrite Hf in Hx. by apply elem_of_nil in Hx. }
    apply elem_of_app. right. destruct k; [lia|]. cbn. apply elem_of_cons. by left.
Qed.

End hub_unregister.

Section hub_cache.
Import websocket hub.
Implicit Types (h g : Hub) (env : Env) (p : payload) (c : Client.t).

(** X14.  [getRoomParticipants] caches for 30 seconds.  A failing lookup
    leaves the hub unchanged, so errors are not cached.  After a successful
    lookup that no fresh cache entry served, a lookup less than 30 seconds
    later returns the same participants whatever the store holds by then,
    and changes nothing; from 30 seconds on the answer is again the one the
    store gives.  After [invalidateRoomCache] the next lookup is the one the
    store gives. *)
Theorem roomParticipants_cached env roomID h :
  (∀ e, (getRoomParticipants env roomID h).2 = Err e → (getRoomParticipants env roomID h).1 = h) ∧
  (∀ found env' store,
      (getRoomParticipants env roomID h).2 = Ok found →
      (∀ cached, rooms h !! roomID = Some cached → roomCacheTTL ≤ now env - cachedAt cached) →
      let g := set_redis store (getRoomParticipants env roomID h).1 in
      (now env' - now env < roomCacheTTL →
       getRoomParticipants env' roomID g = (g, Ok found)) ∧
      (roomCacheTTL ≤ now env' - now env →
       (getRoomParticipants env' roomID g).2 = Redis.HGetAll (now env') ("room:" +:+ roomID) store)) ∧
  (∀ env',
      (getRoomParticipants env' roomID (invalidateRoomCache roomID h)).2
        = Redis.HGetAll (now env') ("room:" +:+ roomID) (redis h)).
Proof.
  split_and!.
  - intros e. unfold getRoomParticipants.
    destruct (rooms h !! roomID) as [cached|].
    + destruct (_ <? _); [done|]. by destruct (Redis.HGetAll _ _ _).
    + by destruct (Redis.HGetAll _ _ _).
  - intros found env' store Hfound Hstale g.
    assert (Hfetch : (getRoomParticipants env roomID h).1
                     = set_rooms (<[roomID := {| participants := found; cachedAt := now env |}]>
                                    (rooms h)) h).
    { revert Hfound. unfold getRoomParticipants.
      destruct (rooms h !! roomID) as [cached|] eqn:Hcached.
      - specialize (Hstale cached eq_refl).
        replace (now env - cachedAt cached <? roomCacheTTL) with false
          by (symmetry; apply Z.ltb_ge; lia).
        destruct (Redis.HGetAll _ _ _); [|done]. cbn. by intros [= ->].
      - destruct (Redis.HGetAll _ _ _); [|done]. cbn. by intros [= ->]. }
    subst g. rewrite Hfetch. unfold getRoomParticipants.
    cbn [rooms set_rooms set_redis redis]. rewrite lookup_insert_eq. cbn [cachedAt participants].
    split.
    + intros Hfresh. by replace (now env' - now env <? roomCacheTTL) with true
        by (symmetry; apply Z.ltb_lt; lia).
    + intros Hold. replace (now env' - now env <? roomCacheTTL) with false
        by (symmetry; apply Z.ltb_ge; lia).
      by destruct (Redis.HGetAll _ _ _).
  - intros env'. unfold getRoomParticipants, invalidateRoomCache.
    cbn [rooms set_rooms redis]. rewrite lookup_delete_eq.
    by destruct (Redis.HGetAll _ _ _).
Qed.

End hub_cache.

Section hub_rooms.
Import websocket hub.
Implicit Types (h g : Hub) (env : Env) (p : payload) (c : Client.t).

Lemma roomTargets_empty env exclude registry :
  fair env → roomTargets env ∅ exclude registry = [].
Proof.
  intros (_ & Hfair & _). unfold roomTargets. rewrite map_to_list_empty.
  by rewrite (proj1 (Permutation_nil_r _) (Hfair [])).
Qed.

(** X16.  [BroadcastToUser] on an empty dispatch queue followed by one step
    of [broadcastWorker] delivers the payload to the connection registered
    for the user, in a well-formed hub; for a user without a registered
    connection, and for the empty user id, the hub ends as it was. *)
Theorem worker_delivers env userID data h :
  fair env → wf h → broadcast h = [] →
  broadcastWorker env (BroadcastToUser userID data h) =
    if decide (userID = "") then Some h
    else match clients h !! userID with
         | Some a => Some (set_heap (deliver data (heap h) a) h)
         | None => Some h
         end.
Proof.
  intros Hfair Hwf Hb. unfold BroadcastToUser, offer. rewrite Hb.
  rewrite decide_True by (cbn; unfold broadcastBufferSize; lia).
  unfold broadcastWorker. cbn [broadcast set_broadcast app].
  assert (Hh : set_broadcast [] (set_broadcast
                [{| Message.Type_ := ""; Message.UserID := userID; Message.RoomID := "";
                    Message.Data := data; Message.Broadcast := false;
                    Message.Exclude := "" |}] h) = h).
  { destruct h. cbn in *. by subst. }
  rewrite Hh. unfold handleBroadcast. cbn [Message.Broadcast Message.UserID Message.RoomID
                                            Message.Data Message.Exclude].
  destruct (decide (userID = "")) as [->|Hu].
  - rewrite decide_False by (by intros H). by rewrite decide_False by (by intros H).
  - rewrite decide_True by done.
    unfold sendToUser. destruct (clients h !! userID) as [a|] eqn:Ha; [|done].
    destruct (Hwf _ _ Ha) as (ca & Hca & _ & Ho).
    by apply (sendToClient_open _ _ _ ca).
Qed.

End hub_rooms.

Section matched_rooms.
Import hub.

(** X15.  After a successful [CreateRoomForMatch], a hub on the same store
    that has no cache entry for the room resolves the room to the two
    matched users: for two hours from the creation the slots user1 and user2
    hold the two user ids and a room broadcast targets exactly the
    registered connections of the two, the excluded user apart; from two
    hours on the room resolves to nobody and a room broadcast reaches no
    connection.  The key of the room holds a hash or nothing before the
    creation. *)
Theorem matched_room_resolved menv (env : websocket.Env) user1ID user2ID s s1 roomID
    (h : websocket.Hub) :
  services.CreateRoomForMatch menv user1ID user2ID s = (s1, Ok roomID) →
  is_ok (Redis.HGetAll (now menv) (services.roomStateKey roomID) (services.redis s)) = true →
  websocket.redis h = services.redis s1 → websocket.rooms h !! roomID = None →
  websocket.fair env →
  (now menv ≤ websocket.now env < now menv + 2 * time.Hour →
   participantsOf env roomID h !! "user1" = Some user1ID ∧
   participantsOf env roomID h !! "user2" = Some user2ID ∧
   ∀ exclude a,
     a ∈ roomTargets env (participantsOf env roomID h) exclude (websocket.clients h) ↔
     ∃ userID, (userID = user1ID ∨ userID = user2ID) ∧ userID ≠ exclude ∧
               websocket.clients h !! userID = Some a) ∧
  (now menv + 2 * time.Hour ≤ websocket.now env →
   participantsOf env roomID h = ∅ ∧
   ∀ exclude, roomTargets env (participantsOf env roomID h) exclude (websocket.clients h) = []).
Proof.
  intros Hc Hok Hredis Hrooms Hfair.
  destruct (CreateRoomForMatch_stored _ _ _ _ _ _ Hc Hok) as [Hstored _].
  assert (Hp : participantsOf env roomID h =
               match Redis.HGetAll (websocket.now env) (services.roomStateKey roomID) (services.redis s1)
               with Ok found => found | Err _ => ∅ end).
  { unfold participantsOf, websocket.getRoomParticipants. rewrite Hrooms, Hredis.
    change ("room:" +:+ roomID) with (services.roomStateKey roomID).
    by destruct (Redis.HGetAll (websocket.now env) _ _). }
  rewrite (HGetAll_deadline _ _ _ _ _ Hstored) in Hp.
  split.
  - intros [H1 H2]. rewrite bool_decide_eq_false_2 in Hp by lia.
    assert (H1u : participantsOf env roomID h !! "user1" = Some user1ID).
    { rewrite Hp. rewrite lookup_insert_ne by done. rewrite lookup_insert_ne by done.
      by rewrite lookup_insert_eq. }
    assert (H2u : participantsOf env roomID h !! "user2" = Some user2ID).
    { rewrite Hp. rewrite lookup_insert_ne by done. by rewrite lookup_insert_eq. }
    split_and!; [done|done|].
    intros exclude a. rewrite roomTargets_elem by done. split.
    + intros (slot & userID & [->| ->] & Hslot & Hne & Ha).
      * rewrite H1u in Hslot. injection Hslot as <-. eauto.
      * rewrite H2u in Hslot. injection Hslot as <-. eauto.
    + intros (userID & [->| ->] & Hne & Ha).
      * exists "user1", user1ID. eauto.
      * exists "user2", user2ID. eauto.
  - intros H1. rewrite bool_decide_eq_true_2 in Hp by lia. split; [done|].
    intros exclude. rewrite Hp. by apply roomTargets_empty.
Qed.

End matched_rooms.

Section frames.
Import websocket hub accept.
Implicit Types (h g : Hub) (env : Env) (p : payload) (c : Client.t).

Lemma same_refl h : same_connections h h.
Proof. split; [done|]. intros a c Hc. eauto. Qed.

Lemma same_trans h1 h2 h3 :
  same_connections h1 h2 → same_connections h2 h3 → same_connections h1 h3.
Proof.
  intros [Hc1 H1] [Hc2 H2]. split; [congruence|].
  intros a c Ha. destruct (H1 _ _ Ha) as (c' & Ha' & Hu & Ho).
  destruct (H2 _ _ Ha') as (c'' & Ha'' & Hu' & Ho').
  exists c''. split_and!; [done|congruence|congruence].
Qed.

Lemma same_eq h g : clients g = clients h → heap g = heap h → same_connections h g.
Proof. intros Hc Hh. split; [done|]. intros a c Ha. rewrite Hh. eauto. Qed.

Lemma same_wf h g : same_connections h g → wf h → wf g.
Proof.
  intros [Hc Hs] Hwf u a Hu. rewrite Hc in Hu.
  destruct (Hwf _ _ Hu) as (c & Ha & Hid & Ho).
  destruct (Hs _ _ Ha) as (c' & Ha' & Hid' & Ho').
  exists c'. split_and!; [done|congruence|congruence].
Qed.

Lemma same_open h g a : same_connections h g → open h a → open g a.
Proof.
  intros [_ Hs] (c & Ha & Ho). destruct (Hs _ _ Ha) as (c' & Ha' & _ & Ho').
  exists c'. split; [done|congruence].
Qed.

Lemma same_deliver p a h : same_connections h (set_heap (deliver p (heap h) a) h).
Proof.
  split; [done|]. intros b c Hb. cbn. rewrite deliver_lookup.
  destruct (decide (a = b)) as [->|]; [|eauto].
  rewrite Hb. cbn. eexists. split; [done|]. cbn. by rewrite push_closed.
Qed.

Lemma same_deliver_all p targets h :
  same_connections h (set_heap (deliver_all p targets (heap h)) h).
Proof.
  revert h. induction targets as [|a targets IH]; intros h.
  - cbn. rewrite set_heap_same. apply same_refl.
  - rewrite deliver_all_cons.
    eapply same_trans; [apply (same_deliver p a)|].
    specialize (IH (set_heap (deliver p (heap h) a) h)). by destruct h.
Qed.

Lemma same_room_broadcast env roomID p exclude h :
  fair env → wf h →
  ∃ h', BroadcastToRoomExcept env roomID exclude p h = Some h' ∧
        same_connections h h' ∧ broadcast h' = broadcast h ∧ redis h' = redis h ∧
        heap h' = deliver_all p (roomTargets env (participantsOf env roomID h) exclude (clients h))
                    (heap h).
Proof.
  intros Hfair Hwf. unfold BroadcastToRoomExcept.
  rewrite broadcastToRoomInternal_deliver by done. eexists. split; [done|].
  destruct (getRoomParticipants_frame env roomID h) as (Hcl & Hheap & Hb & Hred & _).
  split_and!; [|done|done|done].
  split; [done|]. intros a c Ha. cbn.
  destruct (same_deliver_all p (roomTargets env (participantsOf env roomID h) exclude (clients h)) h)
    as [_ Hs]. by apply Hs.
Qed.

Lemma same_send client p h :
  open h client →
  ∃ h', Send client p h = Some h' ∧ same_connections h h' ∧
        broadcast h' = broadcast h ∧ redis h' = redis h.
Proof.
  intros (c & Hc & Ho). unfold Send. rewrite (sendToClient_open _ _ _ c) by done.
  eexists. split; [done|]. split; [apply same_deliver|done].
Qed.

Lemma same_latch roomID client c h :
  heap h !! client = Some c →
  same_connections h (set_heap (<[client := latch roomID c]> (heap h)) h).
Proof.
  intros Hc. split; [done|]. intros a ca Ha. cbn.
  destruct (decide (a = client)) as [->|].
  - rewrite lookup_insert_eq. rewrite Hc in Ha. injection Ha as <-.
    eexists. split; [done|]. unfold latch. by destruct (decide _).
  - rewrite lookup_insert_ne by done. eauto.
Qed.

Lemma relayWebRTC_result env client c msg h :
  fair env → wf h → heap h !! client = Some c →
  let sender := Client.UserID c in
  let h1 := set_heap (<[client := latch (Event.To msg) c]> (heap h)) h in
  relayWebRTC env client msg h =
    if decide (Event.To msg = "") then Some (offer (toAllExcept sender (signal c msg)) h)
    else
      Some (offer (toAllExcept sender (signal c msg))
              (set_heap
                 (deliver_all (signal c msg)
                    (roomTargets env (participantsOf env (Event.To msg) h) sender (clients h))
                    (heap h1))
                 (getRoomParticipants env (Event.To msg) h1).1)).
Proof.
  intros Hfair Hwf Hc sender h1.
  unfold relayWebRTC. rewrite Hc. cbn [mbind option_bind].
  destruct (decide (Event.To msg = "")) as [Hto|Hto]; [done|].
  assert (Hh1 : (if decide (Client.RoomID c = "")
                 then set_heap (<[client := Client.set_RoomID (Event.To msg) c]> (heap h)) h
                 else h) = h1).
  { unfold h1, latch. destruct (decide _); [done|].
    by rewrite insert_id, set_heap_same. }
  rewrite Hh1.
  assert (Hwf1 : wf h1) by by apply wf_latch.
  assert (Hp1 : participantsOf env (Event.To msg) h1 = participantsOf env (Event.To msg) h).
  { unfold participantsOf, h1. by rewrite getRoomParticipants_set_heap. }
  unfold BroadcastToRoomExcept.
  change [("type", JString (Event.Type_ msg)); ("from", JString (Client.UserID c));
          ("roomId", JString (Event.To msg)); ("sdp", Event.SDP msg);
          ("candidate", Event.Candidate msg)] with (signal c msg).
  rewrite (broadcastToRoomInternal_deliver env (Event.To msg) (signal c msg)
             (Client.UserID c) h1 Hfair Hwf1).
  rewrite Hp1. done.
Qed.

Lemma same_offer m h : same_connections h (offer m h).
Proof.
  destruct (offer_frame m h) as (Hh & Hc & _). by apply same_eq.
Qed.

Lemma same_relay env client c msg h :
  fair env → wf h → heap h !! client = Some c →
  ∃ h', relayWebRTC env client msg h = Some h' ∧ same_connections h h'.
Proof.
  intros Hfair Hwf Hc.
  rewrite (relayWebRTC_result env client c msg h Hfair Hwf Hc).
  destruct (decide (Event.To msg = "")); eexists; (split; [done|]).
  - apply same_offer.
  - eapply same_trans; [|apply same_offer].
    eapply same_trans; [apply (same_latch (Event.To msg) client c h Hc)|].
    set (h1 := set_heap (<[client := latch (Event.To msg) c]> (heap h)) h).
    destruct (getRoomParticipants_frame env (Event.To msg) h1) as (Hcl & Hheap & _).
    destruct (same_deliver_all (signal c msg)
                (roomTargets env (participantsOf env (Event.To msg) h) (Client.UserID c)
                   (clients h)) h1) as [_ Hs].
    split; [done|]. intros a ca Ha. cbn. by apply Hs.
Qed.

Lemma same_accept env client msg h :
  open h client →
  ∃ h', Client1.handleAcceptMatch env client msg h = Some h' ∧ same_connections h h'.
Proof.
  intros (c & Hc & Ho).
  destruct (decide (Event.RoomID msg = "")) as [Hroom|Hroom].
  { exists h. unfold Client1.handleAcceptMatch. rewrite Hc. cbn.
    rewrite decide_True by done. split; [done|apply same_refl]. }
  destruct (recordAccept env (Client1.acceptKey (Event.RoomID msg)) (Client.UserID c)
              (2 * time.Minute) (redis h)) as [r reply] eqn:Hrec.
  rewrite (Client1_cases _ _ _ _ _ _ _ Hc Ho Hroom Hrec).
  destruct reply as [l|e]; [|eexists; split; [done|by apply same_eq]].
  cbn zeta.
  assert (Hh2 : same_connections h
                  (if decide (length l = 1%nat)
                   then set_heap (deliver waitingForPartner (heap h) client) (set_redis r h)
                   else set_redis r h)).
  { destruct (decide _); [|by apply same_eq].
    destruct (same_deliver waitingForPartner client h) as [Hcl Hs]. split; [done|].
    intros a ca Ha. cbn. by apply Hs. }
  destruct (decide (2 ≤ length l)%nat); eexists; (split; [done|]); [|done].
  eapply same_trans; [exact Hh2|].
  apply same_eq; cbn [clients heap set_redis].
  - rewrite (proj1 (proj2 (notifyOthers_frame _ _ _ _ _))).
    by rewrite (proj1 (proj2 (assignRoles_frame _ _ _))).
  - rewrite (proj1 (notifyOthers_frame _ _ _ _ _)).
    by rewrite (proj1 (assignRoles_frame _ _ _)).
Qed.

Lemma same_handleMessage env client parsed h :
  fair env → wf h → open h client →
  ∃ h', Client1.handleMessage env client parsed h = Some h' ∧ same_connections h h'.
Proof.
  intros Hfair Hwf Hopen. pose proof Hopen as (c & Hc & Ho).
  unfold Client1.handleMessage. destruct parsed as [msg|]; [|exists h; split; [done|apply same_refl]].
  cbn zeta.
  repeat case_decide.
  - destruct (same_send client [("type", JString "pong")] h Hopen) as (h' & -> & Hs & _). eauto.
  - destruct (same_send client
                [("type", JString "queue_ack"); ("message", JString "Queue request received")]
                h Hopen) as (h' & -> & Hs & _). eauto.
  - destruct (same_send client
                [("type", JString "queue_left_ack"); ("message", JString "Left queue")]
                h Hopen) as (h' & -> & Hs & _). eauto.
  - by apply same_accept.
  - by apply (same_relay _ _ c).
  - unfold Client1.handleCallEnded. rewrite Hc. cbn [mbind option_bind].
    case_decide; [exists h; split; [done|apply same_refl]|].
    destruct (same_room_broadcast env
                (if decide (Event.RoomID msg = "") then Client.RoomID c else Event.RoomID msg)
                [("type", JString EventCallEnd); ("from", JString (Client.UserID c));
                 ("roomId", JString (if decide (Event.RoomID msg = "") then Client.RoomID c
                                     else Event.RoomID msg))]
                (Client.UserID c) h Hfair Hwf) as (h' & -> & Hs & _). eauto.
  - unfold Client1.handleMediaStateChanged. rewrite Hc. cbn [mbind option_bind].
    case_decide; [exists h; split; [done|apply same_refl]|].
    destruct (same_room_broadcast env
                (if decide (Event.RoomID msg = "") then Client.RoomID c else Event.RoomID msg)
                [("type", JString EventMediaStateChange); ("from", JString (Client.UserID c));
                 ("roomId", JString (if decide (Event.RoomID msg = "") then Client.RoomID c
                                     else Event.RoomID msg));
                 ("isMuted", Client1.field msg "isMuted");
                 ("isVideoOff", Client1.field msg "isVideoOff")]
                (Client.UserID c) h Hfair Hwf) as (h' & -> & Hs & _). eauto.
  - unfold Client1.relayToRoom. rewrite Hc. cbn [mbind option_bind].
    case_decide; [exists h; split; [done|apply same_refl]|].
    destruct (same_room_broadcast env (Event.RoomID msg)
                [("type", JString (Event.Type_ msg)); ("from", JString (Client.UserID c));
                 ("roomId", JString (Event.RoomID msg));
                 ("message", Client1.field msg "message")]
                (Client.UserID c) h Hfair Hwf) as (h' & -> & Hs & _). eauto.
  - exists h; split; [done|apply same_refl].
Qed.

(** X17.  Any sequence of frames, parsed or not, read from open connections
    of a well-formed hub is handled to the end: no handler sends on a closed
    channel.  The hub stays well-formed, the registry is unchanged and every
    connection that was open is still open. *)
Theorem frames_never_panic frames h :
  wf h →
  Forall (λ f : Env * nat * option Event.t, fair f.1.1 ∧ open h f.1.2) frames →
  ∃ h', handleFrames frames h = Some h' ∧
        wf h' ∧ clients h' = clients h ∧ (∀ a, open h a → open h' a).
Proof.
  intros Hwf Hframes.
  assert (∃ h', handleFrames frames h = Some h' ∧ same_connections h h') as (h' & Hs & Hsame).
  { unfold handleFrames. revert h Hwf Hframes.
    induction frames as [|f frames IH]; intros h Hwf Hframes.
    - exists h. split; [done|apply same_refl].
    - apply Forall_cons in Hframes as [[Hfair Hopen] Hrest]. cbn [foldl].
      destruct (same_handleMessage f.1.1 f.1.2 f.2 h Hfair Hwf Hopen) as (h1 & Hh1 & Hs1).
      cbn [mbind option_bind]. rewrite Hh1.
      destruct (IH h1) as (h' & Hh' & Hs').
      + by eapply same_wf.
      + eapply Forall_impl; [exact Hrest|]. intros g [Hg1 Hg2]. split; [done|].
        by eapply same_open.
      + exists h'. split; [done|]. by eapply same_trans. }
  exists h'. split; [done|]. split_and!.
  - by eapply same_wf.
  - by destruct Hsame.
  - intros a. by apply same_open.
Qed.

End frames.

Section latched_room.
Import websocket hub accept.
Implicit Types (h g : Hub) (env : Env) (p : payload) (c : Client.t).

Lemma iter_push_closed p n ch : closed (Nat.iter n (push p) ch) = closed ch.
Proof. induction n as [|n IH]; [done|]. cbn. by rewrite push_closed. Qed.

Lemma relayWebRTC_client env client c msg h h' :
  fair env → wf h → heap h !! client = Some c →
  relayWebRTC env client msg h = Some h' →
  ∃ c', heap h' !! client = Some c' ∧
        Client.UserID c' = Client.UserID c ∧
        Client.RoomID c' =
          (if decide (Client.RoomID c = "") then Event.To msg else Client.RoomID c).
Proof.
  intros Hfair Hwf Hc. rewrite (relayWebRTC_result env client c msg h Hfair Hwf Hc).
  destruct (decide (Event.To msg = "")) as [Hto|Hto]; intros [= <-].
  - rewrite (proj1 (offer_frame _ _)). exists c. split_and!; try done.
    rewrite Hto. by destruct (decide _).
  - rewrite (proj1 (offer_frame _ _)). cbn [heap set_heap].
    rewrite deliver_all_lookup, lookup_insert_eq. cbn.
    eexists. split; [done|]. cbn. unfold latch.
    split; by destruct (decide _).
Qed.

(** X18.  Over any sequence of signalling messages of one connection
    [relayWebRTC] succeeds, and the RoomID of the connection is latched
    once: when it was empty it ends as the first non-empty [to] of the
    sequence (empty when there is none), and a RoomID that was set never
    changes. *)
Theorem relay_latches_first_room client c msgs h :
  wf h → heap h !! client = Some c →
  Forall (λ em : Env * Event.t, fair em.1) msgs →
  ∃ h' c',
    foldl (λ acc em, g ← acc; relayWebRTC em.1 client em.2 g) (Some h) msgs = Some h' ∧
    wf h' ∧ heap h' !! client = Some c' ∧
    Client.RoomID c' =
      (if decide (Client.RoomID c = "")
       then default "" (head (filter (λ to, to ≠ "") (Event.To <$> msgs.*2)))
       else Client.RoomID c).
Proof.
  intros Hwf Hc Hfair. revert h c Hwf Hc.
  induction msgs as [|[e msg] msgs IH]; intros h c Hwf Hc.
  - exists h, c. split_and!; try done. by destruct (decide _).
  - apply Forall_cons in Hfair as [Hf Hrest]. cbn [foldl fst snd] in *.
    destruct (same_relay e client c msg h Hf Hwf Hc) as (h1 & Hh1 & Hs1).
    cbn [mbind option_bind]. rewrite Hh1.
    destruct (relayWebRTC_client e client c msg h h1 Hf Hwf Hc Hh1) as (c1 & Hc1 & _ & Hroom1).
    destruct (IH Hrest h1 c1) as (h' & c' & Hfold & Hwf' & Hc' & Hroom'); [by eapply same_wf|done|].
    exists h', c'. split_and!; try done.
    rewrite Hroom', Hroom1. cbn [fmap list_fmap snd].
    destruct (decide (Client.RoomID c = "")) as [Hr|Hr].
    + destruct (decide (Event.To msg = "")) as [Hto|Hto].
      * by rewrite filter_cons_False by (by intros H).
      * by rewrite filter_cons_True by done.
    + by rewrite decide_False by done.
Qed.

(** X19.  A call_ended frame that names no room, from a connection that has
    relayed a signalling message to a room: the handler of
    [internal/websocket/client.go] falls back to the latched room and
    delivers call_ended to the registered connections of the other
    participants of that room, without using the dispatch queue; the handler
    of the other [client.go] returns without doing anything. *)
Theorem callEnded_uses_latched_room env env' client c offer msg h h1 :
  fair env → fair env' → wf h → heap h !! client = Some c →
  Client.RoomID c = "" → Event.To offer ≠ "" → Event.RoomID msg = "" →
  relayWebRTC env client offer h = Some h1 →
  let roomID := Event.To offer in
  let notice :=
    [("type", JString EventCallEnd); ("from", JString (Client.UserID c));
     ("roomId", JString roomID)] in
  let room := roomTargets env' (participantsOf env' roomID h1) (Client.UserID c) (clients h) in
  (∃ h2, Client1.handleCallEnded env' client msg h1 = Some h2 ∧
         heap h2 = deliver_all notice room (heap h1) ∧
         broadcast h2 = broadcast h1 ∧
         (∀ a, a ∈ room ↔
               ∃ slot userID, (slot = "user1" ∨ slot = "user2") ∧
                              participantsOf env' roomID h1 !! slot = Some userID ∧
                              userID ≠ Client.UserID c ∧ clients h !! userID = Some a)) ∧
  Client2.handleCallEnded env' client msg h1 = Some h1.
Proof.
  intros Hfair Hfair' Hwf Hc Hr Hto Hroom Hrelay roomID notice room.
  destruct (relayWebRTC_client env client c offer h h1 Hfair Hwf Hc Hrelay)
    as (c1 & Hc1 & Hid & Hlatched).
  rewrite decide_True in Hlatched by done.
  destruct (same_relay env client c offer h Hfair Hwf Hc) as (h1' & Hh1 & Hsame).
  rewrite Hrelay in Hh1. injection Hh1 as <-.
  assert (Hwf1 : wf h1) by by eapply same_wf.
  assert (Hcl : clients h1 = clients h) by by destruct Hsame.
  split.
  - unfold Client1.handleCallEnded. rewrite Hc1. cbn [mbind option_bind].
    rewrite Hroom, Hlatched. rewrite (decide_True (P := "" = "")) by done.
    rewrite decide_False by done. rewrite Hid.
    destruct (same_room_broadcast env' (Event.To offer) notice (Client.UserID c) h1 Hfair' Hwf1)
      as (h2 & Hh2 & _ & Hb & _ & Hheap).
    exists h2. rewrite Hcl in Hheap. split_and!; try done.
    intros a. by apply roomTargets_elem.
  - unfold Client2.handleCallEnded. rewrite Hc1. cbn [mbind option_bind].
    by rewrite Hroom, decide_True.
Qed.

End latched_room.

Section lone_accept.
Import websocket hub accept.
Implicit Types (h g : Hub) (env : Env) (p : payload) (c : Client.t).

Lemma recordAccept_alone env key userID ttl store (S : gset string) :
  0 < ttl → fair env →
  Redis.SMembers (now env) key store = Ok S → S ⊆ {[userID]} →
  ∃ r, recordAccept env key userID ttl store = (r, Ok [userID]) ∧
       (∀ k, k ≠ key → r !! k = store !! k) ∧
       ∀ now', now env ≤ now' < now env + ttl → acceptanceSet now' key r = {[userID]}.
Proof.
  intros Httl Hfair HS Hsub.
  pose proof (recordAccept_spec env key userID ttl store Httl) as Hspec.
  destruct (recordAccept env key userID ttl store) as [r reply].
  destruct Hspec as [Hframe Hkey].
  assert (Hone : ∀ l : list string, l ≡ₚ elements ({[userID]} : gset string) → l = [userID]).
  { intros l Hl. rewrite elements_singleton in Hl. by apply Permutation_singleton_r. }
  assert (Hread : ∀ v now', now env ≤ now' < now env + ttl →
            r !! key = Some (Redis.Entry (Redis.VSet v) (Some (now env + ttl))) →
            acceptanceSet now' key r = v).
  { intros v now' Hn Hr. unfold acceptanceSet, Redis.SMembers, Redis.find. rewrite Hr.
    unfold Redis.expired. cbn. by rewrite bool_decide_eq_false_2 by lia. }
  exists r. unfold Redis.SMembers in HS.
  destruct (Redis.find (now env) key store) as [[[| |s|] t]|]; try done.
  - injection HS as ->. destruct Hkey as [Hr ->].
    assert (Heq : {[userID]} ∪ S = ({[userID]} : gset string)).
    { rewrite (comm_L (∪)). by apply subseteq_union_1_L. }
    rewrite Heq in Hr |- *.
    split_and!; [|done|].
    + f_equal. f_equal. apply Hone. apply Hfair.
    + intros now' Hn. by apply Hread.
  - destruct Hkey as [Hr ->]. split_and!; [|done|].
    + f_equal. f_equal. apply Hone. apply Hfair.
    + intros now' Hn. by apply Hread.
Qed.

(** X20.  An accept_match of an open connection for a room whose Acceptance
    Set holds nobody else (it is absent, has expired, or holds only the user)
    is handled as a first accept.  In [internal/websocket/client.go] the
    user gets waiting_for_partner, nothing is put on the dispatch queue, and
    the set is exactly the user for two minutes from the call.  In the other
    [client.go] no connection buffer changes, the dispatch queue only gains
    partner_accepted notices for other users, and the set is exactly the
    user for five minutes from the call. *)
Theorem lone_accept_waits env client c msg h :
  fair env → heap h !! client = Some c → closed (Client.send c) = false →
  Event.RoomID msg ≠ "" →
  let roomID := Event.RoomID msg in
  let userID := Client.UserID c in
  (∀ S : gset string,
     Redis.SMembers (now env) (Client1.acceptKey roomID) (redis h) = Ok S → S ⊆ {[userID]} →
     ∃ h',
       Client1.handleAcceptMatch env client msg h = Some h' ∧
       heap h' = deliver waitingForPartner (heap h) client ∧
       broadcast h' = broadcast h ∧
       ∀ now', now env ≤ now' < now env + 2 * time.Minute →
               acceptanceSet now' (Client1.acceptKey roomID) (redis h') = {[userID]}) ∧
  (∀ S : gset string,
     Redis.SMembers (now env) (Client2.acceptKey roomID) (redis h) = Ok S → S ⊆ {[userID]} →
     ∃ h' rest,
       Client2.handleAcceptMatch env client msg h = Some h' ∧
       heap h' = heap h ∧
       broadcast h' = broadcast h ++ rest ∧
       (∀ m, m ∈ rest → Message.UserID m ≠ userID ∧ Message.Data m = partnerAccepted roomID) ∧
       ∀ now', now env ≤ now' < now env + 5 * time.Minute →
               acceptanceSet now' (Client2.acceptKey roomID) (redis h') = {[userID]}).
Proof.
  intros Hfair Hc Ho Hroom roomID userID. subst roomID userID. split.
  - intros S HS Hsub.
    destruct (recordAccept_alone env _ (Client.UserID c) _ _ S two_minutes Hfair HS Hsub)
      as (r & Hrec & _ & Hset).
    rewrite (Client1_cases _ _ _ _ _ _ _ Hc Ho Hroom Hrec). cbn.
    eexists. split; [done|]. cbn. done.
  - intros S HS Hsub.
    destruct (recordAccept_alone env _ (Client.UserID c) _ _ S five_minutes Hfair HS Hsub)
      as (r & Hrec & _ & Hset).
    rewrite (Client2_cases _ _ _ _ _ _ _ Hc Hroom Hrec). cbn.
    destruct (notifyOthers_frame env (Event.RoomID msg) (Client.UserID c)
                match Redis.HGetAll (now env) (roomKey (Event.RoomID msg)) r with
                | Ok found => found
                | Err _ => ∅
                end (set_redis r h)) as (Hheap & _ & Hred & rest & Hb & Hrest).
    eexists _, rest. split; [done|]. split_and!; try done.
    intros now' Hn. rewrite Hred. cbn. by apply Hset.
Qed.

End lone_accept.

Section rooms_collection.
Import repositories.
Implicit Types (collection : list models.Room) (r room : models.Room) (roomID : string).

Lemma findOne_app_new filter collection r :
  Forall (λ x, filter x = false) collection →
  findOne filter (collection ++ [r]) = if filter r then Ok (decode r) else Err ErrNoDocuments.
Proof.
  induction 1 as [|x l Hx _ IH]; cbn; [done|]. by rewrite Hx.
Qed.

Lemma findOne_app_old filter collection r :
  filter r = false → findOne filter (collection ++ [r]) = findOne filter collection.
Proof.
  intros Hr. induction collection as [|x l IH]; cbn; [by rewrite Hr|].
  by destruct (filter x).
Qed.

(** X21.  [RoomRepository.Create] returns the error of a failing insert and
    leaves the collection as it was.  When the insert succeeds it returns no
    error, lookups of other room ids answer as before, and for a room id that
    was not stored [FindByRoomID] now returns the room with the generated
    ObjectID, status waiting whatever status was passed, the given
    participants and the creation time in whole milliseconds. *)
Theorem create_then_find env room collection :
  (insertOne env = false →
   Create env room collection = (collection, Some ErrInsertOne)) ∧
  (insertOne env = true →
   let created := (Create env room collection).1 in
   (Create env room collection).2 = None ∧
   (∀ roomID, roomID ≠ models.RoomID room →
              FindByRoomID roomID created = FindByRoomID roomID collection) ∧
   (FindByRoomID (models.RoomID room) collection = Err ErrNoDocuments →
    ∃ stored,
      FindByRoomID (models.RoomID room) created = Ok stored ∧
      models.ID stored = newObjectID env ∧
      models.RoomID stored = models.RoomID room ∧
      models.Status stored = "waiting" ∧
      models.Participants stored = models.Participants room ∧
      models.CreatedAt stored = Some (bsonDate (now env)))).
Proof.
  unfold Create. split; intros ->; [done|]. cbn [fst snd]. split_and!; [done| |].
  - intros roomID Hne. unfold FindByRoomID. apply findOne_app_old.
    unfold byRoomID. cbn. by apply bool_decide_eq_false_2.
  - intros Hnone. unfold FindByRoomID in *.
    rewrite findOne_app_new.
    + unfold byRoomID at 1. cbn [models.RoomID]. rewrite bool_decide_eq_true_2 by done.
      eexists. split; [done|]. done.
    + clear -Hnone. induction collection as [|x l IH]; [constructor|].
      cbn in Hnone. destruct (byRoomID (models.RoomID room) x) eqn:Hx; [done|].
      constructor; [done|]. by apply IH.
Qed.

Lemma findOne_updateOne_same filter update collection r :
  (∀ x, filter x = true → filter (update x) = true) →
  findOne filter collection = Ok r →
  ∃ x, x ∈ collection ∧ filter x = true ∧ r = decode x ∧
       findOne filter (updateOne filter update collection) = Ok (decode (update x)).
Proof.
  intros Hkeep. induction collection as [|x l IH]; cbn; [done|].
  destruct (filter x) eqn:Hx.
  - intros [= <-]. exists x. split_and!; [apply elem_of_cons; by left|done|done|].
    cbn. by rewrite (Hkeep _ Hx).
  - intros Hf. destruct (IH Hf) as (y & Hy & Hfy & -> & Hu).
    exists y. split_and!; [apply elem_of_cons; by right|done|done|].
    cbn. by rewrite Hx.
Qed.

Lemma findOne_updateOne_other (filter filter' : models.Room → bool) update collection :
  (∀ x, filter x = true → filter' x = false ∧ filter' (update x) = false) →
  findOne filter' (updateOne filter update collection) = findOne filter' collection.
Proof.
  intros Hother. induction collection as [|x l IH]; cbn; [done|].
  destruct (filter x) eqn:Hx.
  - destruct (Hother _ Hx) as [H1 H2]. cbn. by rewrite H1, H2.
  - cbn. destruct (filter' x); [done|]. apply IH.
Qed.

Lemma updateOne_none filter update collection :
  findOne filter collection = Err ErrNoDocuments → updateOne filter update collection = collection.
Proof.
  induction collection as [|x l IH]; cbn; [done|].
  destruct (filter x); [done|]. intros H. by rewrite IH.
Qed.

(** X22.  [RoomRepository.UpdateStatus] changes nothing when no room has the
    room id.  Otherwise the first room with the id gets the status, startedAt
    is stamped exactly for status active and endedAt exactly for status
    ended (in whole milliseconds), the ObjectID, the participants and the
    creation time stay, and rooms with other room ids answer as before. *)
Theorem updateStatus_stamps env roomID status collection :
  (FindByRoomID roomID collection = Err ErrNoDocuments →
   UpdateStatus env roomID status collection = collection) ∧
  (∀ room, FindByRoomID roomID collection = Ok room →
     ∃ room',
       FindByRoomID roomID (UpdateStatus env roomID status collection) = Ok room' ∧
       models.Status room' = status ∧
       models.StartedAt room' =
         (if decide (status = "active") then Some (bsonDate (now env))
          else models.StartedAt room) ∧
       models.EndedAt room' =
         (if decide (status = "ended") then Some (bsonDate (now env))
          else models.EndedAt room) ∧
       models.ID room' = models.ID room ∧
       models.Participants room' = models.Participants room ∧
       models.CreatedAt room' = models.CreatedAt room) ∧
  (∀ other, other ≠ roomID →
     FindByRoomID other (UpdateStatus env roomID status collection)
       = FindByRoomID other collection).
Proof.
  unfold FindByRoomID, UpdateStatus. split_and!.
  - by apply updateOne_none.
  - intros room Hroom.
    eapply findOne_updateOne_same in Hroom as (x & _ & _ & -> & ->).
    + eexists. split; [done|].
      destruct (decide (status = "active")) as [->|Ha];
        [|destruct (decide (status = "ended")) as [->|He]]; cbn; split_and!; done.
    + intros x Hx. by repeat case_decide.
  - intros other Hne. apply findOne_updateOne_other.
    intros x Hx. unfold byRoomID in *. apply bool_decide_eq_true_1 in Hx.
    split; [apply bool_decide_eq_false_2; congruence|].
    apply bool_decide_eq_false_2. repeat case_decide; cbn; congruence.
Qed.

End rooms_collection.

Section room_service.
Import Redis repositories services.
Implicit Types (collection : list models.Room) (r room : models.Room) (roomID : string).
Implicit Types (s : MatchmakingService) (env : Env).

Lemma existsb_elem (oid : primitive.ObjectID) l :
  oid ∈ l → existsb (λ p, bool_decide (p = oid)) l = true.
Proof.
  induction l as [|x l IH]; intros Hin; [by apply elem_of_nil in Hin|].
  cbn. apply elem_of_cons in Hin as [<-|Hin].
  - by rewrite bool_decide_eq_true_2.
  - rewrite (IH Hin). by destruct (bool_decide _).
Qed.

(** X23.  A room that [CreateRoomForMatch] has created, under a room id that
    was not stored, is full from the start: [JoinRoom] of any user, the two
    matched users included, returns [ErrRoomFull] and changes nothing, and
    [IsParticipant] is true for both matched users. *)
Theorem matched_room_is_full menv env user1ID user2ID userID s s1 roomID :
  CreateRoomForMatch menv user1ID user2ID s = (s1, Ok roomID) →
  FindByRoomID roomID (roomRepo s) = Err ErrNoDocuments →
  JoinRoom env roomID userID s1 = (s1, Some ErrRoomFull) ∧
  IsParticipant roomID user1ID s1 = Ok true ∧
  IsParticipant roomID user2ID s1 = Ok true.
Proof.
  intros Hc Hfresh.
  destruct (CreateRoomForMatch_ok _ _ _ _ _ _ Hc)
    as (bytes & oid1 & oid2 & room & _ & _ & _ & H1 & H2 & Hrooms & Hid & _ & Hp & _).
  assert (Hfind : FindByRoomID roomID (roomRepo s1) = Ok (decode room)).
  { rewrite Hrooms. unfold FindByRoomID in *. rewrite findOne_app_new.
    - unfold byRoomID. by rewrite bool_decide_eq_true_2.
    - clear -Hfresh. induction (roomRepo s) as [|x l IH]; [constructor|].
      cbn in Hfresh. destruct (byRoomID roomID x) eqn:Hx; [done|].
      constructor; [done|]. by apply IH. }
  split_and!.
  - unfold JoinRoom. rewrite Hfind. cbn [decode with_EndedAt with_StartedAt models.Participants].
    rewrite Hp. by rewrite decide_True by (cbn; lia).
  - unfold IsParticipant. rewrite Hfind, H1.
    cbn [decode with_EndedAt with_StartedAt models.Participants]. rewrite Hp.
    f_equal. apply existsb_elem. apply elem_of_cons. by left.
  - unfold IsParticipant. rewrite Hfind, H2.
    cbn [decode with_EndedAt with_StartedAt models.Participants]. rewrite Hp.
    f_equal. apply existsb_elem. apply elem_of_cons. right. apply elem_of_cons. by left.
Qed.

(** X24.  [LeaveRoom] of any user whose id is a valid ObjectID hex, on a
    stored room, returns no error and pulls the user from the participants
    (which changes nothing for a user who is not one).  The size test reads
    the participants as they were before the pull: a room that had at most
    one participant is ended, with status ended and endedAt stamped, also
    when the caller was not in it; a room that had two or more keeps its
    status and the store is untouched. *)
Theorem leaveRoom_ends_small_room env roomID userID s room userObjID :
  FindByRoomID roomID (roomRepo s) = Ok room →
  primitive.ObjectIDFromHex userID = Ok userObjID →
  let left := LeaveRoom env roomID userID s in
  left.2 = None ∧
  ∃ room',
    FindByRoomID roomID (roomRepo left.1) = Ok room' ∧
    models.Participants room' = filter (λ p, p ≠ userObjID) (models.Participants room) ∧
    ((length (models.Participants room) ≤ 1)%nat →
     models.Status room' = "ended" ∧ models.EndedAt room' = Some (bsonDate (now env))) ∧
    ((2 ≤ length (models.Participants room))%nat →
     models.Status room' = models.Status room ∧ models.EndedAt room' = models.EndedAt room ∧
     redis left.1 = redis s).
Proof.
  intros Hroom Hoid left. subst left. unfold LeaveRoom. rewrite Hroom, Hoid.
  unfold FindByRoomID in Hroom.
  eapply (findOne_updateOne_same _
            (λ r, with_Participants (filter (λ p, p ≠ userObjID) (models.Participants r)) r))
    in Hroom as (x & _ & Hx & -> & Hremoved); [|done].
  fold (RemoveParticipant roomID userObjID (roomRepo s)) in Hremoved.
  cbn [decode with_EndedAt with_StartedAt models.Participants].
  destruct (decide (length (models.Participants x) ≤ 1)%nat) as [Hsmall|Hbig].
  - split; [done|]. cbn [fst EndRoom roomRepo].
    unfold UpdateStatus. rewrite decide_False, decide_True by done.
    eapply (findOne_updateOne_same _
              (λ r, with_EndedAt (Some (now env)) (with_Status "ended" r)))
      in Hremoved as (y & _ & _ & Hy & Hended); [|done].
    unfold FindByRoomID. rewrite Hended. eexists. split; [done|].
    assert (Hyp : models.Participants y
                  = filter (λ p, p ≠ userObjID) (models.Participants x)).
    { by apply (f_equal models.Participants) in Hy. }
    cbn. split_and!; [done|done|lia].
  - split; [done|]. cbn [fst roomRepo redis]. unfold FindByRoomID.
    rewrite Hremoved. eexists. split; [done|]. cbn. split_and!; [done|lia|done].
Qed.

Lemma slot_ne n slot : (slot = "user1" ∨ slot = "user2") → "user_" +:+ n ≠ slot.
Proof. intros [->| ->]; cbn; discriminate. Qed.

Lemma HSet_other_field now now' key field value st slot :
  now ≤ now' → field ≠ slot →
  match HGetAll now' key (exec (HSet now key [(field, value)] st) st) with
  | Ok fields => fields | Err _ => ∅ end !! slot
  = match HGetAll now' key st with Ok fields => fields | Err _ => ∅ end !! slot.
Proof.
  intros Hn Hne. unfold HSet.
  destruct (find now key st) as [[[| fields | |] t]|] eqn:Hf; cbn [exec]; try done.
  - apply find_Some in Hf as [Hst Hexp].
    unfold HGetAll, find. rewrite lookup_insert_eq, Hst.
    assert (expired now' (Entry (VHash (hset [(field, value)] fields)) t)
            = expired now' (Entry (VHash fields) t)) as -> by done.
    destruct (expired now' _); [done|]. cbn. by rewrite lookup_insert_ne.
  - assert (find now' key st = None) as Hf' by by eapply find_None_mono.
    unfold HGetAll at 2. rewrite Hf'.
    unfold HGetAll, find. rewrite lookup_insert_eq. cbn.
    rewrite lookup_insert_ne by done. done.
Qed.

Lemma findOne_updateOne_found filter update collection r :
  (∀ x, filter x = true → filter (update x) = true) →
  findOne filter collection = Ok r →
  ∃ x, r = decode x ∧ findOne filter (updateOne filter update collection) = Ok (decode (update x)).
Proof.
  intros Hkeep Hf. destruct (findOne_updateOne_same _ _ _ _ Hkeep Hf) as (x & _ & _ & -> & Hu).
  eauto.
Qed.

(** X25.  [JoinRoom] never changes the slots user1 and user2 of the room
    state, the only slots the hub reads: a joining user is written under a
    numbered slot.  When [JoinRoom] returns no error the user id is a valid
    ObjectID hex and its ObjectID is among the participants of the stored
    room. *)
Theorem joinRoom_slot_unseen env roomID userID s :
  (∀ now' slot,
     now env ≤ now' → (slot = "user1" ∨ slot = "user2") →
     roomState now' (JoinRoom env roomID userID s).1 roomID !! slot
       = roomState now' s roomID !! slot) ∧
  ((JoinRoom env roomID userID s).2 = None →
   ∃ userObjID room,
     primitive.ObjectIDFromHex userID = Ok userObjID ∧
     FindByRoomID roomID (roomRepo (JoinRoom env roomID userID s).1) = Ok room ∧
     userObjID ∈ models.Participants room).
Proof.
  split.
  - intros now' slot Hn Hslot. unfold JoinRoom.
    destruct (FindByRoomID roomID (roomRepo s)) as [room|]; [|done].
    case_decide; [done|].
    destruct (primitive.ObjectIDFromHex userID) as [userObjID|]; [|done].
    assert (Hstatus : "status" ≠ slot) by (by destruct Hslot as [->| ->]).
    pose proof (slot_ne (itoa (Z.of_nat (length (models.Participants room) + 1))) slot Hslot)
      as Hfield.
    unfold roomState.
    case_decide; cbn [fst redis].
    + rewrite HSet_other_field by done. by rewrite HSet_other_field by done.
    + by rewrite HSet_other_field by done.
  - unfold JoinRoom.
    destruct (FindByRoomID roomID (roomRepo s)) as [room|] eqn:Hroom; [|done].
    case_decide; [done|].
    destruct (primitive.ObjectIDFromHex userID) as [userObjID|]; [|done].
    intros _. exists userObjID. unfold FindByRoomID in *.
    eapply (findOne_updateOne_found _
              (λ r, if decide (userObjID ∈ models.Participants r) then r
                    else with_Participants (models.Participants r ++ [userObjID]) r))
      in Hroom as (x & -> & Hadded); [|intros y Hy; by case_decide].
    fold (AddParticipant roomID userObjID (roomRepo s)) in Hadded.
    assert (Hin : userObjID ∈ models.Participants
                    (if decide (userObjID ∈ models.Participants x) then x
                     else with_Participants (models.Participants x ++ [userObjID]) x)).
    { case_decide; [done|]. cbn. apply elem_of_app. right. by apply list_elem_of_singleton. }
    destruct (decide (2 ≤ length (models.Participants (decode x)) + 1)%nat);
      cbn [fst roomRepo].
    + unfold UpdateStatus. rewrite (decide_True (P := "active" = "active")) by done.
      eapply (findOne_updateOne_found _
                (λ r, with_StartedAt (Some (now env)) (with_Status "active" r)))
        in Hadded as (y & Hy & ->); [|done].
      eexists. split_and!; [done|done|]. cbn.
      apply (f_equal models.Participants) in Hy. cbn in Hy. by rewrite <- Hy.
    + eexists. split_and!; [done|done|]. done.
Qed.

(** X26.  [RoomRepository.CleanupOldRooms] only deletes: what is kept is the
    collection without some rooms, in order.  It keeps every room whose
    status is not ended and every room that ended at or after the cutoff, and
    an ended room it keeps ended less than a millisecond before the
    cutoff. *)
Theorem cleanup_keeps_live_rooms env olderThan collection :
  let kept := repositories.CleanupOldRooms env olderThan collection in
  let cutoff := now env - olderThan in
  sublist kept collection ∧
  (∀ r, r ∈ collection → models.Status r ≠ "ended" → r ∈ kept) ∧
  (∀ r ended, r ∈ collection → models.EndedAt r = Some ended → cutoff ≤ ended → r ∈ kept) ∧
  (∀ r ended, r ∈ kept → models.Status r = "ended" → models.EndedAt r = Some ended →
              cutoff < ended + time.Millisecond).
Proof.
  intros kept cutoff. subst kept. unfold repositories.CleanupOldRooms. fold cutoff.
  assert (Hmono : ∀ a b, a ≤ b → bsonDate a ≤ bsonDate b).
  { intros a b Hab. unfold bsonDate. apply Z.mul_le_mono_nonneg_r; [done|].
    by apply Z.div_le_mono. }
  split_and!.
  - apply sublist_filter.
  - intros r Hr Hst. apply list_elem_of_filter. split; [|done].
    unfold endedBefore. by rewrite bool_decide_eq_false_2.
  - intros r ended Hr He Hc. apply list_elem_of_filter. split; [|done].
    unfold endedBefore. rewrite He.
    replace (bsonDate ended <? bsonDate cutoff) with false
      by (symmetry; apply Z.ltb_ge; by apply Hmono).
    by destruct (bool_decide _).
  - intros r ended Hr Hst He. apply list_elem_of_filter in Hr as [Hkeep _].
    unfold endedBefore in Hkeep. rewrite He, bool_decide_eq_true_2 in Hkeep by done.
    cbn in Hkeep. apply Z.ltb_ge in Hkeep.
    destruct (decide (cutoff < ended + time.Millisecond)) as [|Hge]; [done|].
    exfalso. assert (ended + time.Millisecond ≤ cutoff) as Hle by lia.
    unfold bsonDate, time.Millisecond in *.
    assert (ended `div` 1000000 + 1 ≤ cutoff `div` 1000000).
    { rewrite <- (Z.div_add ended 1 1000000) by done. apply Z.div_le_mono; lia. }
    lia.
Qed.

End room_service.

Section responses.
Import repositories services.

Lemma hex_digit (c : ascii) :
  c ∈ list_ascii_of_string hex.hextable →
  ∃ n, hex.fromHexChar c = Some n ∧ (n < 16)%N ∧ hex.hexchar n = c.
Proof.
  intros Hc. cbn in Hc.
  repeat (apply elem_of_cons in Hc as [->|Hc]; [eexists; split_and!; vm_compute; done|]).
  by apply elem_of_nil in Hc.
Qed.

Lemma mkbyte_digits (a b : N) :
  (a < 16)%N → (b < 16)%N →
  N.shiftr (Byte.to_N (hex.mkbyte a b)) 4 = a ∧ N.land (Byte.to_N (hex.mkbyte a b)) 15 = b.
Proof.
  intros Ha Hb.
  assert (Hall : forallb (λ x, forallb (λ y,
              (N.shiftr (Byte.to_N (hex.mkbyte (N.of_nat x) (N.of_nat y))) 4 =? N.of_nat x)%N
              && (N.land (Byte.to_N (hex.mkbyte (N.of_nat x) (N.of_nat y))) 15 =? N.of_nat y)%N)
            (seq 0 16)) (seq 0 16) = true) by (vm_compute; done).
  rewrite forallb_forall in Hall.
  specialize (Hall (N.to_nat a)). rewrite forallb_forall in Hall.
  assert (Hin : ∀ n, (n < 16)%N → In (N.to_nat n) (seq 0 16)).
  { intros n Hn. apply in_seq. lia. }
  specialize (Hall (Hin a Ha) (N.to_nat b) (Hin b Hb)).
  rewrite !N2Nat.id in Hall. apply andb_true_iff in Hall as [H1 H2].
  by apply N.eqb_eq in H1, H2.
Qed.

Lemma DecodeString_lowerHex (s : string) :
  lowerHex s = true → Nat.Even (String.length s) →
  ∃ bytes, hex.DecodeString s = Ok bytes ∧ hex.EncodeToString bytes = s ∧
           String.length s = (2 * length bytes)%nat.
Proof.
  intros Hlow [k Hk]. revert s Hlow Hk.
  induction k as [|k IH]; intros s Hlow Hk.
  - destruct s; [|done]. by exists [].
  - destruct s as [|p [|q rest]]; cbn in Hk; try lia.
    unfold lowerHex in Hlow. cbn [list_ascii_of_string forallb] in Hlow.
    apply andb_true_iff in Hlow as [Hp Hlow]. apply andb_true_iff in Hlow as [Hq Hrest].
    apply bool_decide_eq_true_1 in Hp, Hq.
    destruct (hex_digit p Hp) as (a & Ha & Hla & Hca).
    destruct (hex_digit q Hq) as (b & Hb & Hlb & Hcb).
    destruct (IH rest Hrest) as (bytes & Hdec & Henc & Hlen); [lia|].
    exists (hex.mkbyte a b :: bytes). cbn [hex.DecodeString].
    rewrite Ha, Hb, Hdec. split; [done|].
    cbn [hex.EncodeToString foldr]. fold (hex.EncodeToString bytes).
    destruct (mkbyte_digits a b Hla Hlb) as [-> ->].
    rewrite Hca, Hcb, Henc. split; [done|]. cbn. lia.
Qed.

Lemma ObjectIDFromHex_lowerHex (s : string) :
  lowerHex s = true → String.length s = 24%nat →
  ∃ oid, primitive.ObjectIDFromHex s = Ok oid ∧ primitive.Hex oid = s ∧ length oid = 12%nat.
Proof.
  intros Hlow Hlen.
  destruct (DecodeString_lowerHex s Hlow) as (bytes & Hdec & Henc & Hl).
  { exists 12%nat. lia. }
  exists bytes. unfold primitive.ObjectIDFromHex, primitive.Hex.
  rewrite decide_True by done. rewrite Hdec. split_and!; [done|done|lia].
Qed.

Lemma length_DecodeString (s : string) bytes :
  hex.DecodeString s = Ok bytes → String.length s = (2 * length bytes)%nat.
Proof.
  assert (∀ n s bytes, (String.length s ≤ n)%nat → hex.DecodeString s = Ok bytes →
                       String.length s = (2 * length bytes)%nat) as Hgen.
  { clear. induction n as [|n IH]; intros s bytes Hn Hd.
    - destruct s; [|cbn in Hn; lia]. by injection Hd as <-.
    - destruct s as [|p [|q rest]]; [by injection Hd as <-| |].
      + cbn in Hd. by destruct (hex.fromHexChar p).
      + cbn in Hd. destruct (hex.fromHexChar p); [|done].
        destruct (hex.fromHexChar q); [|done].
        destruct (hex.DecodeString rest) as [bs|] eqn:Hr; [|done].
        injection Hd as <-. cbn [String.length length] in *.
        rewrite (IH rest bs); [lia|lia|done]. }
  intros Hd. by apply (Hgen (String.length s)).
Qed.

Lemma ObjectIDFromHex_Hex (userID : string) oid :
  primitive.ObjectIDFromHex userID = Ok oid →
  primitive.ObjectIDFromHex (primitive.Hex oid) = Ok oid.
Proof.
  unfold primitive.ObjectIDFromHex, primitive.Hex.
  destruct (decide (String.length userID = 24%nat)) as [Hl|]; [|done].
  destruct (hex.DecodeString userID) as [bytes|] eqn:Hd; [|done]. intros [= ->].
  rewrite DecodeString_EncodeToString.
  rewrite decide_True; [done|]. rewrite length_EncodeToString.
  apply length_DecodeString in Hd. lia.
Qed.

(** X27.  [GetRoom] finds a room that [CreateRoomForMatch] has created under
    a room id that was not stored, and its [ToResponse] shows the room id,
    status waiting, the creation time in whole milliseconds, the hex of the
    generated ObjectID and two participants that decode to the same
    ObjectIDs as the two user ids; they are the two user ids themselves when
    those are written in lowercase hex. *)
Theorem matched_room_response menv user1ID user2ID s s1 roomID :
  CreateRoomForMatch menv user1ID user2ID s = (s1, Ok roomID) →
  FindByRoomID roomID (roomRepo s) = Err ErrNoDocuments →
  ∃ room,
    GetRoom roomID s1 = Ok room ∧
    let response := models.ToResponse room in
    models.RoomResponse.RoomID response = roomID ∧
    models.RoomResponse.Status response = "waiting" ∧
    models.RoomResponse.CreatedAt response = Some (bsonDate (now menv)) ∧
    models.RoomResponse.ID response = primitive.Hex (newObjectID menv) ∧
    Forall2 (λ shown userID,
               primitive.ObjectIDFromHex shown = primitive.ObjectIDFromHex userID)
      (models.RoomResponse.Participants response) [user1ID; user2ID] ∧
    (lowerHex user1ID = true → lowerHex user2ID = true →
     models.RoomResponse.Participants response = [user1ID; user2ID]).
Proof.
  intros Hc Hfresh.
  assert (∃ oid1 oid2 room,
            primitive.ObjectIDFromHex user1ID = Ok oid1 ∧
            primitive.ObjectIDFromHex user2ID = Ok oid2 ∧
            roomRepo s1 = roomRepo s ++ [room] ∧
            models.RoomID room = roomID ∧ models.Status room = "waiting" ∧
            models.Participants room = [oid1; oid2] ∧
            models.ID room = newObjectID menv ∧
            models.CreatedAt room = Some (now menv)) as
      (oid1 & oid2 & room & H1 & H2 & Hrooms & Hid & Hst & Hp & Hoid & Hcr).
  { unfold CreateRoomForMatch in Hc.
    destruct (generateRoomID menv) as [rid|]; [|done].
    destruct (primitive.ObjectIDFromHex user1ID) as [oid1|]; [|done].
    destruct (primitive.ObjectIDFromHex user2ID) as [oid2|]; [|done].
    unfold Create in Hc. destruct (insertOne menv); [|done].
    injection Hc as <- <-. eexists _, _, _. split_and!; done. }
  assert (Hfind : FindByRoomID roomID (roomRepo s1) = Ok (decode room)).
  { rewrite Hrooms. unfold FindByRoomID in *. rewrite findOne_app_new.
    - unfold byRoomID. by rewrite bool_decide_eq_true_2.
    - clear -Hfresh. induction (roomRepo s) as [|x l IH]; [constructor|].
      cbn in Hfresh. destruct (byRoomID roomID x) eqn:Hx; [done|].
      constructor; [done|]. by apply IH. }
  pose proof ObjectIDFromHex_Hex as Hlen.
  exists (decode room). split; [done|]. cbn zeta.
  unfold models.ToResponse. cbn. rewrite Hid, Hst, Hcr, Hoid, Hp. cbn.
  split_and!; try done.
  - repeat constructor.
    + rewrite H1. by eapply Hlen.
    + rewrite H2. by eapply Hlen.
  - intros Hl1 Hl2.
    assert (Hhex : ∀ u oid, lowerHex u = true → primitive.ObjectIDFromHex u = Ok oid →
                            primitive.Hex oid = u).
    { intros u oid Hlow Hu.
      assert (String.length u = 24%nat) as Hl.
      { unfold primitive.ObjectIDFromHex in Hu. by destruct (decide _). }
      destruct (ObjectIDFromHex_lowerHex u Hlow Hl) as (oid' & Hu' & Hh & _).
      rewrite Hu in Hu'. by injection Hu' as <-. }
    by rewrite (Hhex _ _ Hl1 H1), (Hhex _ _ Hl2 H2).
Qed.

End responses.

Section endpoints.
Import handlers.
Implicit Types (app : App) (env : Env) (userID : string).

Lemma with_service_same app : with_service (service app) app = app.
Proof. destruct app as [[] ?]. done. Qed.

Lemma service_with_service s app : service (with_service s app) = s.
Proof. by destruct s. Qed.

(** X28.  [tryMatch] does nothing when [FindMatch] fails.  When [FindMatch]
    succeeds, the room of the pair is appended to the collection, the
    service state is the one [FindMatch] left, no connection and no registry
    entry changes, and match_found is put on the dispatch queue for the
    requesting user and then for the opponent (when the queue has room for
    both); every message it adds is addressed to one of the two. *)
Theorem tryMatch_notifies env userID app :
  (∀ s' e, services.FindMatch env userID (service app) = (s', Err e) →
           tryMatch env userID app = app) ∧
  (∀ s' roomID opponentID,
     services.FindMatch env userID (service app) = (s', Ok (roomID, opponentID)) →
     let app' := tryMatch env userID app in
     ∃ user1 oid1 oid2 room,
       services.chosen userID (members (now env) (service app)) = Some (user1, opponentID) ∧
       primitive.ObjectIDFromHex user1 = Ok oid1 ∧
       primitive.ObjectIDFromHex opponentID = Ok oid2 ∧
       rooms app' = rooms app ++ [room] ∧
       models.RoomID room = roomID ∧
       models.Participants room = [oid1; oid2] ∧
       service app' = s' ∧
       websocket.heap (hub app') = websocket.heap (hub app) ∧
       websocket.clients (hub app') = websocket.clients (hub app) ∧
       ((length (websocket.broadcast (hub app)) + 2 ≤ websocket.broadcastBufferSize)%nat →
        websocket.broadcast (hub app')
          = websocket.broadcast (hub app)
              ++ [hub.toUser userID (matchData roomID);
                  hub.toUser opponentID (matchData roomID)]) ∧
       (∀ m, m ∈ websocket.broadcast (hub app') → m ∉ websocket.broadcast (hub app) →
             websocket.Message.UserID m = userID ∨ websocket.Message.UserID m = opponentID)).
Proof.
  split.
  - intros s' e Hf. unfold tryMatch. rewrite Hf.
    apply FindMatch_err in Hf as ->. apply with_service_same.
  - intros s' roomID opponentID Hf app'.
    destruct (FindMatch_ok _ _ _ _ _ _ Hf) as (user1 & user2 & Hch & Hm).
    destruct (matched_ok _ _ _ _ _ _ _ Hm) as [-> (oid1 & oid2 & room & H1 & H2 & Hr & Hid & Hp & _)].
    exists user1, oid1, oid2, room. subst app'. unfold tryMatch. rewrite Hf.
    rewrite !BroadcastToUser_offer.
    set (h0 := hub (with_service s' app)).
    assert (Hh0 : websocket.heap h0 = websocket.heap (hub app) ∧
                  websocket.clients h0 = websocket.clients (hub app) ∧
                  websocket.broadcast h0 = websocket.broadcast (hub app)) by done.
    destruct Hh0 as (Hheap & Hcl & Hb).
    split_and!; [done|done|done|done|done|done| | | | |].
    + unfold service, with_hub. cbn [hub rooms].
      rewrite !(proj1 (proj2 (proj2 (offer_frame _ _)))). by destruct s'.
    + cbn [hub with_hub]. by rewrite !(proj1 (offer_frame _ _)).
    + cbn [hub with_hub]. by rewrite !(proj1 (proj2 (offer_frame _ _))).
    + intros Hroom. cbn [hub with_hub]. rewrite offer_two by (by rewrite Hb). by rewrite Hb.
    + intros m Hin Hnew. cbn [hub with_hub] in Hin.
      rewrite !offer_broadcast in Hin. rewrite Hb in Hin.
      repeat case_decide; rewrite ?offer_broadcast, ?Hb in *;
        repeat case_decide;
        repeat (apply elem_of_app in Hin as [Hin|Hin]; [|apply list_elem_of_singleton in Hin as ->]);
        try done; cbn; auto.
Qed.

Lemma GetQueueStatus_size env userID app position wait :
  services.GetQueueStatus env userID (service app) = Ok (position, wait) →
  services.GetQueueSize env (service app)
    = Ok (Z.of_nat (length (members (now env) (service app)))) ∧
  1 ≤ position ≤ Z.of_nat (length (members (now env) (service app))).
Proof.
  intros Hst. rewrite GetQueueStatus_rank in Hst. unfold services.GetQueueSize, Redis.ZCard.
  rewrite members_find.
  destruct (Redis.find _ _ _) as [[[| | |z] ?]|]; try done.
  destruct (Redis.zrank userID z) as [rank|] eqn:Hr; [|done].
  injection Hst as <- _. rewrite length_fmap. split; [done|].
  apply zrank_Some in Hr as (H0 & Hl & _).
  apply lookup_lt_Some in Hl. rewrite length_fmap in Hl. lia.
Qed.

Lemma GetQueueStatus_queued env userID s :
  userID ∈ members (now env) s →
  ∃ position wait, services.GetQueueStatus env userID s = Ok (position, wait).
Proof.
  intros Hin.
  destruct (services.GetQueueStatus env userID s) as [[position wait]|e] eqn:Hst; [eauto|].
  exfalso. assert (e = ErrNotInQueue) as ->.
  { unfold services.GetQueueStatus in Hst. destruct (Redis.ZRank _ _ _ _); [done|].
    by injection Hst as <-. }
  by apply GetQueueStatus_absent in Hst.
Qed.

Lemma GetQueueStatus_found env userID app s' roomID opponentID :
  userID ∈ members (now env) (service app) →
  services.FindMatch env userID (service app) = (s', Ok (roomID, opponentID)) →
  ∃ app',
    GetQueueStatus env (Some userID) app
      = (app', SuccessResponse [("matchFound", JTrue); ("roomId", JText roomID)]) ∧
    service app' = s' ∧
    websocket.heap (hub app') = websocket.heap (hub app) ∧
    websocket.broadcast (hub app')
      = (if decide (length (websocket.broadcast (hub app))
                    < websocket.broadcastBufferSize)%nat
         then websocket.broadcast (hub app) ++ [hub.toUser opponentID (matchData roomID)]
         else websocket.broadcast (hub app)).
Proof.
  intros Hin Hf. destruct (GetQueueStatus_queued _ _ _ Hin) as (position & wait & Hst).
  destruct (GetQueueStatus_size _ _ _ _ _ Hst) as [Hsize _].
  eexists. unfold GetQueueStatus. rewrite Hst, Hsize, Hf. split; [done|].
  rewrite BroadcastToUser_offer. split_and!.
  - unfold service, with_hub. cbn [hub rooms].
    rewrite (proj1 (proj2 (proj2 (offer_frame _ _)))). by destruct s'.
  - cbn [hub with_hub]. by rewrite (proj1 (offer_frame _ _)).
  - cbn [hub with_hub]. by rewrite offer_broadcast.
Qed.

(** X29.  The status endpoint.  For a user who is not queued it answers 404
    Not in queue and changes nothing.  For a queued user for whom [FindMatch]
    fails it answers the position, the estimated wait and the queue length
    with matchFound false, and changes nothing.  For a queued user for whom
    [FindMatch] succeeds it answers matchFound true with the room id, leaves
    the state as [FindMatch] left it, and puts match_found on the dispatch
    queue for the opponent only. *)
Theorem poll_finds_match env userID app :
  (userID ∉ members (now env) (service app) →
   GetQueueStatus env (Some userID) app = (app, NotFoundResponse "Not in queue")) ∧
  (userID ∈ members (now env) (service app) →
   (∀ s' e, services.FindMatch env userID (service app) = (s', Err e) →
      ∃ position wait total,
        GetQueueStatus env (Some userID) app
          = (app, SuccessResponse [("position", JInt position);
                                   ("estimatedWait", JSeconds wait);
                                   ("totalInQueue", JInt total);
                                   ("matchFound", JFalse)]) ∧
        services.GetQueueStatus env userID (service app) = Ok (position, wait) ∧
        total = Z.of_nat (length (members (now env) (service app))) ∧
        1 ≤ position ≤ total) ∧
   (∀ s' roomID opponentID,
      services.FindMatch env userID (service app) = (s', Ok (roomID, opponentID)) →
      ∃ app',
        GetQueueStatus env (Some userID) app
          = (app', SuccessResponse [("matchFound", JTrue); ("roomId", JText roomID)]) ∧
        service app' = s' ∧
        websocket.heap (hub app') = websocket.heap (hub app) ∧
        websocket.broadcast (hub app')
          = (if decide (length (websocket.broadcast (hub app))
                        < websocket.broadcastBufferSize)%nat
             then websocket.broadcast (hub app) ++ [hub.toUser opponentID (matchData roomID)]
             else websocket.broadcast (hub app)))).
Proof.
  split.
  - intros Hout. apply GetQueueStatus_absent in Hout.
    unfold GetQueueStatus. by rewrite Hout.
  - intros Hin. split.
    + intros s' e Hf.
      destruct (GetQueueStatus_queued _ _ _ Hin) as (position & wait & Hst).
      destruct (GetQueueStatus_size _ _ _ _ _ Hst) as [Hsize Hpos].
      exists position, wait, (Z.of_nat (length (members (now env) (service app)))).
      unfold GetQueueStatus. rewrite Hst, Hsize, Hf.
      apply FindMatch_err in Hf as ->. by rewrite with_service_same.
    + intros s' roomID opponentID Hf. by apply GetQueueStatus_found.
Qed.

End endpoints.

Section second_joiner.
Import handlers.
Implicit Types (app : App) (env : Env) (userID : string).

Lemma scan_last_requester A B : A ≠ B → services.chosen B [A; B] = None.
Proof.
  intros Hne. unfold services.chosen. cbn [services.scan].
  rewrite decide_False by done. rewrite (decide_False (P := "" ≠ "")) by (by intros H).
  rewrite decide_True by done. cbn. by rewrite decide_True by (by right).
Qed.

Lemma scan_first_requester A B : A ≠ B → A ≠ "" → B ≠ "" → services.chosen A [A; B] = Some (A, B).
Proof.
  intros Hne HA HB. unfold services.chosen. cbn [services.scan].
  rewrite decide_True by done. rewrite decide_False by done.
  rewrite decide_True by done. rewrite decide_False; [done|]. by intros [|].
Qed.

(** X30.  When B joins a queue in which only A waits, at a later second than
    A, the join answers 200 and starts [tryMatch] for B, which finds nothing:
    the queue stays A, B.  The next status poll of A makes the match: it
    answers matchFound true with the room id, stores the room of A and B,
    empties the queue, and puts match_found on the dispatch queue for B;
    every message added since before the join is addressed to B. *)
Theorem second_joiner_is_matched_by_poll
    envB envT envP errorText input A B app bytes oidA oidB joinedA :
  queue_inv (service app) →
  members (now envB) (service app) = [A] →
  joinedAt (now envB) (service app) A = Some joinedA → joinedA < time.Unix (now envB) →
  is_ok (Redis.HGetAll (now envB) (services.metaKey B) (services.redis (service app))) = true →
  A ≠ B → A ≠ "" → B ≠ "" →
  primitive.ObjectIDFromHex A = Ok oidA → primitive.ObjectIDFromHex B = Ok oidB →
  randRead envP = Some bytes → insertOne envP = true →
  let joined := JoinQueue envB errorText (Some B) input app in
  let roomID := hex.EncodeToString bytes in
  status joined.1.2 = 200 ∧ joined.2 = Some B ∧
  (∀ now', members now' (service joined.1.1) = [A; B]) ∧
  tryMatch envT B joined.1.1 = joined.1.1 ∧
  ∃ app' room,
    GetQueueStatus envP (Some A) joined.1.1
      = (app', SuccessResponse [("matchFound", JTrue); ("roomId", JText roomID)]) ∧
    rooms app' = rooms app ++ [room] ∧
    models.RoomID room = roomID ∧ models.Participants room = [oidA; oidB] ∧
    (∀ now', now envP ≤ now' → members now' (service app') = []) ∧
    (∀ m, m ∈ websocket.broadcast (hub app') → m ∉ websocket.broadcast (hub app) →
          websocket.Message.UserID m = B) ∧
    ((length (websocket.broadcast (hub app)) + 2 ≤ websocket.broadcastBufferSize)%nat →
     hub.toUser B (matchData roomID) ∈ websocket.broadcast (hub app')).
Proof.
  intros Hinv Hmem Hscore Hlt Hmeta Hne HA HB HoA HoB Hrand Hins joined roomID.
  (* the queue before B joins *)
  assert (∃ z, services.redis (service app) !! services.queueKey
               = Some (Redis.Entry (Redis.VZSet z) None) ∧ z = [(A, joinedA)])
    as (z & Hq & Hz).
  { unfold queue_inv, entry_inv in Hinv. rewrite members_find in Hmem.
    unfold joinedAt, Redis.ZScore in Hscore. rewrite (find_inv _ _ Hinv) in Hmem, Hscore.
    destruct (services.redis (service app) !! services.queueKey) as [e|]; [|done].
    destruct Hinv as (z & -> & _). exists z. split; [done|].
    destruct z as [|[a sc] [|? ?]]; try done. cbn in Hmem. injection Hmem as ->.
    cbn in Hscore. rewrite decide_True in Hscore by done. by injection Hscore as ->. }
  subst z.
  set (skill := default 1000 input).
  destruct (JoinQueue_new envB B skill (service app) [(A, joinedA)] (or_intror Hq)) as [Hkey Hrooms].
  { cbn. apply not_elem_of_cons. split; [done|apply not_elem_of_nil]. }
  assert (Herr : (services.JoinQueue envB B skill (service app)).2 = None).
  { apply (JoinQueue_error envB B skill (service app) [(A, joinedA)]); [by right| |done].
    cbn. apply not_elem_of_cons. split; [done|apply not_elem_of_nil]. }
  cbn [Redis.zinsert] in Hkey. unfold Redis.zlt in Hkey. cbn [fst snd] in Hkey.
  replace (time.Unix (now envB) <? joinedA) with false in Hkey
    by (symmetry; apply Z.ltb_ge; lia).
  replace (time.Unix (now envB) =? joinedA) with false in Hkey
    by (symmetry; apply Z.eqb_neq; lia).
  cbn in Hkey.
  destruct (services.JoinQueue envB B skill (service app)) as [s1 err] eqn:Hjoin.
  cbn in Herr, Hkey, Hrooms. subst err.
  assert (Hjoined : joined = (with_hub
                                (websocket.BroadcastToUser B
                                   [("type", websocket.JString "queue_joined");
                                    ("message",
                                     websocket.JString "Successfully joined matchmaking queue")]
                                   (hub (with_service s1 app)))
                                (with_service s1 app),
                              {| status := 200;
                                 body := [("success", JTrue);
                                          ("message", JText "Joined matchmaking queue")] |},
                              Some B)).
  { unfold joined, JoinQueue. fold skill. by rewrite Hjoin. }
  set (app1 := joined.1.1).
  assert (Hsvc : service app1 = s1).
  { unfold app1. rewrite Hjoined. cbn [fst]. unfold service, with_hub. cbn [hub rooms].
    rewrite BroadcastToUser_offer, (proj1 (proj2 (proj2 (offer_frame _ _)))).
    by destruct s1. }
  assert (Hb1 : websocket.broadcast (hub app1)
                = websocket.broadcast
                    (websocket.offer (hub.toUser B
                       [("type", websocket.JString "queue_joined");
                        ("message", websocket.JString "Successfully joined matchmaking queue")])
                       (hub app))).
  { unfold app1. rewrite Hjoined. cbn [fst hub with_hub].
    rewrite BroadcastToUser_offer, !offer_broadcast. done. }
  assert (Hmem1 : ∀ now', members now' (service app1) = [A; B]).
  { intros now'. rewrite Hsvc. by rewrite (members_entry _ _ _ Hkey). }
  split_and!; [by rewrite Hjoined|by rewrite Hjoined|done| |].
  - unfold tryMatch.
    assert (Hf : services.FindMatch envT B (service app1) = (service app1, Err ErrNoMatchFound)).
    { rewrite (FindMatch_chosen envT B (service app1) [A; B]).
      - rewrite decide_False by (cbn; lia). by rewrite scan_last_requester.
      - rewrite <- (Hmem1 (now envT)). unfold members.
        rewrite Hsvc, ZRange_all. unfold Redis.find. rewrite Hkey. done. }
    rewrite Hf. apply with_service_same.
  - (* the poll of A *)
    assert (Hrange : Redis.ZRange (now envP) services.queueKey 0 (-1)
                       (services.redis (service app1)) = Ok [A; B]).
    { rewrite Hsvc, ZRange_all. unfold Redis.find. rewrite Hkey. done. }
    assert (Hf : services.FindMatch envP A (service app1)
                 = services.matched envP A B (service app1)).
    { rewrite (FindMatch_chosen envP A (service app1) [A; B] Hrange).
      rewrite decide_False by (cbn; lia). by rewrite scan_first_requester. }
    pose proof (CreateRoomForMatch_succeeds envP A B (service app1) bytes oidA oidB
                  Hrand Hins HoA HoB) as Hcreate.
    destruct (services.matched envP A B (service app1)) as [s2 res] eqn:Hm.
    assert (Hres : res = Ok (roomID, B)).
    { unfold services.matched in Hm.
      destruct (services.CreateRoomForMatch envP A B (service app1)) as [sc [rid|e]];
        cbn in Hcreate; [|done].
      injection Hcreate as ->. by injection Hm as _ <-. }
    subst res.
    destruct (matched_ok _ _ _ _ _ _ _ Hm) as [_ (o1 & o2 & room & H1 & H2 & Hr & Hid & Hp & Hleft)].
    rewrite HoA in H1. injection H1 as <-. rewrite HoB in H2. injection H2 as <-.
    assert (HinA : A ∈ members (now envP) (service app1))
      by (rewrite Hmem1; apply elem_of_cons; by left).
    destruct (GetQueueStatus_found envP A app1 s2 roomID B HinA Hf)
      as (app' & Hget & Hsvc' & _ & Hb').
    exists app', room. split_and!; [done| | done|done| | |].
    + assert (rooms app' = services.roomRepo s2) as -> by by rewrite <- Hsvc'.
      rewrite Hr, Hsvc. by rewrite Hrooms.
    + intros now' Hn. rewrite Hsvc', (Hleft now' Hn), Hmem1.
      rewrite filter_cons_False by (by intros H).
      rewrite filter_cons_True by done. rewrite filter_nil.
      by rewrite filter_cons_False by (by intros H).
    + intros m Hin Hnew. rewrite Hb', Hb1, offer_broadcast in Hin.
      repeat case_decide;
        repeat (apply elem_of_app in Hin as [Hin|Hin]; [|apply list_elem_of_singleton in Hin as ->]);
        done.
    + intros Hroom. rewrite Hb', Hb1, offer_broadcast.
      rewrite (decide_True (P := (length (websocket.broadcast (hub app))
                                  < websocket.broadcastBufferSize)%nat)) by lia.
      rewrite decide_True by (rewrite length_app; cbn; lia).
      apply elem_of_app. right. by apply list_elem_of_singleton.
Qed.

End second_joiner.

Section queue_witnesses.
Import Redis services sample.

Lemma queue_inv_queue2 : queue_inv queue2.
Proof.
  change queue2 with
    (serve_all [(at_second epoch, ReqJoin alice 1000); (at_second (epoch + 1), ReqJoin bob 1200)]
       no_store).
  apply queue_inv_reached. repeat constructor.
Defined.

Lemma joinQueue_appends_witness :
  queue_inv queue2 ∧
  (carol ∉ members (now (at_second (epoch + 2))) queue2) ∧
  Forall (λ u, ∃ t, joinedAt (now (at_second (epoch + 2))) queue2 u = Some t
                    ∧ t < time.Unix (now (at_second (epoch + 2))))
    (members (now (at_second (epoch + 2))) queue2) ∧
  is_ok (HGetAll (now (at_second (epoch + 2))) (metaKey carol) (redis queue2)) = true ∧
  (JoinQueue (at_second (epoch + 2)) carol 900 queue2).2 = None ∧
  members (now (at_second (epoch + 3))) (JoinQueue (at_second (epoch + 2)) carol 900 queue2).1
    = [alice; bob; carol].
Proof.
  assert (H1 : carol ∉ members (now (at_second (epoch + 2))) queue2) by by_decide.
  assert (Hm : members (now (at_second (epoch + 2))) queue2 = [alice; bob])
    by (vm_compute; reflexivity).
  assert (H2 : Forall (λ u, ∃ t, joinedAt (now (at_second (epoch + 2))) queue2 u = Some t
                                 ∧ t < time.Unix (now (at_second (epoch + 2))))
                 (members (now (at_second (epoch + 2))) queue2)).
  { rewrite Hm. constructor; [|constructor; [|constructor]].
    - exists epoch. split; vm_compute; reflexivity.
    - exists (epoch + 1). split; vm_compute; reflexivity. }
  assert (H3 : is_ok (HGetAll (now (at_second (epoch + 2))) (metaKey carol) (redis queue2))
               = true) by (vm_compute; reflexivity).
  split; [exact queue_inv_queue2|]. repeat (split; [assumption|]).
  destruct (joinQueue_appends (at_second (epoch + 2)) carol 900 queue2
              queue_inv_queue2 H1 H2 H3) as (He & Ha & _).
  split; [exact He|]. rewrite Ha, Hm. reflexivity.
Defined.

Lemma joinQueue_same_second_witness :
  redis no_store !! queueKey = None ∧
  time.Unix (now (at_second epoch)) = time.Unix (now (at_second epoch)) ∧
  String.ltb alice bob = true ∧
  members (now (at_second (epoch + 1)))
    (JoinQueue (at_second epoch) alice 1000 (JoinQueue (at_second epoch) bob 1200 no_store).1).1
    = [alice; bob].
Proof.
  assert (H1 : redis no_store !! queueKey = None) by (vm_compute; reflexivity).
  assert (H3 : String.ltb alice bob = true) by (vm_compute; reflexivity).
  split; [exact H1|]. split; [reflexivity|]. split; [exact H3|].
  exact (joinQueue_same_second (at_second epoch) (at_second epoch) alice bob 1000 1200
           no_store H1 eq_refl H3 (now (at_second (epoch + 1)))).
Defined.

Lemma isInQueue_agrees_witness :
  Forall (λ call : Env * request, 0 < time.Unix (now call.1)) calls ∧
  IsInQueue (at_second (epoch + 4)) carol (serve_all calls no_store) = Ok true ∧
  IsInQueue (at_second (epoch + 4)) alice (serve_all calls no_store) = Ok false.
Proof.
  assert (H : Forall (λ call : Env * request, 0 < time.Unix (now call.1)) calls)
    by (repeat constructor).
  split; [exact H|].
  destruct (isInQueue_agrees calls (at_second (epoch + 4)) carol H) as (Hc & _).
  destruct (isInQueue_agrees calls (at_second (epoch + 4)) alice H) as (Ha & _).
  split.
  - rewrite Hc. vm_compute. reflexivity.
  - rewrite Ha. vm_compute. reflexivity.
Defined.

Lemma join_then_leave_witness :
  queue_inv queue2 ∧
  (carol ∉ members (now (at_second (epoch + 2))) queue2) ∧
  is_ok (HGetAll (now (at_second (epoch + 2))) (metaKey carol) (redis queue2)) = true ∧
  members (now (at_second (epoch + 9)))
    (LeaveQueue (at_second (epoch + 5)) carol
       (JoinQueue (at_second (epoch + 2)) carol 900 queue2).1).1
    = [alice; bob].
Proof.
  assert (H1 : carol ∉ members (now (at_second (epoch + 2))) queue2) by by_decide.
  assert (H3 : is_ok (HGetAll (now (at_second (epoch + 2))) (metaKey carol) (redis queue2))
               = true) by (vm_compute; reflexivity).
  split; [exact queue_inv_queue2|]. repeat (split; [assumption|]).
  destruct (join_then_leave (at_second (epoch + 2)) (at_second (epoch + 5)) carol 900 queue2
              queue_inv_queue2 H1 H3) as (_ & _ & Hm & _).
  rewrite Hm. vm_compute. reflexivity.
Defined.

Lemma created_roomed :
  CreateRoomForMatch (at_second (epoch + 2)) alice bob queue2 = (roomed, Ok roomID).
Proof.
  unfold roomed.
  rewrite (surjective_pairing (CreateRoomForMatch (at_second (epoch + 2)) alice bob queue2)) at 1.
  f_equal; vm_compute; reflexivity.
Defined.

Lemma createRoom_state_witness :
  CreateRoomForMatch (at_second (epoch + 2)) alice bob queue2 = (roomed, Ok roomID) ∧
  is_ok (HGetAll (now (at_second (epoch + 2))) (roomStateKey roomID) (redis queue2)) = true ∧
  roomState (now (at_second (epoch + 3))) roomed roomID !! "user2" = Some bob ∧
  roomState (now (at_second (epoch + 7202))) roomed roomID = ∅.
Proof.
  assert (H2 : is_ok (HGetAll (now (at_second (epoch + 2))) (roomStateKey roomID)
                        (redis queue2)) = true) by (vm_compute; reflexivity).
  split; [exact created_roomed|]. split; [exact H2|].
  destruct (createRoom_state _ _ _ _ _ _ created_roomed H2) as (Hlive & Hgone & _).
  split.
  - rewrite Hlive by (split; [vm_compute; discriminate|vm_compute; reflexivity]).
    rewrite lookup_insert_ne by discriminate. apply lookup_insert_eq.
  - apply Hgone. vm_compute. discriminate.
Defined.

Lemma generateRoomID_hex_witness :
  randRead (at_second epoch) = Some (replicate 16 x5a) ∧
  generateRoomID (at_second epoch) = Ok roomID ∧
  hex.DecodeString roomID = Ok (replicate 16 x5a) ∧
  primitive.ObjectIDFromHex roomID = Err primitive.ErrInvalidHex.
Proof.
  split; [reflexivity|].
  destruct (generateRoomID_hex (at_second epoch) (replicate 16 x5a) eq_refl)
    as (rid & Hg & _ & Hd & _ & Hbad).
  assert (Hrid : rid = roomID).
  { assert (Hc : generateRoomID (at_second epoch) = Ok roomID) by (vm_compute; reflexivity).
    rewrite Hc in Hg. by injection Hg. }
  subst rid. split; [exact Hg|]. split; [exact Hd|]. apply Hbad. reflexivity.
Defined.

Lemma joinQueue_metadata_witness :
  queue_inv queue2 ∧
  (carol ∉ members (now (at_second (epoch + 2))) queue2) ∧
  is_ok (HGetAll (now (at_second (epoch + 2))) (metaKey carol) (redis queue2)) = true ∧
  metadata (now (at_second (epoch + 1802))) (JoinQueue (at_second (epoch + 2)) carol 900 queue2).1
    carol = ∅ ∧
  (carol ∈ members (now (at_second (epoch + 1802)))
             (JoinQueue (at_second (epoch + 2)) carol 900 queue2).1).
Proof.
  assert (H1 : carol ∉ members (now (at_second (epoch + 2))) queue2) by by_decide.
  assert (H3 : is_ok (HGetAll (now (at_second (epoch + 2))) (metaKey carol) (redis queue2))
               = true) by (vm_compute; reflexivity).
  split; [exact queue_inv_queue2|]. repeat (split; [assumption|]).
  destruct (joinQueue_metadata (at_second (epoch + 2)) carol 900 queue2
              queue_inv_queue2 H1 H3) as (_ & Hgone).
  apply Hgone. vm_compute. discriminate.
Defined.

End queue_witnesses.

Section hub_more_witnesses.
Import websocket hub accept sample sample_hub.
Lemma wf_first_registered : wf first_registered.
Proof.
  assert (H : registerClient 1%nat reconnecting = Some first_registered)
    by (vm_compute; reflexivity).
  eapply wf_register; [|exact H]. by apply wf_empty.
Defined.

Lemma relayed_signalled :
  relayWebRTC (at_second (epoch + 9)) 1%nat offer_sdp connected = Some signalled.
Proof. vm_compute. reflexivity. Defined.

Lemma wf_relay env client c msg h h' :
  fair env → wf h → heap h !! client = Some c →
  relayWebRTC env client msg h = Some h' → wf h'.
Proof.
  intros Hfair Hwf Hc Hr.
  destruct (same_relay env client c msg h Hfair Hwf Hc) as (g & Hg & Hs).
  rewrite Hr in Hg. injection Hg as <-. by eapply same_wf.
Qed.

Lemma wf_signalled : wf signalled.
Proof.
  assert (H1 : heap connected !! 1%nat = Some (welcomed alice)) by (vm_compute; reflexivity).
  exact (wf_relay (at_second (epoch + 9)) 1%nat (welcomed alice) offer_sdp connected signalled
           (fair_at_second _) wf_connected H1 relayed_signalled).
Defined.
Lemma open_connected_2 : open connected 2%nat.
Proof. exists (welcomed bob). split; vm_compute; reflexivity. Defined.

Lemma register_replaces_witness :
  wf first_registered ∧
  heap first_registered !! 3%nat = Some (connection alice) ∧
  closed (Client.send (connection alice)) = false ∧
  ∃ h',
    registerClient 3%nat first_registered = Some h' ∧
    clients h' !! alice = Some 3%nat ∧
    heap h' !! 1%nat = Some (welcomed alice) ∧
    spawned h' = [SetOnline alice; CloseConn 1%nat; SetOnline alice] ∧
    GetOnlineUsers h' = 1%nat.
Proof.
  assert (H1 : heap first_registered !! 3%nat = Some (connection alice))
    by (vm_compute; reflexivity).
  split; [exact wf_first_registered|]. split; [exact H1|]. split; [reflexivity|].
  destruct (register_replaces 3%nat (connection alice) first_registered
              wf_first_registered H1 eq_refl)
    as (h' & Hr & _ & Hcl & _ & Hother & Hsp & Hon).
  exists h'. split; [exact Hr|]. split_and!.
  - rewrite Hcl. apply lookup_insert_eq.
  - rewrite Hother by discriminate. vm_compute. reflexivity.
  - rewrite Hsp. vm_compute. reflexivity.
  - rewrite Hon. vm_compute. reflexivity.
Defined.

Lemma unregister_closes_when_drained_witness :
  fair (at_second (epoch + 9)) ∧ wf connected ∧
  heap connected !! 1%nat = Some (welcomed alice) ∧
  clients connected !! Client.UserID (welcomed alice) = Some 1%nat ∧
  ∃ h' c',
    unregisterClient (at_second (epoch + 9)) 1%nat connected = Some h' ∧
    heap h' !! 1%nat = Some c' ∧
    closed (Client.send c') = false ∧ buf (Client.send c') = [].
Proof.
  assert (H1 : heap connected !! 1%nat = Some (welcomed alice)) by (vm_compute; reflexivity).
  assert (H2 : clients connected !! Client.UserID (welcomed alice) = Some 1%nat)
    by (vm_compute; reflexivity).
  split; [apply fair_at_second|]. split; [exact wf_connected|].
  split; [exact H1|]. split; [exact H2|].
  destruct (unregister_closes_when_drained (at_second (epoch + 9)) 1%nat (welcomed alice)
              connected (fair_at_second _) wf_connected H1 H2)
    as (h' & c' & Hu & Hc' & _ & _ & Hpending & _).
  exists h', c'. split; [exact Hu|]. split; [exact Hc'|].
  exact (Hpending welcome [] eq_refl).
Defined.

Lemma unregister_notifies_room_witness :
  fair (at_second (epoch + 20)) ∧ wf signalled ∧
  heap signalled !! 1%nat = Some (Client.set_RoomID roomID (welcomed alice)) ∧
  clients signalled !! alice = Some 1%nat ∧
  ∃ h' bob',
    unregisterClient (at_second (epoch + 20)) 1%nat signalled = Some h' ∧
    heap h' !! 2%nat = Some bob' ∧
    partnerDisconnected (Client.set_RoomID roomID (welcomed alice)) ∈ buf (Client.send bob').
Proof.
  assert (H1 : heap signalled !! 1%nat = Some (Client.set_RoomID roomID (welcomed alice)))
    by (vm_compute; reflexivity).
  assert (H2 : clients signalled !! alice = Some 1%nat) by (vm_compute; reflexivity).
  split; [apply fair_at_second|]. split; [exact wf_signalled|].
  split; [exact H1|]. split; [exact H2|].
  destruct (unregister_notifies_room (at_second (epoch + 20)) 1%nat
              (Client.set_RoomID roomID (welcomed alice)) signalled
              (fair_at_second _) wf_signalled H1 H2)
    as (h' & Hu & _ & Hroom & _).
  destruct (heap signalled !! 2%nat) as [cb|] eqn:Hb; [|vm_compute in Hb; discriminate].
  destruct (Hroom ltac:(discriminate) "user2" bob 2%nat cb) as (bob' & Hb' & Hin).
  - by right.
  - vm_compute. reflexivity.
  - discriminate.
  - vm_compute. reflexivity.
  - exact Hb.
  - exists h', bob'. split; [exact Hu|]. split; [exact Hb'|]. apply Hin.
    vm_compute in Hb. injection Hb as <-. vm_compute. lia.
Defined.

Lemma worker_delivers_witness :
  fair (at_second (epoch + 9)) ∧ wf connected ∧ broadcast connected = [] ∧
  broadcastWorker (at_second (epoch + 9))
    (BroadcastToUser bob (handlers.matchData roomID) connected)
    = Some (set_heap (deliver (handlers.matchData roomID) (heap connected) 2%nat) connected) ∧
  broadcastWorker (at_second (epoch + 9))
    (BroadcastToUser carol (handlers.matchData roomID) connected) = Some connected.
Proof.
  assert (H3 : broadcast connected = []) by (vm_compute; reflexivity).
  split; [apply fair_at_second|]. split; [exact wf_connected|]. split; [exact H3|].
  split.
  - rewrite (worker_delivers (at_second (epoch + 9)) bob (handlers.matchData roomID) connected
               (fair_at_second _) wf_connected H3).
    rewrite decide_False by discriminate.
    assert (Hb : clients connected !! bob = Some 2%nat) by (vm_compute; reflexivity).
    by rewrite Hb.
  - rewrite (worker_delivers (at_second (epoch + 9)) carol (handlers.matchData roomID) connected
               (fair_at_second _) wf_connected H3).
    rewrite decide_False by discriminate.
    assert (Hb : clients connected !! carol = None) by (vm_compute; reflexivity).
    by rewrite Hb.
Defined.

Lemma frames_never_panic_witness :
  wf connected ∧
  Forall (λ f : Env * nat * option Event.t, fair f.1.1 ∧ open connected f.1.2)
    [(at_second (epoch + 9), 1%nat, Some ping);
     (at_second (epoch + 9), 2%nat, None);
     (at_second (epoch + 9), 1%nat, Some offer_sdp);
     (at_second (epoch + 10), 2%nat, Some accept_match);
     (at_second (epoch + 11), 1%nat, Some hang_up)] ∧
  ∃ h',
    handleFrames
      [(at_second (epoch + 9), 1%nat, Some ping);
       (at_second (epoch + 9), 2%nat, None);
       (at_second (epoch + 9), 1%nat, Some offer_sdp);
       (at_second (epoch + 10), 2%nat, Some accept_match);
       (at_second (epoch + 11), 1%nat, Some hang_up)] connected = Some h' ∧
    wf h' ∧ clients h' = clients connected.
Proof.
  assert (H2 : Forall (λ f : Env * nat * option Event.t, fair f.1.1 ∧ open connected f.1.2)
                 [(at_second (epoch + 9), 1%nat, Some ping);
                  (at_second (epoch + 9), 2%nat, None);
                  (at_second (epoch + 9), 1%nat, Some offer_sdp);
                  (at_second (epoch + 10), 2%nat, Some accept_match);
                  (at_second (epoch + 11), 1%nat, Some hang_up)]).
  { repeat (constructor; [split; [apply fair_at_second|
                                  first [exact open_connected_1|exact open_connected_2]]|]).
    constructor. }
  split; [exact wf_connected|]. split; [exact H2|].
  destruct (frames_never_panic _ connected wf_connected H2) as (h' & Hh & Hwf & Hcl & _).
  exists h'. split; [exact Hh|]. split; [exact Hwf|exact Hcl].
Defined.

Lemma relay_latches_first_room_witness :
  wf connected ∧ heap connected !! 1%nat = Some (welcomed alice) ∧
  Forall (λ em : Env * Event.t, fair em.1)
    [(at_second (epoch + 9), ping); (at_second (epoch + 9), offer_sdp)] ∧
  ∃ h' c',
    foldl (λ acc em, g ← acc; relayWebRTC em.1 1%nat em.2 g) (Some connected)
      [(at_second (epoch + 9), ping); (at_second (epoch + 9), offer_sdp)] = Some h' ∧
    heap h' !! 1%nat = Some c' ∧ Client.RoomID c' = roomID.
Proof.
  assert (H1 : heap connected !! 1%nat = Some (welcomed alice)) by (vm_compute; reflexivity).
  assert (H2 : Forall (λ em : Env * Event.t, fair em.1)
                 [(at_second (epoch + 9), ping); (at_second (epoch + 9), offer_sdp)]).
  { repeat (constructor; [apply fair_at_second|]). constructor. }
  split; [exact wf_connected|]. split; [exact H1|]. split; [exact H2|].
  destruct (relay_latches_first_room 1%nat (welcomed alice) _ connected wf_connected H1 H2)
    as (h' & c' & Hf & _ & Hc' & Hroom).
  exists h', c'. split; [exact Hf|]. split; [exact Hc'|]. rewrite Hroom. reflexivity.
Defined.

Lemma callEnded_uses_latched_room_witness :
  fair (at_second (epoch + 9)) ∧ fair (at_second (epoch + 11)) ∧ wf connected ∧
  heap connected !! 1%nat = Some (welcomed alice) ∧
  Client.RoomID (welcomed alice) = "" ∧ Event.To offer_sdp ≠ "" ∧
  Event.RoomID hang_up = "" ∧
  relayWebRTC (at_second (epoch + 9)) 1%nat offer_sdp connected = Some signalled ∧
  (∃ h2, Client1.handleCallEnded (at_second (epoch + 11)) 1%nat hang_up signalled = Some h2 ∧
         broadcast h2 = broadcast signalled) ∧
  Client2.handleCallEnded (at_second (epoch + 11)) 1%nat hang_up signalled = Some signalled.
Proof.
  assert (H1 : heap connected !! 1%nat = Some (welcomed alice)) by (vm_compute; reflexivity).
  assert (H2 : Event.To offer_sdp ≠ "") by discriminate.
  split; [apply fair_at_second|]. split; [apply fair_at_second|]. split; [exact wf_connected|].
  split; [exact H1|]. split; [reflexivity|]. split; [exact H2|]. split; [reflexivity|].
  split; [exact relayed_signalled|].
  destruct (callEnded_uses_latched_room (at_second (epoch + 9)) (at_second (epoch + 11)) 1%nat
              (welcomed alice) offer_sdp hang_up connected signalled
              (fair_at_second _) (fair_at_second _) wf_connected H1 eq_refl H2 eq_refl
              relayed_signalled) as [(h2 & Hh & _ & Hb & _) Hv2].
  split; [|exact Hv2]. exists h2. split; [exact Hh|exact Hb].
Defined.

Lemma lone_accept_waits_witness :
  fair (at_second (epoch + 5)) ∧
  heap connected !! 1%nat = Some (welcomed alice) ∧
  closed (Client.send (welcomed alice)) = false ∧
  Event.RoomID accept_match ≠ "" ∧
  Redis.SMembers (now (at_second (epoch + 5))) (Client1.acceptKey roomID) (redis connected)
    = Ok ∅ ∧
  ∃ h',
    Client1.handleAcceptMatch (at_second (epoch + 5)) 1%nat accept_match connected = Some h' ∧
    broadcast h' = broadcast connected ∧
    acceptanceSet (now (at_second (epoch + 6))) (Client1.acceptKey roomID) (redis h')
      = {[alice]}.
Proof.
  assert (H1 : heap connected !! 1%nat = Some (welcomed alice)) by (vm_compute; reflexivity).
  assert (H3 : Event.RoomID accept_match ≠ "") by discriminate.
  assert (H4 : Redis.SMembers (now (at_second (epoch + 5))) (Client1.acceptKey roomID)
                 (redis connected) = Ok ∅) by (vm_compute; reflexivity).
  split; [apply fair_at_second|]. split; [exact H1|]. split; [reflexivity|].
  split; [exact H3|]. split; [exact H4|].
  destruct (lone_accept_waits (at_second (epoch + 5)) 1%nat (welcomed alice) accept_match
              connected (fair_at_second _) H1 eq_refl H3) as [Hv1 _].
  destruct (Hv1 ∅ H4 (empty_subseteq _)) as (h' & Hh & _ & Hb & Hset).
  exists h'. split; [exact Hh|]. split; [exact Hb|].
  apply Hset. split; [vm_compute; discriminate|vm_compute; reflexivity].
Defined.

End hub_more_witnesses.

Section matched_rooms_witness.
Import hub sample sample_hub.

Lemma matched_room_resolved_witness :
  services.CreateRoomForMatch (sample.at_second (epoch + 2)) alice bob queue2
    = (roomed, Ok sample.roomID) ∧
  is_ok (Redis.HGetAll (now (sample.at_second (epoch + 2)))
           (services.roomStateKey sample.roomID) (services.redis queue2)) = true ∧
  websocket.redis (on_store (services.redis roomed)) = services.redis roomed ∧
  websocket.rooms (on_store (services.redis roomed)) !! sample.roomID = None ∧
  websocket.fair (at_second (epoch + 9)) ∧
  participantsOf (at_second (epoch + 9)) sample.roomID (on_store (services.redis roomed))
    !! "user1" = Some alice ∧
  participantsOf (at_second (epoch + 7202)) sample.roomID (on_store (services.redis roomed))
    = ∅.
Proof.
  assert (H2 : is_ok (Redis.HGetAll (now (sample.at_second (epoch + 2)))
                        (services.roomStateKey sample.roomID) (services.redis queue2)) = true)
    by (vm_compute; reflexivity).
  assert (H4 : websocket.rooms (on_store (services.redis roomed)) !! sample.roomID = None)
    by (vm_compute; reflexivity).
  split; [exact created_roomed|]. split; [exact H2|]. split; [reflexivity|].
  split; [exact H4|]. split; [apply fair_at_second|].
  split.
  - destruct (matched_room_resolved (sample.at_second (epoch + 2)) (at_second (epoch + 9))
                alice bob queue2 roomed sample.roomID (on_store (services.redis roomed))
                created_roomed H2 eq_refl H4 (fair_at_second _)) as [Hlive _].
    destruct Hlive as (Hu1 & _); [|exact Hu1].
    split; [vm_compute; discriminate|vm_compute; reflexivity].
  - destruct (matched_room_resolved (sample.at_second (epoch + 2)) (at_second (epoch + 7202))
                alice bob queue2 roomed sample.roomID (on_store (services.redis roomed))
                created_roomed H2 eq_refl H4 (fair_at_second _)) as [_ Hgone].
    destruct Hgone as (He & _); [|exact He]. vm_compute. discriminate.
Defined.

End matched_rooms_witness.

Section room_witnesses.
Import Redis repositories services sample.

Lemma fresh_queue2 : FindByRoomID roomID (roomRepo queue2) = Err ErrNoDocuments.
Proof. vm_compute. reflexivity. Defined.

Lemma matched_room_is_full_witness :
  CreateRoomForMatch (at_second (epoch + 2)) alice bob queue2 = (roomed, Ok roomID) ∧
  FindByRoomID roomID (roomRepo queue2) = Err ErrNoDocuments ∧
  JoinRoom (at_second (epoch + 30)) roomID carol roomed = (roomed, Some ErrRoomFull) ∧
  IsParticipant roomID alice roomed = Ok true ∧
  IsParticipant roomID bob roomed = Ok true.
Proof.
  split; [exact created_roomed|]. split; [exact fresh_queue2|].
  exact (matched_room_is_full (at_second (epoch + 2)) (at_second (epoch + 30)) alice bob carol
           queue2 roomed roomID created_roomed fresh_queue2).
Defined.

Lemma leaveRoom_ends_small_room_witness :
  ∃ room oid,
    FindByRoomID roomID (roomRepo bob_alone) = Ok room ∧
    primitive.ObjectIDFromHex carol = Ok oid ∧
    length (models.Participants room) = 1%nat ∧
    (LeaveRoom (at_second (epoch + 90)) roomID carol bob_alone).2 = None ∧
    ∃ room',
      FindByRoomID roomID (roomRepo (LeaveRoom (at_second (epoch + 90)) roomID carol bob_alone).1)
        = Ok room' ∧
      models.Participants room' = models.Participants room ∧
      models.Status room' = "ended".
Proof.
  destruct (FindByRoomID roomID (roomRepo bob_alone)) as [room|e] eqn:Hroom;
    [|vm_compute in Hroom; discriminate].
  destruct (primitive.ObjectIDFromHex carol) as [oid|e] eqn:Hoid;
    [|vm_compute in Hoid; discriminate].
  assert (Hlen : length (models.Participants room) = 1%nat).
  { vm_compute in Hroom. injection Hroom as <-. reflexivity. }
  assert (Hout : filter (λ p, p ≠ oid) (models.Participants room) = models.Participants room).
  { vm_compute in Hroom. injection Hroom as <-.
    vm_compute in Hoid. injection Hoid as <-. vm_compute. reflexivity. }
  exists room, oid. split; [reflexivity|]. split; [reflexivity|]. split; [exact Hlen|].
  destruct (leaveRoom_ends_small_room (at_second (epoch + 90)) roomID carol bob_alone room oid
              Hroom Hoid) as (Herr & room' & Hfound & Hp & Hsmall & _).
  split; [exact Herr|]. exists room'. split; [exact Hfound|].
  split; [rewrite Hp; exact Hout|].
  apply Hsmall. rewrite Hlen. constructor.
Defined.

Lemma matched_room_response_witness :
  CreateRoomForMatch (at_second (epoch + 2)) alice bob queue2 = (roomed, Ok roomID) ∧
  FindByRoomID roomID (roomRepo queue2) = Err ErrNoDocuments ∧
  ∃ room,
    GetRoom roomID roomed = Ok room ∧
    models.RoomResponse.RoomID (models.ToResponse room) = roomID ∧
    models.RoomResponse.Status (models.ToResponse room) = "waiting" ∧
    models.RoomResponse.Participants (models.ToResponse room) = [alice; bob].
Proof.
  split; [exact created_roomed|]. split; [exact fresh_queue2|].
  destruct (matched_room_response (at_second (epoch + 2)) alice bob queue2 roomed roomID
              created_roomed fresh_queue2) as (room & Hget & Hid & Hst & _ & _ & _ & Hshown).
  exists room. split; [exact Hget|]. split; [exact Hid|]. split; [exact Hst|].
  apply Hshown; vm_compute; reflexivity.
Defined.

End room_witnesses.

Section handler_witnesses.
Import handlers sample sample_hub.

Lemma queue_inv_waiting : queue_inv (service waiting).
Proof.
  unfold queue_inv.
  change (services.redis (service waiting)) with (services.redis queue1).
  change queue1 with (serve_all [(sample.at_second epoch, ReqJoin alice 1000)] no_store).
  apply queue_inv_reached. repeat constructor.
Defined.

Lemma second_joiner_is_matched_by_poll_witness :
  queue_inv (service waiting) ∧
  members (now (sample.at_second (epoch + 1))) (service waiting) = [alice] ∧
  joinedAt (now (sample.at_second (epoch + 1))) (service waiting) alice = Some epoch ∧
  epoch < time.Unix (now (sample.at_second (epoch + 1))) ∧
  randRead (sample.at_second (epoch + 2)) = Some (replicate 16 x5a) ∧
  insertOne (sample.at_second (epoch + 2)) = true ∧
  ∃ oidA oidB,
    primitive.ObjectIDFromHex alice = Ok oidA ∧ primitive.ObjectIDFromHex bob = Ok oidB ∧
    let joined := JoinQueue (sample.at_second (epoch + 1)) (λ _, "") (Some bob) (Some 1200) waiting in
    status joined.1.2 = 200 ∧
    tryMatch (sample.at_second (epoch + 1)) bob joined.1.1 = joined.1.1 ∧
    ∃ app' room,
      GetQueueStatus (sample.at_second (epoch + 2)) (Some alice) joined.1.1
        = (app', SuccessResponse [("matchFound", JTrue); ("roomId", JText sample.roomID)]) ∧
      rooms app' = [room] ∧ models.Participants room = [oidA; oidB] ∧
      hub.toUser bob (matchData sample.roomID) ∈ websocket.broadcast (hub app').
Proof.
  assert (H2 : members (now (sample.at_second (epoch + 1))) (service waiting) = [alice])
    by (vm_compute; reflexivity).
  assert (H3 : joinedAt (now (sample.at_second (epoch + 1))) (service waiting) alice = Some epoch)
    by (vm_compute; reflexivity).
  assert (H4 : epoch < time.Unix (now (sample.at_second (epoch + 1)))) by (vm_compute; reflexivity).
  assert (H5 : is_ok (Redis.HGetAll (now (sample.at_second (epoch + 1))) (services.metaKey bob)
                        (services.redis (service waiting))) = true) by (vm_compute; reflexivity).
  split; [exact queue_inv_waiting|]. split; [exact H2|]. split; [exact H3|].
  split; [exact H4|]. split; [reflexivity|]. split; [reflexivity|].
  destruct (primitive.ObjectIDFromHex alice) as [oidA|e] eqn:HoA;
    [|vm_compute in HoA; discriminate].
  destruct (primitive.ObjectIDFromHex bob) as [oidB|e] eqn:HoB;
    [|vm_compute in HoB; discriminate].
  exists oidA, oidB. split; [reflexivity|]. split; [reflexivity|].
  destruct (second_joiner_is_matched_by_poll
              (sample.at_second (epoch + 1)) (sample.at_second (epoch + 1)) (sample.at_second (epoch + 2))
              (λ _, "") (Some 1200) alice bob waiting (replicate 16 x5a) oidA oidB epoch
              queue_inv_waiting H2 H3 H4 H5 ltac:(discriminate) ltac:(discriminate)
              ltac:(discriminate) HoA HoB eq_refl eq_refl)
    as (Hst & _ & _ & Htry & app' & room & Hpoll & Hrooms & _ & Hp & _ & _ & Hsent).
  split; [exact Hst|]. split; [exact Htry|].
  exists app', room. split; [exact Hpoll|]. split; [exact Hrooms|]. split; [exact Hp|].
  apply Hsent. vm_compute. lia.
Defined.

End handler_witnesses.
